(* ===== verification/_CoqProject ===== *)
-Q . S2P
Prelude.v
Json.v
Proto.v
Effects.v
Mock.v
Checker.v
MyOrders.v
Trades.v
TradeSafety.v
TradeManager.v
IntervalJob.v
Threads.v
Protocol.v
ThreadSafety.v
Honest.v
Authenticator.v
OrderBook.v
JsonCodec.v
MucClient.v
MucSession.v
Daemon.v
Activity.v
Market.v
Nonfungible.v
Server.v
Gsp.v
GspServer.v
RpcClient.v
TestUtils.v
MockXaya.v
MockTheorems.v
