(* ===== verification/Prelude.v ===== *)
(** * Democrit: a verification library for the atomic-trade daemon

    ** The program

    Democrit lets the players of a blockchain game trade assets for coins by
    transactions that do both at once.  Every trader runs a daemon.  It keeps
    the user's own orders ([src/myorders.cpp]), announces them in an XMPP room
    and collects the orders of the others ([src/orderbook.cpp], by way of
    [src/mucclient.cpp] and [src/authenticator.cpp]).  When an order is taken,
    the two daemons negotiate one transaction by private messages
    ([src/trades.cpp]): the seller sends an address and the output of its
    name, the buyer has a transaction built that pays the address and moves
    the name with the transfer of the asset, both sign, and the maker of the
    order broadcasts.  Before a party signs, [src/checker.cpp] examines what
    it signs.  A periodic job follows the transaction with the help of the
    g/dem game state processor ([src/gsp/]), which records the transactions of
    trades.  Jobs run in threads of their own ([src/intervaljob.cpp]); a
    JSON-RPC interface ([src/rpcserver.cpp], [src/json.cpp]) serves the user;
    [src/nonfungible/main.cpp] is the daemon for one game.  (Paths are below
    [src/]; most are [src/src/...] in the repository.)

    ** The files

    - [Prelude]: machine integers, hint databases, lemmas on strings, lists
      and options that the components share.
    - [Json], [Proto]: the JSON library as an interface with a concrete
      model, the protocol-buffer messages of [src/proto/*.proto] as records.
    - [Effects]: the services (wallet, GSP, game, clocks) as interfaces, the
      state monad [M Node S] with exceptions, aborts ([CHECK] and
      [LOG (FATAL)]) and a trace of the calls, its weakest preconditions [wp]
      and the tactic [wp_step]; the global state of
      [src/private/state.hpp].  [Mock]: a concrete environment.
    - [Checker]: [TradeChecker] of [src/checker.cpp].
    - [MyOrders]: the user's own orders, [src/myorders.cpp].
    - [Trades]: one trade, the class [Trade] of [src/trades.cpp].
      [TradeSafety]: its theorems.  [TradeManager]: the class of the same
      name.  [Protocol]: two processes on one trade over a lossy network.
      [Honest]: the same two with wallets and a game that answer as documented.
    - [Threads]: the methods of [MyOrders] and [TradeManager] as sequences of
      critical sections, and a process that interleaves any number of them.
      [ThreadSafety]: what holds in every interleaving.
    - [IntervalJob]: the worker threads, [src/intervaljob.cpp].
    - [Authenticator], [OrderBook], [MucClient]: the classes of those names;
      [MucClient] includes the stanzas of [src/private/stanzas.hpp] and
      [src/stanzas.tpp].  [MucSession]: the threads of an XMPP session.
    - [JsonCodec]: [src/json.cpp].  [Daemon]: [src/daemon.cpp] and the
      methods of [src/rpcserver.cpp].  [RpcClient]: [src/private/rpcclient.*].
    - [Activity]: what each operation of a daemon does to the trades it is not
      about.  [Market]: two whole daemons, from the announcement of an order to
      the negotiation of its trade, as a simulation of [Protocol].
    - [Nonfungible]: the asset specification of [src/nonfungible/main.cpp],
      an instance of the interface that [Checker] and [Trades] call.
      [Server]: the main function of that program, and [RpcServer::Run] and
      [stop] of [src/rpcserver.cpp].
    - [Gsp]: the game logic, pending moves and [checktrade] of [src/gsp/].
      [GspServer]: its other RPC methods and its main function.
    - [TestUtils]: the game and the XMPP accounts of the unit tests
      ([src/testutils.*]).  [MockXaya]: the wallet and the GSP they run against
      ([src/mockxaya.*]), as an environment in which the daemon's code can be
      run.  [MockTheorems]: what these servers promise.

    Each file has the definitions of its component first, named as in the
    code, then the theorems, then a module [...Witness] that applies them on
    concrete inputs.

    ** How code is modelled

    A method is a function from the world to an outcome and a world.  The
    world holds the state the method can reach, an opaque state of everything
    outside the process, and the trace of calls with replies.  The outcome is
    a value, an exception (with its JSON-RPC error code) or an abort.  A
    service can answer anything, fail or make the call throw at any moment,
    unless a hypothesis says otherwise.  Methods are written over any state
    with the lenses they need ([HasState], [HasMuc], ...), so that
    [Daemon.Process] runs all of them on the state of one process.  Calls
    of virtual methods ([OrderHooks], [MucHooks], [AssetSpec]) are class
    methods, with the daemon's overrides as instances.  Iteration over a
    protocol-buffer map, whose order is unspecified, goes through
    [ProtoRuntime.iter], of which only the set of entries is known.

    Integers keep their width: [u64], [s64], [u32], [s32] wrap at each
    conversion the code makes, so that [uint64_t] units that become negative
    as [Amount] are visible.  The one signed product that can overflow, the
    total of a trade, is undefined in C++ if it does; what the compiled program
    then takes for it is a parameter, [Effects.overflowing_total], with
    [WrappingAmounts] as the build in which it wraps.  Recursion follows the data (the hex digits of a
    name, the queue of updates, the outputs of a transaction) or a bound that
    is in the code (at most [MAX_BLOCK_ANCESTORS_CHECKED] = 3 blocks are
    walked back, and the tests' wallet looks through 1000 heights); no
    definition has artificial fuel.

    The files of the components describe a method as it runs alone.  Where the
    code releases a lock in between, the other threads are a parameter
    ([MucClient.Connect], [Gsp.CheckTrade]) or the method is split into its
    critical sections ([IntervalJob], [Threads], [Server], [MucSession]).  A
    thread that waits for a condition variable in [Server] and [MucSession]
    tests its flag, gives the mutex up as it falls asleep, sleeps until it is
    notified, and takes the mutex again, each in a step of its own; a
    notification when nobody sleeps is lost, and spurious wake-ups are possible
    but never relied on.  [Threads.thread_is_method], [MucSession.Connect_is_schedule] and
    [Disconnect_is_schedule] show that the sections in sequence are the
    method.  The part of a method that runs under the lock of the state is a
    definition of its own, [..._locked].

    ** The theorems

    - What the wallet is made to do: [TradeSafety.wallet_signs_only_checked]
      (a PSBT is signed only after the checks passed on that very PSBT),
      [seller_releases_only_own_input], [broadcasts_only_finalised],
      [reply_contents]; and what the checks mean:
      [Checker.CheckForSellerOutputs_correct], [CheckForSellerSignature_correct],
      [CheckForBuyerTrade_correct], [CheckForBuyerSignature_correct],
      [GetTotalSat_exact] (the total is exact where it is defined; that an
      overflow is caught depends on the build).  A buyer's signature is for a
      [Trades.purchase], joined from a payment of exactly the agreed total and
      the update of the seller's name.
    - The whole process, in every interleaving of its threads:
      [ThreadSafety.every_signature_agreed] (every signature in the log of the
      process is for a trade the user asked for or offered, for units within
      the offer at its price, after the checks), [orders_traded_once] (no own order is part of two
      trades, and the order of an active trade is locked).
    - The trade as a state machine: [TradeSafety.trade_lifecycle] (verdicts
      are final, progress is one way), [trade_invariant],
      [Update_verdict_justified], [Update_confirms].
    - Two parties: [Protocol.negotiation_agrees] (what a party holds of the
      other is what the other had, and a pending trade is about one
      transaction), [negotiation_terminates] (at most seven messages, whatever
      the services answer), [Honest.honest_negotiation_completes] (with honest
      services on both sides none of the checks stands in the way: three
      messages later the trade is broadcast, paying an address of the seller's
      own wallet).
    - Two daemons: [Market.announced_order_can_be_taken] (an announced order
      shows up in the other daemon's view, and taking it as listed gives the
      maker a trade on the same terms and locks the order) and
      [daemons_follow_protocol] (what the two processes then do with their
      copies of the trade, in between everything else they do, is a run of
      [Protocol]), so that the theorems of [Protocol] hold of daemons.
    - Own orders: [MyOrders.operations_implement_spec] refines the class to
      four operations on a map, each of which announces the new state once
      while the connection is up; [TradeManager.taken_order_is_locked],
      [failure_releases_order], [ProcessMessage_routes], [TakeOrder_correct].
    - Orders of others: [OrderBook.book_operations_exact] (the queue of events
      times out exactly the stale accounts), [GetForAsset_correct] (views are
      complete and sorted).
    - The room: [Authenticator.DecodeName_exact] (decoding accepts exactly the
      encodings), [MucClient.room_message_sender],
      [Daemon.broadcast_updates_sender], [private_reply_to_sender],
      [room_gets_valid_orders]: everything received is attributed to the
      authenticated account, only valid own orders are announced, and while
      the connection is up the room has the present ones.
      [MucSession.session_safe] and [session_settles]: connecting, the handlers
      and the disconnecting thread neither crash nor block each other nor miss
      a notification, in calm schedules: the connection is not lost from
      outside ([lost_connection_crashes]) and some narrow races do not happen.
    - The interfaces to the user, the game and the chain:
      [JsonCodec.order_json_roundtrip], [Daemon.getordersforasset_total],
      [Nonfungible.NfAssetSpec_correct], [transfer_move_injective],
      [Gsp.DemGame.UpdateState_exact], [CheckTrade_linearizable] (of the two
      unsynchronised reads), [daemon_understands_gsp],
      [GspServer.state_json_lists_trades].
    - The unit tests' servers can stand in for the real ones:
      [MockTheorems.mock_constructs_trade] (the buyer's code builds against
      them a transaction that the seller's code accepts), [mock_gsp_like_gsp]
      (the daemon sees no difference between the two GSPs), and
      [mock_buyer_verdict], [combine_then_finalize], [lock_unlock_roundtrip].
    - Threads and failures: [IntervalJob.job_shutdown] (a job always can be
      and is joined), [Server.stop_ends_run] (a request to stop is not lost,
      wherever it finds the waiting main thread),
      [Server.concurrent_stops_deadlock] (two of them can hang the server),
      and the ways in which a process can be made to abort,
      [IntervalJob.periodic_update_dies], [Daemon.order_without_type_aborts],
      [TradeManager.zero_units_accepted_then_abort],
      [failure_of_cancelled_order_aborts].

    ** Hypotheses

    jsoncpp ([JsonLaws]), protobuf iteration ([ProtoRuntimeLaws]), uint256
    ([Uint256Laws]), moved messages ([MoveLaws]) and libxayagame's state
    envelope ([GameLaws]) are used by their documented behaviour; [Mock] and
    the witness modules satisfy the laws.  The interleaving theorems count
    steps and hold for fewer than 2^64, before which order IDs do not repeat.
    [Checker.ChainView] says that the wallet's block headers describe one
    chain; [Honest.WalletLaws] states Xaya Core's calls by what they do to the
    inputs, outputs and signatures of a PSBT, and [Honest.FairGame] that the
    game allows the trade (used by [honest_negotiation_completes] only);
    [Nonfungible.NfGspLaws] that the game's GSP reports balances,
    [Daemon.StableGame] that the answers of the game do not change.  In
    [FairGame] the game may be up to three blocks ahead of the wallets.  The
    theorems on the tests' servers use gmock's documented matching of calls
    ([MockXaya.GMockLaws]), that decimal literals and JSON equality behave
    ([MockTheorems.TestJsonLaws]), and that the hashes of the numbered blocks
    differ.  [Market] uses that a protobuf message is read back as it was
    written ([Market.TagCodecLaws]), that no earlier trade about the same order
    is still active on either side, that the orders of an announcement are
    complete ([announces_complete]), and that the connections answer stably
    ([Daemon.StableXmpp]).  The library's [StopListening] is a parameter of
    [Server].  [MucSession] takes from Charon that handlers run one at a time
    while the client is connected, and that disconnecting waits for them.

    ** Not modelled

    Logging and the registration of callbacks: glue without decisions about
    trades.  The generated RPC stubs, gloox, Charon, protobuf, SQLite, jsoncpp
    and libxayagame are not in the repository; they are interfaces.  Of
    [src/testutils.*], sleeping, the parsing of protobuf texts and the matchers
    of the assertions; the tests themselves.  Memory that two threads touch
    without a lock is out of reach of this model:
    [OrderBook::InternalGetByAsset] reads the map without its mutex, and is
    modelled as an atomic read; so are the reads of [disconnecter] in
    [MucSession].

    ** Open ends

    The interleavings of [Threads] cover the state proto and those of
    [MucSession] the connection, while the order book, the authenticator and
    the map of nicknames, which have locks of their own, run as atomic steps.
    In [Market] the operations of one daemon run one after the other, calls
    that throw or abort end the run, and a negotiation is followed until one of
    the daemons archives the trade.
*)

From Stdlib Require Import ZArith Lia String Ascii OrdersEx.
From stdpp Require Import base gmap strings list sorting fin_maps pretty.

Declare Scope dem_scope.
Delimit Scope dem_scope with dem.
#[global] Open Scope string_scope.
#[global] Open Scope list_scope.
#[global] Open Scope Z_scope.

(** Rewriting database: unfolding equations of the effect monad and of the
    record setters.  Resolution database: bounds of machine integers and the
    library facts that close routine side conditions. *)
Create HintDb dem discriminated.
Create Rewrite HintDb dem_rw.

(* ------------------------------------------------------------------ *)
(** ** Machine integers

    A [w]-bit C++ integer is a [Z]; conversions wrap as two's complement.
    [u64] is the conversion to [uint64_t], [s64] to [int64_t] (the source's
    [Amount]), [s32] to [int]. *)

Definition two64 : Z := 18446744073709551616.
Definition two63 : Z := 9223372036854775808.
Definition two32 : Z := 4294967296.
Definition two31 : Z := 2147483648.

Definition u64 (z : Z) : Z := z mod two64.
Definition s64 (z : Z) : Z := (z + two63) mod two64 - two63.
Definition u32 (z : Z) : Z := z mod two32.
Definition s32 (z : Z) : Z := (z + two31) mod two32 - two31.

Definition is_u64 (z : Z) : Prop := 0 <= z < two64.
Definition is_s64 (z : Z) : Prop := - two63 <= z < two63.
#[export] Instance is_s64_dec z : Decision (is_s64 z) := ltac:(unfold is_s64; apply _).
Definition is_u32 (z : Z) : Prop := 0 <= z < two32.
Definition is_s32 (z : Z) : Prop := - two31 <= z < two31.

(** C++ [operator/] on signed integers truncates towards zero. *)
Definition cdiv (a b : Z) : Z := Z.quot a b.

(* ------------------------------------------------------------------ *)
(** ** Ways an operation can end

    [Ret] is a normal return.  [Throw] is a C++ exception:
    [JsonRpcException] is the one the code catches, [JsonLogicError] stands
    for jsoncpp's [Json::LogicError] (a value of the wrong type was read),
    [OutOfRange] for [std::out_of_range] (a missing key of [std::map::at]).
    [Fatal] is a failed [CHECK] or [LOG (FATAL)], which aborts the process. *)

Inductive exn : Type :=
| JsonRpcException (msg : string)
| JsonLogicError
| OutOfRange.

Inductive outcome (A : Type) : Type :=
| Ret (a : A)
| Throw (e : exn)
| Fatal.
Arguments Ret {A} a.
Arguments Throw {A} e.
Arguments Fatal {A}.

(** Sequencing of pure code that may fail. *)
#[export] Instance outcome_ret : MRet outcome := fun A a => Ret a.
#[export] Instance outcome_bind : MBind outcome := fun A B f m =>
  match m with Ret a => f a | Throw e => Throw e | Fatal => Fatal end.

(** [CHECK (b)], and a jsoncpp access that throws. *)
Definition checked (b : bool) : outcome unit := if b then Ret tt else Fatal.
Definition json_value {A} (o : option A) : outcome A :=
  match o with Some a => Ret a | None => Throw JsonLogicError end.

(** ** Options as truth values of the code's [has_...] accessors *)
Definition has {A} (o : option A) : bool :=
  match o with Some _ => true | None => false end.

(** Byte-wise (unsigned) lexicographic order of [std::string], which is how
    [operator<] compares and how [std::map] orders its keys. *)
Definition str_ltb (a b : string) : bool :=
  match String_as_OT.compare a b with Lt => true | _ => false end.

(* ------------------------------------------------------------------ *)
(** ** Tactics *)

(** Split every conjunction, existential and record-like hypothesis. *)
Ltac dem_destr :=
  repeat match goal with
  | H : _ /\ _ |- _ => destruct H
  | H : exists _, _ |- _ => destruct H
  end; simplify_eq.

(** Two results of the same call are the same result. *)
Ltac same_result :=
  repeat match goal with
  | H : ?x = _, H' : ?x = _ |- _ => rewrite H in H'; simplify_eq
  end; simplify_eq.

(** Arithmetic about the integer widths. *)
Ltac width :=
  unfold u64, s64, u32, s32, is_u64, is_s64, is_u32, is_s32,
    two64, two63, two32, two31 in *;
  Z.div_mod_to_equations; lia.

(* ------------------------------------------------------------------ *)
(** ** Shared lemmas: integers *)

Lemma u64_range z : is_u64 (u64 z).
Proof. width. Qed.

Lemma s64_range z : is_s64 (s64 z).
Proof. width. Qed.

Lemma u64_id z : is_u64 z -> u64 z = z.
Proof. intros; width. Qed.

Lemma s64_id z : is_s64 z -> s64 z = z.
Proof. intros; width. Qed.

Lemma s64_u64 z : s64 (u64 z) = s64 z.
Proof. width. Qed.

Lemma u64_s64 z : u64 (s64 z) = u64 z.
Proof. width. Qed.

(** Unsigned subtraction of a signed amount that is not larger. *)
Lemma s64_sub a b : 0 <= b <= s64 a -> s64 (u64 (a - u64 b)) = s64 a - b.
Proof. intros; width. Qed.

Lemma s64_small z : 0 <= z < two63 -> s64 z = z.
Proof. intros; width. Qed.

Lemma s32_small z : 0 <= z < two31 -> s32 z = z.
Proof. intros; width. Qed.

(** A wrapped value differs from the exact one by a multiple of 2^64. *)
Lemma s64_wraps z : exists k, s64 z = z + k * two64.
Proof.
  exists (- ((z + two63) / two64)). unfold s64.
  pose proof (Z.div_mod (z + two63) two64 ltac:(unfold two64; lia)). nia.
Qed.

#[export] Hint Resolve u64_range s64_range u64_id s64_id s64_small : dem.

(** ** Shared lemmas: lists and strings *)

Lemma str_ltb_lt a b : str_ltb a b = true <-> String_as_OT.lt a b.
Proof.
  unfold str_ltb, String_as_OT.lt.
  destruct (String_as_OT.compare a b); split; congruence.
Qed.

Lemma str_ltb_irrefl a : str_ltb a a = false.
Proof.
  destruct (str_ltb a a) eqn:E; [|done]. apply str_ltb_lt in E.
  exfalso. exact (StrictOrder_Irreflexive a E).
Qed.

Lemma str_ltb_trans a b c :
  str_ltb a b = true -> str_ltb b c = true -> str_ltb a c = true.
Proof. rewrite !str_ltb_lt. apply StrictOrder_Transitive. Qed.

Lemma str_ltb_total a b : a = b \/ str_ltb a b = true \/ str_ltb b a = true.
Proof. rewrite !str_ltb_lt. destruct (String_as_OT.compare_spec a b); auto. Qed.

Lemma substring_all (s : string) : substring 0 (String.length s) s = s.
Proof. by induction s as [|c s IH]; cbn; [|rewrite IH]. Qed.

Lemma has_Some {A} (o : option A) : has o = true <-> exists a, o = Some a.
Proof.
  destruct o as [a|]; cbn; split; try done.
  - intros _. by exists a.
  - by intros [? ?].
Qed.

Lemma has_None {A} (o : option A) : has o = false <-> o = None.
Proof. by destruct o. Qed.

(** The elements on which a boolean is false and those on which it is true
    make up the list. *)
Lemma filter_count_split {A} (f : A -> bool) (l : list A) :
  (length (filter (fun x => f x = false) l) + length (filter (fun x => f x = true) l)
   = length l)%nat.
Proof.
  induction l as [|x l IH]; [done|]. rewrite !filter_cons.
  destruct (decide (f x = false)), (decide (f x = true)); cbn; try lia; [congruence|].
  by destruct (f x).
Qed.

Lemma filter_none_of {A} (P : A -> Prop) `{!forall x, Decision (P x)} (l : list A) :
  (forall x, x ∈ l -> ~ P x) -> filter P l = [].
Proof.
  induction l as [|x l IH]; intros Hn; [done|].
  rewrite filter_cons_False by (apply Hn; left). apply IH. intros y Hy. apply Hn. by right.
Qed.

Lemma filter_seq_singleton (f : nat -> bool) (n i : nat) :
  (i < n)%nat -> f i = true ->
  (forall j, (j < n)%nat -> j <> i -> f j <> true) ->
  filter (fun j => f j = true) (seq 0 n) = [i].
Proof.
  intros Hi Hf Hn. replace n with (i + (1 + (n - i - 1)))%nat by lia.
  rewrite !seq_app, !filter_app. cbn [seq]. rewrite filter_cons_True, filter_nil by done.
  by rewrite !filter_none_of by (intros j Hj%elem_of_seq; apply Hn; lia).
Qed.

(** A boolean on the positions below [n] fails at all of them but one. *)
Lemma seq_all_but_one (f : nat -> bool) (n : nat) :
  (length (filter (fun i => f i = false) (seq 0 n)) + 1 = n)%nat <->
  exists idx, (idx < n)%nat /\ f idx = true /\
    forall i, (i < n)%nat -> i <> idx -> f i <> true.
Proof.
  pose proof (filter_count_split f (seq 0 n)) as Hsplit. rewrite length_seq in Hsplit.
  transitivity (exists idx, filter (fun i => f i = true) (seq 0 n) = [idx]).
  - split.
    + intros Hn. destruct (filter (fun i => f i = true) (seq 0 n)) as [|i [|]];
        cbn in Hsplit; try lia. by exists i.
    + intros [idx Hf]. rewrite Hf in Hsplit. cbn in Hsplit. lia.
  - split.
    + intros [idx Hf]. exists idx.
      assert (Hin : forall i, f i = true /\ i ∈ seq 0 n <-> i = idx).
      { intros i. rewrite <-(list_elem_of_singleton i idx), <-Hf. by rewrite list_elem_of_filter. }
      destruct (proj2 (Hin idx) eq_refl) as [? ?%elem_of_seq].
      split; [lia|]. split; [done|]. intros i Hi Hne Ht. apply Hne, Hin.
      split; [done|]. apply elem_of_seq. lia.
    + intros (idx & Hi & Ht & Hall). exists idx. by apply filter_seq_singleton.
Qed.
