(* ===== verification/Json.v ===== *)
(** * The JSON library

    The code handles JSON through jsoncpp, which is not part of the
    repository: the operations it uses are the parameters of the class
    [JsonLib], their documented behaviour is the class [JsonLaws], and every
    component that reads or writes JSON is written against the two.  The
    module [JsonModel] gives a concrete instance (a tree of values with
    objects as key-ordered association lists) that satisfies the laws and on
    which the development's witnesses compute. *)

From Stdlib Require Import ZArith Lia String Ascii.
From stdpp Require Import base gmap strings list pretty.
From S2P Require Import Prelude.

(** The part of jsoncpp the code calls.  An operation that throws
    [Json::LogicError] on a value of the wrong type returns [None]:
    [jget v k] is [v[k]] on a const value (null for a missing member),
    [jelems] iterates over an array, [jwrite] is [Json::writeString] with the
    writer settings the code builds. *)
Class JsonLib := {
  Json : Type;
  jnull : Json;
  jbool : bool -> Json;
  jint : Z -> Json;
  jstr : string -> Json;
  jobject : Json;
  jarray : Json;
  is_null : Json -> bool;
  is_bool : Json -> bool;
  is_object : Json -> bool;
  is_array : Json -> bool;
  is_string : Json -> bool;
  is_int : Json -> bool;
  is_uint : Json -> bool;
  is_int64 : Json -> bool;
  is_uint64 : Json -> bool;
  as_bool : Json -> option bool;
  as_string : Json -> option string;
  as_uint : Json -> option Z;
  as_int64 : Json -> option Z;
  as_uint64 : Json -> option Z;
  is_member : Json -> string -> bool;
  jget : Json -> string -> option Json;
  jset : Json -> string -> Json -> Json;
  jremove : Json -> string -> Json;
  jelems : Json -> list Json;
  jappend : Json -> Json -> Json;
  jeqb : Json -> Json -> bool;
  jwrite : Json -> string
}.

(** [v[i]] on an array. *)
Definition jnth `{JsonLib} (v : Json) (i : nat) : Json :=
  nth i (jelems v) jnull.

(** Documented behaviour of the operations above. *)
Class JsonLaws `{JsonLib} : Prop := {
  is_object_jobject : is_object jobject = true;
  is_object_jset v k x : is_object v = true -> is_object (jset v k x) = true;
  is_object_jremove v k : is_object v = true -> is_object (jremove v k) = true;
  jget_object v k : is_object v = true -> is_Some (jget v k);
  jget_jobject k : jget jobject k = Some jnull;
  jget_jset_eq v k x : is_object v = true -> jget (jset v k x) k = Some x;
  jget_jset_ne v k k' x :
    is_object v = true -> k <> k' -> jget (jset v k x) k' = jget v k';
  jget_jremove_eq v k : is_object v = true -> jget (jremove v k) k = Some jnull;
  jget_jremove_ne v k k' :
    is_object v = true -> k <> k' -> jget (jremove v k) k' = jget v k';
  is_member_jobject k : is_member jobject k = false;
  is_member_jset_eq v k x : is_object v = true -> is_member (jset v k x) k = true;
  is_member_jset_ne v k k' x :
    is_object v = true -> k <> k' -> is_member (jset v k x) k' = is_member v k';
  is_member_jremove_eq v k : is_object v = true -> is_member (jremove v k) k = false;
  is_member_jremove_ne v k k' :
    is_object v = true -> k <> k' -> is_member (jremove v k) k' = is_member v k';
  is_null_jnull : is_null jnull = true;
  is_null_object v : is_object v = true -> is_null v = false;
  is_object_jnull : is_object jnull = false;
  is_uint_jnull : is_uint jnull = false;
  is_int_jnull : is_int jnull = false;
  is_null_jint z : is_null (jint z) = false;
  is_string_jnull : is_string jnull = false;
  is_uint64_jnull : is_uint64 jnull = false;
  is_string_jstr s : is_string (jstr s) = true;
  as_string_jstr s : as_string (jstr s) = Some s;
  is_string_spec v : is_string v = true -> is_Some (as_string v);
  is_bool_jbool b : is_bool (jbool b) = true;
  as_bool_jbool b : as_bool (jbool b) = Some b;
  is_bool_spec v : is_bool v = true -> is_Some (as_bool v);
  is_uint_spec v :
    is_uint v = true -> exists n, as_uint v = Some n /\ 0 <= n < two32;
  is_int64_spec v : is_int64 v = true -> is_Some (as_int64 v);
  is_uint64_spec v :
    is_uint64 v = true -> exists n, as_uint64 v = Some n /\ 0 <= n < two64;
  as_int64_jint z : is_s64 z -> as_int64 (jint z) = Some z;
  is_int_jint z : is_int (jint z) = (- two31 <=? z) && (z <? two31);
  is_uint64_jint z : is_s64 z -> is_uint64 (jint z) = (0 <=? z);
  as_uint64_jint z : 0 <= z < two63 -> as_uint64 (jint z) = Some z;
  is_uint_jint z : is_s64 z -> is_uint (jint z) = (0 <=? z) && (z <? two32);
  as_uint_jint z : 0 <= z < two32 -> as_uint (jint z) = Some z;
  is_array_jarray : is_array jarray = true;
  is_array_jappend v x : is_array v = true -> is_array (jappend v x) = true;
  jelems_jarray : jelems jarray = [];
  jelems_jappend v x : is_array v = true -> jelems (jappend v x) = jelems v ++ [x]
}.

#[export] Hint Resolve is_object_jobject is_object_jset is_object_jremove
  is_array_jarray is_array_jappend : dem.
(** Reading a freshly built object: member by member, deciding the keys. *)
Ltac json_is_object :=
  repeat first [ done | apply is_object_jset | apply is_object_jremove
               | apply is_object_jobject ].

Ltac json_obj :=
  repeat first
    [ rewrite is_object_jobject | rewrite is_array_jarray
    | rewrite is_object_jset by json_is_object
    | rewrite is_object_jremove by json_is_object
    | rewrite jget_jset_eq by json_is_object
    | rewrite jget_jset_ne by json_is_object
    | rewrite is_member_jset_eq by json_is_object
    | rewrite is_member_jset_ne by json_is_object
    | rewrite jget_jobject | rewrite is_member_jobject
    | rewrite is_string_jstr | rewrite as_string_jstr
    | rewrite is_string_jnull | rewrite is_uint64_jnull | rewrite is_null_jnull ].

(* ------------------------------------------------------------------ *)
(** ** A concrete instance *)

Module JsonModel.

(** Values; [JReal m] is the decimal [m * 10^-8] (what a coin amount is
    written as). *)
#[warnings="-register-all"]
Inductive value : Type :=
| VNull
| VBool (b : bool)
| VInt (z : Z)
| VReal (m : Z)
| VStr (s : string)
| VArr (l : list value)
| VObj (l : list (string * value)).

Fixpoint assoc (k : string) (l : list (string * value)) : option value :=
  match l with
  | [] => None
  | (k', v) :: l' => if String.eqb k k' then Some v else assoc k l'
  end.

(** A key that is there keeps its place, a new one goes before the greater ones. *)
Fixpoint assoc_replace (k : string) (x : value) (l : list (string * value))
  : list (string * value) :=
  match l with
  | [] => []
  | (k', v) :: l' =>
      if String.eqb k k' then (k, x) :: l' else (k', v) :: assoc_replace k x l'
  end.

Fixpoint assoc_insert (k : string) (x : value) (l : list (string * value))
  : list (string * value) :=
  match l with
  | [] => [(k, x)]
  | (k', v) :: l' =>
      if str_ltb k k' then (k, x) :: (k', v) :: l' else (k', v) :: assoc_insert k x l'
  end.

Definition assoc_set (k : string) (x : value) (l : list (string * value))
  : list (string * value) :=
  match assoc k l with Some _ => assoc_replace k x l | None => assoc_insert k x l end.

Fixpoint assoc_del (k : string) (l : list (string * value))
  : list (string * value) :=
  match l with
  | [] => []
  | (k', v) :: l' =>
      if String.eqb k k' then assoc_del k l' else (k', v) :: assoc_del k l'
  end.

Fixpoint veqb (a b : value) {struct a} : bool :=
  match a, b with
  | VNull, VNull => true
  | VBool x, VBool y => Bool.eqb x y
  | VInt x, VInt y => Z.eqb x y
  | VReal x, VReal y => Z.eqb x y
  | VStr x, VStr y => String.eqb x y
  | VArr x, VArr y =>
      (fix go (x y : list value) {struct x} : bool :=
         match x, y with
         | [], [] => true
         | a :: x', b :: y' => veqb a b && go x' y'
         | _, _ => false
         end) x y
  | VObj x, VObj y =>
      (fix go (x y : list (string * value)) {struct x} : bool :=
         match x, y with
         | [], [] => true
         | (ka, a) :: x', (kb, b) :: y' => String.eqb ka kb && veqb a b && go x' y'
         | _, _ => false
         end) x y
  | _, _ => false
  end.

Definition quote : string := String (ascii_of_nat 34) EmptyString.

Definition commas (l : list string) : string :=
  match l with
  | [] => ""
  | s :: l' => fold_left (fun acc x => acc +:+ "," +:+ x) l' s
  end.

(** The compact form; strings are written without escapes. *)
Fixpoint write (v : value) : string :=
  match v with
  | VNull => "null"
  | VBool true => "true"
  | VBool false => "false"
  | VInt z => pretty z
  | VReal m => pretty m +:+ "e-8"
  | VStr s => quote +:+ s +:+ quote
  | VArr l => "[" +:+ commas (map write l) +:+ "]"
  | VObj l =>
      "{" +:+ commas (map (fun kv => quote +:+ kv.1 +:+ quote +:+ ":" +:+ write kv.2) l)
      +:+ "}"
  end.

Definition in_range (lo hi : Z) (v : value) : bool :=
  match v with VInt z => (lo <=? z) && (z <? hi) | _ => false end.

Definition as_int_of (v : value) : option Z :=
  match v with VInt z => Some z | VNull => Some 0 | _ => None end.

Definition get (v : value) (k : string) : option value :=
  match v with
  | VNull => Some VNull
  | VObj l => Some (default VNull (assoc k l))
  | _ => None
  end.

Definition set (v : value) (k : string) (x : value) : value :=
  match v with
  | VObj l => VObj (assoc_set k x l)
  | VNull => VObj [(k, x)]
  | _ => v
  end.

#[export] Instance lib : JsonLib := {
  Json := value;
  jnull := VNull;
  jbool := VBool;
  jint := VInt;
  jstr := VStr;
  jobject := VObj [];
  jarray := VArr [];
  is_null v := match v with VNull => true | _ => false end;
  is_bool v := match v with VBool _ => true | _ => false end;
  is_object v := match v with VObj _ => true | _ => false end;
  is_array v := match v with VArr _ => true | _ => false end;
  is_string v := match v with VStr _ => true | _ => false end;
  is_int := in_range (- two31) two31;
  is_uint := in_range 0 two32;
  is_int64 := in_range (- two63) two63;
  is_uint64 := in_range 0 two64;
  as_bool v := match v with VBool b => Some b | _ => None end;
  as_string v := match v with VStr s => Some s | VNull => Some "" | _ => None end;
  as_uint := as_int_of;
  as_int64 := as_int_of;
  as_uint64 := as_int_of;
  is_member v k := match v with VObj l => has (assoc k l) | _ => false end;
  jget := get;
  jset := set;
  jremove v k := match v with VObj l => VObj (assoc_del k l) | _ => v end;
  jelems v := match v with VArr l => l | VObj l => map snd l | _ => [] end;
  jappend v x := match v with VArr l => VArr (l ++ [x]) | _ => v end;
  jeqb := veqb;
  jwrite := write
}.

Lemma assoc_replace_lookup k k' x l :
  assoc k' (assoc_replace k x l) =
  if String.eqb k' k then (fun _ => x) <$> assoc k l else assoc k' l.
Proof.
  induction l as [|[q v] l IH]; cbn; [by destruct (String.eqb k' k)|].
  destruct (String.eqb_spec k q) as [->|Hq]; cbn.
  - by destruct (String.eqb k' q).
  - rewrite IH. destruct (String.eqb_spec k' k) as [->|]; [|done].
    by destruct (String.eqb_spec k q).
Qed.

Lemma assoc_insert_lookup k k' x l :
  assoc k l = None ->
  assoc k' (assoc_insert k x l) = if String.eqb k' k then Some x else assoc k' l.
Proof.
  induction l as [|[q v] l IH]; cbn; [done|].
  destruct (String.eqb_spec k q) as [|Hq]; [done|]. intros Hn.
  destruct (str_ltb k q); cbn; [done|]. rewrite (IH Hn).
  destruct (String.eqb_spec k' q), (String.eqb_spec k' k); congruence.
Qed.

Lemma assoc_set_lookup k k' x l :
  assoc k' (assoc_set k x l) = if String.eqb k' k then Some x else assoc k' l.
Proof.
  unfold assoc_set. destruct (assoc k l) as [y|] eqn:Hy.
  - rewrite assoc_replace_lookup, Hy. done.
  - by apply assoc_insert_lookup.
Qed.

Lemma assoc_set_eq k x l : assoc k (assoc_set k x l) = Some x.
Proof. by rewrite assoc_set_lookup, String.eqb_refl. Qed.

Lemma assoc_set_ne k k' x l : k <> k' -> assoc k' (assoc_set k x l) = assoc k' l.
Proof. intros Hne. rewrite assoc_set_lookup. by destruct (String.eqb_spec k' k). Qed.

Lemma assoc_del_eq k l : assoc k (assoc_del k l) = None.
Proof.
  induction l as [|[k' v] l IH]; cbn; [done|].
  destruct (String.eqb_spec k k') as [->|Hne]; cbn; [done|].
  by destruct (String.eqb_spec k k').
Qed.

Lemma assoc_del_ne k k' l : k <> k' -> assoc k' (assoc_del k l) = assoc k' l.
Proof.
  intros Hne. induction l as [|[q v] l IH]; cbn; [done|].
  destruct (String.eqb_spec k q) as [->|Hq]; cbn; [|by rewrite IH].
  rewrite IH. by destruct (String.eqb_spec k' q).
Qed.

Lemma in_range_spec lo hi v :
  in_range lo hi v = true -> exists n, as_int_of v = Some n /\ lo <= n < hi.
Proof.
  destruct v; cbn; try done. intros H. exists z.
  apply andb_true_iff in H as [?%Z.leb_le ?%Z.ltb_lt]. done.
Qed.

Ltac obj_case :=
  intros; repeat match goal with
  | v : value |- _ => destruct v; cbn in *; try done
  | v : Json |- _ => destruct v; cbn in *; try done
  end.

#[export] Instance laws : JsonLaws.
Proof.
  split; try (by obj_case; eauto); obj_case;
    rewrite ?assoc_set_eq, ?assoc_del_eq; try done;
    try (by rewrite ?assoc_set_ne, ?assoc_del_ne);
    try (lazymatch goal with |- exists n, Some ?z = Some n /\ ?lo <= n < ?hi =>
           by apply (in_range_spec lo hi (VInt z)) end).
  unfold is_s64, two63 in *. cbn. unfold two64 in *.
  destruct (Z.leb_spec 0 z), (Z.ltb_spec z 18446744073709551616); cbn; lia.
Qed.

(** *** Objects are maps, and equality is reflexive *)

Lemma assoc_replace_same k x l : assoc k l = Some x -> assoc_replace k x l = l.
Proof.
  induction l as [|[q v] l IH]; cbn; [done|].
  destruct (String.eqb_spec k q) as [->|]; [by intros [= ->]|]. intros Hx. by rewrite IH.
Qed.

Lemma assoc_replace_twice k x y l : assoc_replace k y (assoc_replace k x l) = assoc_replace k y l.
Proof.
  induction l as [|[q v] l IH]; cbn; [done|].
  destruct (String.eqb_spec k q) as [->|Hq]; cbn; [by rewrite String.eqb_refl|].
  destruct (String.eqb_spec k q); [done|]. by rewrite IH.
Qed.

Lemma assoc_replace_insert k x y l :
  assoc k l = None -> assoc_replace k y (assoc_insert k x l) = assoc_insert k y l.
Proof.
  induction l as [|[q v] l IH]; cbn; [by rewrite String.eqb_refl|].
  destruct (String.eqb_spec k q) as [|Hq]; [done|]. intros Hn.
  destruct (str_ltb k q); cbn; [by rewrite String.eqb_refl|].
  destruct (String.eqb_spec k q); [done|]. by rewrite IH.
Qed.

Lemma assoc_set_twice k x y l : assoc_set k y (assoc_set k x l) = assoc_set k y l.
Proof.
  unfold assoc_set at 1. rewrite assoc_set_eq. unfold assoc_set.
  destruct (assoc k l) eqn:Hk; [apply assoc_replace_twice|by apply assoc_replace_insert].
Qed.

Lemma assoc_replace_comm k k' x y l :
  k <> k' -> assoc_replace k' y (assoc_replace k x l) = assoc_replace k x (assoc_replace k' y l).
Proof.
  intros Hne. induction l as [|[q v] l IH]; cbn; [done|].
  destruct (String.eqb k q) eqn:Hk, (String.eqb k' q) eqn:Hk'; cbn; rewrite ?Hk, ?Hk', ?IH.
  - apply String.eqb_eq in Hk, Hk'. congruence.
  - apply String.eqb_eq in Hk as ->. by rewrite Hk'.
  - apply String.eqb_eq in Hk' as ->. by rewrite Hk.
  - done.
Qed.

Lemma assoc_replace_insert_comm k k' x y l :
  k <> k' -> assoc k' l = None ->
  assoc_insert k' y (assoc_replace k x l) = assoc_replace k x (assoc_insert k' y l).
Proof.
  intros Hne. induction l as [|[q v] l IH]; cbn; [by destruct (String.eqb_spec k k')|].
  destruct (String.eqb k' q) eqn:Hq; [done|]. intros Hn.
  assert (Hkk : String.eqb k k' = false) by by apply String.eqb_neq.
  destruct (String.eqb k q) eqn:Hk; cbn; [apply String.eqb_eq in Hk as ->|];
    destruct (str_ltb k' _); cbn; rewrite ?Hkk, ?Hk, ?String.eqb_refl, ?IH; done.
Qed.

Lemma assoc_insert_comm k k' x y l :
  str_ltb k k' = true ->
  assoc_insert k' y (assoc_insert k x l) = assoc_insert k x (assoc_insert k' y l).
Proof.
  intros Hlt.
  assert (Hgt : str_ltb k' k = false).
  { destruct (str_ltb k' k) eqn:Hgt; [|done]. pose proof (str_ltb_trans _ _ _ Hlt Hgt).
    by rewrite str_ltb_irrefl in *. }
  induction l as [|[q v] l IH]; cbn; [by rewrite Hlt, Hgt|].
  destruct (str_ltb k' q) eqn:Hq'.
  - rewrite (str_ltb_trans _ _ _ Hlt Hq'). cbn. by rewrite Hgt, Hlt, Hq'.
  - destruct (str_ltb k q) eqn:Hq; cbn.
    + by rewrite Hgt, Hq', Hq.
    + by rewrite Hq, Hq', IH.
Qed.

Lemma assoc_set_eqn k x l :
  assoc_set k x l =
  match assoc k l with Some _ => assoc_replace k x l | None => assoc_insert k x l end.
Proof. done. Qed.

Lemma assoc_set_comm k k' x y l :
  k <> k' -> assoc_set k' y (assoc_set k x l) = assoc_set k x (assoc_set k' y l).
Proof.
  intros Hne. rewrite (assoc_set_eqn k' y (assoc_set k x l)), (assoc_set_eqn k x (assoc_set k' y l)).
  rewrite !assoc_set_ne by done. unfold assoc_set.
  destruct (assoc k l) eqn:Hk, (assoc k' l) eqn:Hk'.
  - by apply assoc_replace_comm.
  - by apply assoc_replace_insert_comm.
  - symmetry. by apply assoc_replace_insert_comm.
  - destruct (str_ltb_total k k') as [|[?|?]]; [done|by apply assoc_insert_comm|].
    symmetry. by apply assoc_insert_comm.
Qed.

Lemma assoc_set_same k x l : assoc k l = Some x -> assoc_set k x l = l.
Proof. intros Hx. unfold assoc_set. rewrite Hx. by apply assoc_replace_same. Qed.

Lemma assoc_insert_length k x l : length (assoc_insert k x l) = S (length l).
Proof.
  induction l as [|[q v] l IH]; cbn; [done|]. destruct (str_ltb k q); cbn; [done|]. by rewrite IH.
Qed.

Fixpoint veqb_refl (v : value) : veqb v v = true.
Proof.
  destruct v as [|b|z|m|s|l|l]; cbn.
  - done.
  - by destruct b.
  - apply Z.eqb_refl.
  - apply Z.eqb_refl.
  - apply String.eqb_refl.
  - induction l as [|v l IH]; [done|]. by rewrite veqb_refl, IH.
  - induction l as [|[k v] l IH]; [done|]. by rewrite String.eqb_refl, veqb_refl, IH.
Qed.

End JsonModel.
