(* ===== verification/Proto.v ===== *)
(** * The protocol-buffer messages

    The messages of [src/src/proto/*.proto] as records: a proto2 [optional]
    field is an option, [repeated] a list, [map] a finite map.  Enumerations
    are closed (an unknown value never reaches the accessor in proto2), and
    the accessor of an unset field gives the default of its type, the first
    enumerator for an enumeration.  A record's field [x_f] is [has_f] and the
    stored value at once; the accessor with the default is [f_of]. *)

From Stdlib Require Import ZArith String.
From stdpp Require Import base gmap strings list.
From S2P Require Import Prelude.

(** ** orders.proto *)

Inductive OrderType := ASK | BID.
#[export] Instance OrderType_eq_dec : EqDecision OrderType.
Proof. solve_decision. Defined.

Record Order := mkOrder {
  o_account : option string;
  o_id : option Z;
  o_asset : option string;
  o_min_units : option Z;
  o_max_units : option Z;
  o_type : option OrderType;
  o_price_sat : option Z;
  o_locked : option bool
}.
#[export] Instance Order_eq_dec : EqDecision Order.
Proof. solve_decision. Defined.

Definition empty_order : Order := mkOrder None None None None None None None None.

Definition account_of (o : Order) : string := default "" (o_account o).
Definition id_of (o : Order) : Z := default 0 (o_id o).
Definition asset_of (o : Order) : string := default "" (o_asset o).
Definition min_units_of (o : Order) : Z := default 0 (o_min_units o).
Definition max_units_of (o : Order) : Z := default 0 (o_max_units o).
Definition type_of (o : Order) : OrderType := default ASK (o_type o).
Definition price_sat_of (o : Order) : Z := default 0 (o_price_sat o).
Definition locked_of (o : Order) : bool := default false (o_locked o).

Definition with_account (a : option string) (o : Order) : Order :=
  mkOrder a (o_id o) (o_asset o) (o_min_units o) (o_max_units o) (o_type o)
    (o_price_sat o) (o_locked o).
Definition with_id (i : option Z) (o : Order) : Order :=
  mkOrder (o_account o) i (o_asset o) (o_min_units o) (o_max_units o) (o_type o)
    (o_price_sat o) (o_locked o).
Definition with_asset (a : option string) (o : Order) : Order :=
  mkOrder (o_account o) (o_id o) a (o_min_units o) (o_max_units o) (o_type o)
    (o_price_sat o) (o_locked o).
Definition with_min_units (m : option Z) (o : Order) : Order :=
  mkOrder (o_account o) (o_id o) (o_asset o) m (o_max_units o) (o_type o)
    (o_price_sat o) (o_locked o).
Definition with_max_units (m : option Z) (o : Order) : Order :=
  mkOrder (o_account o) (o_id o) (o_asset o) (o_min_units o) m (o_type o)
    (o_price_sat o) (o_locked o).
Definition with_type (t : option OrderType) (o : Order) : Order :=
  mkOrder (o_account o) (o_id o) (o_asset o) (o_min_units o) (o_max_units o) t
    (o_price_sat o) (o_locked o).
Definition with_price_sat (p : option Z) (o : Order) : Order :=
  mkOrder (o_account o) (o_id o) (o_asset o) (o_min_units o) (o_max_units o) (o_type o)
    p (o_locked o).
Definition with_locked (l : option bool) (o : Order) : Order :=
  mkOrder (o_account o) (o_id o) (o_asset o) (o_min_units o) (o_max_units o) (o_type o)
    (o_price_sat o) l.

Record OrdersOfAccount := mkOrdersOfAccount {
  oa_account : option string;
  oa_orders : gmap Z Order
}.
#[export] Instance OrdersOfAccount_eq_dec : EqDecision OrdersOfAccount.
Proof. solve_decision. Defined.

Definition empty_orders : OrdersOfAccount := mkOrdersOfAccount None ∅.

Record OrderbookForAsset := mkOrderbookForAsset {
  fa_asset : option string;
  fa_bids : list Order;
  fa_asks : list Order
}.
#[export] Instance OrderbookForAsset_eq_dec : EqDecision OrderbookForAsset.
Proof. solve_decision. Defined.

Record OrderbookByAsset := mkOrderbookByAsset {
  ba_assets : gmap string OrderbookForAsset
}.
#[export] Instance OrderbookByAsset_eq_dec : EqDecision OrderbookByAsset.
Proof. solve_decision. Defined.

(** ** trades.proto *)

Inductive TradeStatus := INITIATED | PENDING | SUCCESS | FAILED | ABANDONED.
#[export] Instance TradeStatus_eq_dec : EqDecision TradeStatus.
Proof. solve_decision. Defined.

Inductive Role := MAKER | TAKER.
#[export] Instance Role_eq_dec : EqDecision Role.
Proof. solve_decision. Defined.

(** The public [Trade] message. *)
Record TradeInfo := mkTradeInfo {
  ti_state : option TradeStatus;
  ti_start_time : option Z;
  ti_counterparty : option string;
  ti_type : option OrderType;
  ti_asset : option string;
  ti_units : option Z;
  ti_price_sat : option Z;
  ti_role : option Role
}.
#[export] Instance TradeInfo_eq_dec : EqDecision TradeInfo.
Proof. solve_decision. Defined.

Record OutPoint := mkOutPoint {
  op_hash : option string;
  op_n : option Z
}.
#[export] Instance OutPoint_eq_dec : EqDecision OutPoint.
Proof. solve_decision. Defined.

Definition hash_of (p : OutPoint) : string := default "" (op_hash p).
Definition n_of (p : OutPoint) : Z := default 0 (op_n p).

Record SellerData := mkSellerData {
  sd_name_address : option string;
  sd_chi_address : option string;
  sd_name_output : option OutPoint
}.
#[export] Instance SellerData_eq_dec : EqDecision SellerData.
Proof. solve_decision. Defined.

Definition empty_seller_data : SellerData := mkSellerData None None None.
Definition name_address_of (d : SellerData) : string := default "" (sd_name_address d).
Definition chi_address_of (d : SellerData) : string := default "" (sd_chi_address d).
Definition name_output_of (d : SellerData) : OutPoint :=
  default (mkOutPoint None None) (sd_name_output d).

Record TradeState := mkTradeState {
  ts_order : option Order;
  ts_units : option Z;
  ts_counterparty : option string;
  ts_start_time : option Z;
  ts_state : option TradeStatus;
  ts_seller_data : option SellerData;
  ts_our_psbt : option string;
  ts_their_psbt : option string;
  ts_conflict_height : option Z
}.
#[export] Instance TradeState_eq_dec : EqDecision TradeState.
Proof. solve_decision. Defined.

Definition empty_trade : TradeState :=
  mkTradeState None None None None None None None None None.

Definition order_of (t : TradeState) : Order := default empty_order (ts_order t).
Definition units_of (t : TradeState) : Z := default 0 (ts_units t).
Definition counterparty_of (t : TradeState) : string := default "" (ts_counterparty t).
Definition start_time_of (t : TradeState) : Z := default 0 (ts_start_time t).
Definition state_of (t : TradeState) : TradeStatus := default INITIATED (ts_state t).
Definition seller_data_of (t : TradeState) : SellerData :=
  default empty_seller_data (ts_seller_data t).
Definition our_psbt_of (t : TradeState) : string := default "" (ts_our_psbt t).
Definition their_psbt_of (t : TradeState) : string := default "" (ts_their_psbt t).
Definition conflict_height_of (t : TradeState) : Z := default 0 (ts_conflict_height t).

Definition with_state (x : option TradeStatus) (t : TradeState) : TradeState :=
  mkTradeState (ts_order t) (ts_units t) (ts_counterparty t) (ts_start_time t)
    x (ts_seller_data t) (ts_our_psbt t) (ts_their_psbt t) (ts_conflict_height t).
Definition with_seller_data (x : option SellerData) (t : TradeState) : TradeState :=
  mkTradeState (ts_order t) (ts_units t) (ts_counterparty t) (ts_start_time t)
    (ts_state t) x (ts_our_psbt t) (ts_their_psbt t) (ts_conflict_height t).
Definition with_our_psbt (x : option string) (t : TradeState) : TradeState :=
  mkTradeState (ts_order t) (ts_units t) (ts_counterparty t) (ts_start_time t)
    (ts_state t) (ts_seller_data t) x (ts_their_psbt t) (ts_conflict_height t).
Definition with_their_psbt (x : option string) (t : TradeState) : TradeState :=
  mkTradeState (ts_order t) (ts_units t) (ts_counterparty t) (ts_start_time t)
    (ts_state t) (ts_seller_data t) (ts_our_psbt t) x (ts_conflict_height t).
Definition with_conflict_height (x : option Z) (t : TradeState) : TradeState :=
  mkTradeState (ts_order t) (ts_units t) (ts_counterparty t) (ts_start_time t)
    (ts_state t) (ts_seller_data t) (ts_our_psbt t) (ts_their_psbt t) x.

(** ** processing.proto *)

Record TakingOrder := mkTakingOrder {
  to_id : option Z;
  to_units : option Z
}.
#[export] Instance TakingOrder_eq_dec : EqDecision TakingOrder.
Proof. solve_decision. Defined.

Record TradePsbt := mkTradePsbt {
  tp_psbt : option string
}.
#[export] Instance TradePsbt_eq_dec : EqDecision TradePsbt.
Proof. solve_decision. Defined.

Definition psbt_of (p : TradePsbt) : string := default "" (tp_psbt p).

Record ProcessingMessage := mkProcessingMessage {
  pm_counterparty : option string;
  pm_identifier : option string;
  pm_taking_order : option TakingOrder;
  pm_seller_data : option SellerData;
  pm_psbt : option TradePsbt
}.
#[export] Instance ProcessingMessage_eq_dec : EqDecision ProcessingMessage.
Proof. solve_decision. Defined.

Definition to_id_of (t : TakingOrder) : Z := default 0 (to_id t).
Definition to_units_of (t : TakingOrder) : Z := default 0 (to_units t).

Definition empty_message : ProcessingMessage :=
  mkProcessingMessage None None None None None.
Definition msg_counterparty (m : ProcessingMessage) : string :=
  default "" (pm_counterparty m).
Definition msg_identifier (m : ProcessingMessage) : string :=
  default "" (pm_identifier m).
Definition with_msg_counterparty (c : option string) (m : ProcessingMessage)
  : ProcessingMessage :=
  mkProcessingMessage c (pm_identifier m) (pm_taking_order m) (pm_seller_data m)
    (pm_psbt m).
Definition with_msg_taking_order (t : option TakingOrder) (m : ProcessingMessage)
  : ProcessingMessage :=
  mkProcessingMessage (pm_counterparty m) (pm_identifier m) t (pm_seller_data m)
    (pm_psbt m).
Definition with_msg_seller_data (d : option SellerData) (m : ProcessingMessage)
  : ProcessingMessage :=
  mkProcessingMessage (pm_counterparty m) (pm_identifier m) (pm_taking_order m) d
    (pm_psbt m).
Definition with_msg_psbt (p : option TradePsbt) (m : ProcessingMessage)
  : ProcessingMessage :=
  mkProcessingMessage (pm_counterparty m) (pm_identifier m) (pm_taking_order m)
    (pm_seller_data m) p.

(** ** state.proto *)

Record State := mkState {
  st_account : option string;
  st_own_orders : option OrdersOfAccount;
  st_next_free_id : option Z;
  st_trades : list TradeState;
  st_trade_archive : list TradeInfo
}.
#[export] Instance State_eq_dec : EqDecision State.
Proof. solve_decision. Defined.

Definition acct (s : State) : string := default "" (st_account s).
Definition own_orders (s : State) : OrdersOfAccount :=
  default empty_orders (st_own_orders s).
Definition own_map (s : State) : gmap Z Order := oa_orders (own_orders s).
Definition next_free_id (s : State) : Z := default 0 (st_next_free_id s).

Definition with_own_orders (x : OrdersOfAccount) (s : State) : State :=
  mkState (st_account s) (Some x) (st_next_free_id s) (st_trades s) (st_trade_archive s).
(** [mutable_own_orders ()->mutable_orders ()] assigned. *)
Definition with_own_map (m : gmap Z Order) (s : State) : State :=
  with_own_orders (mkOrdersOfAccount (oa_account (own_orders s)) m) s.
Definition with_next_free_id (i : Z) (s : State) : State :=
  mkState (st_account s) (st_own_orders s) (Some i) (st_trades s) (st_trade_archive s).
Definition with_trades (l : list TradeState) (s : State) : State :=
  mkState (st_account s) (st_own_orders s) (st_next_free_id s) l (st_trade_archive s).
Definition with_trade_archive (l : list TradeInfo) (s : State) : State :=
  mkState (st_account s) (st_own_orders s) (st_next_free_id s) (st_trades s) l.

(** [State::State] of [private/state.hpp]: only the account name is set. *)
Definition initial_state (account : string) : State :=
  mkState (Some account) None None [] [].

(* ------------------------------------------------------------------ *)
(** ** Lemmas on the accessors *)

Lemma own_map_with_own_map m s : own_map (with_own_map m s) = m.
Proof. done. Qed.

Lemma own_map_with_next_free_id i s : own_map (with_next_free_id i s) = own_map s.
Proof. done. Qed.

Lemma own_map_with_trades l s : own_map (with_trades l s) = own_map s.
Proof. done. Qed.

#[export] Hint Rewrite own_map_with_own_map own_map_with_next_free_id
  own_map_with_trades : dem_rw.
