(* ===== verification/Effects.v ===== *)
(** * Effects: external services, the state monad, and how to reason about it

    A method of the source reads and writes the state it can reach, calls
    external services (the wallet's JSON-RPC interface, the g/dem GSP, the
    game's asset specification, the clock), may throw, and may abort.  It is
    a function [World S -> outcome A * World S], where the world holds the
    state [S], the opaque state [Node] of everything outside the process,
    and the trace of the external calls made so far with their replies (a log
    kept by the model to state what was asked of the wallet, in which order). *)

From Stdlib Require Import ZArith Lia String.
From stdpp Require Import base gmap strings list.
From S2P Require Import Prelude Json Proto.

(* ------------------------------------------------------------------ *)
(** ** External services *)

(** [xaya::uint256] of libxayautil. *)
Class Uint256Lib := {
  U256 : Type;
  u256_eqb : U256 -> U256 -> bool;
  to_hex : U256 -> string;
  from_hex : string -> option U256
}.

Class Uint256Laws `{Uint256Lib} : Prop := {
  u256_eqb_eq a b : u256_eqb a b = true <-> a = b;
  from_to_hex a : from_hex (to_hex a) = Some a
}.

(** [xaya::ChiAmountToJson] and [xaya::ChiAmountFromJson] of libxayautil.  An
    [Amount] is a signed 64-bit integer, whose overflow is undefined, so what
    the one method that multiplies two of them does when the product does not
    fit, [TradeChecker::GetTotalSat], is the compiler's choice. *)
Class AmountLib `{JsonLib} := {
  ChiAmountToJson : Z -> Json;
  ChiAmountFromJson : Json -> option Z;
  overflowing_total : Z -> Z -> outcome (option Z)
}.

(** What the method does if the product wraps around and the statements after
    the multiplication run as they are written. *)
Definition wrapping_total (price units : Z) : outcome (option Z) :=
  let total := s64 (price * units) in
  if negb (0 <? units) then Fatal
  else if negb (cdiv total units =? price) then Ret None
  else Ret (Some total).

(** A build in which signed arithmetic wraps ([-fwrapv]), as the method
    expects. *)
Class WrappingAmounts `{AmountLib} : Prop :=
  amounts_wrap price units : overflowing_total price units = wrapping_total price units.

(** The methods of [rpc-stubs/xaya.json]; the type of a reply is the one the
    stub declares ([gettxout] is called without the stub and may give null). *)
Inductive XayaCall `{JsonLib} : Type :=
| getnewaddress
| name_show (name : string)
| gettxout (txid : string) (n : Z)
| getblockheader (hash : string)
| decodepsbt (psbt : string)
| walletcreatefundedpsbt (inputs outputs : Json) (locktime : Z) (options : Json)
| createpsbt (inputs outputs : Json)
| namepsbt (psbt : string) (vout : Z) (nameOp : Json)
| joinpsbts (psbts : Json)
| walletprocesspsbt (psbt : string)
| lockunspent (unlock : bool) (outputs : Json)
| combinepsbt (psbts : Json)
| finalizepsbt (psbt : string)
| sendrawtransaction (hex : string).

Definition XayaResp `{JsonLib} (c : XayaCall) : Type :=
  match c with
  | getnewaddress | createpsbt _ _ | joinpsbts _ | combinepsbt _
  | sendrawtransaction _ => string
  | lockunspent _ _ => bool
  | _ => Json
  end.

(** A call to the wallet: an error reply (or transport error) is the message
    of a [JsonRpcException]. *)
Class XayaRpc `{JsonLib} (Node : Type) :=
  xaya_rpc : forall c : XayaCall, Node -> (string + XayaResp c) * Node.

(** The [checktrade] method of the g/dem GSP. *)
Class DemGspRpc `{JsonLib} (Node : Type) :=
  gsp_rpc : string -> Node -> (string + Json) * Node.

(** The interface [AssetSpec] of [assetspec.hpp], which every game
    implements.  The implementation may query its GSP, throw and abort.
    [spec_can_sell] gives the block hash exactly when the method returns true. *)
Class AssetSpec `{JsonLib} `{Uint256Lib} (Node : Type) := {
  GetGameId : string;
  spec_is_asset : string -> Node -> outcome bool * Node;
  spec_can_sell : string -> string -> Z -> Node -> outcome (option U256) * Node;
  spec_can_buy : string -> string -> Z -> Node -> outcome bool * Node;
  GetTransferMove : string -> string -> string -> Z -> outcome Json
}.

(** The order in which protobuf iterates over a map is unspecified, and so is
    the value of a message that was moved from. *)
Class ProtoRuntime := {
  iter : forall {K A} `{Countable K}, gmap K A -> list (K * A);
  moved_from : Order -> Order;
  moved_from_trade : TradeState -> TradeState
}.

Class ProtoRuntimeLaws `{ProtoRuntime} : Prop :=
  iter_perm : forall {K A} `{Countable K} (m : gmap K A), iter m ≡ₚ map_to_list m.

(** [Map::insert]: an existing entry stays. *)
Definition map_insert {K A} `{Countable K} (m : gmap K A) (k : K) (x : A) : gmap K A :=
  match m !! k with Some _ => m | None => <[k := x]> m end.

(** [TradeManager::GetCurrentTime]: UNIX seconds of the system clock. *)
Class Clock (Node : Type) := clock_now : Node -> Z * Node.

(* ------------------------------------------------------------------ *)
(** ** Worlds and the monad *)

Inductive SpecCall :=
| IsAssetQ (asset : string)
| CanSellQ (name asset : string) (n : Z)
| CanBuyQ (name asset : string) (n : Z).

Inductive Event `{JsonLib} : Type :=
| EvXaya (c : XayaCall) (r : string + XayaResp c)
| EvGsp (btxid : string) (r : string + Json)
| EvSpec (c : SpecCall).

Record World `{JsonLib} (Node S : Type) := mkWorld {
  wst : S;
  wnode : Node;
  wtrace : list Event
}.
Arguments mkWorld {_ Node S} _ _ _.
Arguments wst {_ Node S} _.
Arguments wnode {_ Node S} _.
Arguments wtrace {_ Node S} _.

Definition M `{JsonLib} (Node S A : Type) : Type :=
  World Node S -> outcome A * World Node S.

#[export] Instance M_ret `{JsonLib} Node S : MRet (M Node S) :=
  fun A a w => (Ret a, w).

#[export] Instance M_bind `{JsonLib} Node S : MBind (M Node S) :=
  fun A B f m w =>
    match m w with
    | (Ret a, w') => f a w'
    | (Throw e, w') => (Throw e, w')
    | (Fatal, w') => (Fatal, w')
    end.

Section ops.
Context `{JsonLib} {Node S : Type}.

Definition get : M Node S S := fun w => (Ret (wst w), w).
Definition put (s : S) : M Node S unit :=
  fun w => (Ret tt, mkWorld s (wnode w) (wtrace w)).
Definition modify (f : S -> S) : M Node S unit :=
  fun w => (Ret tt, mkWorld (f (wst w)) (wnode w) (wtrace w)).
Definition throw {A} (e : exn) : M Node S A := fun w => (Throw e, w).
Definition fatal {A} : M Node S A := fun w => (Fatal, w).

(** [CHECK (b)] *)
Definition check (b : bool) : M Node S unit := if b then mret tt else fatal.

(** A jsoncpp access that throws on a value of the wrong type. *)
Definition json {A} (o : option A) : M Node S A :=
  match o with Some a => mret a | None => throw JsonLogicError end.

(** A value that is only there if a [CHECK] holds. *)
Definition check_some {A} (o : option A) : M Node S A :=
  match o with Some a => mret a | None => fatal end.

Definition lift_outcome {A} (o : outcome A) : M Node S A := fun w => (o, w).

Definition rpc_reply {A} (r : string + A) : outcome A :=
  match r with inl msg => Throw (JsonRpcException msg) | inr a => Ret a end.

Definition xaya `{!XayaRpc Node} (c : XayaCall) : M Node S (XayaResp c) :=
  fun w =>
    let '(r, n) := xaya_rpc c (wnode w) in
    (rpc_reply r, mkWorld (wst w) n (wtrace w ++ [EvXaya c r])).

Definition checktrade `{!DemGspRpc Node} (btxid : string) : M Node S Json :=
  fun w =>
    let '(r, n) := gsp_rpc btxid (wnode w) in
    (rpc_reply r, mkWorld (wst w) n (wtrace w ++ [EvGsp btxid r])).

Definition IsAsset `{!Uint256Lib} `{!AssetSpec Node} (asset : string) : M Node S bool :=
  fun w =>
    let '(r, n) := spec_is_asset asset (wnode w) in
    (r, mkWorld (wst w) n (wtrace w ++ [EvSpec (IsAssetQ asset)])).

Definition CanSell `{!Uint256Lib} `{!AssetSpec Node} (name asset : string) (n : Z)
  : M Node S (option U256) :=
  fun w =>
    let '(r, n') := spec_can_sell name asset n (wnode w) in
    (r, mkWorld (wst w) n' (wtrace w ++ [EvSpec (CanSellQ name asset n)])).

Definition CanBuy `{!Uint256Lib} `{!AssetSpec Node} (name asset : string) (n : Z)
  : M Node S bool :=
  fun w =>
    let '(r, n') := spec_can_buy name asset n (wnode w) in
    (r, mkWorld (wst w) n' (wtrace w ++ [EvSpec (CanBuyQ name asset n)])).

Definition GetCurrentTime `{!Clock Node} : M Node S Z :=
  fun w => let '(t, n) := clock_now (wnode w) in
           (Ret t, mkWorld (wst w) n (wtrace w)).

(** [try { m } catch (const jsonrpc::JsonRpcException&) { h }]; every other
    exception goes on. *)
Definition catch_rpc {A} (m : M Node S A) (h : M Node S A) : M Node S A :=
  fun w =>
    match m w with
    | (Throw (JsonRpcException _), w') => h w'
    | r => r
    end.

End ops.

(** Running an operation on a part of the state, in place. *)
Definition zoom `{JsonLib} {Node S T A} (g : S -> T) (p : T -> S -> S)
    (m : M Node T A) : M Node S A :=
  fun w =>
    let '(o, w') := m (mkWorld (g (wst w)) (wnode w) (wtrace w)) in
    (o, mkWorld (p (wst w') (wst w)) (wnode w') (wtrace w')).

(** Running an operation on a local variable, next to the state. *)
Definition local `{JsonLib} {Node S T A} (t : T) (m : M Node T A) : M Node S (A * T) :=
  fun w =>
    match m (mkWorld t (wnode w) (wtrace w)) with
    | (Ret a, w') => (Ret (a, wst w'), mkWorld (wst w) (wnode w') (wtrace w'))
    | (Throw e, w') => (Throw e, mkWorld (wst w) (wnode w') (wtrace w'))
    | (Fatal, w') => (Fatal, mkWorld (wst w) (wnode w') (wtrace w'))
    end.

(** The state proto shared by the process, as part of a larger state
    ([State::AccessState], [State::ReadState]). *)
Class HasState (S : Type) := {
  proj : S -> State;
  inj : State -> S -> S
}.

Class HasStateLaws (S : Type) `{HasState S} : Prop := {
  proj_inj x s : proj (inj x s) = x;
  inj_proj s : inj (proj s) s = s;
  inj_inj x y s : inj x (inj y s) = inj x s
}.

#[export] Instance State_HasState : HasState State :=
  {| proj s := s; inj x _ := x |}.

#[export] Instance State_HasStateLaws : HasStateLaws State.
Proof. by split. Qed.

Definition AccessState `{JsonLib} {Node S A} `{HasState S} (f : M Node State A)
  : M Node S A := zoom proj inj f.

Definition ReadState `{JsonLib} {Node S A} `{HasState S} (f : State -> A)
  : M Node S A := fun w => (Ret (f (proj (wst w))), w).

(* ------------------------------------------------------------------ *)
(** ** Weakest preconditions *)

(** An exception or an abort. *)
Definition is_err {A} (o : outcome A) : Prop :=
  match o with Ret _ => False | _ => True end.

Definition wp `{JsonLib} {Node S A} (m : M Node S A)
    (Q : outcome A -> World Node S -> Prop) (w : World Node S) : Prop :=
  let '(o, w') := m w in Q o w'.

Section wp.
Context `{JsonLib} {Node S : Type}.
Implicit Types w : World Node S.

Lemma wp_run {A} (m : M Node S A) Q w o w' : m w = (o, w') -> wp m Q w -> Q o w'.
Proof. unfold wp. by intros ->. Qed.

Lemma wp_intro {A} (m : M Node S A) (Q : outcome A -> World Node S -> Prop) w :
  (forall o w', m w = (o, w') -> Q o w') -> wp m Q w.
Proof. unfold wp. destruct (m w). auto. Qed.

Lemma wp_conseq {A} (m : M Node S A) (Q Q' : outcome A -> World Node S -> Prop) w :
  wp m Q w -> (forall o w', Q o w' -> Q' o w') -> wp m Q' w.
Proof. unfold wp. destruct (m w). auto. Qed.

Lemma world_id w : mkWorld (wst w) (wnode w) (wtrace w ++ []) = w.
Proof. rewrite app_nil_r. by destruct w. Qed.

Lemma run_eq {A} (m : M Node S A) o w : fst (m w) = o -> m w = (o, snd (m w)).
Proof. by destruct (m w) as [o' w']; intros <-. Qed.

Lemma wp_run_eq {A} (m : M Node S A) (Q : outcome A -> World Node S -> Prop) w o w' :
  wp m Q w -> m w = (o, w') -> Q o w'.
Proof. unfold wp. intros Hw Hm. by rewrite Hm in Hw. Qed.

Lemma wp_eq {A} (m : M Node S A) r w :
  wp m (fun o w' => (o, w') = r) w -> m w = r.
Proof. unfold wp. by destruct (m w). Qed.

(** From a specification that rules out failure, the result itself. *)
Lemma wp_returns {A} (m : M Node S A) (P : A -> Prop) (w w' : World Node S) :
  wp m (fun o v => match o with Ret a => v = w' /\ P a | _ => False end) w ->
  exists a, m w = (Ret a, w') /\ P a.
Proof. unfold wp. destruct (m w) as [[a|e|] v]; try done. intros [-> ?]. by exists a. Qed.

Lemma wp_and {A} (m : M Node S A) (Q Q' : outcome A -> World Node S -> Prop) w :
  wp m Q w -> wp m Q' w -> wp m (fun o w' => Q o w' /\ Q' o w') w.
Proof. unfold wp. destruct (m w). auto. Qed.

Lemma wp_ret {A} (a : A) (Q : outcome A -> World Node S -> Prop) w :
  Q (Ret a) w -> wp (mret a) Q w.
Proof. done. Qed.

(** The postcondition a continuation leaves for the first part of a sequence. *)
Definition then_post {A B} (f : A -> M Node S B)
    (Q : outcome B -> World Node S -> Prop) (o : outcome A) (w : World Node S) : Prop :=
  match o with
  | Ret a => wp (f a) Q w
  | Throw e => Q (Throw e) w
  | Fatal => Q Fatal w
  end.

Lemma wp_bind {A B} (m : M Node S A) (f : A -> M Node S B) Q w :
  wp m (then_post f Q) w -> wp (m ≫= f) Q w.
Proof.
  unfold wp, then_post, mbind, M_bind. by destruct (m w) as [[] ?].
Qed.

Lemma then_post_err {A B} (f : A -> M Node S B) Q w :
  (forall o : outcome B, is_err o -> Q o w) ->
  forall o : outcome A, is_err o -> then_post f Q o w.
Proof. intros HQ [|e|]; cbn; [done|intros _; by apply HQ..]. Qed.

Lemma wp_get Q w : Q (Ret (wst w)) w -> wp get Q w.
Proof. done. Qed.

Lemma wp_modify f Q w :
  Q (Ret tt) (mkWorld (f (wst w)) (wnode w) (wtrace w)) -> wp (modify f) Q w.
Proof. done. Qed.

Lemma wp_put s Q w :
  Q (Ret tt) (mkWorld s (wnode w) (wtrace w)) -> wp (put s) Q w.
Proof. done. Qed.

Lemma wp_throw {A} e (Q : outcome A -> World Node S -> Prop) w :
  Q (Throw e) w -> wp (throw e) Q w.
Proof. done. Qed.

Lemma wp_fatal {A} (Q : outcome A -> World Node S -> Prop) w :
  Q Fatal w -> wp fatal Q w.
Proof. done. Qed.

Lemma wp_check b Q w :
  (b = true -> Q (Ret tt) w) -> (b = false -> Q Fatal w) -> wp (check b) Q w.
Proof. destruct b; cbn; intros H1 H2; [by apply H1 | by apply H2]. Qed.

Lemma wp_json {A} (x : option A) (Q : outcome A -> World Node S -> Prop) w :
  (forall a, x = Some a -> Q (Ret a) w) -> (x = None -> Q (Throw JsonLogicError) w) ->
  wp (json x) Q w.
Proof. destruct x; cbn; intros H1 H2; [by apply H1 | by apply H2]. Qed.

Lemma wp_check_some {A} (x : option A) (Q : outcome A -> World Node S -> Prop) w :
  (forall a, x = Some a -> Q (Ret a) w) -> (x = None -> Q Fatal w) ->
  wp (check_some x) Q w.
Proof. destruct x; cbn; intros H1 H2; [by apply H1 | by apply H2]. Qed.

Lemma wp_lift_outcome {A} (x : outcome A) (Q : outcome A -> World Node S -> Prop) w :
  Q x w -> wp (lift_outcome x) Q w.
Proof. done. Qed.

Lemma wp_xaya `{!XayaRpc Node} c (Q : outcome (XayaResp c) -> World Node S -> Prop) w :
  (forall r n, xaya_rpc c (wnode w) = (r, n) ->
     Q (rpc_reply r) (mkWorld (wst w) n (wtrace w ++ [EvXaya c r]))) ->
  wp (xaya c) Q w.
Proof. unfold wp, xaya. destruct (xaya_rpc c (wnode w)). auto. Qed.

Lemma wp_xaya_known `{!XayaRpc Node} c r n
    (Q : outcome (XayaResp c) -> World Node S -> Prop) w :
  xaya_rpc c (wnode w) = (r, n) ->
  Q (rpc_reply r) (mkWorld (wst w) n (wtrace w ++ [EvXaya c r])) -> wp (xaya c) Q w.
Proof. intros Hr HQ. apply wp_xaya. intros r' n'. rewrite Hr. by intros [= <- <-]. Qed.

Lemma wp_checktrade `{!DemGspRpc Node} b (Q : outcome Json -> World Node S -> Prop) w :
  (forall r n, gsp_rpc b (wnode w) = (r, n) ->
     Q (rpc_reply r) (mkWorld (wst w) n (wtrace w ++ [EvGsp b r]))) ->
  wp (checktrade b) Q w.
Proof. unfold wp, checktrade. destruct (gsp_rpc b (wnode w)). auto. Qed.

Lemma wp_IsAsset `{!Uint256Lib} `{!AssetSpec Node} a
    (Q : outcome bool -> World Node S -> Prop) w :
  (forall r n, spec_is_asset a (wnode w) = (r, n) ->
     Q r (mkWorld (wst w) n (wtrace w ++ [EvSpec (IsAssetQ a)]))) ->
  wp (IsAsset a) Q w.
Proof. unfold wp, IsAsset. destruct (spec_is_asset a (wnode w)). auto. Qed.

Lemma wp_CanSell `{!Uint256Lib} `{!AssetSpec Node} nm a k
    (Q : outcome (option U256) -> World Node S -> Prop) w :
  (forall r n, spec_can_sell nm a k (wnode w) = (r, n) ->
     Q r (mkWorld (wst w) n (wtrace w ++ [EvSpec (CanSellQ nm a k)]))) ->
  wp (CanSell nm a k) Q w.
Proof. unfold wp, CanSell. destruct (spec_can_sell nm a k (wnode w)). auto. Qed.

Lemma wp_CanBuy `{!Uint256Lib} `{!AssetSpec Node} nm a k
    (Q : outcome bool -> World Node S -> Prop) w :
  (forall r n, spec_can_buy nm a k (wnode w) = (r, n) ->
     Q r (mkWorld (wst w) n (wtrace w ++ [EvSpec (CanBuyQ nm a k)]))) ->
  wp (CanBuy nm a k) Q w.
Proof. unfold wp, CanBuy. destruct (spec_can_buy nm a k (wnode w)). auto. Qed.

Lemma wp_GetCurrentTime `{!Clock Node} (Q : outcome Z -> World Node S -> Prop) w :
  (forall t n, clock_now (wnode w) = (t, n) ->
     Q (Ret t) (mkWorld (wst w) n (wtrace w))) ->
  wp GetCurrentTime Q w.
Proof. unfold wp, GetCurrentTime. destruct (clock_now (wnode w)). auto. Qed.

Lemma wp_catch {A} (m h : M Node S A) Q w :
  wp m (fun o w' => match o with
                    | Throw (JsonRpcException _) => wp h Q w'
                    | o => Q o w'
                    end) w ->
  wp (catch_rpc m h) Q w.
Proof. unfold wp, catch_rpc. by destruct (m w) as [[|[]|] ?]. Qed.

Lemma wp_ReadState `{HasState S} {A} (f : State -> A)
    (Q : outcome A -> World Node S -> Prop) w :
  Q (Ret (f (proj (wst w)))) w -> wp (ReadState f) Q w.
Proof. done. Qed.

End wp.

Lemma wp_zoom `{JsonLib} {Node S T A} (g : S -> T) (p : T -> S -> S) (m : M Node T A)
    (Q : outcome A -> World Node S -> Prop) w :
  wp m (fun o w' => Q o (mkWorld (p (wst w') (wst w)) (wnode w') (wtrace w')))
     (mkWorld (g (wst w)) (wnode w) (wtrace w)) ->
  wp (zoom g p m) Q w.
Proof. unfold wp, zoom. by destruct (m _) as [o w']. Qed.

Lemma wp_local `{JsonLib} {Node S T A} (t : T) (m : M Node T A)
    (Q : outcome (A * T) -> World Node S -> Prop) w :
  wp m (fun o w' =>
    let w2 := mkWorld (wst w) (wnode w') (wtrace w') in
    match o with
    | Ret a => Q (Ret (a, wst w')) w2
    | Throw e => Q (Throw e) w2
    | Fatal => Q Fatal w2
    end) (mkWorld t (wnode w) (wtrace w)) ->
  wp (local t m) Q w.
Proof. unfold wp, local. by destruct (m _) as [[] w']. Qed.

Lemma wp_AccessState `{JsonLib} {Node S A} `{HasState S} (m : M Node State A)
    (Q : outcome A -> World Node S -> Prop) w :
  wp m (fun o w' => Q o (mkWorld (inj (wst w') (wst w)) (wnode w') (wtrace w')))
     (mkWorld (proj (wst w)) (wnode w) (wtrace w)) ->
  wp (AccessState m) Q w.
Proof. apply wp_zoom. Qed.

(** One step of symbolic execution. *)
Ltac wp_step :=
  lazymatch goal with
  | |- wp (mret _) _ _ => apply wp_ret
  | |- wp (_ ≫= _) _ _ => apply wp_bind
  | |- wp get _ _ => apply wp_get
  | |- wp (modify _) _ _ => apply wp_modify
  | |- wp (put _) _ _ => apply wp_put
  | |- wp (throw _) _ _ => apply wp_throw
  | |- wp fatal _ _ => apply wp_fatal
  | |- wp (check _) _ _ => apply wp_check; intro
  | |- wp (json _) _ _ => apply wp_json; [intros ? ?|intros ?]
  | |- wp (check_some _) _ _ => apply wp_check_some; [intros ? ?|intros ?]
  | |- wp (lift_outcome _) _ _ => apply wp_lift_outcome
  | |- wp (xaya ?c) _ _ => apply (wp_xaya c); intros [?|?] ? ?
  | |- wp (checktrade _) _ _ => apply wp_checktrade; intros [?|?] ? ?
  | |- wp (IsAsset _) _ _ => apply wp_IsAsset; intros [?|?|] ? ?
  | |- wp (CanSell _ _ _) _ _ => apply wp_CanSell; intros [?|?|] ? ?
  | |- wp (CanBuy _ _ _) _ _ => apply wp_CanBuy; intros [?|?|] ? ?
  | |- wp GetCurrentTime _ _ => apply wp_GetCurrentTime; intros ? ? ?
  | |- wp (catch_rpc _ _) _ _ => apply wp_catch
  | |- wp (ReadState _) _ _ => apply wp_ReadState
  | |- wp (zoom _ _ _) _ _ => apply wp_zoom
  | |- wp (local _ _) _ _ => apply wp_local
  | |- wp (AccessState _) _ _ => apply wp_AccessState
  end; cbn [then_post rpc_reply wst wnode wtrace] in *.

(** Use the specification [L] of the next operation. *)
Tactic Notation "wp_use" uconstr(L) :=
  first [apply wp_bind, L | apply L]; cbn [then_post].

(** The next wallet call, whose reply is known by [Hr]. *)
Ltac wp_call Hr :=
  lazymatch goal with |- wp (_ ≫= _) _ _ => apply wp_bind | _ => idtac end;
  lazymatch goal with |- wp (xaya ?c) _ _ =>
    eapply (wp_xaya_known c); [exact Hr|] end;
  cbn [then_post rpc_reply wst wnode wtrace].

(** Prove a fact about the result of a run by symbolic execution. *)
Ltac by_wp Hr :=
  lazymatch type of Hr with
  | ?m ?w = (?o, ?w') =>
      pattern o, w';
      lazymatch goal with
      | |- ?Q _ _ => refine (wp_run_eq m Q w o w' _ Hr); clear Hr
      end
  end.

(** Close a branch in which the operation fails by the hypothesis [HE] for
    failures, leaving the reason it cannot be reached. *)
Ltac wp_err HE :=
  lazymatch goal with
  | |- forall o, is_err o -> _ =>
      first [apply then_post_err, HE | apply HE]
  | |- _ -> _ => let Hn := fresh "Hn" in intro Hn; wp_err HE
  | |- _ => apply HE; [|done]
  end.

(* ------------------------------------------------------------------ *)
(** ** Frames: what an operation leaves alone

    [steps R m]: running [m] moves the world along [R].  For a preorder [R]
    this is closed under sequencing, so a component's frame property is
    proved by walking through its code. *)

Definition steps `{JsonLib} {Node S A} (R : relation (World Node S)) (m : M Node S A)
  : Prop := forall w, R w (snd (m w)).

Section steps.
Context `{JsonLib} {Node S : Type} (R : relation (World Node S)).

Lemma steps_wp {A} (m : M Node S A) w : steps R m -> wp m (fun _ w' => R w w') w.
Proof. intros Hm. unfold wp. specialize (Hm w). by destruct (m w). Qed.

Lemma wp_steps {A} (m : M Node S A) :
  (forall w, wp m (fun _ w' => R w w') w) -> steps R m.
Proof. intros Hm w. specialize (Hm w). unfold wp in Hm. by destruct (m w). Qed.

Context `{!PreOrder R}.

Lemma steps_ret {A} (a : A) : steps R (mret a).
Proof. intros w. apply PreOrder_Reflexive. Qed.

Lemma steps_bind {A B} (m : M Node S A) (f : A -> M Node S B) :
  steps R m -> (forall a, steps R (f a)) -> steps R (m ≫= f).
Proof.
  intros Hm Hf w. unfold mbind, M_bind. specialize (Hm w).
  destruct (m w) as [[a|e|] w']; cbn in *; try done.
  etransitivity; [exact Hm|apply Hf].
Qed.

Lemma steps_get : steps R get.
Proof. intros w. apply PreOrder_Reflexive. Qed.

Lemma steps_throw {A} e : steps R (throw (A:=A) e).
Proof. intros w. apply PreOrder_Reflexive. Qed.

Lemma steps_fatal {A} : steps R (fatal (A:=A)).
Proof. intros w. apply PreOrder_Reflexive. Qed.

Lemma steps_check b : steps R (check b).
Proof. intros w. destruct b; apply PreOrder_Reflexive. Qed.

Lemma steps_json {A} (o : option A) : steps R (json o).
Proof. intros w. destruct o; apply PreOrder_Reflexive. Qed.

Lemma steps_check_some {A} (o : option A) : steps R (check_some o).
Proof. intros w. destruct o; apply PreOrder_Reflexive. Qed.

Lemma steps_lift_outcome {A} (o : outcome A) : steps R (lift_outcome o).
Proof. intros w. apply PreOrder_Reflexive. Qed.

Lemma steps_catch {A} (m h : M Node S A) :
  steps R m -> steps R h -> steps R (catch_rpc m h).
Proof.
  intros Hm Hh w. unfold catch_rpc. specialize (Hm w).
  destruct (m w) as [[|[]|] w']; cbn in *; try done.
  etransitivity; [exact Hm|apply Hh].
Qed.

End steps.

(** The frame of an operation that only talks to external services: the
    state is unchanged and every new event of the trace satisfies [P]. *)
Definition only_calls `{JsonLib} {Node S} (P : Event -> Prop)
    (w w' : World Node S) : Prop :=
  wst w' = wst w /\ exists l, wtrace w' = wtrace w ++ l /\ Forall P l.

(** The trace grows by events that satisfy [P]; the state is free. *)
Definition calls `{JsonLib} {Node S} (P : Event -> Prop)
    (w w' : World Node S) : Prop :=
  exists l, wtrace w' = wtrace w ++ l /\ Forall P l.

#[export] Instance calls_preorder `{JsonLib} {Node S} P :
  PreOrder (calls (Node:=Node) (S:=S) P).
Proof.
  split.
  - intros w. exists []. by rewrite app_nil_r.
  - intros w1 w2 w3 (l1 & H1 & F1) (l2 & H2 & F2).
    exists (l1 ++ l2). split; [by rewrite H2, H1, <-app_assoc|].
    by apply Forall_app_2.
Qed.

#[export] Instance only_calls_preorder `{JsonLib} {Node S} P :
  PreOrder (only_calls (Node:=Node) (S:=S) P).
Proof.
  split.
  - intros w. split; [done|]. exact (PreOrder_Reflexive (R:=calls P) w).
  - intros w1 w2 w3 [E1 C1] [E2 C2]. split; [by rewrite E2|].
    exact (PreOrder_Transitive (R:=calls P) _ _ _ C1 C2).
Qed.

Section frames.
Context `{JsonLib} {Node S : Type} (P : Event -> Prop).

Lemma only_calls_xaya `{!XayaRpc Node} c :
  (forall r, P (EvXaya c r)) -> steps (S:=S) (only_calls P) (xaya c).
Proof.
  intros Hc w. unfold xaya. destruct (xaya_rpc c (wnode w)) as [r n]. split; [done|].
  exists [EvXaya c r]. by repeat constructor.
Qed.

Lemma only_calls_checktrade `{!DemGspRpc Node} b :
  (forall r, P (EvGsp b r)) -> steps (S:=S) (only_calls P) (checktrade b).
Proof.
  intros Hc w. unfold checktrade. destruct (gsp_rpc b (wnode w)) as [r n]. split; [done|].
  exists [EvGsp b r]. by repeat constructor.
Qed.

Lemma only_calls_IsAsset `{!Uint256Lib} `{!AssetSpec Node} a :
  P (EvSpec (IsAssetQ a)) -> steps (S:=S) (only_calls P) (IsAsset a).
Proof.
  intros Hc w. unfold IsAsset. destruct (spec_is_asset a (wnode w)). split; [done|].
  eexists [_]. by repeat constructor.
Qed.

Lemma only_calls_CanSell `{!Uint256Lib} `{!AssetSpec Node} nm a k :
  P (EvSpec (CanSellQ nm a k)) -> steps (S:=S) (only_calls P) (CanSell nm a k).
Proof.
  intros Hc w. unfold CanSell. destruct (spec_can_sell nm a k (wnode w)). split; [done|].
  eexists [_]. by repeat constructor.
Qed.

Lemma only_calls_CanBuy `{!Uint256Lib} `{!AssetSpec Node} nm a k :
  P (EvSpec (CanBuyQ nm a k)) -> steps (S:=S) (only_calls P) (CanBuy nm a k).
Proof.
  intros Hc w. unfold CanBuy. destruct (spec_can_buy nm a k (wnode w)). split; [done|].
  eexists [_]. by repeat constructor.
Qed.

Lemma only_calls_time `{!Clock Node} : steps (S:=S) (only_calls P) GetCurrentTime.
Proof.
  intros w. unfold GetCurrentTime. destruct (clock_now (wnode w)). split; [done|].
  exists []. by rewrite app_nil_r.
Qed.

Lemma only_calls_calls {A} (m : M Node S A) :
  steps (only_calls P) m -> steps (calls P) m.
Proof. intros Hm w. apply Hm. Qed.

Lemma calls_modify f : steps (Node:=Node) (S:=S) (calls P) (modify f).
Proof. intros w. exists []. by rewrite app_nil_r. Qed.

End frames.

#[export] Hint Resolve steps_ret steps_bind steps_get steps_throw steps_fatal
  steps_check steps_json steps_check_some steps_lift_outcome steps_catch
  only_calls_xaya only_calls_checktrade only_calls_IsAsset only_calls_CanSell
  only_calls_CanBuy only_calls_time calls_modify : dem.

(** An operation that only queries, and what its own calls say about its
    result. *)
Lemma wp_log `{JsonLib} {Node S A} (P : Event -> Prop) (m : M Node S A)
    (R : outcome A -> list Event -> Prop) (Q : outcome A -> World Node S -> Prop) w :
  steps (only_calls P) m ->
  wp m (fun o w' => forall l, wtrace w' = wtrace w ++ l -> R o l) w ->
  (forall o n l, Forall P l -> R o l -> Q o (mkWorld (wst w) n (wtrace w ++ l))) ->
  wp m Q w.
Proof.
  intros Hs Hw HQ. specialize (Hs w). unfold wp in *. destruct (m w) as [o [s n t]].
  destruct Hs as [Hst (l & Ht & Hl)]. cbn [wst wtrace snd] in *. subst s t. apply HQ; auto.
Qed.

Lemma wp_only_calls `{JsonLib} {Node S A} (P : Event -> Prop) (m : M Node S A)
    (Q : outcome A -> World Node S -> Prop) w :
  steps (only_calls P) m ->
  (forall o n l, Forall P l -> Q o (mkWorld (wst w) n (wtrace w ++ l))) -> wp m Q w.
Proof. intros Hs HQ. apply (wp_log P m (fun _ _ => True)); [done|by apply wp_intro|auto]. Qed.

(** Walk through an operation's code; calls of other operations are left
    unless a hint of the database closes them. *)
Ltac steps_auto :=
  repeat lazymatch goal with
  | |- forall _, _ => intro
  | |- steps _ (_ ≫= _) => apply steps_bind; [typeclasses eauto| |]
  | |- steps _ (mret _) => apply steps_ret; typeclasses eauto
  | |- steps _ get => apply steps_get; typeclasses eauto
  | |- steps _ (throw _) => apply steps_throw; typeclasses eauto
  | |- steps _ fatal => apply steps_fatal; typeclasses eauto
  | |- steps _ (check _) => apply steps_check; typeclasses eauto
  | |- steps _ (json _) => apply steps_json; typeclasses eauto
  | |- steps _ (check_some _) => apply steps_check_some; typeclasses eauto
  | |- steps _ (lift_outcome _) => apply steps_lift_outcome; typeclasses eauto
  | |- steps _ (catch_rpc _ _) => apply steps_catch; [typeclasses eauto| |]
  | |- steps _ (xaya ?c) => apply (only_calls_xaya _ c)
  | |- steps _ (checktrade _) => apply only_calls_checktrade
  | |- steps _ (IsAsset _) => apply only_calls_IsAsset
  | |- steps _ (CanSell _ _ _) => apply only_calls_CanSell
  | |- steps _ (CanBuy _ _ _) => apply only_calls_CanBuy
  | |- steps _ GetCurrentTime => apply only_calls_time
  | |- steps (calls _) (modify _) => apply calls_modify
  | |- steps _ (let _ := _ in _) => cbv zeta
  | |- steps _ (match _ with _ => _ end) => case_match
  | |- steps _ _ => solve [eauto with dem]
  end.
