(* ===== verification/Mock.v ===== *)
(** * A concrete environment

    A wallet, GSP, game and clock given by tables, together with the
    concrete JSON values of [Json].  The components are written against the
    interfaces of [Json] and [Effects]; this instance shows that those
    interfaces have inhabitants, and it is what the witnesses of the
    theorems run on. *)

From Stdlib Require Import ZArith Lia String.
From stdpp Require Import base gmap strings list.
From S2P Require Import Prelude Json Proto Effects.

Module Mock.

#[export] Existing Instance JsonModel.lib.
#[export] Existing Instance JsonModel.laws.

(** Block hashes are their own hex form. *)
#[export] Instance uint256 : Uint256Lib := {
  U256 := string;
  u256_eqb := String.eqb;
  to_hex s := s;
  from_hex := Some
}.

#[export] Instance uint256_laws : Uint256Laws.
Proof. split; [apply String.eqb_eq|done]. Qed.

(** Coin amounts are written with eight decimals. *)
#[export] Instance amount : AmountLib := {
  ChiAmountToJson := JsonModel.VReal;
  ChiAmountFromJson v :=
    match v with
    | JsonModel.VReal m => Some m
    | JsonModel.VInt z => Some (z * 100000000)
    | _ => None
    end;
  overflowing_total := wrapping_total
}.

#[export] Instance amount_wraps : WrappingAmounts.
Proof. intros price units. reflexivity. Qed.

(** Maps are iterated in the order of [map_to_list]. *)
#[export] Instance runtime : ProtoRuntime := {
  iter K A _ _ m := map_to_list m;
  moved_from _ := empty_order;
  moved_from_trade _ := empty_trade
}.

#[export] Instance runtime_laws : ProtoRuntimeLaws.
Proof. intros K A ? ? m. reflexivity. Qed.

Record Node := mkNode {
  n_xaya : forall c : XayaCall, string + XayaResp c;
  n_gsp : string -> string + Json;
  n_asset : string -> bool;
  n_can_sell : string -> string -> Z -> option string;
  n_can_buy : string -> string -> Z -> bool;
  n_now : Z
}.

#[export] Instance xaya_node : XayaRpc Node := fun c n => (n_xaya n c, n).
#[export] Instance gsp_node : DemGspRpc Node := fun b n => (n_gsp n b, n).
#[export] Instance clock_node : Clock Node := fun n => (n_now n, n).

(** The game "nf"; a move is the list of its arguments. *)
#[export] Instance spec_node : AssetSpec Node := {
  GetGameId := "nf";
  spec_is_asset a n := (Ret (n_asset n a), n);
  spec_can_sell nm a k n := (Ret (n_can_sell n nm a k), n);
  spec_can_buy nm a k n := (Ret (n_can_buy n nm a k), n);
  GetTransferMove s r a k :=
    Ret (jappend (jappend (jappend (jappend jarray (jstr s)) (jstr r)) (jstr a)) (jint k))
}.

(** A wallet that refuses every call, to be refined by a table. *)
Definition refuse (c : XayaCall) : string + XayaResp c := inl "refused".

Definition node_of (x : forall c : XayaCall, string + XayaResp c) : Node :=
  mkNode x (fun _ => inl "refused") (fun _ => true) (fun _ _ _ => None)
    (fun _ _ _ => true) 0.

Definition world_of {N S} (s : S) (n : N) : World N S := mkWorld s n [].

(** A JSON object from its members. *)
Definition obj (l : list (string * Json)) : Json :=
  fold_left (fun o kv => jset o kv.1 kv.2) l jobject.

Definition arr (l : list Json) : Json := fold_left jappend l jarray.

(** An output, an input and a decoded PSBT as Xaya Core writes them. *)
Definition pay_out (addr : string) (sat : Z) : Json :=
  obj [("value", ChiAmountToJson sat);
       ("scriptPubKey", obj [("addresses", arr [jstr addr])])].

Definition name_out (addr name value : string) : Json :=
  obj [("value", ChiAmountToJson 1000000);
       ("scriptPubKey",
         obj [("address", jstr addr);
              ("nameOp", obj [("op", jstr "name_update");
                              ("name", jstr name); ("name_encoding", jstr "utf8");
                              ("value", jstr value); ("value_encoding", jstr "utf8")])])].

Definition tx_in (txid : string) (n : Z) : Json :=
  obj [("txid", jstr txid); ("vout", jint n)].

Definition psbt (btxid : string) (vin vout ins : list Json) : Json :=
  obj [("tx", obj [("btxid", jstr btxid); ("vin", arr vin); ("vout", arr vout)]);
       ("inputs", arr ins)].

(** A chain of four blocks, b0 to b3. *)
Definition blk (s : string) : U256 := s.

Definition parent (h : U256) : option U256 :=
  if String.eqb h "b3" then Some "b2" else if String.eqb h "b2" then Some "b1"
  else if String.eqb h "b1" then Some "b0" else None.

Definition header (h : U256) : Json :=
  match parent h with
  | Some q => obj [("hash", jstr h); ("previousblockhash", jstr q)]
  | None => obj [("hash", jstr h)]
  end.

(** The value of the seller's name update in the trade of 2 "gold" at 5
    satoshi from "alice" to "bob". *)
Definition move : string :=
  jwrite (obj [("g", obj [("nf", arr [jstr "alice"; jstr "bob"; jstr "gold"; jint 2]);
                          ("dem", jobject)])]).

Definition trade_outs : list Json :=
  [pay_out "change" 7; pay_out "addr-chi" 10; name_out "addr-name" "p/alice" move].

(** PSBTs by name: unsigned, signed by the seller only at its name input,
    signed by the buyer at its coin input, and signed by both. *)
Definition decode (p : string) : Json :=
  let sig := obj [("final", jstr "sig")] in
  let ins :=
    if String.eqb p "seller-signed" then [jobject; sig]
    else if String.eqb p "buyer-signed" then [sig; jobject]
    else if String.eqb p "full" then [sig; sig]
    else [jobject; jobject] in
  psbt "btx" [tx_in "coin" 3; tx_in "nametx" 1] trade_outs ins.

(** The wallet of these examples. *)
Definition wallet (c : XayaCall) : string + XayaResp c :=
  match c with
  | getnewaddress => inr "addr-new"
  | name_show _ => inr (tx_in "nametx" 1)
  | gettxout _ _ => inr (obj [("bestblock", jstr "b1")])
  | getblockheader h => inr (header h)
  | decodepsbt p => inr (decode p)
  | walletcreatefundedpsbt _ _ _ _ => inr (obj [("psbt", jstr "funded")])
  | createpsbt _ _ => inr "created"
  | namepsbt _ _ _ => inr (obj [("psbt", jstr "named")])
  | joinpsbts _ => inr "joined"
  | walletprocesspsbt p =>
      inr (obj [("psbt", jstr (if String.eqb p "joined" then "buyer-signed"
                               else if String.eqb p "buyer-signed" then "full"
                               else "seller-signed"));
                ("complete", jbool (String.eqb p "buyer-signed"))])
  | lockunspent _ _ => inr true
  | combinepsbt _ => inr "combined"
  | finalizepsbt _ => inr (obj [("complete", jbool true); ("hex", jstr "hex")])
  | sendrawtransaction _ => inr "txid"
  end.

(** The GSP reports the trade as confirmed at height 100, with 110 blocks. *)
Definition gsp (btxid : string) : string + Json :=
  inr (obj [("height", jint 110);
            ("data", obj [("state", jstr (if String.eqb btxid "btx" then "confirmed" else "unknown"));
                          ("height", jint 100)])]).

Definition node : Node :=
  mkNode wallet gsp (fun _ => true)
    (fun _ _ n => if n <=? 5 then Some "b3" else None) (fun _ _ _ => true) 1000.

(** The same environment as one that never changes. *)
Inductive Fixed := fixed.
#[export] Instance xaya_fixed : XayaRpc Fixed := fun c n => (wallet c, n).
#[export] Instance spec_fixed : AssetSpec Fixed := {
  GetGameId := "nf";
  spec_is_asset a n := (Ret true, n);
  spec_can_sell nm a k n := (Ret (if k <=? 5 then Some "b3" else None), n);
  spec_can_buy nm a k n := (Ret true, n);
  GetTransferMove := GetTransferMove (AssetSpec := spec_node)
}.

End Mock.
