(* ===== verification/Checker.v ===== *)
(** * The trade checker ([src/checker.cpp], [src/private/checker.hpp])

    The verification a party does before it signs: the total of the trade,
    the seller's outputs, the inputs that signing changed, and (for the
    buyer) that the seller can deliver.  The methods only call external
    services, so they run over any state [S]. *)

From Stdlib Require Import ZArith Lia String.
From stdpp Require Import base gmap strings list.
From S2P Require Import Prelude Json Proto Effects Mock.

Record TradeChecker := mkTradeChecker {
  tc_buyer : string;
  tc_seller : string;
  tc_asset : string;
  tc_price : Z;
  tc_units : Z
}.

(** How many blocks back the GSP block is followed. *)
Definition MAX_BLOCK_ANCESTORS_CHECKED : nat := 3.

Definition GetXayaName (account : string) : string := "p/" +:+ account.

Section checker.
Context `{JsonLib} `{!Uint256Lib} `{!AmountLib} {Node : Type} `{!XayaRpc Node}
  `{!AssetSpec Node} {S : Type}.
Implicit Types tc : TradeChecker.

(** [v[k]] *)
Definition field (v : Json) (k : string) : M Node S Json := json (jget v k).

Definition OutPointFromJson (val : Json) : M Node S OutPoint :=
  check (is_object val);;
  outTxid ← field val "txid";
  outVout ← field val "vout";
  check (is_string outTxid && is_uint outVout);;
  hash ← json (as_string outTxid);
  n ← json (as_uint outVout);
  mret (mkOutPoint (Some hash) (Some n)).

Definition GetNameOutPoint (account : string) : M Node S OutPoint :=
  r ← xaya (name_show (GetXayaName account));
  OutPointFromJson r.

(** The name value both parties compute; aborts if the asset
    specification's [GetTransferMove] does. *)
Definition GetNameUpdateValue tc : outcome string :=
  match GetTransferMove (tc_seller tc) (tc_buyer tc) (tc_asset tc) (tc_units tc) with
  | Ret mv =>
      let g := jset (jset jobject GetGameId mv) "dem" jobject in
      Ret (jwrite (jset jobject "g" g))
  | Throw e => Throw e
  | Fatal => Fatal
  end.

(** [None] is the return value false.  The product is an [int64_t]; if it does
    not fit, its evaluation is undefined and with it the whole method. *)
Definition GetTotalSat tc : M Node S (option Z) :=
  let total := tc_price tc * tc_units tc in
  if negb (bool_decide (is_s64 total))
  then lift_outcome (overflowing_total (tc_price tc) (tc_units tc))
  else
    check (0 <? tc_units tc);;
    if negb (cdiv total (tc_units tc) =? tc_price tc) then mret None
    else mret (Some total).

Fixpoint IsBlockAncestor (ancestor child : U256) (n : nat) : M Node S bool :=
  if u256_eqb ancestor child then mret true
  else match n with
  | O => mret false
  | Datatypes.S n' =>
      childData ← xaya (getblockheader (to_hex child));
      check (is_object childData);;
      prevVal ← field childData "previousblockhash";
      if is_null prevVal then mret false
      else
        check (is_string prevVal);;
        s ← json (as_string prevVal);
        parent ← check_some (from_hex s);
        IsBlockAncestor ancestor parent n'
  end.

(** [None] is the return value false; [Some p] returns true and sets the
    name input to [p]. *)
Definition CheckForBuyerTrade tc : M Node S (option OutPoint) :=
  isAsset ← IsAsset (tc_asset tc);
  if negb isAsset then mret None
  else
    canBuy ← CanBuy (tc_buyer tc) (tc_asset tc) (tc_units tc);
    if negb canBuy then mret None
    else
      nameInput ← GetNameOutPoint (tc_seller tc);
      utxoData ← xaya (gettxout (hash_of nameInput) (n_of nameInput));
      if is_null utxoData then mret None
      else
        check (is_object utxoData);;
        utxoBlockVal ← field utxoData "bestblock";
        check (is_string utxoBlockVal);;
        s ← json (as_string utxoBlockVal);
        utxoBlock ← check_some (from_hex s);
        sell ← CanSell (tc_seller tc) (tc_asset tc) (tc_units tc);
        match sell with
        | None => mret None
        | Some gspBlock =>
            anc ← IsBlockAncestor utxoBlock gspBlock MAX_BLOCK_ANCESTORS_CHECKED;
            if negb anc then mret None else mret (Some nameInput)
        end.

(** The number of positions at which two arrays differ. *)
Definition count_modified (before after : list Json) : nat :=
  length (filter (fun i => jeqb (nth i before jnull) (nth i after jnull) = false)
            (seq 0 (length before))).

Definition CheckForBuyerSignature (beforeStr afterStr : string) : M Node S bool :=
  before ← xaya (decodepsbt beforeStr);
  after ← xaya (decodepsbt afterStr);
  txB ← field before "tx";
  txA ← field after "tx";
  check (jeqb txB txA);;
  inputsBefore ← field before "inputs";
  check (is_array inputsBefore);;
  inputsAfter ← field after "inputs";
  check (is_array inputsAfter);;
  check (length (jelems inputsBefore) =? length (jelems inputsAfter))%nat;;
  let count := count_modified (jelems inputsBefore) (jelems inputsAfter) in
  mret (count + 1 =? length (jelems inputsBefore))%nat.

Definition MatchesAddress (scriptPubKey : Json) (addr : string) : M Node S bool :=
  check (is_object scriptPubKey);;
  addresses ← field scriptPubKey "addresses";
  let a0 := jnth addresses 0 in
  if is_array addresses && (length (jelems addresses) =? 1)%nat && is_string a0
     && bool_decide (as_string a0 = Some addr)
  then mret true
  else
    address ← field scriptPubKey "address";
    mret (is_string address && bool_decide (as_string address = Some addr)).

(** [nameOp[k].asString () != s] *)
Definition member_is (v : Json) (k s : string) : M Node S bool :=
  x ← field v k;
  str ← json (as_string x);
  mret (String.eqb str s).

(** One iteration of the loop over the outputs that holds a name operation:
    whether it is the expected name update. *)
Definition is_expected_name_op tc (sd : SellerData) (scriptPubKey nameOp : Json)
  : M Node S bool :=
  nenc ← member_is nameOp "name_encoding" "utf8";
  check nenc;;
  venc ← member_is nameOp "value_encoding" "utf8";
  check venc;;
  check (is_member nameOp "name" && is_member nameOp "value");;
  op ← member_is nameOp "op" "name_update";
  if negb op then mret false
  else
    nm ← member_is nameOp "name" (GetXayaName (tc_seller tc));
    if negb nm then mret false
    else
      vx ← field nameOp "value";
      vs ← json (as_string vx);
      upd ← lift_outcome (GetNameUpdateValue tc);
      if negb (String.eqb vs upd) then mret false
      else MatchesAddress scriptPubKey (name_address_of sd).

(** One iteration for an output without a name operation: whether it is the
    expected payment. *)
Definition is_expected_payment (sd : SellerData) (expectedTotal : Z)
    (out scriptPubKey : Json) : M Node S bool :=
  m ← MatchesAddress scriptPubKey (chi_address_of sd);
  if negb m then mret false
  else
    v ← field out "value";
    payment ← check_some (ChiAmountFromJson v);
    mret (negb (payment <? expectedTotal)).

Fixpoint check_outputs tc (sd : SellerData) (expectedTotal : Z) (vout : list Json)
    (foundChi foundName : bool) : M Node S (bool * bool) :=
  match vout with
  | [] => mret (foundChi, foundName)
  | out :: vout' =>
      check (is_object out);;
      scriptPubKey ← field out "scriptPubKey";
      check (is_object scriptPubKey);;
      nameOp ← field scriptPubKey "nameOp";
      if is_object nameOp then
        r ← is_expected_name_op tc sd scriptPubKey nameOp;
        check_outputs tc sd expectedTotal vout' foundChi (foundName || r)
      else
        check (is_null nameOp);;
        r ← is_expected_payment sd expectedTotal out scriptPubKey;
        check_outputs tc sd expectedTotal vout' (foundChi || r) foundName
  end.

Definition CheckForSellerOutputs tc (psbt : string) (sd : SellerData) : M Node S bool :=
  check (has (sd_chi_address sd) && has (sd_name_address sd));;
  decoded ← xaya (decodepsbt psbt);
  check (is_object decoded);;
  tx ← field decoded "tx";
  check (is_object tx);;
  vout ← field tx "vout";
  check (is_array vout);;
  total ← GetTotalSat tc;
  match total with
  | None => mret false
  | Some expectedTotal =>
      check (0 <=? expectedTotal);;
      '(foundChi, foundName) ←
        check_outputs tc sd expectedTotal (jelems vout) (expectedTotal =? 0) false;
      if negb foundChi then mret false else mret foundName
  end.

(** The index of the first input that spends [hash:n], from position [i]. *)
Fixpoint find_input (vin : list Json) (hash : string) (n : Z) (i : nat)
  : M Node S (option nat) :=
  match vin with
  | [] => mret None
  | inp :: vin' =>
      check (is_object inp);;
      hashVal ← field inp "txid";
      check (is_string hashVal);;
      nVal ← field inp "vout";
      check (is_uint nVal);;
      h ← json (as_string hashVal);
      k ← json (as_uint nVal);
      if String.eqb h hash && (k =? n) then mret (Some i)
      else find_input vin' hash n (Datatypes.S i)
  end.

(** Whether two arrays of the same length agree everywhere but at [skip]. *)
Definition unmodified_except (skip : nat) (before after : list Json) : bool :=
  forallb (fun i => (i =? skip)%nat || jeqb (nth i before jnull) (nth i after jnull))
    (seq 0 (length before)).

Definition CheckForSellerSignature (beforeStr afterStr : string) (sd : SellerData)
  : M Node S bool :=
  check (has (sd_name_output sd));;
  let nmOut := name_output_of sd in
  check (has (op_hash nmOut) && has (op_n nmOut));;
  before ← xaya (decodepsbt beforeStr);
  after ← xaya (decodepsbt afterStr);
  txB ← field before "tx";
  txA ← field after "tx";
  check (jeqb txB txA);;
  check (is_object txB);;
  vin ← field txB "vin";
  check (is_array vin);;
  inputIndex ← find_input (jelems vin) (hash_of nmOut) (n_of nmOut) 0;
  match inputIndex with
  | None => mret false
  | Some idx =>
      inputsBefore ← field before "inputs";
      check (is_array inputsBefore);;
      inputsAfter ← field after "inputs";
      check (is_array inputsAfter);;
      check (length (jelems inputsBefore) =? length (jelems inputsAfter))%nat;;
      mret (unmodified_except idx (jelems inputsBefore) (jelems inputsAfter))
  end.

End checker.

(* ------------------------------------------------------------------ *)
(** ** What the checks mean, on the decoded JSON *)

Section specs.
Context `{JsonLib} `{!Uint256Lib} `{!AmountLib} {Node : Type} `{!XayaRpc Node}
  `{!AssetSpec Node}.

(** The script pays exactly the address [addr]. *)
Definition pays_address (spk : Json) (addr : string) : Prop :=
  (exists arr x, jget spk "addresses" = Some arr /\ is_array arr = true /\
     jelems arr = [x] /\ is_string x = true /\ as_string x = Some addr) \/
  (exists x, jget spk "address" = Some x /\ is_string x = true /\
     as_string x = Some addr).

(** Member [k] of [v] reads as the string [s]. *)
Definition reads_string (v : Json) (k s : string) : Prop :=
  exists x, jget v k = Some x /\ as_string x = Some s.

(** The output updates the seller's name to the trade's value, at the
    seller's name address. *)
Definition updates_name (tc : TradeChecker) (sd : SellerData) (out : Json) : Prop :=
  exists spk op v,
    jget out "scriptPubKey" = Some spk /\ jget spk "nameOp" = Some op /\
    is_object op = true /\
    reads_string op "op" "name_update" /\
    reads_string op "name" (GetXayaName (tc_seller tc)) /\
    GetNameUpdateValue tc = Ret v /\ reads_string op "value" v /\
    pays_address spk (name_address_of sd).

(** The output pays the seller at least [total], and is not a name operation. *)
Definition pays_total (sd : SellerData) (total : Z) (out : Json) : Prop :=
  exists spk op v pay,
    jget out "scriptPubKey" = Some spk /\ jget spk "nameOp" = Some op /\
    is_object op = false /\
    pays_address spk (chi_address_of sd) /\
    jget out "value" = Some v /\ ChiAmountFromJson v = Some pay /\ total <= pay.

(** Member [k] of [v] is a string. *)
Definition readable (v : Json) (k : string) : Prop := exists s, reads_string v k s.

(** The shape Xaya Core documents for a name operation inside a decoded
    output when both encodings are configured as UTF-8. *)
Definition wf_name_op (op : Json) : Prop :=
  is_object op = true /\ reads_string op "name_encoding" "utf8" /\
  reads_string op "value_encoding" "utf8" /\
  is_member op "name" = true /\ is_member op "value" = true /\
  readable op "op" /\ readable op "name" /\ readable op "value".

(** The documented shape of a decoded output. *)
Definition wf_output (out : Json) : Prop :=
  is_object out = true /\
  exists spk op, jget out "scriptPubKey" = Some spk /\ is_object spk = true /\
    jget spk "nameOp" = Some op /\
    (wf_name_op op \/
     is_object op = false /\ is_null op = true /\
     exists v pay, jget out "value" = Some v /\ ChiAmountFromJson v = Some pay).

(** The documented shape of a decoded input. *)
Definition wf_input (inp : Json) : Prop :=
  is_object inp = true /\
  (exists h, jget inp "txid" = Some h /\ is_string h = true) /\
  (exists k, jget inp "vout" = Some k /\ is_uint k = true).

(** The total of a trade: price times units if that fits an amount, and
    otherwise what the compiled program takes for it (nothing, in a build in
    which arithmetic wraps: [agreed_total_wraps]). *)
Definition agreed_total (tc : TradeChecker) (total : Z) : Prop :=
  if bool_decide (is_s64 (tc_price tc * tc_units tc)) then total = tc_price tc * tc_units tc
  else overflowing_total (tc_price tc) (tc_units tc) = Ret (Some total).

(** What the seller demands of the outputs of the transaction it signs. *)
Definition acceptable_outputs (tc : TradeChecker) (sd : SellerData) (outs : list Json)
  : Prop :=
  exists total, agreed_total tc total /\ 0 <= total /\
    (total = 0 \/ Exists (pays_total sd total) outs) /\ Exists (updates_name tc sd) outs.

(** The name input [hash:n] is among the inputs, first at [idx]. *)
Definition first_input (vin : list Json) (hash : string) (n : Z) (idx : nat) : Prop :=
  (exists i, vin !! idx = Some i /\ reads_string i "txid" hash /\
     exists x, jget i "vout" = Some x /\ as_uint x = Some n) /\
  forall j i, (j < idx)%nat -> vin !! j = Some i ->
    ~ (reads_string i "txid" hash /\ exists x, jget i "vout" = Some x /\ as_uint x = Some n).

(** [l] is the array [k] of the transaction inside the decoded PSBT [d]. *)
Definition tx_array (d : Json) (k : string) (l : list Json) : Prop :=
  exists tx arr, jget d "tx" = Some tx /\ is_object tx = true /\
    jget tx k = Some arr /\ is_array arr = true /\ jelems arr = l.

(** [l] are the PSBT-level inputs of the decoded PSBT [d]. *)
Definition psbt_inputs (d : Json) (l : list Json) : Prop :=
  exists arr, jget d "inputs" = Some arr /\ is_array arr = true /\ jelems arr = l.

(** The wallet in state [n] decodes [before] and then [after], which hold the
    same transaction with inputs [vin] and the PSBT-level data [ins] before
    and [ins'] after signing; it is in state [n'] afterwards. *)
Definition signing_view (n : Node) (before after : string) (n' : Node)
    (d d' : Json) (vin ins ins' : list Json) : Prop :=
  exists n1 tx tx',
    xaya_rpc (decodepsbt before) n = (inr d, n1) /\
    xaya_rpc (decodepsbt after) n1 = (inr d', n') /\
    jget d "tx" = Some tx /\ jget d' "tx" = Some tx' /\ jeqb tx tx' = true /\
    tx_array d "vin" vin /\ psbt_inputs d ins /\ psbt_inputs d' ins' /\
    length ins = length ins'.

(** The data of input [i] is the same before and after. *)
Definition same_input (ins ins' : list Json) (i : nat) : Prop :=
  jeqb (nth i ins jnull) (nth i ins' jnull) = true.

Fixpoint nth_parent (parent : U256 -> option U256) (k : nat) (h : U256) : option U256 :=
  match k with
  | O => Some h
  | Datatypes.S k' => match parent h with Some q => nth_parent parent k' q | None => None end
  end.

(** The wallet answers [getblockheader] from a block tree: [parent h] is the
    block before [h], none for the genesis block. *)
Class ChainView (parent : U256 -> option U256) : Prop :=
  header_reply : forall h n, exists d p n',
    xaya_rpc (getblockheader (to_hex h)) n = (inr d, n') /\
    is_object d = true /\ jget d "previousblockhash" = Some p /\
    match parent h with
    | None => is_null p = true
    | Some q => is_null p = false /\ is_string p = true /\
                exists s, as_string p = Some s /\ from_hex s = Some q
    end.

(** The outpoint [p] as the JSON value [v] gives it. *)
Definition outpoint_in (v : Json) (p : OutPoint) : Prop :=
  is_object v = true /\
  exists t k h n, jget v "txid" = Some t /\ is_string t = true /\ as_string t = Some h /\
    jget v "vout" = Some k /\ is_uint k = true /\ as_uint k = Some n /\
    p = mkOutPoint (Some h) (Some n).

(** What the buyer demands: the game knows the asset, the buyer can receive
    it, the seller's current name output [p] is unspent as of a block, and the
    game lets the seller send the units as of a block that is that one or at
    most [MAX_BLOCK_ANCESTORS_CHECKED] later.  The services are asked in this
    order, each in the state the previous answer left. *)
Definition buyer_accepts (parent : U256 -> option U256) (tc : TradeChecker)
    (n : Node) (p : OutPoint) : Prop :=
  exists n1 n2 r n3 u n4 b bs utxoBlock gspBlock n5 k,
    spec_is_asset (tc_asset tc) n = (Ret true, n1) /\
    spec_can_buy (tc_buyer tc) (tc_asset tc) (tc_units tc) n1 = (Ret true, n2) /\
    xaya_rpc (name_show (GetXayaName (tc_seller tc))) n2 = (inr r, n3) /\
    outpoint_in r p /\
    xaya_rpc (gettxout (hash_of p) (n_of p)) n3 = (inr u, n4) /\
    is_null u = false /\ is_object u = true /\
    jget u "bestblock" = Some b /\ is_string b = true /\ as_string b = Some bs /\
    from_hex bs = Some utxoBlock /\
    spec_can_sell (tc_seller tc) (tc_asset tc) (tc_units tc) n4 = (Ret (Some gspBlock), n5) /\
    (k <= MAX_BLOCK_ANCESTORS_CHECKED)%nat /\ nth_parent parent k gspBlock = Some utxoBlock.

(** Calls that only read the chain, the game and the wallet's decoder. *)
Definition is_query (e : Event) : Prop :=
  match e with
  | EvXaya (name_show _) _ | EvXaya (gettxout _ _) _ | EvXaya (getblockheader _) _
  | EvXaya (decodepsbt _) _ | EvGsp _ _ | EvSpec _ => True
  | EvXaya _ _ => False
  end.

End specs.

(* ------------------------------------------------------------------ *)
(** ** Helper lemmas *)

Section lemmas.
Context `{JsonLib} `{!JsonLaws} `{!Uint256Lib} `{!AmountLib} {Node : Type}
  `{!XayaRpc Node} `{!AssetSpec Node} {S : Type}.
Implicit Types (tc : TradeChecker) (w : World Node S).

Lemma wp_field v k (Q : outcome Json -> World Node S -> Prop) w :
  (forall x, jget v k = Some x -> Q (Ret x) w) ->
  (jget v k = None -> Q (Throw JsonLogicError) w) -> wp (field v k) Q w.
Proof. apply wp_json. Qed.

(** Wrapping the product is harmless exactly when it fits. *)
Lemma cdiv_detects_overflow p u :
  is_s64 p -> is_s64 u -> 0 < u ->
  (cdiv (s64 (p * u)) u = p <-> is_s64 (p * u)).
Proof.
  intros Hp Hu Hpos. split.
  - intros Hq. destruct (s64_wraps (p * u)) as [k Hk].
    destruct (Z.eq_dec k 0) as [->|Hk0].
    + replace (p * u) with (s64 (p * u)) by lia. apply s64_range.
    + exfalso. unfold cdiv in Hq. rewrite Hk in Hq.
      pose proof (Z.quot_rem' (p * u + k * two64) u) as Hqr.
      pose proof (Z.rem_bound_abs (p * u + k * two64) u ltac:(lia)) as Hr.
      rewrite Hq in Hqr. unfold is_s64, two63, two64 in *. nia.
  - intros Hr. rewrite s64_id by done. unfold cdiv. apply Z.quot_mul. lia.
Qed.

Lemma wrapping_total_exact p u :
  is_s64 p -> is_s64 u ->
  wrapping_total p u =
    if bool_decide (u <= 0) then Fatal
    else if bool_decide (is_s64 (p * u)) then Ret (Some (p * u)) else Ret None.
Proof.
  intros Hp Hu. unfold wrapping_total. destruct (Z.ltb_spec 0 u) as [H0'|H0']; cbn [negb].
  - rewrite bool_decide_false by lia. pose proof (cdiv_detects_overflow p u Hp Hu H0') as Hd.
    destruct (bool_decide_reflect (is_s64 (p * u))) as [Hf|Hf].
    + by rewrite (proj2 (Z.eqb_eq _ _) (proj2 Hd Hf)), s64_id.
    + by rewrite (proj2 (Z.eqb_neq _ _)) by by rewrite Hd.
  - by rewrite bool_decide_true.
Qed.

(** If arithmetic wraps, no total is taken for a product that does not fit. *)
Lemma agreed_total_wraps `{!WrappingAmounts} tc total :
  is_s64 (tc_price tc) -> is_s64 (tc_units tc) -> agreed_total tc total ->
  is_s64 (tc_price tc * tc_units tc) /\ total = tc_price tc * tc_units tc.
Proof.
  intros Hp Hu Ht. unfold agreed_total in Ht.
  destruct (bool_decide_reflect (is_s64 (tc_price tc * tc_units tc))) as [Hf|Hf]; [done|].
  rewrite amounts_wrap, wrapping_total_exact, (bool_decide_false (is_s64 (_ * _))) in Ht by done.
  by destruct (bool_decide _).
Qed.

Lemma wp_GetTotalSat tc (Q : outcome (option Z) -> World Node S -> Prop) w :
  (is_s64 (tc_price tc * tc_units tc) -> tc_units tc <= 0 -> Q Fatal w) ->
  (is_s64 (tc_price tc * tc_units tc) -> 0 < tc_units tc ->
     Q (Ret (Some (tc_price tc * tc_units tc))) w) ->
  (~ is_s64 (tc_price tc * tc_units tc) ->
     Q (overflowing_total (tc_price tc) (tc_units tc)) w) ->
  wp (GetTotalSat tc) Q w.
Proof.
  intros Qz Qok Qov. unfold GetTotalSat.
  destruct (bool_decide_reflect (is_s64 (tc_price tc * tc_units tc))) as [Hf|Hf]; cbn [negb].
  - wp_step. wp_step; [|apply Qz; [done|lia]].
    unfold cdiv. rewrite Z.quot_mul, Z.eqb_refl by lia. cbn [negb]. wp_step. apply Qok; [done|lia].
  - wp_step. by apply Qov.
Qed.

(** A total it returns is the agreed one. *)
Lemma wp_GetTotalSat_agreed tc (Q : outcome (option Z) -> World Node S -> Prop) w :
  (forall total, agreed_total tc total -> Q (Ret (Some total)) w) ->
  (forall o, (forall total, o <> Ret (Some total)) -> Q o w) ->
  wp (GetTotalSat tc) Q w.
Proof.
  intros Hok Hno. apply wp_GetTotalSat; intros Hf.
  - intros _. by apply Hno.
  - intros _. apply Hok. unfold agreed_total. by rewrite bool_decide_true.
  - destruct (overflowing_total _ _) as [[total|]|e|] eqn:Ht; [|by apply Hno..].
    apply Hok. unfold agreed_total. by rewrite bool_decide_false.
Qed.

Lemma wp_MatchesAddress spk addr (Q : outcome bool -> World Node S -> Prop) w :
  (forall b, (b = true <-> pays_address spk addr) -> Q (Ret b) w) ->
  (is_object spk <> true -> forall o, is_err o -> Q o w) ->
  wp (MatchesAddress spk addr) Q w.
Proof.
  intros HQ HE. unfold MatchesAddress. wp_step.
  destruct (is_object spk) eqn:Ho; [|by apply HE].
  destruct (jget_object spk "addresses" Ho) as [arr Harr].
  destruct (jget_object spk "address" Ho) as [x Hx].
  cbn [check]. wp_step. unfold field. rewrite Harr. cbn [json]. wp_step. wp_step.
  destruct (_ && _) eqn:Hb.
  - apply wp_ret, HQ. split; [intros _|by auto].
    rewrite !andb_true_iff, Nat.eqb_eq, bool_decide_eq_true in Hb.
    destruct Hb as [[[Ha Hl] Hs] He]. left. unfold jnth in *.
    destruct (jelems arr) as [|y [|]] eqn:Hel; try done. by exists arr, y.
  - rewrite Hx. cbn [json]. wp_step. wp_step. wp_step.
    apply HQ. rewrite andb_true_iff, bool_decide_eq_true. split.
    + intros [? ?]. right. by exists x.
    + intros [(arr' & y & ? & Ha & Hel & Hs & He)|(y & ? & ? & ?)]; simplify_eq; [|by auto].
      unfold jnth in Hb. rewrite Ha, Hel in Hb. cbn in Hb.
      rewrite Hs, He, bool_decide_true in Hb by done. done.
Qed.

Lemma reads_string_unique v k s s' : reads_string v k s -> reads_string v k s' -> s = s'.
Proof. intros (? & ? & ?) (? & ? & ?). by simplify_eq. Qed.

Lemma wp_member_is v k s (Q : outcome bool -> World Node S -> Prop) w :
  (forall b, (b = true <-> reads_string v k s) -> Q (Ret b) w) ->
  (~ readable v k -> forall o, is_err o -> Q o w) -> wp (member_is v k s) Q w.
Proof.
  intros HQ HE. unfold member_is, readable, reads_string in *.
  wp_use wp_field; [intros x Hx|intros Hx; apply HE; [|done]; naive_solver].
  wp_step. wp_step; [|apply HE; [|done]; naive_solver]. wp_step. apply HQ.
  destruct (String.eqb_spec a s) as [->|Hne]; naive_solver.
Qed.

Lemma wp_is_expected_name_op tc sd spk op (Q : outcome bool -> World Node S -> Prop) w :
  (forall b, (b = true <->
      reads_string op "op" "name_update" /\
      reads_string op "name" (GetXayaName (tc_seller tc)) /\
      (exists v, GetNameUpdateValue tc = Ret v /\ reads_string op "value" v) /\
      pays_address spk (name_address_of sd)) -> Q (Ret b) w) ->
  (~ (is_object spk = true /\ wf_name_op op /\
      exists v, GetNameUpdateValue tc = Ret v) ->
   forall o, is_err o -> Q o w) ->
  is_object op = true ->
  wp (is_expected_name_op tc sd spk op) Q w.
Proof.
  intros HQ HE Ho. unfold is_expected_name_op.
  wp_use wp_member_is; [intros b1 H1'|clear HQ; wp_err HE; unfold wf_name_op, readable in *; naive_solver].
  wp_step. wp_step; [|clear HQ; wp_err HE; unfold wf_name_op in *; naive_solver].
  wp_use wp_member_is; [intros b2 H2'|clear HQ; wp_err HE; unfold wf_name_op, readable in *; naive_solver].
  wp_step. wp_step; [|clear HQ; wp_err HE; unfold wf_name_op in *; naive_solver].
  wp_step. wp_step; [|clear HQ; wp_err HE; unfold wf_name_op in *;
                      intros (_ & (_ & _ & _ & Hm1 & Hm2 & _) & _); by rewrite Hm1, Hm2 in *].
  wp_use wp_member_is; [intros b3 Hop|clear HQ; wp_err HE; unfold wf_name_op in *; naive_solver].
  destruct b3; cbn [negb]; [|wp_step; apply HQ; naive_solver].
  wp_use wp_member_is; [intros b4 Hnm|clear HQ; wp_err HE; unfold wf_name_op in *; naive_solver].
  destruct b4; cbn [negb]; [|wp_step; apply HQ; naive_solver].
  wp_use wp_field; [intros vx Hvx|clear HQ; wp_err HE; unfold wf_name_op, readable, reads_string in *; naive_solver].
  wp_step. wp_step; [|clear HQ; wp_err HE; unfold wf_name_op, readable, reads_string in *; naive_solver].
  wp_step. wp_step.
  destruct (GetNameUpdateValue tc) as [upd|e|]; cbn [then_post];
    [|clear HQ; wp_err HE; naive_solver|clear HQ; wp_err HE; naive_solver].
  destruct (String.eqb_spec a upd) as [->|Hne]; cbn [negb].
  - wp_use wp_MatchesAddress; [intros b Hb|clear HQ; wp_err HE; naive_solver].
    apply HQ. rewrite Hb. split.
    + intros Hp. repeat split; [by apply Hop|by apply Hnm| |by auto].
      exists upd. split; [done|]. by exists vx.
    + by intros (_ & _ & _ & ?).
  - wp_step. apply HQ. split; [done|].
    intros (_ & _ & (v & Hv & y & ? & ?) & _). simplify_eq.
Qed.

Lemma wp_is_expected_payment sd total out spk (Q : outcome bool -> World Node S -> Prop) w :
  (forall b, (b = true <->
      pays_address spk (chi_address_of sd) /\
      exists v pay, jget out "value" = Some v /\ ChiAmountFromJson v = Some pay /\
        total <= pay) -> Q (Ret b) w) ->
  (~ (is_object spk = true /\
      exists v pay, jget out "value" = Some v /\ ChiAmountFromJson v = Some pay) ->
   forall o, is_err o -> Q o w) ->
  wp (is_expected_payment sd total out spk) Q w.
Proof.
  intros HQ HE. unfold is_expected_payment.
  wp_use wp_MatchesAddress; [intros b1 Hb1|clear HQ; wp_err HE; naive_solver].
  destruct b1; cbn [negb]; [|wp_step; apply HQ; naive_solver].
  wp_use wp_field; [intros v Hv|clear HQ; wp_err HE; naive_solver].
  wp_step. wp_step; [|clear HQ; wp_err HE; naive_solver]. wp_step. apply HQ.
  rewrite negb_true_iff, Z.ltb_ge. split.
  - intros Hle. split; [by apply Hb1|]. by exists v, a.
  - intros (_ & v' & pay & ? & ? & ?). by simplify_eq.
Qed.

Lemma wp_check_outputs tc sd total outs fc fn
    (Q : outcome (bool * bool) -> World Node S -> Prop) w :
  (forall bc bn,
     (bc = true <-> fc = true \/ Exists (pays_total sd total) outs) ->
     (bn = true <-> fn = true \/ Exists (updates_name tc sd) outs) ->
     Q (Ret (bc, bn)) w) ->
  (~ (Forall wf_output outs /\ exists v, GetNameUpdateValue tc = Ret v) ->
   forall o, is_err o -> Q o w) ->
  wp (check_outputs tc sd total outs fc fn) Q w.
Proof.
  revert fc fn. induction outs as [|out outs IH]; intros fc fn HQ HE; cbn [check_outputs].
  { wp_step. apply HQ; rewrite Exists_nil; naive_solver. }
  assert (HE' : ~ (wf_output out /\ exists v, GetNameUpdateValue tc = Ret v) ->
                forall o, is_err o -> Q o w).
  { intros Hn. apply HE. rewrite Forall_cons. tauto. }
  assert (HE2 : ~ (Forall wf_output outs /\ exists v, GetNameUpdateValue tc = Ret v) ->
                forall o, is_err o -> Q o w).
  { intros Hn. apply HE. rewrite Forall_cons. tauto. }
  clear HE.
  wp_step. wp_step; [|wp_err HE'; intros [[? _] _]; congruence].
  wp_use wp_field; [intros spk Hspk|wp_err HE'; intros [(? & ? & ? & ? & _) _]; congruence].
  wp_step. wp_step; [|wp_err HE'; intros [(? & ? & ? & ? & ? & _) _]; congruence].
  wp_use wp_field; [intros op Hop|wp_err HE'; intros [(? & ? & ? & ? & ? & ? & _) _]; congruence].
  destruct (is_object op) eqn:Ho.
  - wp_use wp_is_expected_name_op; [intros r Hr|wp_err HE'|done].
    2: { intros [(_ & spk' & op' & Hs & _ & Hp & [Hwf|[? _]]) Hv];
           [|congruence]. rewrite Hs in Hspk; simplify_eq. by apply Hn. }
    wp_use IH; [|exact HE2]. intros bc bn Hbc Hbn. apply HQ; rewrite Exists_cons.
    + rewrite Hbc. split; [tauto|]. intros [?|[(spk' & op' & ? & ? & ? & ? & ? & _)|?]]; auto.
      exfalso; congruence.
    + rewrite Hbn, orb_true_iff, Hr. unfold updates_name. split.
      * intros [[?|(? & ? & (v & ? & ?) & ?)]|?]; [by left| |by do 2 right].
        right; left. by exists spk, op, v.
      * intros [?|[(spk' & op' & v & ? & ? & ? & ? & ? & ? & ? & ?)|?]];
          [by do 2 left| |by right].
        simplify_eq. left; right. split_and!; try done. by exists v.
  - wp_step. wp_step; [|wp_err HE'].
    2: { intros [(_ & spk' & op' & Hs & _ & Hp & [[? _]|[? [? _]]]) Hv]; congruence. }
    wp_use wp_is_expected_payment; [intros r Hr|wp_err HE'].
    2: { intros [(_ & spk' & op' & Hs & _ & Hp & [[? _]|(? & ? & ?)]) Hv]; [congruence|].
         rewrite Hs in Hspk; simplify_eq. apply Hn. tauto. }
    wp_use IH; [|exact HE2]. intros bc bn Hbc Hbn. apply HQ; rewrite Exists_cons.
    + rewrite Hbc, orb_true_iff, Hr. unfold pays_total. split.
      * intros [[?|(? & v & pay & ? & ? & ?)]|?]; [by left| |by do 2 right].
        right; left. by exists spk, op, v, pay.
      * intros [?|[(spk' & op' & v & pay & ? & ? & ? & ? & ? & ? & ?)|?]];
          [by do 2 left| |by right].
        simplify_eq. left; right. split; [done|]. by exists v, pay.
    + rewrite Hbn. split; [tauto|]. intros [?|[(spk' & op' & v & ? & ? & ? & _)|?]]; auto.
      exfalso; congruence.
Qed.

Definition spends (hash : string) (n : Z) (inp : Json) : Prop :=
  reads_string inp "txid" hash /\ exists x, jget inp "vout" = Some x /\ as_uint x = Some n.

Lemma wp_find_input vin hash n i (Q : outcome (option nat) -> World Node S -> Prop) w :
  (forall j, first_input vin hash n j -> Q (Ret (Some (i + j)%nat)) w) ->
  (Forall (fun inp => ~ spends hash n inp) vin -> Q (Ret None) w) ->
  (~ Forall wf_input vin -> forall o, is_err o -> Q o w) ->
  wp (find_input vin hash n i) Q w.
Proof.
  revert i. induction vin as [|inp vin IH]; intros i HS HN HE; cbn [find_input].
  { wp_step. by apply HN. }
  assert (HE1 : ~ wf_input inp -> forall o, is_err o -> Q o w).
  { intros Hn. apply HE. rewrite Forall_cons. tauto. }
  assert (HE2 : ~ Forall wf_input vin -> forall o, is_err o -> Q o w).
  { intros Hn. apply HE. rewrite Forall_cons. tauto. }
  clear HE. unfold wf_input in HE1.
  wp_step. wp_step; [|wp_err HE1; naive_solver congruence].
  wp_use wp_field; [intros hv Hh|wp_err HE1; naive_solver congruence].
  wp_step. wp_step; [|wp_err HE1; naive_solver congruence].
  wp_use wp_field; [intros kv Hk|wp_err HE1; naive_solver congruence].
  wp_step. wp_step; [|wp_err HE1; naive_solver congruence].
  destruct (is_string_spec hv) as [h Hh']; [done|].
  destruct (is_uint_spec kv) as (k & Hk' & _); [done|].
  wp_step. wp_step; [|congruence]. wp_step. wp_step; [|congruence]. simplify_eq.
  assert (Hsp : String.eqb h hash && (k =? n) = true <-> spends hash n inp).
  { rewrite andb_true_iff, String.eqb_eq, Z.eqb_eq. unfold spends, reads_string.
    naive_solver. }
  destruct (_ && _) eqn:E.
  - wp_step. replace i with (i + 0)%nat by lia. apply HS. split; [|lia].
    destruct Hsp as [Hsp _]. destruct (Hsp eq_refl). by exists inp.
  - apply IH; [| |done].
    + intros j [(inp' & Hj & Hr) Hmin]. rewrite Nat.add_succ_comm. apply HS. split.
      * by exists inp'.
      * intros [|j'] i' Hlt Hl Hs; cbn in Hl; simplify_eq.
        -- apply Hsp in Hs. congruence.
        -- by apply (Hmin j' i'); [lia|..].
    + intros Hall. apply HN. constructor; [|done]. intros Hs%Hsp. congruence.
Qed.

Lemma unmodified_except_spec idx ins ins' :
  unmodified_except idx ins ins' = true <->
  forall i, (i < length ins)%nat -> i <> idx -> same_input ins ins' i.
Proof.
  unfold unmodified_except, same_input. rewrite forallb_forall. split.
  - intros Hf i Hi Hne. specialize (Hf i). rewrite in_seq, orb_true_iff, Nat.eqb_eq in Hf.
    destruct Hf; [lia|done..].
  - intros Hf i. rewrite in_seq. intros [_ Hi]. rewrite orb_true_iff, Nat.eqb_eq.
    destruct (decide (i = idx)); [by left|right; by apply Hf].
Qed.

Lemma len_check {A} (l l' : list A) :
  length l = length l' -> (length l =? length l')%nat = true.
Proof. by rewrite Nat.eqb_eq. Qed.

(** One position fewer than all changed: a single one is the same. *)
Lemma count_modified_all_but_one ins ins' :
  (count_modified ins ins' + 1 = length ins)%nat <->
  exists idx, (idx < length ins)%nat /\ same_input ins ins' idx /\
    forall i, (i < length ins)%nat -> i <> idx -> ~ same_input ins ins' i.
Proof.
  exact (seq_all_but_one (fun i => jeqb (nth i ins jnull) (nth i ins' jnull)) (length ins)).
Qed.

Lemma first_input_unique vin h n i j :
  first_input vin h n i -> first_input vin h n j -> i = j.
Proof.
  intros [(a & Ha & Hra) Hmi] [(b & Hb & Hrb) Hmj].
  destruct (lt_eq_lt_dec i j) as [[Hlt| ->]|Hlt]; [|done|].
  - by destruct (Hmj i a Hlt Ha).
  - by destruct (Hmi j b Hlt Hb).
Qed.

Lemma first_input_spends vin h n i :
  first_input vin h n i -> exists inp, inp ∈ vin /\ spends h n inp.
Proof.
  intros [(inp & Hi & Hr) _]. exists inp. split; [|done]. by eapply list_elem_of_lookup_2.
Qed.

Lemma wp_OutPointFromJson v (Q : outcome OutPoint -> World Node S -> Prop) w :
  (forall p, outpoint_in v p -> Q (Ret p) w) ->
  ((forall p, ~ outpoint_in v p) -> forall o, is_err o -> Q o w) ->
  wp (OutPointFromJson v) Q w.
Proof.
  intros HQ HE. unfold OutPointFromJson, outpoint_in in *.
  wp_step. wp_step; [|wp_err HE; naive_solver congruence].
  wp_use wp_field; [intros t Ht|wp_err HE; naive_solver congruence].
  wp_use wp_field; [intros k Hk|wp_err HE; naive_solver congruence].
  wp_step. wp_step; [|wp_err HE].
  2: { intros p (_ & t' & k' & h & n & ? & Ht' & _ & ? & Hk' & _).
       simplify_eq. by rewrite Ht', Hk' in *. }
  wp_step. wp_step; [|wp_err HE; naive_solver congruence].
  wp_step. wp_step; [|wp_err HE; naive_solver congruence].
  wp_step. apply HQ. split; [done|]. repeat match goal with
    H : _ && _ = true |- _ => apply andb_true_iff in H as [? ?] end.
  by eexists _, _, _, _.
Qed.

Lemma outpoint_in_unique v p p' : outpoint_in v p -> outpoint_in v p' -> p = p'.
Proof. intros (_ & ? & ? & ? & ? & ?) (_ & ? & ? & ? & ? & ?). naive_solver. Qed.

(** Under a block tree, the walk back decides ancestry within [n] blocks. *)
Lemma wp_IsBlockAncestor parent anc c n (Q : outcome bool -> World Node S -> Prop) w :
  Uint256Laws -> ChainView parent ->
  (forall b w', (b = true <-> exists k, (k <= n)%nat /\ nth_parent parent k c = Some anc) ->
     only_calls (fun e => exists h r, e = EvXaya (getblockheader h) r) w w' -> Q (Ret b) w') ->
  wp (IsBlockAncestor anc c n) Q w.
Proof.
  intros HU HC. revert c w. induction n as [|n IH]; intros c w HQ; cbn [IsBlockAncestor].
  - destruct (u256_eqb anc c) eqn:E; wp_step; apply HQ; try reflexivity.
    + apply u256_eqb_eq in E as ->. split; [|done]. intros _. by exists O.
    + split; [done|]. intros (k & Hk & Hp). assert (k = O) as -> by lia.
      cbn in Hp. simplify_eq. by rewrite (proj2 (u256_eqb_eq anc anc) eq_refl) in E.
  - destruct (u256_eqb anc c) eqn:E.
    + wp_step; apply HQ; [|reflexivity].
      apply u256_eqb_eq in E as ->. split; [|done]. intros _. exists O. split; [lia|done].
    + assert (Hno : forall k, nth_parent parent k c = Some anc -> exists k', k = Datatypes.S k').
      { intros [|k'] Hp; [|by exists k']. cbn in Hp. simplify_eq.
        by rewrite (proj2 (u256_eqb_eq anc anc) eq_refl) in E. }
      destruct (header_reply (parent:=parent) c (wnode w)) as (d & p & n' & Hr & Hd & Hp & Hpar).
      assert (Hc : only_calls (fun e => exists h r, e = EvXaya (getblockheader h) r) w
                (mkWorld (wst w) n' (wtrace w ++ [EvXaya (getblockheader (to_hex c)) (inr d)]))).
      { split; [done|]. eexists. split; [done|]. constructor; [|done]. by eexists _, _. }
      wp_call Hr. wp_step. wp_step; [|congruence].
      wp_use wp_field; [intros x Hx; simplify_eq|congruence].
      destruct (parent c) as [q|] eqn:Hq.
      * destruct Hpar as (Hnull & Hs & s & Hs1 & Hs2). rewrite Hnull.
        wp_step. wp_step; [|congruence]. wp_step. wp_step; [|congruence].
        wp_step. wp_step; [|congruence]. simplify_eq.
        apply IH. intros b w' Hb Hw. apply HQ; [|by etransitivity].
        rewrite Hb. split.
        -- intros (k & Hk & Hpk). exists (Datatypes.S k). split; [lia|]. cbn. by rewrite Hq.
        -- intros (k & Hk & Hpk). destruct (Hno _ Hpk) as [k' ->].
           exists k'. split; [lia|]. cbn in Hpk. by rewrite Hq in Hpk.
      * rewrite Hpar. wp_step. apply HQ; [|done]. split; [done|].
        intros (k & Hk & Hpk). destruct (Hno _ Hpk) as [k' ->]. cbn in Hpk. by rewrite Hq in Hpk.
Qed.

(** Frames: every operation of the checker only queries. *)
#[local] Abbreviation queries m := (steps (Node:=Node) (S:=S) (only_calls is_query) m).

Lemma queries_field v k : queries (field v k).
Proof. apply steps_json. typeclasses eauto. Qed.

Lemma queries_IsBlockAncestor a c n : queries (IsBlockAncestor a c n).
Proof.
  revert c. induction n; intros c; cbn [IsBlockAncestor]; unfold field; steps_auto; done.
Qed.

Lemma queries_MatchesAddress spk a : queries (MatchesAddress spk a).
Proof. unfold MatchesAddress, field; steps_auto. Qed.

Lemma queries_check_outputs tc sd total outs fc fn :
  queries (check_outputs tc sd total outs fc fn).
Proof.
  revert fc fn. induction outs; intros fc fn; cbn [check_outputs];
    unfold is_expected_name_op, is_expected_payment, member_is, field; steps_auto;
    by apply queries_MatchesAddress.
Qed.

Lemma queries_find_input vin h n i : queries (find_input vin h n i).
Proof. revert i. induction vin; intros i; cbn [find_input]; unfold field; steps_auto. Qed.

Lemma queries_CheckForBuyerTrade tc : queries (CheckForBuyerTrade tc).
Proof.
  unfold CheckForBuyerTrade, GetNameOutPoint, OutPointFromJson, field. steps_auto; try done.
  apply queries_IsBlockAncestor.
Qed.

Lemma queries_CheckForBuyerSignature b a : queries (CheckForBuyerSignature b a).
Proof. unfold CheckForBuyerSignature, field. steps_auto; done. Qed.

Lemma queries_CheckForSellerOutputs tc p sd : queries (CheckForSellerOutputs tc p sd).
Proof.
  unfold CheckForSellerOutputs, GetTotalSat, field. steps_auto; try done.
  apply queries_check_outputs.
Qed.

Lemma queries_CheckForSellerSignature b a sd : queries (CheckForSellerSignature b a sd).
Proof.
  unfold CheckForSellerSignature, field. steps_auto; try done. apply queries_find_input.
Qed.

(** *** What an accepting check says about the calls it made *)

(** Among the calls [l] the PSBT was decoded to acceptable outputs. *)
Definition outputs_accepted tc (sd : SellerData) (psbt : string) (l : list Event) : Prop :=
  exists d outs, EvXaya (decodepsbt psbt) (inr d) ∈ l /\ tx_array d "vout" outs /\
    acceptable_outputs tc sd outs.

(** Among the calls [l] both PSBTs were decoded, and they differ at most at
    the seller's name input. *)
Definition signature_accepted (sd : SellerData) (before after : string) (l : list Event)
  : Prop :=
  exists d d' vin ins ins' idx,
    EvXaya (decodepsbt before) (inr d) ∈ l /\ EvXaya (decodepsbt after) (inr d') ∈ l /\
    tx_array d "vin" vin /\ psbt_inputs d ins /\ psbt_inputs d' ins' /\
    length ins = length ins' /\
    first_input vin (hash_of (name_output_of sd)) (n_of (name_output_of sd)) idx /\
    forall i, (i < length ins)%nat -> i <> idx -> same_input ins ins' i.

Lemma wp_CheckForSellerOutputs tc psbt sd (Q : outcome bool -> World Node S -> Prop) w :
  (forall o n l, Forall is_query l -> (o = Ret true -> outputs_accepted tc sd psbt l) ->
     Q o (mkWorld (wst w) n (wtrace w ++ l))) ->
  wp (CheckForSellerOutputs tc psbt sd) Q w.
Proof.
  intros HQ. eapply wp_log; [apply queries_CheckForSellerOutputs| |exact HQ].
  unfold CheckForSellerOutputs. wp_step. wp_step; [|done]. wp_step. wp_step; [done|].
  rename x into d. wp_step. wp_step; [|done].
  wp_use wp_field; [intros tx Htx|done]. wp_step. wp_step; [|done].
  wp_use wp_field; [intros vout Hvout|done]. wp_step. wp_step; [|done].
  wp_use wp_GetTotalSat_agreed; [intros total Ht|].
  2: { intros [[t|]|e|] Ho; cbn [then_post]; [by destruct (Ho t)|by wp_step|done..]. }
  wp_step. wp_step; [|done].
  wp_use wp_check_outputs; [intros bc bn Hbc Hbn|by intros _ [] ?].
  destruct bc; cbn [negb]; wp_step; intros l Hl; [|done]. intros [= ->].
  apply app_inv_head in Hl as <-. exists d, (jelems vout). split; [set_solver|].
  split; [by exists tx, vout|]. exists total. split_and!; [done|lia| |].
  - rewrite <-(Z.eqb_eq total). by apply Hbc.
  - by destruct (proj1 Hbn eq_refl).
Qed.

Lemma wp_CheckForSellerSignature before after sd (Q : outcome bool -> World Node S -> Prop) w :
  (forall o n l, Forall is_query l -> (o = Ret true -> signature_accepted sd before after l) ->
     Q o (mkWorld (wst w) n (wtrace w ++ l))) ->
  wp (CheckForSellerSignature before after sd) Q w.
Proof.
  intros HQ. eapply wp_log; [apply queries_CheckForSellerSignature| |exact HQ].
  unfold CheckForSellerSignature. wp_step. wp_step; [|done]. wp_step. wp_step; [|done].
  wp_step. wp_step; [done|]. rename x into d. wp_step. wp_step; [done|]. rename x into d'.
  wp_use wp_field; [intros tx Htx|done]. wp_use wp_field; [intros tx' Htx'|done].
  wp_step. wp_step; [|done]. wp_step. wp_step; [|done].
  wp_use wp_field; [intros vin Hvin|done]. wp_step. wp_step; [|done].
  wp_use wp_find_input; [intros idx Hidx|by intros; wp_step|by intros _ [] ?].
  wp_use wp_field; [intros ib Hib|done]. wp_step. wp_step; [|done].
  wp_use wp_field; [intros ia Hia|done]. wp_step. wp_step; [|done].
  wp_step. wp_step; [|done]. wp_step. intros l Hl [= Hun].
  rewrite unmodified_except_spec in Hun.
  rewrite <-app_assoc in Hl. apply app_inv_head in Hl as <-.
  exists d, d', (jelems vin), (jelems ib), (jelems ia), idx.
  split_and!; try set_solver; try done.
  - by exists tx, vin.
  - by exists ib.
  - by exists ia.
  - by apply Nat.eqb_eq.
Qed.

(** *** The verdicts on documented replies *)

Lemma wp_seller_outputs_verdict tc psbt sd d n' outs (Q : outcome bool -> World Node S -> Prop) w :
  has (sd_chi_address sd) = true -> has (sd_name_address sd) = true ->
  0 <= tc_price tc -> 0 < tc_units tc ->
  is_s64 (tc_price tc * tc_units tc) \/ overflowing_total (tc_price tc) (tc_units tc) = Ret None ->
  xaya_rpc (decodepsbt psbt) (wnode w) = (inr d, n') ->
  is_object d = true -> tx_array d "vout" outs -> Forall wf_output outs ->
  (exists v, GetNameUpdateValue tc = Ret v) ->
  (forall b, (b = true <-> acceptable_outputs tc sd outs) ->
     Q (Ret b) (mkWorld (wst w) n' (wtrace w ++ [EvXaya (decodepsbt psbt) (inr d)]))) ->
  wp (CheckForSellerOutputs tc psbt sd) Q w.
Proof.
  intros Hc Hn Hp0 Hu0 Hfit Hd Ho (tx & arr & Htx & Hto & Harr & Hia & <-) Hwf Hv HQ.
  unfold CheckForSellerOutputs.
  wp_step. wp_step; [|by rewrite Hc, Hn in *]. wp_call Hd.
  wp_step. wp_step; [|congruence]. wp_use wp_field; [intros ? ?; simplify_eq|congruence].
  wp_step. wp_step; [|congruence]. wp_use wp_field; [intros ? ?; simplify_eq|congruence].
  wp_step. wp_step; [|congruence]. unfold acceptable_outputs in HQ.
  unfold agreed_total in HQ. wp_use wp_GetTotalSat; [lia|intros Hr _|intros Hr].
  2: { destruct Hfit as [?|Hfit]; [done|]. rewrite Hfit in *. cbn [then_post]. wp_step. apply HQ.
       rewrite bool_decide_false by done. split; [done|]. by intros (t & [=] & _). }
  rewrite bool_decide_true in HQ by done. wp_step. wp_step; [|lia].
  wp_use wp_check_outputs; [intros bc bn Hbc Hbn|tauto].
  rewrite Z.eqb_eq in Hbc.
  destruct bc; cbn [negb]; wp_step; apply HQ.
  - rewrite Hbn. split; [|by intros (t & -> & _ & _ & ?); right].
    intros [?|?]; [done|]. eexists. split_and!; [done|lia|by apply Hbc|done].
  - split; [done|]. intros (t & -> & _ & ? & _). by apply Hbc.
Qed.

Lemma wp_seller_signature_verdict before after sd h k n' d d' vin ins ins'
    (Q : outcome bool -> World Node S -> Prop) w :
  sd_name_output sd = Some (mkOutPoint (Some h) (Some k)) ->
  signing_view (wnode w) before after n' d d' vin ins ins' -> Forall wf_input vin ->
  (forall b, (b = true <-> exists idx, first_input vin h k idx /\
       forall i, (i < length ins)%nat -> i <> idx -> same_input ins ins' i) ->
     Q (Ret b) (mkWorld (wst w) n' (wtrace w ++
       [EvXaya (decodepsbt before) (inr d); EvXaya (decodepsbt after) (inr d')]))) ->
  wp (CheckForSellerSignature before after sd) Q w.
Proof.
  intros Hsd (n1 & tx & tx' & Hd & Hd' & Htx & Htx' & Heq &
    (tx1 & arr & Htx1 & Hto & Harr & Hia & <-) & (b1 & Hb1 & Hba & <-) &
    (b2 & Hb2 & Hbb & <-) & Hlen) Hwf HQ.
  unfold CheckForSellerSignature, name_output_of, hash_of, n_of.
  rewrite Hsd. cbn [has from_option id op_hash op_n andb]. wp_step. wp_step; [|done].
  wp_step. wp_step; [|done]. wp_call Hd. wp_call Hd'. rewrite <-app_assoc.
  do 2 (wp_use wp_field; [intros ? ?; simplify_eq|congruence]).
  do 2 (wp_step; wp_step; [|congruence]).
  wp_use wp_field; [intros ? ?; simplify_eq|congruence].
  wp_step; wp_step; [|congruence].
  wp_use wp_find_input; [intros idx Hidx|intros Hnone|intros Hn; by destruct Hn].
  - do 2 (wp_use wp_field; [intros ? ?; simplify_eq|congruence]; wp_step; wp_step; [|congruence]).
    wp_step. wp_step; [|by apply len_check in Hlen; congruence].
    wp_step. apply HQ. rewrite unmodified_except_spec. split.
    + intros Hs. by exists idx.
    + intros (j & Hj & Hs). by rewrite (first_input_unique _ _ _ _ _ Hidx Hj).
  - wp_step. apply HQ. split; [done|]. intros (idx & Hidx & _).
    destruct (first_input_spends _ _ _ _ Hidx) as (inp & Hin & Hs).
    rewrite Forall_forall in Hnone. by destruct (Hnone inp Hin).
Qed.

Lemma wp_buyer_signature_verdict before after n' d d' vin ins ins'
    (Q : outcome bool -> World Node S -> Prop) w :
  signing_view (wnode w) before after n' d d' vin ins ins' ->
  (forall b, (b = true <-> exists idx, (idx < length ins)%nat /\ same_input ins ins' idx /\
       forall i, (i < length ins)%nat -> i <> idx -> ~ same_input ins ins' i) ->
     Q (Ret b) (mkWorld (wst w) n' (wtrace w ++
       [EvXaya (decodepsbt before) (inr d); EvXaya (decodepsbt after) (inr d')]))) ->
  wp (CheckForBuyerSignature before after) Q w.
Proof.
  intros (n1 & tx & tx' & Hd & Hd' & Htx & Htx' & Heq & _ &
    (b1 & Hb1 & Hba & <-) & (b2 & Hb2 & Hbb & <-) & Hlen) HQ.
  unfold CheckForBuyerSignature.
  wp_call Hd. wp_call Hd'. rewrite <-app_assoc.
  do 2 (wp_use wp_field; [intros ? ?; simplify_eq|congruence]).
  wp_step; wp_step; [|congruence].
  do 2 (wp_use wp_field; [intros ? ?; simplify_eq|congruence]; wp_step; wp_step; [|congruence]).
  wp_step. wp_step; [|by apply len_check in Hlen; congruence].
  wp_step. apply HQ. by rewrite Nat.eqb_eq, count_modified_all_but_one.
Qed.

End lemmas.

(* ------------------------------------------------------------------ *)
(** ** Correctness of the checks *)

Section theorems.
Context `{JsonLib} `{!JsonLaws} `{!Uint256Lib} `{!AmountLib} {Node : Type}
  `{!XayaRpc Node} `{!AssetSpec Node} {S : Type}.
Implicit Types (tc : TradeChecker) (w : World Node S).

(** C38: the total of a trade is exact where it is defined: whenever price times
    units fits the signed 64-bit amount, a positive number of units gives that
    product and any other number aborts the process.  A product that does not
    fit is undefined, and the method does whatever the compiler makes of it;
    if the build makes signed arithmetic wrap, as the multiply-then-divide test
    expects, that test reports every such product and nothing else. *)
Theorem GetTotalSat_exact tc w :
  is_s64 (tc_price tc) -> is_s64 (tc_units tc) ->
  (is_s64 (tc_price tc * tc_units tc) ->
     GetTotalSat tc w =
       (if bool_decide (0 < tc_units tc) then Ret (Some (tc_price tc * tc_units tc)) else Fatal, w)) /\
  (WrappingAmounts -> ~ is_s64 (tc_price tc * tc_units tc) ->
     GetTotalSat tc w = (if bool_decide (0 < tc_units tc) then Ret None else Fatal, w)).
Proof.
  intros Hp Hu. split.
  - intros Hf. apply wp_eq, wp_GetTotalSat; intros; [| |done].
    + by rewrite bool_decide_false by lia.
    + by rewrite bool_decide_true by lia.
  - intros Hw Hf. apply wp_eq, wp_GetTotalSat; intros; [done..|].
    rewrite amounts_wrap, wrapping_total_exact, (bool_decide_false (is_s64 (_ * _))) by done.
    destruct (decide (0 < tc_units tc)).
    + by rewrite bool_decide_false, bool_decide_true by lia.
    + by rewrite bool_decide_true, bool_decide_false by lia.
Qed.

(** Following a block's predecessors decides exactly whether the first
    block is the second one or one of its [n] closest ancestors, for a wallet
    that answers from a block tree; the call ends and asks only for headers. *)
Theorem IsBlockAncestor_correct parent anc child n w :
  Uint256Laws -> ChainView parent ->
  exists b w', IsBlockAncestor anc child n w = (Ret b, w') /\
    (b = true <-> exists k, (k <= n)%nat /\ nth_parent parent k child = Some anc) /\
    only_calls (fun e => exists h r, e = EvXaya (getblockheader h) r) w w'.
Proof.
  intros HU HC.
  assert (Hwp : wp (IsBlockAncestor anc child n)
    (fun o w' => exists b, o = Ret b /\
       (b = true <-> exists k, (k <= n)%nat /\ nth_parent parent k child = Some anc) /\
       only_calls (fun e => exists h r, e = EvXaya (getblockheader h) r) w w') w).
  { apply (wp_IsBlockAncestor parent); try done. intros b w' Hb Hw. by exists b. }
  unfold wp in Hwp. destruct (IsBlockAncestor anc child n w) as [o w'].
  destruct Hwp as (b & -> & Hb & Hw). by exists b, w'.
Qed.

(** C10: before it signs, the seller accepts a transaction exactly if some
    non-name output pays at least the total to its payment address (unless the
    total is zero), and some output updates its own name to the agreed move at
    its name address; for a positive number of units at a price that is not
    negative whose product fits an amount (or overflows in a build that reports
    it, and is then never accepted), on the documented reply of [decodepsbt]
    and with a game that has a move for the asset, the check always ends with
    that verdict. *)
Theorem CheckForSellerOutputs_correct tc psbt sd d n' outs w :
  has (sd_chi_address sd) = true -> has (sd_name_address sd) = true ->
  0 <= tc_price tc -> 0 < tc_units tc ->
  is_s64 (tc_price tc * tc_units tc) \/ overflowing_total (tc_price tc) (tc_units tc) = Ret None ->
  xaya_rpc (decodepsbt psbt) (wnode w) = (inr d, n') ->
  is_object d = true -> tx_array d "vout" outs -> Forall wf_output outs ->
  (exists v, GetNameUpdateValue tc = Ret v) ->
  exists b, CheckForSellerOutputs tc psbt sd w
              = (Ret b, mkWorld (wst w) n' (wtrace w ++ [EvXaya (decodepsbt psbt) (inr d)])) /\
    (b = true <-> acceptable_outputs tc sd outs).
Proof.
  intros. apply wp_returns. by eapply wp_seller_outputs_verdict; [..|eassumption| |intros; split].
Qed.

(** C11: after it signed, the seller keeps the signature exactly if its name
    output is spent by some input of the transaction and no input other than
    the first such one changed. *)
Theorem CheckForSellerSignature_correct before after sd h k n' d d' vin ins ins' w :
  sd_name_output sd = Some (mkOutPoint (Some h) (Some k)) ->
  signing_view (wnode w) before after n' d d' vin ins ins' -> Forall wf_input vin ->
  exists b, CheckForSellerSignature before after sd w
              = (Ret b, mkWorld (wst w) n' (wtrace w ++
                   [EvXaya (decodepsbt before) (inr d);
                    EvXaya (decodepsbt after) (inr d')])) /\
    (b = true <-> exists idx, first_input vin h k idx /\
       forall i, (i < length ins)%nat -> i <> idx -> same_input ins ins' i).
Proof.
  intros. apply wp_returns. by eapply wp_seller_signature_verdict; [..|intros; split].
Qed.

(** C13: the buyer keeps its signature exactly if all inputs but one changed. *)
Theorem CheckForBuyerSignature_correct before after n' d d' vin ins ins' w :
  signing_view (wnode w) before after n' d d' vin ins ins' ->
  exists b, CheckForBuyerSignature (H:=H) (S:=S) before after w
              = (Ret b, mkWorld (wst w) n' (wtrace w ++
                   [EvXaya (decodepsbt before) (inr d);
                    EvXaya (decodepsbt after) (inr d')])) /\
    (b = true <-> exists idx, (idx < length ins)%nat /\ same_input ins ins' idx /\
       forall i, (i < length ins)%nat -> i <> idx -> ~ same_input ins ins' i).
Proof.
  intros. apply wp_returns. by eapply wp_buyer_signature_verdict; [..|intros; split].
Qed.

(** C12: the buyer accepts a trade with name input [p] exactly if its demands
    [buyer_accepts] hold of the answers it gets, for a wallet that answers
    from a block tree. *)
Theorem CheckForBuyerTrade_correct parent tc p w :
  Uint256Laws -> ChainView parent ->
  (exists w', CheckForBuyerTrade tc w = (Ret (Some p), w')) <->
  buyer_accepts parent tc (wnode w) p.
Proof.
  intros HU HC. split.
  - intros [w' Hrun]. 
    assert (Hwp : wp (CheckForBuyerTrade tc) (fun o _ => forall p, o = Ret (Some p) ->
                     buyer_accepts parent tc (wnode w) p) w).
    + clear p w' Hrun. unfold CheckForBuyerTrade, GetNameOutPoint.
      wp_step. wp_step; try done. destruct a; cbn [negb]; [|by wp_step].
      wp_step. wp_step; try done. destruct a; cbn [negb]; [|by wp_step].
      wp_step. wp_step. wp_step; try done.
      wp_use wp_OutPointFromJson; [intros p Hp|by intros _ [] ?].
      wp_step. wp_step; try done. destruct (is_null _) eqn:Hnull; [by wp_step|].
      wp_step. wp_step; [|done]. wp_use wp_field; [intros b Hb|done].
      wp_step. wp_step; [|done]. wp_step. wp_step; [|done]. wp_step. wp_step; [|done].
      wp_step. wp_step; try done. destruct a1 as [gsp|]; [|by wp_step].
      wp_use (wp_IsBlockAncestor parent); [done..|intros v w' Hv _].
      destruct v; cbn [negb]; wp_step; intros p' Hp'; simplify_eq.
      destruct (proj1 Hv eq_refl) as (k & Hk & Hpk).
      by eexists _, _, _, _, _, _, _, _, _, _, _, k.
    + unfold wp in Hwp. rewrite Hrun in Hwp. by apply Hwp.
  - intros (n1 & n2 & r & n3 & u & n4 & b & bs & ub & gb & n5 & k & H1' & H2' & H3' & Hp &
            H4' & H5' & H6' & H7' & H8' & H9' & H10' & H11' & Hk & Hpk).
    assert (Hwp : wp (CheckForBuyerTrade tc) (fun o _ => o = Ret (Some p)) w).
    + unfold CheckForBuyerTrade, GetNameOutPoint.
      wp_step. wp_step; same_result. cbn [negb]. wp_step. wp_step; same_result. cbn [negb].
      wp_step. wp_step. wp_call H3'.
      wp_use wp_OutPointFromJson; [intros p' Hp'|intros Hno; by destruct (Hno p)].
      rewrite (outpoint_in_unique _ _ _ Hp' Hp). wp_call H4'. rewrite H5'.
      wp_step. wp_step; [|congruence]. wp_use wp_field; [intros b' Hb'; simplify_eq|congruence].
      wp_step. wp_step; [|congruence]. wp_step. wp_step; [|congruence]. simplify_eq.
      wp_step. wp_step; [|congruence]. same_result. wp_step. wp_step; same_result.
      wp_use (wp_IsBlockAncestor parent); [done..|intros v w' Hv _].
      rewrite (proj2 Hv) by (by exists k). cbn [negb]. by wp_step.
    + unfold wp in Hwp. destruct (CheckForBuyerTrade tc w) as [o w'].
      exists w'. by rewrite Hwp.
Qed.

(** None of the checks signs, locks, funds or broadcasts anything: they
    leave the state alone and only query the chain, the game and the decoder,
    whatever the answers are. *)
Theorem checks_only_query tc sd before after ws :
  let frame {A} (m : M Node S A) := only_calls is_query ws (snd (m ws)) in
  frame (CheckForBuyerTrade tc) /\ frame (CheckForBuyerSignature before after) /\
  frame (CheckForSellerOutputs tc before sd) /\
  frame (CheckForSellerSignature before after sd).
Proof.
  intros frame. subst frame. cbn beta. split_and!.
  - apply queries_CheckForBuyerTrade.
  - apply queries_CheckForBuyerSignature.
  - apply queries_CheckForSellerOutputs.
  - apply queries_CheckForSellerSignature.
Qed.

End theorems.

(* ------------------------------------------------------------------ *)
(** ** The theorems at concrete inputs *)

Module CheckerWitness.
Import Mock.

Definition tc : TradeChecker := mkTradeChecker "bob" "alice" "gold" 5 2.
Definition sd : SellerData :=
  mkSellerData (Some "addr-name") (Some "addr-chi") (Some (mkOutPoint (Some "nametx") (Some 1))).
Definition w : World Fixed unit := world_of tt fixed.
Definition ins : list Json := [jobject; jobject].

#[local] Instance chain_view : ChainView parent.
Proof.
  intros h n. exists (header h), (default jnull (jget (header h) "previousblockhash")), n.
  split; [reflexivity|]. unfold header.
  destruct (parent h) as [q|]; split_and!; try reflexivity; try (by vm_compute).
  exists q. by vm_compute.
Qed.

Lemma GetTotalSat_exact_witness :
  let t := mkTradeChecker "bob" "alice" "gold" (two63 / 2) 3 in
  GetTotalSat tc w = (Ret (Some 10), w) /\ GetTotalSat t w = (Ret None, w).
Proof.
  split.
  - apply (GetTotalSat_exact tc w); vm_compute; split; congruence.
  - apply (GetTotalSat_exact (mkTradeChecker "bob" "alice" "gold" (two63 / 2) 3) w);
      [vm_compute; split; congruence..|typeclasses eauto|].
    intros [_ Hx]. vm_compute in Hx. discriminate Hx.
Defined.

Lemma IsBlockAncestor_correct_witness :
  exists b w', IsBlockAncestor (blk "b1") (blk "b3") 3 w = (Ret b, w') /\
    (b = true <-> exists k, (k <= 3)%nat /\ nth_parent parent k (blk "b3") = Some (blk "b1")) /\
    only_calls (fun e => exists h r, e = EvXaya (getblockheader h) r) w w'.
Proof. apply (IsBlockAncestor_correct parent (blk "b1") (blk "b3") 3 w); typeclasses eauto. Defined.

Lemma CheckForSellerOutputs_correct_witness :
  exists b, CheckForSellerOutputs tc "unsigned" sd w
              = (Ret b, mkWorld tt fixed [EvXaya (decodepsbt "unsigned") (inr (decode "unsigned"))]) /\
    (b = true <-> acceptable_outputs tc sd trade_outs).
Proof.
  apply (CheckForSellerOutputs_correct tc "unsigned" sd (decode "unsigned") fixed trade_outs w);
    try reflexivity; try (vm_compute; split; congruence); try (vm_compute; congruence).
  - left. vm_compute. split; congruence.
  - eexists _, _. split_and!; reflexivity.
  - repeat constructor; eexists _, _; split_and!; try reflexivity.
    + right. split_and!; try reflexivity. eexists _, _. split; reflexivity.
    + right. split_and!; try reflexivity. eexists _, _. split; reflexivity.
    + left. unfold wf_name_op, readable, reads_string. split_and!; try reflexivity.
      all: repeat eexists; reflexivity.
  - eexists. reflexivity.
Defined.

Lemma CheckForSellerSignature_correct_witness :
  exists b, CheckForSellerSignature "unsigned" "seller-signed" sd w
              = (Ret b, mkWorld tt fixed
                   [EvXaya (decodepsbt "unsigned") (inr (decode "unsigned"));
                    EvXaya (decodepsbt "seller-signed") (inr (decode "seller-signed"))]) /\
    (b = true <-> exists idx,
       first_input [tx_in "coin" 3; tx_in "nametx" 1] "nametx" 1 idx /\
       forall i, (i < 2)%nat -> i <> idx ->
         same_input ins [jobject; obj [("final", jstr "sig")]] i).
Proof.
  apply (CheckForSellerSignature_correct "unsigned" "seller-signed" sd "nametx" 1 fixed
           (decode "unsigned") (decode "seller-signed") [tx_in "coin" 3; tx_in "nametx" 1] ins [jobject; obj [("final", jstr "sig")]] w).
  - reflexivity.
  - eexists _, _, _. split_and!; try reflexivity.
    + eexists _, _. split_and!; reflexivity.
    + eexists. split_and!; reflexivity.
    + eexists. split_and!; reflexivity.
  - repeat constructor; eexists; split; reflexivity.
Defined.

Lemma CheckForBuyerSignature_correct_witness :
  let ins' := [obj [("final", jstr "sig")]; jobject] in
  exists b, CheckForBuyerSignature "unsigned" "buyer-signed" w
              = (Ret b, mkWorld tt fixed
                   [EvXaya (decodepsbt "unsigned") (inr (decode "unsigned"));
                    EvXaya (decodepsbt "buyer-signed") (inr (decode "buyer-signed"))]) /\
    (b = true <-> exists idx, (idx < 2)%nat /\ same_input ins ins' idx /\
       forall i, (i < 2)%nat -> i <> idx -> ~ same_input ins ins' i).
Proof.
  apply (CheckForBuyerSignature_correct "unsigned" "buyer-signed" fixed
           (decode "unsigned") (decode "buyer-signed") [tx_in "coin" 3; tx_in "nametx" 1] ins [obj [("final", jstr "sig")]; jobject] w).
  eexists _, _, _. split_and!; try reflexivity.
  - eexists _, _. split_and!; reflexivity.
  - eexists. split_and!; reflexivity.
  - eexists. split_and!; reflexivity.
Defined.

Lemma CheckForBuyerTrade_correct_witness :
  buyer_accepts parent tc fixed (mkOutPoint (Some "nametx") (Some 1)).
Proof.
  apply (CheckForBuyerTrade_correct parent tc (mkOutPoint (Some "nametx") (Some 1)) w);
    [typeclasses eauto..|].
  eexists. reflexivity.
Defined.

End CheckerWitness.
