(* ===== verification/MyOrders.v ===== *)
(** * The user's own orders ([src/myorders.cpp], [src/private/myorders.hpp])

    Own orders live in the global state: a map from order ID to order, and
    the next free ID.  The class has two virtual methods, which the daemon
    overrides: [ValidateOrder] (called while the state is locked) and
    [UpdateOrders] (called without the lock, with the orders to announce).
    They are the class [OrderHooks]; the operations are written against it. *)

From Stdlib Require Import ZArith Lia String.
From stdpp Require Import base gmap strings list fin_maps.
From S2P Require Import Prelude Json Proto Effects Mock.

Class OrderHooks `{JsonLib} (Node S : Type) := {
  ValidateOrder : string -> Order -> M Node State bool;
  UpdateOrders : OrdersOfAccount -> M Node S unit
}.

(** The base class's own versions. *)
Definition default_hooks `{JsonLib} (Node S : Type) : OrderHooks Node S :=
  {| ValidateOrder _ _ := mret true; UpdateOrders _ := mret tt |}.

(** A caller's operations. *)
Inductive Op :=
| OpAdd (o : Order)
| OpRemove (id : Z)
| OpTryLock (id : Z)
| OpUnlock (id : Z)
| OpRefresh.
#[export] Instance Op_eq_dec : EqDecision Op.
Proof. solve_decision. Defined.

Section operations.
Context `{JsonLib} `{!ProtoRuntime} {Node S : Type} `{HasState S}
  `{!OrderHooks Node S}.

Definition InternalGetOrders (includeLocked : bool) (s : State) : OrdersOfAccount :=
  mkOrdersOfAccount (Some (acct s))
    (filter (fun e => includeLocked || negb (locked_of e.2) = true) (own_map s)).

Definition GetOrders : M Node S OrdersOfAccount := ReadState (InternalGetOrders true).

(** The loop over the own orders.  A valid order is moved into [updated], so
    its entry in the state is a moved-from message until the final swap. *)
Fixpoint refresh_orders (account : string) (l : list (Z * Order))
    (updated : gmap Z Order) : M Node State (gmap Z Order) :=
  match l with
  | [] => mret updated
  | (id, o) :: l' =>
      valid ← ValidateOrder account o;
      if valid : bool then
        modify (fun s => with_own_map (<[id := moved_from o]> (own_map s)) s);;
        refresh_orders account l' (map_insert updated id o)
      else refresh_orders account l' updated
  end.

(** The part of each operation that runs under the state's lock is a
    definition of its own. *)
Definition refresh_locked : M Node State unit :=
  modify (fun s => with_own_map (own_map s) s);;
  s ← get;
  updated ← refresh_orders (acct s) (iter (own_map s)) ∅;
  modify (with_own_orders (mkOrdersOfAccount None updated)).

Definition RunRefresh : M Node S unit :=
  AccessState refresh_locked;;
  os ← ReadState (InternalGetOrders false);
  UpdateOrders os.

Definition add_locked (o : Order) : M Node State bool :=
  s ← get;
  valid ← ValidateOrder (acct s) o;
  if negb valid then mret false
  else
    let o := with_id None (with_account None o) in
    s ← get;
    let id := next_free_id s in
    modify (with_next_free_id (u64 (id + 1)));;
    modify (fun s => with_own_map (<[id := o]> (own_map s)) s);;
    mret true.

Definition Add (o : Order) : M Node S bool :=
  added ← AccessState (add_locked o);
  (if added : bool then RunRefresh else mret tt);;
  mret added.

Definition remove_locked (id : Z) : M Node State unit :=
  modify (fun s => with_own_map (delete id (own_map s)) s).

Definition RemoveById (id : Z) : M Node S unit :=
  AccessState (remove_locked id);;
  RunRefresh.

Definition trylock_locked (id : Z) : M Node State (option Order) :=
  modify (fun s => with_own_map (own_map s) s);;
  s ← get;
  match own_map s !! id with
  | None => mret None
  | Some o =>
      if locked_of o then mret None
      else
        let out := with_id (Some id) (with_account (Some (acct s)) o) in
        put (with_own_map (<[id := with_locked (Some true) o]> (own_map s)) s);;
        mret (Some out)
  end.

(** [None] is the return value false, [Some out] returns true with [out]. *)
Definition TryLock (id : Z) : M Node S (option Order) :=
  res ← AccessState (trylock_locked id);
  (if has res then RunRefresh else mret tt);;
  mret res.

Definition unlock_locked (id : Z) : M Node State unit :=
  modify (fun s => with_own_map (own_map s) s);;
  s ← get;
  o ← check_some (own_map s !! id);
  check (locked_of o);;
  put (with_own_map (<[id := with_locked None o]> (own_map s)) s).

Definition Unlock (id : Z) : M Node S unit :=
  AccessState (unlock_locked id);;
  RunRefresh.

Definition run_op (op : Op) : M Node S unit :=
  match op with
  | OpAdd o => Add o;; mret tt
  | OpRemove id => RemoveById id
  | OpTryLock id => TryLock id;; mret tt
  | OpUnlock id => Unlock id
  | OpRefresh => RunRefresh
  end.

Fixpoint run_ops (l : list Op) : M Node S unit :=
  match l with
  | [] => mret tt
  | op :: l' => run_op op;; run_ops l'
  end.

End operations.

(* ------------------------------------------------------------------ *)
(** ** The contract

    What a caller of [MyOrders] relies on, as operations on the global state
    alone, for orders whose validity [v] is stable during an operation. *)

Module Spec.

Implicit Types v : string -> Order -> bool.

Definition refresh (v : string -> Order -> bool) (s : State) : State :=
  with_own_orders
    (mkOrdersOfAccount None (filter (fun e => v (acct s) e.2 = true) (own_map s))) s.

Definition add v (o : Order) (s : State) : bool * State :=
  if v (acct s) o then
    let o' := with_id None (with_account None o) in
    (true, refresh v (with_own_map (<[next_free_id s := o']> (own_map s))
                        (with_next_free_id (u64 (next_free_id s + 1)) s)))
  else (false, s).

Definition remove v (id : Z) (s : State) : State :=
  refresh v (with_own_map (delete id (own_map s)) s).

Definition lockable (id : Z) (s : State) : option Order :=
  match own_map s !! id with
  | Some o => if locked_of o then None else Some o
  | None => None
  end.

Definition try_lock v (id : Z) (s : State) : option Order * State :=
  match lockable id s with
  | Some o =>
      (Some (with_id (Some id) (with_account (Some (acct s)) o)),
       refresh v (with_own_map (<[id := with_locked (Some true) o]> (own_map s)) s))
  | None => (None, with_own_map (own_map s) s)
  end.

Definition unlock v (id : Z) (s : State) : option State :=
  match own_map s !! id with
  | Some o =>
      if locked_of o then
        Some (refresh v (with_own_map (<[id := with_locked None o]> (own_map s)) s))
      else None
  | None => None
  end.

(** What is announced to the other traders in state [s]. *)
Definition announcement (s : State) : OrdersOfAccount :=
  mkOrdersOfAccount (Some (acct s)) (filter (fun e => locked_of e.2 = false) (own_map s)).

(** The state after an operation, none if it aborts. *)
Definition step v (op : Op) (s : State) : option State :=
  match op with
  | OpAdd o => Some (add v o s).2
  | OpRemove id => Some (remove v id s)
  | OpTryLock id => Some (try_lock v id s).2
  | OpUnlock id => unlock v id s
  | OpRefresh => Some (refresh v s)
  end.

(** Every own order has an ID that was given out already. *)
Definition ids_ok (s : State) : Prop :=
  forall id, is_Some (own_map s !! id) -> 0 <= id < next_free_id s.

(** The order [id] was given out and, if it still exists, is locked. *)
Definition held (id : Z) (s : State) : Prop :=
  0 <= id < next_free_id s /\
  forall o, own_map s !! id = Some o -> locked_of o = true.

End Spec.

(** The hooks answer: validation does not touch the state and gives [v], and
    an announcement of this account's orders succeeds and leaves the proto
    state alone.  [sent] is what has been announced so far. *)
Class HooksLaws `{JsonLib} {Node S : Type} `{!HasState S} `{!OrderHooks Node S}
    (v : string -> Order -> bool) (sent : S -> list OrdersOfAccount) : Prop := {
  validate_stable a o w : exists n l,
    ValidateOrder a o w = (Ret (v a o), mkWorld (wst w) n (wtrace w ++ l));
  update_ok os w : oa_account os = Some (acct (proj (wst w))) ->
    exists w', UpdateOrders os w = (Ret tt, w') /\ proj (wst w') = proj (wst w) /\
      (sent (wst w') = sent (wst w) \/ sent (wst w') = sent (wst w) ++ [os]);
  sent_inj x s : sent (inj x s) = sent s
}.

(* ------------------------------------------------------------------ *)
(** ** Lemmas *)

Lemma map_insert_union {K A} `{Countable K} (m m' : gmap K A) k x :
  map_insert m k x ∪ m' = m ∪ <[k := x]> m'.
Proof.
  unfold map_insert. apply map_eq. intros i. rewrite !lookup_union.
  destruct (m !! k) eqn:Hk; destruct (decide (i = k)) as [->|Hne];
    rewrite ?lookup_insert_eq, ?lookup_insert_ne, ?Hk by done; try done.
  - by destruct (m' !! k).
  - by destruct (m' !! k).
Qed.

(** The entries kept by a filter do not depend on the iteration order. *)
Lemma filter_iter `{ProtoRuntimeLaws} {K A} `{Countable K} (m : gmap K A)
    (P : K * A -> Prop) `{!forall x, Decision (P x)} :
  list_to_map (filter P (iter m)) = filter P m.
Proof.
  rewrite map_filter_alt. apply list_to_map_proper; [|by rewrite iter_perm].
  apply (sublist_NoDup _ ((iter m).*1)); [|by apply fmap_sublist, sublist_filter].
  rewrite iter_perm. apply NoDup_fst_map_to_list.
Qed.

Lemma announcement_eq s : InternalGetOrders false s = Spec.announcement s.
Proof.
  unfold InternalGetOrders, Spec.announcement. f_equal.
  apply map_filter_ext. intros i o _. cbn. by rewrite negb_true_iff.
Qed.

Section refinement.
Context `{JsonLib} `{!ProtoRuntime} `{!ProtoRuntimeLaws} {Node S : Type} `{!HasState S}
  `{!HasStateLaws S} `{!OrderHooks Node S} (v : string -> Order -> bool)
  (sent : S -> list OrdersOfAccount) `{!HooksLaws v sent}.
Implicit Types w : World Node S.

(** States that agree on everything but the own orders. *)
Definition same_rest (s s' : State) : Prop :=
  forall x, with_own_orders x s' = with_own_orders x s.

Lemma same_rest_own_map m s s' : same_rest s s' -> same_rest s (with_own_map m s').
Proof. intros Hs x. by rewrite <-(Hs x). Qed.

Lemma wp_validate a o Q (w : World Node State) :
  (forall n l, Q (Ret (v a o)) (mkWorld (wst w) n (wtrace w ++ l))) ->
  wp (ValidateOrder a o) Q w.
Proof.
  intros HQ. unfold wp. destruct (validate_stable (v:=v) (sent:=sent) a o w) as (n & l & ->).
  apply HQ.
Qed.

Lemma wp_refresh_orders a l upd Q (w : World Node State) :
  (forall s' n tr, same_rest (wst w) s' ->
     Q (Ret (upd ∪ list_to_map (filter (fun e => v a e.2 = true) l))) (mkWorld s' n tr)) ->
  wp (refresh_orders a l upd) Q w.
Proof.
  revert upd w. induction l as [|[id o] l IH]; intros upd w HQ; cbn [refresh_orders].
  { wp_step. rewrite filter_nil in HQ. cbn in HQ. rewrite (right_id_L ∅ (∪)) in HQ.
    destruct w. by apply HQ. }
  wp_use wp_validate. intros n tr. destruct (v a o) eqn:Hva.
  - wp_step. wp_step. apply IH. intros s' n' tr' Hs. rewrite map_insert_union.
    rewrite filter_cons_True in HQ by done. cbn [list_to_map foldr] in HQ.
    apply HQ. intros x. by rewrite Hs.
  - rewrite filter_cons_False in HQ by (cbn; congruence). by apply IH.
Qed.

(** [RunRefresh] drops the invalid orders and announces the free ones. *)
Lemma wp_RunRefresh Q w :
  (forall w', proj (wst w') = Spec.refresh v (proj (wst w)) ->
     sent (wst w') = sent (wst w) \/
     sent (wst w') = sent (wst w) ++ [Spec.announcement (proj (wst w'))] ->
     Q (Ret tt) w') ->
  wp RunRefresh Q w.
Proof.
  intros HQ. unfold RunRefresh, refresh_locked. wp_step. wp_step. wp_step. wp_step. wp_step. wp_step. wp_step.
  apply wp_refresh_orders. intros s' n tr Hs. cbn [then_post]. wp_step. wp_step. wp_step.
  rewrite (left_id_L ∅ (∪)), filter_iter.
  match goal with |- wp _ _ ?w2 =>
    destruct (update_ok (v:=v) (sent:=sent) (InternalGetOrders false (proj (wst w2))) w2)
      as (w' & Hu & Hp & Hsent); [done|] end.
  unfold wp. cbn [wst] in *. rewrite Hu. rewrite proj_inj in *. rewrite sent_inj in Hsent.
  cbn in Hs. apply HQ.
  - rewrite Hp. apply Hs.
  - rewrite Hp. destruct Hsent as [?|Hsent]; [by left|right].
    by rewrite Hsent, announcement_eq.
Qed.

(** Nothing is announced, or the free orders of the refreshed state [s']. *)
Definition announces (w w' : World Node S) (s' : State) : Prop :=
  sent (wst w') = sent (wst w) \/
  (sent (wst w') = sent (wst w) ++ [Spec.announcement s'] /\
   exists s0, s' = Spec.refresh v s0).

(** [m] returns [r], leaves the proto state [s'], and announces nothing but
    possibly its free orders. *)
Definition implements {A} (m : M Node S A) (w : World Node S) (r : A) (s' : State) : Prop :=
  exists w', m w = (Ret r, w') /\ proj (wst w') = s' /\ announces w w' s'.

Lemma wp_implements {A} (m : M Node S A) w r s' :
  wp m (fun o w' => o = Ret r /\ proj (wst w') = s' /\ announces w w' s') w ->
  implements m w r s'.
Proof. unfold wp, implements. destruct (m w) as [o w']. intros (-> & ? & ?). by exists w'. Qed.

Lemma Add_implements o w :
  let '(b, s') := Spec.add v o (proj (wst w)) in implements (Add o) w b s'.
Proof.
  destruct (Spec.add v o (proj (wst w))) as [b s'] eqn:Hsp. apply wp_implements.
  unfold Spec.add in Hsp. unfold Add, add_locked. do 5 wp_step.
  wp_use wp_validate. intros n tr. cbn [wst] in *.
  destruct (v (acct (proj (wst w))) o); simplify_eq; cbn [negb].
  - do 7 wp_step. wp_use wp_RunRefresh. intros w' Hp Hs. wp_step.
    cbn [wst] in Hp, Hs. rewrite proj_inj in Hp. rewrite sent_inj in Hs.
    split; [done|]. rewrite Hp in *. unfold announces. naive_solver.
  - do 3 wp_step. cbn. rewrite inj_proj. unfold announces. auto.
Qed.

Lemma RunRefresh_implements w :
  implements RunRefresh w tt (Spec.refresh v (proj (wst w))).
Proof.
  apply wp_implements, wp_RunRefresh. intros w' Hp Hs. rewrite Hp in *. unfold announces. naive_solver.
Qed.

Lemma RemoveById_implements id w :
  implements (RemoveById id) w tt (Spec.remove v id (proj (wst w))).
Proof.
  apply wp_implements. unfold RemoveById, remove_locked. do 3 wp_step. apply wp_RunRefresh.
  intros w' Hp Hs. cbn [wst] in Hp, Hs. rewrite proj_inj in Hp. rewrite sent_inj in Hs.
  rewrite Hp in *. unfold announces. naive_solver.
Qed.

Lemma TryLock_implements id w :
  let '(r, s') := Spec.try_lock v id (proj (wst w)) in implements (TryLock id) w r s'.
Proof.
  destruct (Spec.try_lock v id (proj (wst w))) as [r s'] eqn:Hsp. apply wp_implements.
  unfold Spec.try_lock, Spec.lockable in Hsp. unfold TryLock, trylock_locked. do 6 wp_step.
  cbn [wst wnode wtrace]. rewrite own_map_with_own_map.
  destruct (own_map (proj (wst w)) !! id) as [o|]; [destruct (locked_of o)|]; simplify_eq.
  - do 2 wp_step. cbn [has]. do 2 wp_step. unfold announces. cbn. rewrite proj_inj, sent_inj. auto.
  - do 4 wp_step. cbn [has]. wp_use wp_RunRefresh. intros w' Hp Hs. wp_step.
    cbn [wst] in Hp, Hs. rewrite proj_inj in Hp. rewrite sent_inj in Hs.
    split; [done|]. rewrite Hp in *. unfold announces. naive_solver.
  - do 2 wp_step. cbn [has]. do 2 wp_step. unfold announces. cbn. rewrite proj_inj, sent_inj. auto.
Qed.

Lemma Unlock_implements id w :
  match Spec.unlock v id (proj (wst w)) with
  | Some s' => implements (Unlock id) w tt s'
  | None => exists w', Unlock id w = (Fatal, w')
  end.
Proof.
  assert (Hwp : wp (Unlock id) (fun o w' => match Spec.unlock v id (proj (wst w)) with
      | Some s' => o = Ret tt /\ proj (wst w') = s' /\ announces w w' s'
      | None => o = Fatal end) w).
  { unfold Unlock, unlock_locked, Spec.unlock. do 6 wp_step. rewrite own_map_with_own_map.
    destruct (own_map (proj (wst w)) !! id) as [o|]; [|by wp_step; wp_step].
    wp_step. wp_step; [|done]. simplify_eq. wp_step.
    destruct (locked_of a); (wp_step; [|done]); [|done].
    wp_step. apply wp_RunRefresh. intros w' Hp Hs.
    cbn [wst] in Hp, Hs. rewrite proj_inj in Hp. rewrite sent_inj in Hs.
    rewrite Hp in *. unfold announces. naive_solver. }
  destruct (Spec.unlock v id (proj (wst w))) as [s'|].
  - by apply wp_implements.
  - unfold wp in Hwp. destruct (Unlock id w) as [o w']. exists w'. by rewrite Hwp.
Qed.

(** One operation of a caller. *)
Lemma run_op_implements op w :
  match Spec.step v op (proj (wst w)) with
  | Some s' => implements (run_op op) w tt s'
  | None => exists w', run_op op w = (Fatal, w')
  end.
Proof.
  destruct op as [o|id|id|id|]; cbn [run_op Spec.step].
  - pose proof (Add_implements o w) as Ha. destruct (Spec.add _ _ _) as [b s'].
    destruct Ha as (w' & Hr & ?). exists w'. split; [|done].
    unfold mbind, M_bind. by rewrite Hr.
  - apply RemoveById_implements.
  - pose proof (TryLock_implements id w) as Ha. destruct (Spec.try_lock _ _ _) as [b s'].
    destruct Ha as (w' & Hr & ?). exists w'. split; [|done].
    unfold mbind, M_bind. by rewrite Hr.
  - apply Unlock_implements.
  - apply RunRefresh_implements.
Qed.

End refinement.

(** *** What the others know

    While the connection is up every announcement gets out, so the last list
    that was announced is the one of the current state. *)

Class LiveHooks `{JsonLib} {Node S : Type} `{!HasState S} `{!OrderHooks Node S}
    (sent : S -> list OrdersOfAccount) (online : S -> Prop) : Prop := {
  online_inj x s : online s -> online (inj x s);
  update_live os w : oa_account os = Some (acct (proj (wst w))) -> online (wst w) ->
    exists w', UpdateOrders os w = (Ret tt, w') /\ proj (wst w') = proj (wst w) /\
      sent (wst w') = sent (wst w) ++ [os] /\ online (wst w')
}.

Section live.
Context `{JsonLib} `{!ProtoRuntime} `{!ProtoRuntimeLaws} {Node S : Type} `{!HasState S}
  `{!HasStateLaws S} `{!OrderHooks Node S} (v : string -> Order -> bool)
  (sent : S -> list OrdersOfAccount) (online : S -> Prop) `{!HooksLaws v sent} `{!LiveHooks sent online}.
Implicit Types w : World Node S.

(** The last announcement is the one of the present state. *)
Definition current (s : S) : Prop := last (sent s) = Some (Spec.announcement (proj s)).

(** Going from [s] to [s'], there was nothing to announce, or it has been. *)
Definition informs (s s' : S) : Prop :=
  online s' /\
  (current s' \/ sent s' = sent s /\ Spec.announcement (proj s') = Spec.announcement (proj s)).

Lemma informs_trans s1 s2 s3 : informs s1 s2 -> informs s2 s3 -> informs s1 s3.
Proof.
  intros [_ Ha] [Ho Hb]. split; [done|]. destruct Hb as [?|[Hs2 Ha2]]; [by left|].
  destruct Ha as [Hc|[Hs1 Ha1]]; [left|right; split; congruence].
  unfold current in *. congruence.
Qed.

(** From [w] to [w'] nothing was sent to the others, or, if [b], exactly the
    free orders of the new state. *)
Definition sends_out (b : bool) (w w' : World Node S) : Prop :=
  online (wst w') /\
  sent (wst w') = sent (wst w) ++ (if b then [Spec.announcement (proj (wst w'))] else []).

Lemma sends_out_after b w w1 w2 : sends_out false w w1 -> sends_out b w1 w2 -> sends_out b w w2.
Proof. intros [_ H1'] [Ho H2']. split; [done|]. by rewrite H2', H1', app_nil_r. Qed.

Lemma sends_out_informs b w w' :
  sends_out b w w' ->
  (b = false -> Spec.announcement (proj (wst w')) = Spec.announcement (proj (wst w))) ->
  informs (wst w) (wst w').
Proof.
  intros [Ho Hs] Hb. split; [done|]. destruct b.
  - left. unfold current. by rewrite Hs, last_snoc.
  - right. rewrite app_nil_r in Hs. auto.
Qed.

(** A change of the state sends nothing, and a refresh sends once. *)
Lemma AccessState_sends {A} (m : M Node State A) w r w1 :
  AccessState m w = (r, w1) -> online (wst w) -> sends_out false w w1.
Proof.
  intros Hm Ho. unfold AccessState, zoom in Hm. destruct (m _). injection Hm as _ <-.
  split; [by apply online_inj|]. cbn [wst]. by rewrite sent_inj, app_nil_r.
Qed.

Lemma RunRefresh_sends w :
  online (wst w) -> wp RunRefresh (fun o w' => o = Ret tt /\ sends_out true w w') w.
Proof.
  intros Ho. unfold RunRefresh, refresh_locked. do 7 wp_step. apply (wp_refresh_orders v sent). intros s' n tr _. cbn [then_post]. wp_step. wp_step. wp_step.
  match goal with |- wp (UpdateOrders ?os) _ ?w2 =>
    destruct (update_live (sent := sent) (online := online) os w2) as (w' & Hu & Hp & Hs & Hon);
    [done|by apply online_inj|] end.
  unfold wp. rewrite Hu. split; [done|]. split; [done|].
  by rewrite Hs, Hp, announcement_eq; cbn [wst]; rewrite sent_inj.
Qed.

(** A change of the state that is followed by a refresh. *)
Lemma wp_then_refresh {A} (m : M Node State A) (Q : outcome unit -> World Node S -> Prop) w a w1 :
  AccessState m w = (Ret a, w1) -> online (wst w) ->
  (forall w', sends_out true w w' -> Q (Ret tt) w') -> wp RunRefresh Q w1.
Proof.
  intros Hm Ho HQ. pose proof (AccessState_sends m w _ w1 Hm Ho) as Hs.
  eapply wp_conseq; [by apply RunRefresh_sends, Hs|].
  intros o w' (-> & ?). by eapply HQ, sends_out_after.
Qed.

Lemma Add_sends o w : online (wst w) ->
  wp (Add o) (fun r w' => forall b, r = Ret b -> sends_out b w w') w.
Proof.
  intros Ho. unfold Add. apply wp_bind, wp_intro. intros [[|]|e|] w1 Hr; cbn [then_post].
  - apply wp_bind. eapply wp_then_refresh; [exact Hr|done|]. intros w2 Hs. cbn [then_post].
    wp_step. by intros b [= <-].
  - do 2 wp_step. intros b [= <-]. by eapply AccessState_sends.
  - by intros b [=].
  - by intros b [=].
Qed.

Lemma RemoveById_sends id w : online (wst w) ->
  wp (RemoveById id) (fun r w' => r = Ret tt -> sends_out true w w') w.
Proof.
  intros Ho. unfold RemoveById. apply wp_bind, wp_intro. intros [a|e|] w1 Hr; cbn [then_post]; [|done..].
  eapply wp_then_refresh; [exact Hr|done|auto].
Qed.

Lemma TryLock_sends id w : online (wst w) ->
  wp (TryLock id) (fun r w' => forall x, r = Ret x -> sends_out (has x) w w') w.
Proof.
  intros Ho. unfold TryLock. apply wp_bind, wp_intro. intros [[x|]|e|] w1 Hr; cbn [then_post has].
  - apply wp_bind. eapply wp_then_refresh; [exact Hr|done|]. intros w2 Hs. cbn [then_post].
    wp_step. by intros b [= <-].
  - do 2 wp_step. intros b [= <-]. by eapply AccessState_sends.
  - by intros b [=].
  - by intros b [=].
Qed.

Lemma Unlock_sends id w : online (wst w) ->
  wp (Unlock id) (fun r w' => r = Ret tt -> sends_out true w w') w.
Proof.
  intros Ho. unfold Unlock. apply wp_bind, wp_intro. intros [a|e|] w1 Hr; cbn [then_post]; [|done..].
  eapply wp_then_refresh; [exact Hr|done|auto].
Qed.

(** [m] returns [r] and leaves the proto state [s'], and tells the others: if
    the connection is up and [b], exactly once and the free orders of [s']. *)
Definition carries_out {A} (m : M Node S A) w (r : A) (s' : State) (b : bool) : Prop :=
  exists w', m w = (Ret r, w') /\ proj (wst w') = s' /\ announces v sent w w' s' /\
    (online (wst w) -> sends_out b w w').

Lemma implements_sends {A} (m : M Node S A) w r s' b :
  implements v sent m w r s' ->
  (online (wst w) -> wp m (fun o w' => o = Ret r -> sends_out b w w') w) ->
  carries_out m w r s' b.
Proof.
  intros (w' & Hr & Hp & Ha) Hs. exists w'. split_and!; [done..|]. intros Ho.
  specialize (Hs Ho). unfold wp in Hs. rewrite Hr in Hs. by apply Hs.
Qed.

Lemma run_op_live op w : online (wst w) ->
  wp (run_op op) (fun o w' => o = Ret tt -> informs (wst w) (wst w')) w.
Proof.
  intros Ho. assert (Hdone : forall w', sends_out true w w' -> informs (wst w) (wst w'))
    by (intros w' Hs; by eapply sends_out_informs).
  destruct op as [o|id|id|id|]; cbn [run_op].
  - pose proof (Add_implements v sent o w) as Hi. apply wp_bind, wp_intro.
    intros [b|e|] w' Hr; cbn [then_post]; [|done..]. wp_step. intros _.
    pose proof (wp_run _ _ _ _ _ Hr (Add_sends o w Ho)) as Hs. eapply sends_out_informs; [by apply Hs|]. intros ->. unfold Spec.add in Hi.
    destruct (v _ o); destruct Hi as (w2 & Heq & Hp & _); rewrite Hr in Heq; [done|].
    injection Heq as <-. by rewrite Hp.
  - eapply wp_conseq; [by apply RemoveById_sends|]. auto.
  - pose proof (TryLock_implements v sent id w) as Hi. apply wp_bind, wp_intro.
    intros [x|e|] w' Hr; cbn [then_post]; [|done..]. wp_step. intros _.
    pose proof (wp_run _ _ _ _ _ Hr (TryLock_sends id w Ho)) as Hs. eapply sends_out_informs; [by apply Hs|]. intros Hx. unfold Spec.try_lock in Hi.
    destruct (Spec.lockable id _); destruct Hi as (w2 & Heq & Hp & _); rewrite Hr in Heq;
      injection Heq as -> <-; [done|]. rewrite Hp. unfold Spec.announcement. by rewrite own_map_with_own_map.
  - eapply wp_conseq; [by apply Unlock_sends|]. auto.
  - eapply wp_conseq; [by apply RunRefresh_sends|]. intros o w' (_ & ?) _. auto.
Qed.

Lemma run_ops_live l w w' :
  run_ops l w = (Ret tt, w') -> online (wst w) -> informs (wst w) (wst w').
Proof.
  revert w. induction l as [|op l IH]; intros w Hr Ho; cbn [run_ops] in *.
  { injection Hr as <-. split; auto. }
  pose proof (run_op_live op w Ho) as Hop. unfold wp in Hop. unfold mbind, M_bind in Hr.
  destruct (run_op op w) as [[[]|e|] w1]; [|done..]. specialize (Hop eq_refl).
  eapply informs_trans; [exact Hop|]. by apply IH, Hop.
Qed.

End live.

(** *** Sequences of operations *)

Section sequences.
Context (v : string -> Order -> bool).

Fixpoint spec_steps (l : list Op) (s : State) : option State :=
  match l with
  | [] => Some s
  | op :: l' => match Spec.step v op s with Some s' => spec_steps l' s' | None => None end
  end.

Lemma lookup_refresh s id o :
  own_map (Spec.refresh v s) !! id = Some o <->
  own_map s !! id = Some o /\ v (acct s) o = true.
Proof. unfold Spec.refresh. cbn. by rewrite map_lookup_filter_Some. Qed.

Lemma lookup_refresh_is_Some s id :
  is_Some (own_map (Spec.refresh v s) !! id) -> is_Some (own_map s !! id).
Proof. intros [o [Ho _]%lookup_refresh]. by exists o. Qed.

Lemma next_free_refresh s : next_free_id (Spec.refresh v s) = next_free_id s.
Proof. done. Qed.

Lemma next_free_own_map s m : next_free_id (with_own_map m s) = next_free_id s.
Proof. done. Qed.

Lemma next_free_set s i : next_free_id (with_next_free_id i s) = i.
Proof. done. Qed.

Ltac next_free := rewrite ?next_free_refresh, ?next_free_own_map, ?next_free_set,
  ?u64_id by (unfold is_u64; lia).

Lemma step_next_free op s s' :
  Spec.step v op s = Some s' -> 0 <= next_free_id s -> next_free_id s + 1 < two64 ->
  next_free_id s <= next_free_id s' <= next_free_id s + 1.
Proof.
  intros Hs Hpos Hlt. destruct op as [o|id|id|id|]; cbn [Spec.step] in Hs.
  - unfold Spec.add in Hs. destruct (v _ _); cbn [snd] in Hs; simplify_eq; [|lia].
    next_free. lia.
  - simplify_eq. unfold Spec.remove. next_free. lia.
  - unfold Spec.try_lock in Hs. destruct (Spec.lockable id s); cbn [snd] in Hs; simplify_eq;
      next_free; lia.
  - unfold Spec.unlock in Hs. repeat case_match; simplify_eq; next_free; lia.
  - simplify_eq. next_free. lia.
Qed.

(** Where the entry [id] comes from after an operation. *)
Lemma step_lookup op s s' id o :
  Spec.step v op s = Some s' -> own_map s' !! id = Some o ->
  own_map s !! id = Some o \/
  (op = OpTryLock id /\ is_Some (own_map s !! id) /\ locked_of o = true) \/
  (op = OpUnlock id /\ is_Some (own_map s !! id)) \/
  (exists a, op = OpAdd a /\ id = next_free_id s).
Proof.
  intros Hs Ho. destruct op as [a|i|i|i|]; cbn [Spec.step] in Hs.
  - unfold Spec.add in Hs. destruct (v _ _); cbn [snd] in Hs; simplify_eq; [|by left].
    apply lookup_refresh in Ho as [Ho _]. rewrite own_map_with_own_map in Ho.
    destruct (decide (id = next_free_id s)) as [->|Hne].
    + do 3 right. by exists a.
    + rewrite lookup_insert_ne in Ho by done. by left.
  - simplify_eq. apply lookup_refresh in Ho as [Ho _]. rewrite own_map_with_own_map in Ho.
    apply lookup_delete_Some in Ho as [_ Ho]. by left.
  - unfold Spec.try_lock, Spec.lockable in Hs.
    destruct (own_map s !! i) as [x|] eqn:Hi; [destruct (locked_of x)|]; simplify_eq; cbn [snd] in Ho;
      [by left| |by left].
    apply lookup_refresh in Ho as [Ho _]. rewrite own_map_with_own_map in Ho.
    destruct (decide (id = i)) as [->|Hne].
    + rewrite lookup_insert_eq in Ho. simplify_eq. right; left. by rewrite Hi.
    + rewrite lookup_insert_ne in Ho by done. by left.
  - unfold Spec.unlock in Hs.
    destruct (own_map s !! i) as [x|] eqn:Hi; [destruct (locked_of x)|]; simplify_eq.
    apply lookup_refresh in Ho as [Ho _]. rewrite own_map_with_own_map in Ho.
    destruct (decide (id = i)) as [->|Hne].
    + right; right; left. by rewrite Hi.
    + rewrite lookup_insert_ne in Ho by done. by left.
  - simplify_eq. apply lookup_refresh in Ho as [Ho _]. by left.
Qed.

Lemma step_ids_ok op s s' :
  Spec.step v op s = Some s' -> 0 <= next_free_id s -> next_free_id s + 1 < two64 ->
  Spec.ids_ok s -> Spec.ids_ok s'.
Proof.
  intros Hs Hpos Hlt Hok id [o Ho].
  pose proof (step_next_free op s s' Hs Hpos Hlt) as Hn.
  destruct (step_lookup _ _ _ _ _ Hs Ho) as [Hi|[(_ & Hi & _)|[(_ & Hi)|(a & -> & ->)]]].
  - specialize (Hok id (mk_is_Some _ _ Hi)). lia.
  - specialize (Hok id Hi). lia.
  - specialize (Hok id Hi). lia.
  - cbn [Spec.step] in Hs. unfold Spec.add in Hs. destruct (v _ _); cbn [snd] in Hs; simplify_eq.
    + split; [done|]. next_free. lia.
    + specialize (Hok _ (mk_is_Some _ _ Ho)). lia.
Qed.

Lemma step_held op s s' id :
  Spec.step v op s = Some s' -> next_free_id s + 1 < two64 -> op <> OpUnlock id ->
  Spec.held id s -> Spec.held id s'.
Proof.
  intros Hs Hlt Hne [Hid Hl]. pose proof (step_next_free op s s' Hs ltac:(lia) Hlt) as Hn.
  split; [lia|]. intros o Ho.
  destruct (step_lookup _ _ _ _ _ Hs Ho) as [Hi|[(_ & _ & ?)|[(? & _)|(a & _ & ?)]]];
    [by apply Hl|done|done|lia].
Qed.

Lemma steps_held l s s' id :
  spec_steps l s = Some s' -> next_free_id s + Z.of_nat (length l) < two64 ->
  OpUnlock id ∉ l -> Spec.held id s -> Spec.held id s'.
Proof.
  revert s. induction l as [|op l IH]; intros s Hs Hlt Hnot Hh; cbn in Hs; [by simplify_eq|].
  destruct (Spec.step v op s) as [s1|] eqn:Hs1; [|done].
  apply not_elem_of_cons in Hnot as [Hne Hnot]. cbn [length] in Hlt.
  pose proof (step_next_free op s s1 Hs1 ltac:(destruct Hh; lia) ltac:(lia)).
  apply (IH s1); [done|lia|done|]. eapply step_held; [done|lia|congruence|done].
Qed.

End sequences.

(* ------------------------------------------------------------------ *)
(** ** Correctness of the own orders *)

Section theorems.
Context `{JsonLib} `{!ProtoRuntime} `{!ProtoRuntimeLaws} {Node S : Type} `{!HasState S}
  `{!HasStateLaws S} `{!OrderHooks Node S} (v : string -> Order -> bool)
  (sent : S -> list OrdersOfAccount) `{!HooksLaws v sent}.
Implicit Types w : World Node S.

(** A run of operations ends in the state of the abstract steps. *)
Lemma run_ops_spec l w o w' :
  run_ops l w = (o, w') ->
  match spec_steps v l (proj (wst w)) with
  | Some s' => o = Ret tt /\ proj (wst w') = s'
  | None => o = Fatal
  end.
Proof.
  revert w. induction l as [|op l IH]; intros w Hr; cbn [run_ops spec_steps] in *.
  { by injection Hr as <- <-. }
  pose proof (run_op_implements v sent op w) as Hop.
  unfold mbind, M_bind in Hr.
  destruct (Spec.step v op (proj (wst w))) as [s1|].
  - destruct Hop as (w1 & Hw1 & <- & _). rewrite Hw1 in Hr. by apply IH.
  - destruct Hop as (w1 & Hw1). rewrite Hw1 in Hr. by injection Hr as <- _.
Qed.

(** [os] lists free and valid orders of [a] only. *)
Definition good_announcement (a : string) (os : OrdersOfAccount) : Prop :=
  oa_account os = Some a /\
  forall id o, oa_orders os !! id = Some o -> locked_of o = false /\ v a o = true.

Lemma announcement_good s : good_announcement (acct s) (Spec.announcement (Spec.refresh v s)).
Proof.
  split; [done|]. intros id o. unfold Spec.announcement. cbn [oa_orders].
  rewrite map_lookup_filter_Some, lookup_refresh. tauto.
Qed.

Lemma step_acct op s s' : Spec.step v op s = Some s' -> acct s' = acct s.
Proof.
  destruct op; cbn [Spec.step]; unfold Spec.add, Spec.try_lock, Spec.unlock;
    intros; repeat case_match; by simplify_eq.
Qed.

Lemma run_ops_announces l w o w' :
  run_ops l w = (o, w') ->
  forall os, os ∈ sent (wst w') ->
    os ∈ sent (wst w) \/ o = Fatal \/ good_announcement (acct (proj (wst w))) os.
Proof.
  revert w. induction l as [|op l IH]; intros w Hr os Hos; cbn [run_ops] in *.
  { injection Hr as <- <-. by left. }
  pose proof (run_op_implements v sent op w) as Hop. unfold mbind, M_bind in Hr.
  destruct (Spec.step v op (proj (wst w))) as [s1|] eqn:Hs.
  - destruct Hop as (w1 & Hw1 & Hp & Ha). rewrite Hw1 in Hr.
    pose proof (step_acct _ _ _ Hs) as Hacct.
    destruct (IH w1 Hr os Hos) as [Hin|[?|Hg]]; [|by auto|].
    + destruct Ha as [Ha|[Ha [s0 Hs0]]]; rewrite Ha in Hin; [by left|].
      apply elem_of_app in Hin as [?|Hin%list_elem_of_singleton]; [by left|].
      right; right. rewrite Hin, <-Hacct, Hs0. exact (announcement_good s0).
    + right; right. by rewrite <-Hacct, <-Hp.
  - destruct Hop as (w1 & Hw1). rewrite Hw1 in Hr. injection Hr as <- _. auto.
Qed.

(** A lock is exclusive: once an order has been locked, no sequence of
    operations without its unlocking makes it lockable again, not even one that
    cancels it and adds new orders (IDs are not reused, as long as the 64-bit
    counter does not wrap around). *)
Theorem lock_excludes_until_unlock id o l w w1 w2 :
  Spec.ids_ok (proj (wst w)) ->
  next_free_id (proj (wst w)) + Z.of_nat (length l) < two64 ->
  TryLock id w = (Ret (Some o), w1) ->
  OpUnlock id ∉ l -> run_ops l w1 = (Ret tt, w2) ->
  exists w3, TryLock id w2 = (Ret None, w3).
Proof.
  intros Hok Hlt Ht Hnot Hr.
  assert (Hh1 : Spec.held id (proj (wst w1)) /\
                next_free_id (proj (wst w1)) = next_free_id (proj (wst w))).
  { pose proof (TryLock_implements v sent id w) as Hi. unfold Spec.try_lock, Spec.lockable in Hi.
    destruct (own_map (proj (wst w)) !! id) as [x|] eqn:Hx; [destruct (locked_of x)|];
      destruct Hi as (w' & Hrun & Hp & _); rewrite Hrun in Ht; simplify_eq.
    rewrite Hp. split; [|done]. split; [exact (Hok id (mk_is_Some _ _ Hx))|].
    intros y [Hy _]%lookup_refresh. rewrite own_map_with_own_map, lookup_insert_eq in Hy.
    by simplify_eq. }
  destruct Hh1 as [Hh1 Hn1]. pose proof (run_ops_spec l w1 _ _ Hr) as Hs.
  destruct (spec_steps v l (proj (wst w1))) as [s2|] eqn:Hs2; [|done].
  destruct Hs as [_ Hp2].
  assert (Hh2 : Spec.held id s2) by (eapply steps_held; [done|lia|done|done]).
  pose proof (TryLock_implements v sent id w2) as Hi. unfold Spec.try_lock, Spec.lockable in Hi.
  rewrite Hp2 in Hi. destruct Hh2 as [_ Hl].
  destruct (own_map s2 !! id) as [x|]; [rewrite (Hl x eq_refl) in Hi|];
    destruct Hi as (w3 & Hrun & _); by exists w3.
Qed.

(** An added order gets an ID that no order has, becomes available under
    it, and leaves the other valid orders as they are. *)
Theorem Add_fresh o w w' :
  Spec.ids_ok (proj (wst w)) -> Add o w = (Ret true, w') ->
  let s := proj (wst w) in let s' := proj (wst w') in
  own_map s !! next_free_id s = None /\
  (v (acct s) (with_id None (with_account None o)) = true ->
   own_map s' !! next_free_id s = Some (with_id None (with_account None o))) /\
  forall id x, id <> next_free_id s ->
    own_map s' !! id = Some x <-> own_map s !! id = Some x /\ v (acct s) x = true.
Proof.
  intros Hok Ha s s'. pose proof (Add_implements v sent o w) as Hi.
  unfold Spec.add in Hi. fold s in Hi.
  destruct (v (acct s) o); destruct Hi as (w1 & Hw1 & Hp & _); rewrite Hw1 in Ha; simplify_eq.
  subst s'. rewrite Hp. split_and!.
  - apply eq_None_not_Some. intros Hs. specialize (Hok _ Hs). fold s in Hok. lia.
  - intros Hv. apply lookup_refresh. rewrite own_map_with_own_map, lookup_insert_eq. done.
  - intros id x Hne. rewrite lookup_refresh, own_map_with_own_map, lookup_insert_ne by done. done.
Qed.

End theorems.

Section contract.
Context `{JsonLib} `{!ProtoRuntime} `{!ProtoRuntimeLaws} {Node S : Type} `{!HasState S}
  `{!HasStateLaws S} `{!OrderHooks Node S} (v : string -> Order -> bool)
  (sent : S -> list OrdersOfAccount) (online : S -> Prop) `{!HooksLaws v sent} `{!LiveHooks sent online}.
Implicit Types w : World Node S.

#[local] Abbreviation carries_out := (carries_out v sent online).

(** C19: the operations on own orders implement their contract on the global
    state: adding validates, gives the next free ID and stores the order
    without account and ID; cancelling deletes; locking succeeds exactly on an
    existing free order, returns it with account and ID, and marks it; unlocking
    clears the mark and aborts exactly when the order is missing or not locked;
    each of them, unless it was refused, and the periodic refresh then drops the
    invalid orders.  While the connection is up, this is followed by exactly one
    announcement, which has the free orders of the new state, and an order that
    is not accepted or cannot be locked by none; while it is down, the
    announcement can be left out. *)
Theorem operations_implement_spec o id w :
  (let '(b, s') := Spec.add v o (proj (wst w)) in carries_out (Add o) w b s' b) /\
  carries_out (RemoveById id) w tt (Spec.remove v id (proj (wst w))) true /\
  (let '(r, s') := Spec.try_lock v id (proj (wst w)) in carries_out (TryLock id) w r s' (has r)) /\
  match Spec.unlock v id (proj (wst w)) with
  | Some s' => carries_out (Unlock id) w tt s' true
  | None => exists w', Unlock id w = (Fatal, w')
  end /\
  carries_out RunRefresh w tt (Spec.refresh v (proj (wst w))) true.
Proof.
  split_and!.
  - pose proof (Add_implements v sent o w) as Hi. destruct (Spec.add v o _) as [b s'].
    apply implements_sends; [done|]. intros Ho. eapply wp_conseq; [by apply (Add_sends v sent online)|]. auto.
  - apply implements_sends; [apply (RemoveById_implements v sent)|apply (RemoveById_sends v sent online)].
  - pose proof (TryLock_implements v sent id w) as Hi. destruct (Spec.try_lock v id _) as [r s'].
    apply implements_sends; [done|]. intros Ho. eapply wp_conseq; [by apply (TryLock_sends v sent online)|]. auto.
  - pose proof (Unlock_implements v sent id w) as Hi. destruct (Spec.unlock v id _); [|done].
    apply implements_sends; [done|apply (Unlock_sends v sent online)].
  - apply implements_sends; [apply (RunRefresh_implements v sent)|]. intros Ho.
    eapply wp_conseq; [by apply (RunRefresh_sends v sent online)|]. by intros r w' [_ ?] _.
Qed.

End contract.

(** If validation throws while the own orders are refreshed, the orders
    that were already moved out of the state are lost: what is left of them is
    the moved-from message. *)
Theorem refresh_exception_loses_orders `{JsonLib} `{!ProtoRuntime} {Node S : Type}
    `{!HasState S} `{!HasStateLaws S} `{!OrderHooks Node S}
    (w : World Node S) (i j : Z) (a b : Order) e :
  iter (own_map (proj (wst w))) = [(i, a); (j, b)] -> i <> j ->
  (forall w0 : World Node State, exists w1, ValidateOrder (acct (proj (wst w))) a w0 = (Ret true, w1)
     /\ wst w1 = wst w0) ->
  (forall w0 : World Node State, exists w1, ValidateOrder (acct (proj (wst w))) b w0 = (Throw e, w1)
     /\ wst w1 = wst w0) ->
  exists w', RunRefresh w = (Throw e, w') /\
    own_map (proj (wst w')) !! i = Some (moved_from a).
Proof.
  intros Hit Hne Hva Hvb.
  set (acc := acct (proj (wst w))) in *.
  assert (Ha : forall (Q : outcome bool -> World Node State -> Prop) w0,
    (forall w1, wst w1 = wst w0 -> Q (Ret true) w1) -> wp (ValidateOrder acc a) Q w0).
  { intros Q w0 HQ. destruct (Hva w0) as (w1 & Hw1 & ?). unfold wp. rewrite Hw1. by apply HQ. }
  assert (Hb : forall (Q : outcome bool -> World Node State -> Prop) w0,
    (forall w1, wst w1 = wst w0 -> Q (Throw e) w1) -> wp (ValidateOrder acc b) Q w0).
  { intros Q w0 HQ. destruct (Hvb w0) as (w1 & Hw1 & ?). unfold wp. rewrite Hw1. by apply HQ. }
  assert (Hwp : wp RunRefresh (fun o w' => o = Throw e /\
                  own_map (proj (wst w')) !! i = Some (moved_from a)) w).
  { unfold RunRefresh, refresh_locked. do 7 wp_step. rewrite own_map_with_own_map, Hit. cbn [refresh_orders].
    apply wp_bind, Ha. intros w1 Hs1. cbn [then_post]. do 2 wp_step. apply wp_bind, Hb.
    intros w2 Hs2. cbn [then_post wst] in *. split; [done|].
    by rewrite proj_inj, Hs2, own_map_with_own_map, lookup_insert_eq. }
  unfold wp in Hwp. destruct (RunRefresh w) as [o w']. destruct Hwp as [-> ?]. by exists w'.
Qed.

(* ------------------------------------------------------------------ *)
(** ** The theorems at concrete inputs *)

Module MyOrdersWitness.
Import Mock.

(** A process that keeps the announcements it made. *)
Record Proc := mkProc { pr_state : State; pr_sent : list OrdersOfAccount }.

#[local] Instance proc_state : HasState Proc :=
  {| proj := pr_state; inj x s := mkProc x (pr_sent s) |}.
#[local] Instance proc_laws : HasStateLaws Proc.
Proof. split; [done|by intros []|done]. Qed.

Definition v (a : string) (o : Order) : bool := has (o_price_sat o).

#[local] Instance hooks : OrderHooks Node Proc := {
  ValidateOrder a o := mret (v a o);
  UpdateOrders os := modify (fun s => mkProc (pr_state s) (pr_sent s ++ [os]))
}.

#[local] Instance hooks_laws : HooksLaws v pr_sent.
Proof.
  split.
  - intros a o w. exists (wnode w), []. rewrite app_nil_r. by destruct w.
  - intros os w _. eexists. split; [reflexivity|]. split; [done|by right].
  - done.
Qed.

Definition order (i : Z) : Order :=
  mkOrder None None (Some "gold") None (Some i) (Some ASK) (Some 5) None.
Definition s0 : State :=
  with_own_map (<[3 := order 3]> (<[4 := order 4]> ∅)) (with_next_free_id 5 (initial_state "me")).
Definition w0 : World Node Proc := world_of (mkProc s0 []) node.
#[local] Abbreviation w1 := (snd (TryLock 3 w0)).
Definition sent0 : list OrdersOfAccount := pr_sent (wst w0).
Definition ops : list Op := [OpRemove 3; OpAdd (order 7); OpTryLock 4].

Lemma ids_ok_s0 : Spec.ids_ok s0.
Proof.
  intros id [o Ho]. unfold s0 in Ho. rewrite own_map_with_own_map in Ho.
  rewrite !lookup_insert_Some in Ho. cbn. rewrite lookup_empty in Ho. naive_solver lia.
Qed.

#[local] Instance hooks_live : LiveHooks pr_sent (fun _ => True).
Proof. split; [done|]. intros os w _ _. by eexists. Qed.

Lemma operations_implement_spec_witness :
  exists w', RemoveById 3 w0 = (Ret tt, w') /\ proj (wst w') = Spec.remove v 3 (proj (wst w0)) /\
    pr_sent (wst w') = pr_sent (wst w0) ++ [Spec.announcement (proj (wst w'))].
Proof.
  destruct (operations_implement_spec v pr_sent (fun _ => True) (order 7) 3 w0)
    as (_ & (w' & Hr & Hp & _ & Hs) & _).
  exists w'. split; [exact Hr|]. split; [exact Hp|]. exact (proj2 (Hs I)).
Defined.

Lemma lock_excludes_until_unlock_witness :
  exists w3, TryLock 3 (snd (run_ops ops w1)) = (Ret None, w3).
Proof.
  apply (lock_excludes_until_unlock v pr_sent 3
           (with_id (Some 3) (with_account (Some "me") (order 3))) ops w0 w1).
  - exact ids_ok_s0.
  - vm_compute. reflexivity.
  - apply run_eq. vm_compute. reflexivity.
  - apply (bool_decide_unpack _). vm_compute. exact I.
  - apply run_eq. vm_compute. reflexivity.
Defined.

Lemma Add_fresh_witness :
  own_map (proj (wst w0)) !! next_free_id (proj (wst w0)) = None.
Proof.
  apply (Add_fresh v pr_sent (order 7) w0 (snd (Add (order 7) w0))).
  - exact ids_ok_s0.
  - apply run_eq. vm_compute. reflexivity.
Defined.

(** A game that cannot be reached while the second order is validated. *)
Definition failing_hooks : OrderHooks Node Proc := {|
  ValidateOrder a o :=
    if bool_decide (o = order 4) then throw (JsonRpcException "offline") else mret true;
  UpdateOrders os := mret tt
|}.

Lemma refresh_exception_loses_orders_witness :
  exists w', RunRefresh (OrderHooks0 := failing_hooks) w0
    = (Throw (JsonRpcException "offline"), w') /\
    own_map (proj (wst w')) !! 3 = Some (moved_from (order 3)).
Proof.
  apply (refresh_exception_loses_orders (OrderHooks0 := failing_hooks) w0 3 4 (order 3) (order 4)).
  - vm_compute. reflexivity.
  - done.
  - intros w. eexists. split; reflexivity.
  - intros w. eexists. split; reflexivity.
Defined.

End MyOrdersWitness.
