(* ===== verification/Trades.v ===== *)
(** * A single trade ([Trade] of [src/trades.cpp], [src/private/trades.hpp])

    A trade is its [TradeState] message, seen by one of the two parties (the
    user [account]).  The methods that change it run over the message as
    state; the ones that only read it are functions of it.  [HandleSuccess]
    and [HandleFailure] run later, without the trade's lock, on the whole
    process. *)

From Stdlib Require Import ZArith Lia String Ascii.
From stdpp Require Import base gmap strings list pretty.
From S2P Require Import Prelude Json Proto Effects Mock Checker MyOrders.

(** The command-line flags the trades read. *)
Class Flags := {
  FLAGS_democrit_confirmations : Z;
  FLAGS_democrit_feerate_wo_names : Z;
  FLAGS_democrit_trade_timeout_ms : Z
}.

(** The flags' default values. *)
Definition default_flags : Flags := {|
  FLAGS_democrit_confirmations := 6;
  FLAGS_democrit_feerate_wo_names := 1000;
  FLAGS_democrit_trade_timeout_ms := 30000
|}.

Definition NAME_VALUE : Z := 1000000.

(* ------------------------------------------------------------------ *)
(** ** Reading a trade *)

Definition GetRole (account : string) (pb : TradeState) : Role :=
  if String.eqb (account_of (order_of pb)) account then MAKER else TAKER.

Definition GetOrderType (account : string) (pb : TradeState) : OrderType :=
  match GetRole account pb with
  | MAKER => type_of (order_of pb)
  | TAKER => match type_of (order_of pb) with BID => ASK | ASK => BID end
  end.

Definition BuildTradeChecker (account : string) (pb : TradeState) : TradeChecker :=
  let '(buyer, seller) :=
    match GetOrderType account pb with
    | BID => (account, counterparty_of pb)
    | ASK => (counterparty_of pb, account)
    end in
  mkTradeChecker buyer seller (asset_of (order_of pb))
    (s64 (price_sat_of (order_of pb))) (s64 (units_of pb)).

Definition newline : string := String (ascii_of_nat 10) EmptyString.

Definition GetIdentifier (pb : TradeState) : string :=
  account_of (order_of pb) +:+ newline +:+ pretty (id_of (order_of pb)).

Definition InitProcessingMessage (pb : TradeState) : ProcessingMessage :=
  mkProcessingMessage (Some (counterparty_of pb)) (Some (GetIdentifier pb)) None None None.

Definition SetTakingOrder (pb : TradeState) (msg : ProcessingMessage) : ProcessingMessage :=
  with_msg_taking_order
    (Some (mkTakingOrder (Some (id_of (order_of pb))) (Some (units_of pb)))) msg.

Definition IsFinalised (pb : TradeState) : bool :=
  match ts_state pb with
  | None => false
  | Some ABANDONED | Some SUCCESS | Some FAILED => true
  | Some _ => false
  end.

Definition GetPublicInfo (account : string) (pb : TradeState) : TradeInfo :=
  mkTradeInfo (Some (state_of pb)) (Some (start_time_of pb)) (Some (counterparty_of pb))
    (Some (GetOrderType account pb)) (Some (asset_of (order_of pb))) (Some (units_of pb))
    (Some (price_sat_of (order_of pb))) (Some (GetRole account pb)).

Definition Matches (pb : TradeState) (msg : ProcessingMessage) : bool :=
  String.eqb (msg_counterparty msg) (counterparty_of pb)
  && String.eqb (msg_identifier msg) (GetIdentifier pb).

(* ------------------------------------------------------------------ *)
(** ** Incoming messages *)

(** The seller data after the counterparty sent [sd]; every rejected message
    leaves the trade as it is. *)
Definition MergeSellerData (account : string) (sd : SellerData) (pb : TradeState)
  : TradeState :=
  match GetOrderType account pb with
  | ASK => pb
  | BID =>
      if has (ts_seller_data pb) then pb
      else if negb (has (sd_name_address sd)) || negb (has (sd_chi_address sd))
              || has (sd_name_output sd) then pb
      else if String.eqb (name_address_of sd) (chi_address_of sd) then pb
      else with_seller_data (Some sd) pb
  end.

Definition MergePsbt (psbt : TradePsbt) (pb : TradeState) : TradeState :=
  if has (ts_their_psbt pb) then pb
  else with_their_psbt (Some (psbt_of psbt)) pb.

(** [Trade::HandleMessage] *)
Definition HandleTradeMessage (account : string) (msg : ProcessingMessage)
    (pb : TradeState) : TradeState :=
  if negb (bool_decide (state_of pb = INITIATED)) then pb
  else
    let pb := match pm_seller_data msg with
              | Some sd => MergeSellerData account sd pb
              | None => pb
              end in
    match pm_psbt msg with
    | Some p => MergePsbt p pb
    | None => pb
    end.

(* ------------------------------------------------------------------ *)
(** ** Talking to the wallet *)

Section wallet.
Context `{JsonLib} `{!Uint256Lib} `{!AmountLib} {Node : Type} `{!XayaRpc Node}
  `{!AssetSpec Node} `{!Flags} {S : Type}.

(** [lockunspent] takes the flag "unlock"; an error reply is the result false. *)
Definition LockUnspent (lock : bool) (out : OutPoint) : M Node S bool :=
  catch_rpc
    (let jsonOut := jset (jset jobject "txid" (jstr (hash_of out)))
                      "vout" (jint (s32 (n_of out))) in
     let outputs := jappend jarray jsonOut in
     xaya (lockunspent (negb lock) outputs))
    (mret false).

Fixpoint unlock_inputs (vin : list Json) : M Node S unit :=
  match vin with
  | [] => mret tt
  | inp :: vin' =>
      out ← OutPointFromJson inp;
      LockUnspent false out;;
      unlock_inputs vin'
  end.

Definition UnlockPsbtInputs (psbt : string) : M Node S unit :=
  decoded ← xaya (decodepsbt psbt);
  check (is_object decoded);;
  tx ← field decoded "tx";
  check (is_object tx);;
  vin ← field tx "vin";
  check (is_array vin);;
  unlock_inputs (jelems vin).

(** The signed PSBT and whether it is complete. *)
Definition SignPsbt (psbt : string) : M Node S (string * bool) :=
  reply ← xaya (walletprocesspsbt psbt);
  check (is_object reply);;
  psbtVal ← field reply "psbt";
  check (is_string psbtVal);;
  completeVal ← field reply "complete";
  check (is_bool completeVal);;
  complete ← json (as_bool completeVal);
  res ← json (as_string psbtVal);
  mret (res, complete).

(** The member "psbt" of a reply. *)
Definition reply_psbt (resp : Json) : M Node S string :=
  check (is_object resp);;
  psbtVal ← field resp "psbt";
  check (is_string psbtVal);;
  json (as_string psbtVal).

(** First step: a funded transaction that pays the seller. *)
Definition fund_chi_part (sd : SellerData) (total : Z) : M Node S string :=
  let outputs := jappend jarray (jset jobject (chi_address_of sd) (ChiAmountToJson total)) in
  let options := jset (jset jobject "fee_rate" (jint FLAGS_democrit_feerate_wo_names))
                   "lockUnspents" (jbool true) in
  resp ← xaya (walletcreatefundedpsbt jarray outputs 0 options);
  reply_psbt resp.

(** Second step: a transaction with the name input and its update. *)
Definition build_name_part (sd : SellerData) (sellerName : string) (nameIn : OutPoint)
    (checker : TradeChecker) : M Node S string :=
  let inp := jset (jset jobject "txid" (jstr (hash_of nameIn)))
               "vout" (jint (s32 (n_of nameIn))) in
  let inputs := jappend jarray inp in
  let outputs := jappend jarray
                   (jset jobject (name_address_of sd) (ChiAmountToJson NAME_VALUE)) in
  namePart ← xaya (createpsbt inputs outputs);
  v ← lift_outcome (GetNameUpdateValue checker);
  let nameOp := jset (jset (jset jobject "op" (jstr "name_update"))
                        "name" (jstr ("p/" +:+ sellerName))) "value" (jstr v) in
  resp ← xaya (namepsbt namePart 0 nameOp);
  reply_psbt resp.

Definition ConstructTransaction (account : string) (pb : TradeState)
    (checker : TradeChecker) (nameIn : OutPoint) : M Node S string :=
  check (bool_decide (GetOrderType account pb = BID));;
  let sd := seller_data_of pb in
  check (has (sd_chi_address sd) && has (sd_name_address sd));;
  t ← GetTotalSat checker;
  total ← check_some t;
  chiPart ← fund_chi_part sd total;
  namePart ← build_name_part sd (counterparty_of pb) nameIn checker;
  xaya (joinpsbts (jappend (jappend jarray (jstr chiPart)) (jstr namePart))).

End wallet.

(* ------------------------------------------------------------------ *)
(** ** Advancing a trade *)

Section trade.
Context `{JsonLib} `{!Uint256Lib} `{!AmountLib} {Node : Type} `{!XayaRpc Node}
  `{!AssetSpec Node} `{!Flags}.
Implicit Types (account : string) (checker : TradeChecker).

Definition clear_name_output (sd : SellerData) : SellerData :=
  mkSellerData (sd_name_address sd) (sd_chi_address sd) None.

Definition CreateSellerData account : M Node TradeState bool :=
  pb ← get;
  if negb (bool_decide (GetOrderType account pb = ASK)) then mret false
  else if has (ts_seller_data pb) then mret false
  else
    out ← GetNameOutPoint account;
    locked ← LockUnspent true out;
    if negb locked then mret false
    else
      nameAddr ← xaya getnewaddress;
      chiAddr ← xaya getnewaddress;
      modify (with_seller_data (Some (mkSellerData (Some nameAddr) (Some chiAddr) (Some out))));;
      mret true.

(** Where a stage of [HasReply] leaves it. *)
Inductive Stage :=
| Continue
| Done (reply : option ProcessingMessage).

(** The seller checks the counterparty's PSBT, signs it, and checks what the
    signing did. *)
Definition seller_sign account checker : M Node TradeState Stage :=
  pb ← get;
  check (has (ts_their_psbt pb));;
  ok ← CheckForSellerOutputs checker (their_psbt_of pb) (seller_data_of pb);
  if negb ok then mret (Done None)
  else
    '(psbt, complete) ← SignPsbt (their_psbt_of pb);
    sigOk ← CheckForSellerSignature (their_psbt_of pb) psbt (seller_data_of pb);
    if negb sigOk then mret (Done None)
    else if match GetRole account pb with MAKER => negb complete | TAKER => complete end
    then mret (Done None)
    else
      modify (with_our_psbt (Some psbt));;
      mret Continue.

(** The buyer checks the seller, builds the transaction and signs its part. *)
Definition buyer_construct account checker (reply : ProcessingMessage)
  : M Node TradeState Stage :=
  pb ← get;
  nameIn ← CheckForBuyerTrade checker;
  match nameIn with
  | None => mret (Done None)
  | Some nameIn =>
      unsignedPsbt ← ConstructTransaction account pb checker nameIn;
      '(signedPsbt, complete) ← SignPsbt unsignedPsbt;
      sigOk ← CheckForBuyerSignature unsignedPsbt signedPsbt;
      if negb sigOk then
        UnlockPsbtInputs signedPsbt;;
        mret (Done None)
      else
        check (negb complete);;
        modify (with_our_psbt (Some signedPsbt));;
        match GetRole account pb with
        | MAKER => mret (Done (Some (with_msg_psbt (Some (mkTradePsbt (Some unsignedPsbt))) reply)))
        | TAKER => mret Continue
        end
  end.

(** The PSBT the maker finalises. *)
Definition final_psbt account : M Node TradeState string :=
  pb ← get;
  match GetOrderType account pb with
  | BID => xaya (combinepsbt (jappend (jappend jarray (jstr (their_psbt_of pb)))
                                (jstr (our_psbt_of pb))))
  | ASK => mret (our_psbt_of pb)
  end.

(** With both PSBTs, the maker finalises and broadcasts the transaction. *)
Definition maker_finish account : M Node TradeState (option ProcessingMessage) :=
  pb ← get;
  check (bool_decide (GetRole account pb = MAKER));;
  if negb (has (ts_their_psbt pb)) then mret None
  else
    finalPsbt ← final_psbt account;
    finalised ← xaya (finalizepsbt finalPsbt);
    check (is_object finalised);;
    completeVal ← field finalised "complete";
    check (is_bool completeVal);;
    complete ← json (as_bool completeVal);
    if negb complete then mret None
    else
      hexVal ← field finalised "hex";
      check (is_string hexVal);;
      hex ← json (as_string hexVal);
      xaya (sendrawtransaction hex);;
      modify (with_state (Some PENDING));;
      mret None.

(** Our PSBT is there: the taker shares it and waits, the maker finishes. *)
Definition share_or_finish account (reply : ProcessingMessage)
  : M Node TradeState (option ProcessingMessage) :=
  pb ← get;
  check (has (ts_our_psbt pb));;
  match GetRole account pb with
  | TAKER =>
      modify (with_state (Some PENDING));;
      mret (Some (with_msg_psbt (Some (mkTradePsbt (Some (our_psbt_of pb)))) reply))
  | MAKER => maker_finish account
  end.

(** The buyer's part, if it is still to be done, and the last stage. *)
Definition buy_and_share account checker (reply : ProcessingMessage)
  : M Node TradeState (option ProcessingMessage) :=
  pb ← get;
  bought ← (if bool_decide (GetOrderType account pb = BID) && negb (has (ts_our_psbt pb))
            then buyer_construct account checker reply else mret Continue);
  match bought with
  | Done r => mret r
  | Continue => share_or_finish account reply
  end.

(** [None] is the return value false, [Some reply] returns true. *)
Definition HasReply account checker : M Node TradeState (option ProcessingMessage) :=
  pb ← get;
  if negb (bool_decide (state_of pb = INITIATED)) then mret None
  else
    let reply := InitProcessingMessage pb in
    created ← CreateSellerData account;
    if created : bool then
      pb ← get;
      check (has (ts_seller_data pb));;
      mret (Some (with_msg_seller_data (Some (clear_name_output (seller_data_of pb))) reply))
    else
      pb ← get;
      if negb (has (ts_seller_data pb)) then mret None
      else if bool_decide (GetOrderType account pb = ASK) && negb (has (ts_their_psbt pb))
      then mret None
      else
        sold ← (if bool_decide (GetOrderType account pb = ASK) && negb (has (ts_our_psbt pb))
                then seller_sign account checker else mret Continue);
        match sold with
        | Done r => mret r
        | Continue => buy_and_share account checker reply
        end.

(* ------------------------------------------------------------------ *)
(** *** Periodic update *)

Context `{!DemGspRpc Node} `{!Clock Node}.

(** [confirmations <= current - height + 1] in unsigned arithmetic. *)
Definition confirmed_since (height curHeight : Z) : bool :=
  u64 (height + FLAGS_democrit_confirmations) <=? u64 (curHeight + 1).

(** An initiated trade is abandoned after the timeout.  Times are seconds,
    the timeout milliseconds. *)
Definition update_initiated : M Node TradeState unit :=
  timestampNow ← GetCurrentTime;
  pb ← get;
  if FLAGS_democrit_trade_timeout_ms <? (timestampNow - start_time_of pb) * 1000
  then modify (with_state (Some ABANDONED))
  else mret tt.

(** The reply of the g/dem GSP for the trade: the current height, the
    trade's data and its state. *)
Definition check_trade (btxid : string) : M Node TradeState (Z * Json * string) :=
  chk ← checktrade btxid;
  check (is_object chk);;
  curHeightVal ← field chk "height";
  check (is_uint curHeightVal);;
  curHeight ← json (as_uint curHeightVal);
  dataVal ← field chk "data";
  check (is_object dataVal);;
  stateVal ← field dataVal "state";
  check (is_string stateVal);;
  st ← json (as_string stateVal);
  mret (curHeight, dataVal, st).

(** Whether the trade is confirmed deeply enough. *)
Definition is_final (curHeight : Z) (dataVal : Json) : M Node TradeState bool :=
  confHeightVal ← field dataVal "height";
  check (is_uint confHeightVal);;
  confHeight ← json (as_uint confHeightVal);
  check (confHeight <=? curHeight);;
  mret (confirmed_since confHeight curHeight).

(** Whether some input of the transaction is spent or unknown. *)
Fixpoint is_conflicted (vin : list Json) : M Node TradeState bool :=
  match vin with
  | [] => mret false
  | inp :: vin' =>
      check (is_object inp);;
      hashVal ← field inp "txid";
      check (is_string hashVal);;
      nVal ← field inp "vout";
      check (is_uint nVal);;
      hash ← json (as_string hashVal);
      n ← json (as_uint nVal);
      utxoData ← xaya (gettxout hash n);
      if is_null utxoData then mret true else is_conflicted vin'
  end.

(** The trade is not known to the GSP: it failed if it has been conflicted
    for long enough. *)
Definition update_unknown (tx : Json) (curHeight : Z) : M Node TradeState unit :=
  vin ← field tx "vin";
  check (is_array vin);;
  conflicted ← is_conflicted (jelems vin);
  if negb conflicted then modify (with_conflict_height None)
  else
    pb ← get;
    match ts_conflict_height pb with
    | None => modify (with_conflict_height (Some curHeight))
    | Some h =>
        if confirmed_since h curHeight then modify (with_state (Some FAILED)) else mret tt
    end.

Definition update_pending : M Node TradeState unit :=
  pb ← get;
  check (has (ts_our_psbt pb));;
  decoded ← xaya (decodepsbt (our_psbt_of pb));
  check (is_object decoded);;
  tx ← field decoded "tx";
  check (is_object tx);;
  btxidVal ← field tx "btxid";
  check (is_string btxidVal);;
  btxid ← json (as_string btxidVal);
  '(curHeight, dataVal, st) ← check_trade btxid;
  final ← (if String.eqb st "confirmed" then is_final curHeight dataVal else mret false);
  if final : bool then modify (with_state (Some SUCCESS))
  else if negb (String.eqb st "unknown") then modify (with_conflict_height None)
  else update_unknown tx curHeight.

Definition Update : M Node TradeState unit :=
  pb ← get;
  match state_of pb with
  | INITIATED => update_initiated
  | PENDING => update_pending
  | _ => mret tt
  end.

End trade.

(* ------------------------------------------------------------------ *)
(** *** After a trade is finalised *)

Section finalised.
Context `{JsonLib} `{!ProtoRuntime} {Node : Type} `{!XayaRpc Node} {S : Type}
  `{!HasState S} `{!OrderHooks Node S}.

(** What remains of the maker's order. *)
Definition reduced_order (pb : TradeState) : Order :=
  with_max_units (Some (u64 (max_units_of (order_of pb) - units_of pb)))
    (with_id None (order_of pb)).

Definition HandleSuccess (account : string) (pb : TradeState) : M Node S unit :=
  match GetRole account pb with
  | TAKER => mret tt
  | MAKER =>
      RemoveById (id_of (order_of pb));;
      let newOrder := reduced_order pb in
      if (0 <? max_units_of newOrder) && (min_units_of newOrder <=? max_units_of newOrder)
      then Add newOrder;; mret tt
      else mret tt
  end.

Definition HandleFailure (account : string) (pb : TradeState) : M Node S unit :=
  (match GetRole account pb with
   | MAKER => Unlock (id_of (order_of pb))
   | TAKER => mret tt
   end);;
  (if has (sd_name_output (seller_data_of pb))
   then LockUnspent false (name_output_of (seller_data_of pb));; mret tt
   else mret tt);;
  (if bool_decide (GetOrderType account pb = BID) && has (ts_our_psbt pb)
   then UnlockPsbtInputs (our_psbt_of pb)
   else mret tt).

End finalised.

(* ------------------------------------------------------------------ *)
(** ** What the operations do to the wallet and the trade *)

Section events.
Context `{JsonLib}.

(** The PSBT a call asks the wallet to sign. *)
Definition signs (e : Event) : option string :=
  match e with EvXaya (walletprocesspsbt p) _ => Some p | _ => None end.

Definition broadcasts (e : Event) : bool :=
  match e with EvXaya (sendrawtransaction _) _ => true | _ => false end.

(** Neither signs nor broadcasts. *)
Definition harmless (e : Event) : Prop := signs e = None /\ broadcasts e = false.

Lemma query_harmless e : is_query e -> harmless e.
Proof. by destruct e as [[]| |]. Qed.

Lemma queries_harmless l : Forall is_query l -> Forall harmless l.
Proof. intros Hl. eapply Forall_impl; [exact Hl|exact query_harmless]. Qed.

End events.

#[export] Hint Resolve queries_harmless : dem.

Lemma steps_harmless `{JsonLib} {Node S A} (m : M Node S A) :
  steps (only_calls is_query) m -> steps (only_calls harmless) m.
Proof.
  intros Hm w. destruct (Hm w) as [Hs (l & Ht & Hl)]. split; [done|].
  exists l. split; [done|]. by apply queries_harmless.
Qed.

Section frames.
Context `{JsonLib} `{!Uint256Lib} `{!AmountLib} {Node : Type} `{!XayaRpc Node}
  `{!AssetSpec Node} `{!Flags} {S : Type}.

#[local] Abbreviation quiet m := (steps (Node:=Node) (S:=S) (only_calls harmless) m).

Lemma quiet_field v k : quiet (field v k).
Proof. apply steps_json. typeclasses eauto. Qed.

Lemma quiet_OutPointFromJson v : quiet (OutPointFromJson v).
Proof. unfold OutPointFromJson, field. steps_auto. Qed.

Lemma quiet_LockUnspent b out : quiet (LockUnspent b out).
Proof. unfold LockUnspent. steps_auto; done. Qed.

Lemma quiet_unlock_inputs vin : quiet (unlock_inputs vin).
Proof.
  induction vin; cbn [unlock_inputs]; [steps_auto|].
  apply steps_bind; [typeclasses eauto|apply quiet_OutPointFromJson|intros out].
  apply steps_bind; [typeclasses eauto|apply quiet_LockUnspent|done].
Qed.

Lemma quiet_UnlockPsbtInputs p : quiet (UnlockPsbtInputs p).
Proof.
  unfold UnlockPsbtInputs, field. steps_auto; try done. apply quiet_unlock_inputs.
Qed.

Lemma quiet_reply_psbt v : quiet (reply_psbt v).
Proof. unfold reply_psbt, field. steps_auto. Qed.

Lemma quiet_ConstructTransaction account pb checker nameIn :
  quiet (ConstructTransaction account pb checker nameIn).
Proof.
  unfold ConstructTransaction, GetTotalSat, fund_chi_part, build_name_part, reply_psbt, field.
  steps_auto; done.
Qed.

End frames.

(** The next operation neither signs nor broadcasts and leaves the state. *)
Tactic Notation "wp_quiet" uconstr(L) "as" simple_intropattern(o)
    ident(n) ident(l) ident(Hl) :=
  wp_use (wp_only_calls harmless); [apply L|intros o n l Hl];
  cbn [then_post wst wnode wtrace].

(** Bring a trace to the form [old ++ new]. *)
Ltac trace_form := cbn [wst wnode wtrace] in *; rewrite <-?app_assoc; cbn [app].

Ltac harmless_calls :=
  repeat first [ apply Forall_nil_2 | apply Forall_app_2 | apply Forall_cons_2 | assumption
               | (apply queries_harmless; assumption) | done ].

Section stages.
Context `{JsonLib} `{!JsonLaws} `{!Uint256Lib} `{!AmountLib} {Node : Type} `{!XayaRpc Node}
  `{!AssetSpec Node} `{!Flags}.
Implicit Types (w : World Node TradeState) (account : string) (checker : TradeChecker).

Lemma wp_CreateSellerData account w (Q : outcome bool -> World Node TradeState -> Prop) :
  (forall o n l, o <> Ret true -> Forall harmless l ->
     Q o (mkWorld (wst w) n (wtrace w ++ l))) ->
  (forall na ca h k n l, GetOrderType account (wst w) = ASK -> ts_seller_data (wst w) = None ->
     Forall harmless l ->
     let sd := mkSellerData (Some na) (Some ca) (Some (mkOutPoint (Some h) (Some k))) in
     Q (Ret true) (mkWorld (with_seller_data (Some sd) (wst w)) n (wtrace w ++ l))) ->
  wp (CreateSellerData account) Q w.
Proof.
  intros HN HS. unfold CreateSellerData.
  assert (HN' : forall o n l tr, tr = wtrace w ++ l -> o <> Ret true -> Forall harmless l ->
     Q o (mkWorld (wst w) n tr)) by (intros o n l tr ->; apply HN).
  assert (Hid : forall o, o <> Ret true -> Q o w).
  { intros o Ho. destruct w as [s n tr]. eapply (HN' _ _ []); [by rewrite app_nil_r|done..]. }
  clear HN. wp_step. wp_step.
  destruct (bool_decide_reflect (GetOrderType account (wst w) = ASK)) as [Hty|]; cbn [negb];
    [|by wp_step; apply Hid].
  destruct (ts_seller_data (wst w)) eqn:Hsd; cbn [has]; [by wp_step; apply Hid|].
  unfold GetNameOutPoint. wp_step. wp_step. wp_step.
  { eapply HN'; [reflexivity|done|harmless_calls]. }
  wp_use wp_OutPointFromJson; [intros p (_ & ? & ? & h & k & _ & _ & _ & _ & _ & _ & ->)|].
  2: { intros _ [] Ho; try done; (eapply HN'; [reflexivity|done|harmless_calls]). }
  wp_quiet quiet_LockUnspent as o n1 l1 Hl1. trace_form.
  destruct o as [[]|e|]; cbn [then_post negb];
    [|wp_step|..]; try (eapply HN'; [reflexivity|done|harmless_calls]).
  wp_step. wp_step; trace_form; [eapply HN'; [reflexivity|done|harmless_calls]|].
  wp_step. wp_step; trace_form; [eapply HN'; [reflexivity|done|harmless_calls]|].
  wp_step. wp_step. wp_step. apply HS; [done|done|harmless_calls].
Qed.

Lemma wp_SignPsbt p w (Q : outcome (string * bool) -> World Node TradeState -> Prop) :
  (forall o r n,
     (forall q c, o = Ret (q, c) -> exists d, r = inr d /\ reads_string d "psbt" q) ->
     Q o (mkWorld (wst w) n (wtrace w ++ [EvXaya (walletprocesspsbt p) r]))) ->
  wp (SignPsbt p) Q w.
Proof.
  intros HQ. unfold SignPsbt. wp_step. wp_step; [by apply HQ|].
  wp_step. wp_step; [|by apply HQ]. wp_use wp_field; [intros v Hv|by intros; apply HQ].
  wp_step. wp_step; [|by apply HQ]. wp_use wp_field; [intros cv Hcv|by intros; apply HQ].
  wp_step. wp_step; [|by apply HQ]. wp_step. wp_step; [|by apply HQ].
  wp_step. wp_step; [|by apply HQ]. wp_step. apply HQ. intros q c [= <- <-].
  exists x. split; [done|]. by exists v.
Qed.

Lemma checker_widths account pb :
  is_s64 (tc_price (BuildTradeChecker account pb)) /\
  is_s64 (tc_units (BuildTradeChecker account pb)).
Proof. unfold BuildTradeChecker. destruct (GetOrderType account pb); cbn; auto with dem. Qed.

(** The new calls [l] ask for one signature, of [p], with [l1] before and [l2]
    after, and broadcast nothing. *)
Definition signed_once (l l1 : list Event) (p : string) (l2 : list Event) : Prop :=
  exists r, l = l1 ++ EvXaya (walletprocesspsbt p) r :: l2 /\
    Forall harmless l1 /\ Forall harmless l2.

(** The maker must end up with the complete transaction, the taker must not. *)
Definition completeness_ok account (pb : TradeState) (complete : bool) : Prop :=
  complete = match GetRole account pb with MAKER => true | TAKER => false end.

Lemma wp_seller_sign account checker w (Q : outcome Stage -> World Node TradeState -> Prop) :
  is_s64 (tc_price checker) -> is_s64 (tc_units checker) ->
  let pb := wst w in
  (forall o n l, (forall s, o = Ret s -> s = Done None) -> Forall harmless l ->
     Q o (mkWorld pb n (wtrace w ++ l))) ->
  (forall o n l l1 l2, (forall s, o = Ret s -> s = Done None) -> signed_once l l1 (their_psbt_of pb) l2 ->
     outputs_accepted checker (seller_data_of pb) (their_psbt_of pb) l1 ->
     Q o (mkWorld pb n (wtrace w ++ l))) ->
  (forall q n l l1 l2, has (ts_their_psbt pb) = true ->
     signed_once l l1 (their_psbt_of pb) l2 ->
     outputs_accepted checker (seller_data_of pb) (their_psbt_of pb) l1 ->
     signature_accepted (seller_data_of pb) (their_psbt_of pb) q l2 ->
     Q (Ret Continue) (mkWorld (with_our_psbt (Some q) pb) n (wtrace w ++ l))) ->
  wp (seller_sign account checker) Q w.
Proof.
  cbv zeta. intros Hp Hu HN HR HS. unfold seller_sign. wp_step. wp_step. wp_step.
  wp_step; [|rewrite <-(world_id w); apply HN; [done|harmless_calls]].
  wp_use wp_CheckForSellerOutputs; [done..|intros o n l1 Hl1 Hacc].
  destruct o as [[]|e|]; cbn [then_post negb];
    [|wp_step|..]; try (apply HN; [naive_solver|harmless_calls]).
  specialize (Hacc eq_refl).
  wp_use wp_SignPsbt. intros o r n1 Hr. trace_form.
  destruct o as [[q complete]|e|]; cbn [then_post];
    [|eapply HR; [naive_solver|exists r; split_and!; [done|harmless_calls..]|done]..].
  wp_use wp_CheckForSellerSignature. intros o n2 l2 Hl2 Hsig. trace_form.
  assert (Hone : signed_once (l1 ++ EvXaya (walletprocesspsbt (their_psbt_of (wst w))) r :: l2)
                   l1 (their_psbt_of (wst w)) l2).
  { exists r. split_and!; [done|harmless_calls..]. }
  destruct o as [[]|e|]; cbn [then_post negb]; [|wp_step|..]; try (eapply HR; [naive_solver|done..]).
  destruct (match GetRole account (wst w) with MAKER => negb complete | TAKER => complete end).
  - wp_step. eapply HR; [naive_solver|done..].
  - wp_step. wp_step. wp_step. eapply HS; [done|exact Hone|exact Hacc|by apply Hsig].
Qed.

(** Among the calls [l] the wallet funded [q], whose one output besides the
    change pays [total] to the seller's address. *)
Definition pays_seller (sd : SellerData) (total : Z) (q : string) (l : list Event) : Prop :=
  exists options r,
    EvXaya (walletcreatefundedpsbt jarray
      (jappend jarray (jset jobject (chi_address_of sd) (ChiAmountToJson total))) 0 options) (inr r) ∈ l /\
    reads_string r "psbt" q.

(** Among the calls [l] the wallet made [q], whose one input is [nameIn] and
    whose one output updates the seller's name to the agreed move. *)
Definition moves_name checker (sd : SellerData) (seller : string) (nameIn : OutPoint) (q : string)
    (l : list Event) : Prop :=
  exists v created r, GetNameUpdateValue checker = Ret v /\
    EvXaya (createpsbt
      (jappend jarray (jset (jset jobject "txid" (jstr (hash_of nameIn))) "vout" (jint (s32 (n_of nameIn)))))
      (jappend jarray (jset jobject (name_address_of sd) (ChiAmountToJson 1000000)))) (inr created) ∈ l /\
    EvXaya (namepsbt created 0
      (jset (jset (jset jobject "op" (jstr "name_update")) "name" (jstr ("p/" +:+ seller)))
         "value" (jstr v))) (inr r) ∈ l /\
    reads_string r "psbt" q.

(** Among the calls [l] the wallet joined [p] from the payment of the agreed
    total and the update of the seller's name, and from nothing else. *)
Definition purchase checker (sd : SellerData) (seller : string) (p : string) (l : list Event) : Prop :=
  exists total nameIn q1 q2, agreed_total checker total /\
    pays_seller sd total q1 l /\ moves_name checker sd seller nameIn q2 l /\
    EvXaya (joinpsbts (jappend (jappend jarray (jstr q1)) (jstr q2))) (inr p) ∈ l.

Lemma pays_seller_mono sd total q l l' : l ⊆ l' -> pays_seller sd total q l -> pays_seller sd total q l'.
Proof. intros Hl (o & r & Hin & Hr). exists o, r. auto. Qed.

Lemma moves_name_mono checker sd seller nameIn q l l' :
  l ⊆ l' -> moves_name checker sd seller nameIn q l -> moves_name checker sd seller nameIn q l'.
Proof. intros Hl (v & c & r & Hv & Hc & Hn & Hr). exists v, c, r. auto. Qed.

Lemma purchase_mono checker sd seller p l l' :
  l ⊆ l' -> purchase checker sd seller p l -> purchase checker sd seller p l'.
Proof.
  intros Hl (total & nameIn & q1 & q2 & Ht & Hc & Hn & Hj). exists total, nameIn, q1, q2.
  split_and!; [done|by eapply pays_seller_mono|by eapply moves_name_mono|auto].
Qed.

Lemma wp_psbt_reply r w (Q : outcome string -> World Node TradeState -> Prop) :
  (forall o, (forall q, o = Ret q -> reads_string r "psbt" q) -> Q o w) -> wp (reply_psbt r) Q w.
Proof.
  intros HQ. unfold reply_psbt. wp_step. wp_step; [|by apply HQ].
  wp_use wp_field; [intros v Hv|intros; by apply HQ]. wp_step. wp_step; [|by apply HQ].
  wp_step; [|by apply HQ]. apply HQ. intros q [= <-]. by exists v.
Qed.

Lemma wp_fund_chi_part sd total w (Q : outcome string -> World Node TradeState -> Prop) :
  (forall o n l, Forall harmless l -> (forall q, o = Ret q -> pays_seller sd total q l) ->
     Q o (mkWorld (wst w) n (wtrace w ++ l))) ->
  wp (fund_chi_part sd total) Q w.
Proof.
  intros HQ. eapply wp_log; [|clear HQ|exact HQ].
  { unfold fund_chi_part, reply_psbt, field; steps_auto; done. }
  unfold fund_chi_part. cbv zeta. wp_step. wp_step; [done|]. apply wp_psbt_reply.
  intros o Ho l Hl q ->. apply app_inv_head in Hl as <-. eexists _, _. split; [|by apply Ho].
  apply list_elem_of_singleton. done.
Qed.

Lemma wp_build_name_part sd seller nameIn checker w (Q : outcome string -> World Node TradeState -> Prop) :
  (forall o n l, Forall harmless l -> (forall q, o = Ret q -> moves_name checker sd seller nameIn q l) ->
     Q o (mkWorld (wst w) n (wtrace w ++ l))) ->
  wp (build_name_part sd seller nameIn checker) Q w.
Proof.
  intros HQ. eapply wp_log; [|clear HQ|exact HQ].
  { unfold build_name_part, reply_psbt, field; steps_auto; done. }
  unfold build_name_part. cbv zeta. wp_step. wp_step; [done|]. wp_step. wp_step.
  destruct (GetNameUpdateValue checker) as [v|e|] eqn:Hv; cbn [then_post]; [|done..].
  wp_step. wp_step; [done|]. apply wp_psbt_reply.
  intros o Ho l Hl q ->. rewrite <-app_assoc in Hl. apply app_inv_head in Hl as <-.
  eexists _, _, _. split_and!; [done| | |by apply Ho]; cbn [app]; set_solver.
Qed.

(** The new calls built the purchase [p] and asked to sign it. *)
Definition constructed_and_signed checker (pb : TradeState) (l l1 : list Event) (p : string)
    (l2 : list Event) : Prop :=
  signed_once l l1 p l2 /\ purchase checker (seller_data_of pb) (counterparty_of pb) p l1.

Lemma wp_ConstructTransaction account pb checker nameIn w
    (Q : outcome string -> World Node TradeState -> Prop) :
  (forall o n l, Forall harmless l ->
     (forall p, o = Ret p -> purchase checker (seller_data_of pb) (counterparty_of pb) p l) ->
     Q o (mkWorld (wst w) n (wtrace w ++ l))) ->
  wp (ConstructTransaction account pb checker nameIn) Q w.
Proof.
  intros HQ. eapply wp_log; [apply quiet_ConstructTransaction| |exact HQ].
  unfold ConstructTransaction. wp_step. wp_step; [|done]. wp_step. wp_step; [|done].
  wp_use wp_GetTotalSat_agreed; [intros total Ht|].
  2: { intros [[t|]|e|] Ho; cbn [then_post check_some]; [by destruct (Ho t)|by wp_step; wp_step|done..]. }
  wp_step. wp_step; [|done]. simplify_eq.
  wp_use wp_fund_chi_part. intros o n1 l1 _ H1'.
  destruct o as [q1|e|]; cbn [then_post]; [|done..]. specialize (H1' q1 eq_refl).
  wp_use wp_build_name_part. intros o n2 l2 _ H2'.
  destruct o as [q2|e|]; cbn [then_post]; [|done..]. specialize (H2' q2 eq_refl).
  wp_step; [done|]. intros l' Hl' p [= <-]. rewrite <-!app_assoc in Hl'.
  apply app_inv_head in Hl' as <-. exists a, nameIn, q1, q2.
  split_and!; [done|eapply pays_seller_mono; [|done]|eapply moves_name_mono; [|done]|]; set_solver.
Qed.

Lemma wp_buyer_construct account checker reply w
    (Q : outcome Stage -> World Node TradeState -> Prop) :
  let pb := wst w in
  (forall o n l, (forall s, o = Ret s -> s = Done None) -> Forall harmless l ->
     Q o (mkWorld pb n (wtrace w ++ l))) ->
  (forall o n l l1 p l2, (forall s, o = Ret s -> s = Done None) ->
     constructed_and_signed checker pb l l1 p l2 -> Q o (mkWorld pb n (wtrace w ++ l))) ->
  (forall q n l l1 p l2, constructed_and_signed checker pb l l1 p l2 ->
     let o := match GetRole account pb with
              | MAKER => Done (Some (with_msg_psbt (Some (mkTradePsbt (Some p))) reply))
              | TAKER => Continue
              end in
     Q (Ret o) (mkWorld (with_our_psbt (Some q) pb) n (wtrace w ++ l))) ->
  wp (buyer_construct account checker reply) Q w.
Proof.
  cbv zeta. intros HN HR HS. unfold buyer_construct. wp_step. wp_step.
  wp_use (wp_only_calls is_query); [apply queries_CheckForBuyerTrade|intros o n l0 Hl0].
  destruct o as [[nameIn|]|e|]; cbn [then_post];
    [|wp_step|..]; try (apply HN; [naive_solver|harmless_calls]).
  wp_use wp_ConstructTransaction. intros o n1 l1 Hl1 Hp. trace_form.
  destruct o as [p|e|]; cbn [then_post]; try (apply HN; [naive_solver|harmless_calls]).
  specialize (Hp p eq_refl).
  wp_use wp_SignPsbt. intros o r n2 Hr. trace_form.
  assert (Hone : forall l2, Forall harmless l2 ->
    constructed_and_signed checker (wst w) (l0 ++ l1 ++ EvXaya (walletprocesspsbt p) r :: l2) (l0 ++ l1) p l2).
  { intros l2 Hl2. split; [|by eapply purchase_mono; [|exact Hp]; set_solver].
    exists r. rewrite <-app_assoc. split_and!; [done|harmless_calls..]. }
  destruct o as [[q complete]|e|]; cbn [then_post];
    [|eapply HR; [naive_solver|apply Hone; harmless_calls]..].
  wp_use (wp_only_calls is_query); [apply queries_CheckForBuyerSignature|intros o n3 l3 Hl3].
  trace_form.
  destruct o as [[]|e|]; cbn [then_post negb];
    [|..|eapply HR; [naive_solver|apply Hone; harmless_calls]
        |eapply HR; [naive_solver|apply Hone; harmless_calls]].
  - wp_step. wp_step; [|eapply HR; [naive_solver|apply Hone; harmless_calls]].
    wp_step. wp_step.
    specialize (HS q n3 _ _ _ _ (Hone l3 ltac:(harmless_calls))).
    destruct (GetRole account (wst w)); wp_step; exact HS.
  - wp_quiet quiet_UnlockPsbtInputs as o n4 l4 Hl4. trace_form.
    destruct o as [[]|e|]; cbn [then_post]; [wp_step|..];
      (eapply HR; [naive_solver|apply Hone; harmless_calls]).
Qed.

(** Among the calls [l] the wallet finalised the maker's PSBT to [hex]: its
    own as the seller, the combination of both as the buyer. *)
Definition finalised_to account (pb : TradeState) (hex : string) (l : list Event) : Prop :=
  exists f r, EvXaya (finalizepsbt f) (inr r) ∈ l /\ reads_string r "hex" hex /\
    match GetOrderType account pb with
    | ASK => f = our_psbt_of pb
    | BID => EvXaya (combinepsbt (jappend (jappend jarray (jstr (their_psbt_of pb)))
                                    (jstr (our_psbt_of pb)))) (inr f) ∈ l
    end.

(** The last call broadcasts the finalised transaction, with result [r]. *)
Definition broadcast_last account pb (l : list Event) (r : string + string) : Prop :=
  exists l1 hex, l = l1 ++ [EvXaya (sendrawtransaction hex) r] /\ Forall harmless l1 /\
    finalised_to account pb hex l1.

Lemma wp_maker_finish account w
    (Q : outcome (option ProcessingMessage) -> World Node TradeState -> Prop) :
  (forall o n l, (forall r, o = Ret r -> r = None) -> Forall harmless l ->
     Q o (mkWorld (wst w) n (wtrace w ++ l))) ->
  (forall n l msg, GetRole account (wst w) = MAKER -> has (ts_their_psbt (wst w)) = true ->
     broadcast_last account (wst w) l (inl msg) ->
     Q (Throw (JsonRpcException msg)) (mkWorld (wst w) n (wtrace w ++ l))) ->
  (forall n l txid, GetRole account (wst w) = MAKER -> has (ts_their_psbt (wst w)) = true ->
     broadcast_last account (wst w) l (inr txid) ->
     Q (Ret None) (mkWorld (with_state (Some PENDING) (wst w)) n (wtrace w ++ l))) ->
  wp (maker_finish account) Q w.
Proof.
  intros HN HF HS. unfold maker_finish. wp_step. wp_step. wp_step.
  wp_step; [|rewrite <-(world_id w); apply HN; [done|harmless_calls]].
  match goal with Hr : bool_decide _ = true |- _ => apply bool_decide_eq_true in Hr as Hmaker end.
  destruct (has (ts_their_psbt (wst w))) eqn:Htheir; cbn [negb];
    [|wp_step; rewrite <-(world_id w); apply HN; [naive_solver|harmless_calls]].
  apply wp_bind, (wp_log harmless (final_psbt account) (fun o l => forall f, o = Ret f ->
    match GetOrderType account (wst w) with
    | ASK => f = our_psbt_of (wst w)
    | BID => EvXaya (combinepsbt (jappend (jappend jarray (jstr (their_psbt_of (wst w))))
                                    (jstr (our_psbt_of (wst w))))) (inr f) ∈ l
    end)).
  { unfold final_psbt. steps_auto; done. }
  { unfold final_psbt. wp_step. wp_step. destruct (GetOrderType account (wst w)).
    - wp_step. by intros l _ f [= <-].
    - wp_step; [done|]. intros l Hl f [= <-]. apply app_inv_head in Hl as <-. set_solver. }
  intros o n l Hl Hf. cbn [wst wnode wtrace].
  destruct o as [f|e|]; cbn [then_post]; try (apply HN; [naive_solver|harmless_calls]).
  specialize (Hf f eq_refl).
  wp_step. wp_step; trace_form; [apply HN; [naive_solver|harmless_calls]|].
  wp_step. wp_step; [|apply HN; [naive_solver|harmless_calls]].
  wp_use wp_field; [intros cv Hcv|intros; apply HN; [naive_solver|harmless_calls]].
  wp_step. wp_step; [|apply HN; [naive_solver|harmless_calls]].
  wp_step. wp_step; [|apply HN; [naive_solver|harmless_calls]].
  destruct a; cbn [negb]; [|wp_step; apply HN; [naive_solver|harmless_calls]].
  wp_use wp_field; [intros hv Hhv|intros; apply HN; [naive_solver|harmless_calls]].
  wp_step. wp_step; [|apply HN; [naive_solver|harmless_calls]].
  wp_step. wp_step; [|apply HN; [naive_solver|harmless_calls]].
  assert (Hfin : finalised_to account (wst w) a (l ++ [EvXaya (finalizepsbt f) (inr x)])).
  { exists f, x. split; [set_solver|]. split; [by exists hv|].
    destruct (GetOrderType account (wst w)); [done|set_solver]. }
  wp_step. wp_step; trace_form.
  - apply HF; [done..|]. exists (l ++ [EvXaya (finalizepsbt f) (inr x)]), a.
    split_and!; [by rewrite <-app_assoc|harmless_calls|done].
  - wp_step. wp_step. wp_step. apply (HS _ _ x0); [done..|].
    exists (l ++ [EvXaya (finalizepsbt f) (inr x)]), a.
    split_and!; [by rewrite <-app_assoc|harmless_calls|done].
Qed.

Lemma wp_share_or_finish account reply w
    (Q : outcome (option ProcessingMessage) -> World Node TradeState -> Prop) :
  (forall o n l, (forall r, o = Ret r -> r = None) -> Forall harmless l ->
     Q o (mkWorld (wst w) n (wtrace w ++ l))) ->
  (forall q, GetRole account (wst w) = TAKER -> ts_our_psbt (wst w) = Some q ->
     Q (Ret (Some (with_msg_psbt (Some (mkTradePsbt (Some q))) reply)))
       (mkWorld (with_state (Some PENDING) (wst w)) (wnode w) (wtrace w))) ->
  (forall n l r, GetRole account (wst w) = MAKER -> has (ts_our_psbt (wst w)) = true ->
     has (ts_their_psbt (wst w)) = true -> broadcast_last account (wst w) l r ->
     match r with
     | inl msg => Q (Throw (JsonRpcException msg)) (mkWorld (wst w) n (wtrace w ++ l))
     | inr _ => Q (Ret None) (mkWorld (with_state (Some PENDING) (wst w)) n (wtrace w ++ l))
     end) ->
  wp (share_or_finish account reply) Q w.
Proof.
  intros HN HT HM. unfold share_or_finish. wp_step. wp_step. wp_step.
  wp_step; [|rewrite <-(world_id w); apply HN; [done|harmless_calls]].
  destruct (GetRole account (wst w)) eqn:Hrole.
  - apply wp_maker_finish; [done|..].
    + intros n l msg _ Ht Hb. by apply (HM n l (inl msg)).
    + intros n l txid _ Ht Hb. by apply (HM n l (inr txid)).
  - wp_step. wp_step. wp_step. unfold our_psbt_of.
    destruct (ts_our_psbt (wst w)) as [q|] eqn:Hq; [|done]. by apply HT.
Qed.

(** *** All ways [HasReply] can end *)

(** The calls [l] ask for one signature.  A seller signs the counterparty's
    PSBT after its outputs were accepted, and keeps the result [q] only after
    the changes were accepted; a buyer signs what it joined itself. *)
Definition sign_facts account checker (pb : TradeState) (p : string) (q : option string)
    (l : list Event) : Prop :=
  exists l1 l2, signed_once l l1 p l2 /\ ts_our_psbt pb = None /\
    has (ts_seller_data pb) = true /\
    match GetOrderType account pb with
    | ASK => ts_their_psbt pb = Some p /\
        outputs_accepted checker (seller_data_of pb) p l1 /\
        (forall q', q = Some q' -> signature_accepted (seller_data_of pb) p q' l2)
    | BID => purchase checker (seller_data_of pb) (counterparty_of pb) p l1
    end.

(** Our PSBT is in place in [pb1]: it was before, or the calls [l] made it. *)
Definition our_stage account checker (pb pb1 : TradeState) (l : list Event) : Prop :=
  (pb1 = pb /\ Forall harmless l /\ has (ts_our_psbt pb) = true) \/
  exists p q, pb1 = with_our_psbt (Some q) pb /\ sign_facts account checker pb p (Some q) l.

(** No reply is sent. *)
Definition silent (o : outcome (option ProcessingMessage)) : Prop :=
  forall r, o = Ret r -> r = None.

Definition psbt_reply (pb : TradeState) (p : string) : ProcessingMessage :=
  with_msg_psbt (Some (mkTradePsbt (Some p))) (InitProcessingMessage pb).

Inductive reply_summary account checker (pb : TradeState)
  : outcome (option ProcessingMessage) -> TradeState -> list Event -> Prop :=
| rs_nothing o l : silent o -> Forall harmless l -> reply_summary account checker pb o pb l
| rs_seller_data na ca h k l :
    state_of pb = INITIATED -> GetOrderType account pb = ASK -> ts_seller_data pb = None ->
    Forall harmless l ->
    let sd := mkSellerData (Some na) (Some ca) (Some (mkOutPoint (Some h) (Some k))) in
    reply_summary account checker pb
      (Ret (Some (with_msg_seller_data (Some (clear_name_output sd)) (InitProcessingMessage pb))))
      (with_seller_data (Some sd) pb) l
| rs_rejected o p l :
    state_of pb = INITIATED -> silent o -> sign_facts account checker pb p None l ->
    reply_summary account checker pb o pb l
| rs_unsigned p q l :
    state_of pb = INITIATED -> GetRole account pb = MAKER -> GetOrderType account pb = BID ->
    sign_facts account checker pb p (Some q) l ->
    reply_summary account checker pb (Ret (Some (psbt_reply pb p)))
      (with_our_psbt (Some q) pb) l
| rs_waiting o pb1 la lb :
    state_of pb = INITIATED -> our_stage account checker pb pb1 la -> silent o ->
    Forall harmless lb -> reply_summary account checker pb o pb1 (la ++ lb)
| rs_shared q pb1 la :
    state_of pb = INITIATED -> our_stage account checker pb pb1 la ->
    GetRole account pb = TAKER -> ts_our_psbt pb1 = Some q ->
    reply_summary account checker pb (Ret (Some (psbt_reply pb q)))
      (with_state (Some PENDING) pb1) la
| rs_broadcast pb1 la lb r :
    state_of pb = INITIATED -> our_stage account checker pb pb1 la ->
    GetRole account pb = MAKER -> has (ts_our_psbt pb1) = true ->
    has (ts_their_psbt pb) = true -> broadcast_last account pb1 lb r ->
    reply_summary account checker pb
      (match r with inl msg => Throw (JsonRpcException msg) | inr _ => Ret None end)
      (match r with inl _ => pb1 | inr _ => with_state (Some PENDING) pb1 end) (la ++ lb).

Lemma our_stage_same account checker pb pb1 l :
  our_stage account checker pb pb1 l ->
  GetRole account pb1 = GetRole account pb /\ GetOrderType account pb1 = GetOrderType account pb /\
  ts_their_psbt pb1 = ts_their_psbt pb.
Proof. by intros [(-> & _)|(? & ? & -> & _)]. Qed.

(** The last stage, from a trade with our PSBT in place. *)
Lemma share_or_finish_summary account checker pb w tr la :
  state_of pb = INITIATED -> our_stage account checker pb (wst w) la -> wtrace w = tr ++ la ->
  wp (share_or_finish account (InitProcessingMessage pb))
    (fun o w' => exists l, wtrace w' = tr ++ l /\
       reply_summary account checker pb o (wst w') l) w.
Proof.
  intros Hi Ho Htr. destruct (our_stage_same _ _ _ _ _ Ho) as (Hr & Ht & Hth).
  apply wp_share_or_finish; cbn [wst wtrace].
  - intros o n l Hs Hl. exists (la ++ l). rewrite Htr, <-app_assoc. split; [done|].
    by apply rs_waiting.
  - intros q Hrole Hq. exists la. split; [done|]. apply (rs_shared _ _ pb q (wst w)); congruence.
  - intros n l r Hrole Hour Htheir Hb. rewrite Hth in Htheir. rewrite Hr in Hrole.
    pose proof (rs_broadcast account checker pb (wst w) la l r Hi Ho Hrole Hour Htheir Hb) as Hrs.
    destruct r; exists (la ++ l); (split; [by rewrite Htr, <-app_assoc|exact Hrs]).
Qed.

(** Earlier harmless calls do not change what is known about a signature. *)
Lemma sign_facts_intro account checker pb p q l0 l l1 l2 :
  Forall harmless l0 -> signed_once l l1 p l2 -> ts_our_psbt pb = None ->
  has (ts_seller_data pb) = true ->
  match GetOrderType account pb with
  | ASK => ts_their_psbt pb = Some p /\
      outputs_accepted checker (seller_data_of pb) p l1 /\
      (forall q', q = Some q' -> signature_accepted (seller_data_of pb) p q' l2)
  | BID => purchase checker (seller_data_of pb) (counterparty_of pb) p l1
  end ->
  sign_facts account checker pb p q (l0 ++ l).
Proof.
  intros Hl0 (r & -> & Hl1 & Hl2) Hour Hsd Hk. exists (l0 ++ l1), l2. split_and!; [|done|done|].
  - exists r. rewrite <-app_assoc. split_and!; [done|harmless_calls..].
  - destruct (GetOrderType account pb).
    + destruct Hk as (? & (d & outs & Hin & ? & ?) & ?). split_and!; [done| |done].
      exists d, outs. split_and!; [apply elem_of_app; by right|done..].
    + eapply purchase_mono; [|exact Hk]. set_solver.
Qed.

(** The buyer's part, when the trade is waiting for it. *)
Lemma buy_summary account checker pb w tr l :
  wst w = pb -> wtrace w = tr ++ l -> Forall harmless l ->
  state_of pb = INITIATED -> GetOrderType account pb = BID ->
  has (ts_seller_data pb) = true ->
  wp (buy_and_share account checker (InitProcessingMessage pb))
    (fun o w' => exists l, wtrace w' = tr ++ l /\
       reply_summary account checker pb o (wst w') l) w.
Proof.
  intros Hw Htr Hl Hi Hty Hsd. unfold buy_and_share. wp_step. wp_step. rewrite Hw.
  rewrite bool_decide_true by done. cbn [andb].
  destruct (has (ts_our_psbt pb)) eqn:Hour; cbn [negb].
  { wp_step. wp_step. eapply share_or_finish_summary; [done| |exact Htr]. left. by rewrite Hw. }
  apply has_None in Hour.
  wp_use wp_buyer_construct; rewrite Hw, Htr.
  - intros o n l' Hd Hl'.
    assert (Hq : forall o', silent o' -> reply_summary account checker pb o' pb (l ++ l'))
      by (intros; apply rs_nothing; [done|harmless_calls]).
    destruct o as [s|e|]; cbn [then_post]; [rewrite (Hd s eq_refl); wp_step|..]; trace_form;
      (exists (l ++ l'); split; [done|apply Hq; by intros ? [=]]).
  - intros o n l' l1 p l2 Hd [Hs Hj].
    assert (Hq : forall o', silent o' -> reply_summary account checker pb o' pb (l ++ l')).
    { intros o' Ho'. apply (rs_rejected _ _ _ _ p); [done|done|].
      eapply sign_facts_intro; [done|exact Hs|done|done|]. by rewrite Hty. }
    destruct o as [s|e|]; cbn [then_post]; [rewrite (Hd s eq_refl); wp_step|..]; trace_form;
      (exists (l ++ l'); split; [done|apply Hq; by intros ? [=]]).
  - intros q n l' l1 p l2 [Hs Hj]. cbv zeta.
    assert (Hsf : sign_facts account checker pb p (Some q) (l ++ l')).
    { eapply sign_facts_intro; [done|exact Hs|done|done|]. by rewrite Hty. }
    destruct (GetRole account pb) eqn:Hrole; cbn [then_post].
    + wp_step. trace_form. exists (l ++ l'). split; [done|]. by apply rs_unsigned.
    + eapply share_or_finish_summary; [done| |cbn; by rewrite <-app_assoc].
      right. by exists p, q.
Qed.

Lemma their_psbt_Some pb : has (ts_their_psbt pb) = true -> ts_their_psbt pb = Some (their_psbt_of pb).
Proof. unfold their_psbt_of. by destruct (ts_their_psbt pb). Qed.

(** The seller's part, when the counterparty's PSBT has come. *)
Lemma sell_summary account checker pb w tr l :
  wst w = pb -> wtrace w = tr ++ l -> Forall harmless l ->
  state_of pb = INITIATED -> GetOrderType account pb = ASK ->
  has (ts_seller_data pb) = true -> has (ts_their_psbt pb) = true ->
  is_s64 (tc_price checker) -> is_s64 (tc_units checker) ->
  wp (sold ← (if negb (has (ts_our_psbt pb)) then seller_sign account checker else mret Continue);
      match sold with
      | Done r => mret r
      | Continue => buy_and_share account checker (InitProcessingMessage pb)
      end)
    (fun o w' => exists l, wtrace w' = tr ++ l /\
       reply_summary account checker pb o (wst w') l) w.
Proof.
  intros Hw Htr Hl Hi Hty Hsd Hth Hp Hu.
  destruct (has (ts_our_psbt pb)) eqn:Hour; cbn [negb].
  { wp_step. wp_step. unfold buy_and_share. wp_step. wp_step. rewrite Hw.
    rewrite (bool_decide_false (_ = BID)) by (rewrite Hty; done). cbn [andb]. wp_step. wp_step.
    eapply share_or_finish_summary; [done| |exact Htr]. left. by rewrite Hw. }
  apply has_None in Hour. wp_use wp_seller_sign; rewrite ?Hw, ?Htr; [done|done|..].
  - intros o n l1 Hd Hl1.
    assert (Hq : forall o', silent o' -> reply_summary account checker pb o' pb (l ++ l1))
      by (intros; apply rs_nothing; [done|harmless_calls]).
    destruct o as [s|e|]; cbn [then_post]; [rewrite (Hd s eq_refl); wp_step|..]; trace_form;
      (exists (l ++ l1); split; [done|apply Hq; by intros ? [=]]).
  - intros o n l1 la lb Hd Hs Hacc.
    assert (Hq : forall o', silent o' -> reply_summary account checker pb o' pb (l ++ l1)).
    { intros o' Ho'. apply (rs_rejected _ _ _ _ (their_psbt_of pb)); [done|done|].
      eapply sign_facts_intro; [done|exact Hs|done|done|]. rewrite Hty.
      split_and!; [by apply their_psbt_Some|done|done]. }
    destruct o as [s|e|]; cbn [then_post]; [rewrite (Hd s eq_refl); wp_step|..]; trace_form;
      (exists (l ++ l1); split; [done|apply Hq; by intros ? [=]]).
  - intros q n l1 la lb Hth' Hs Hacc Hsig. cbn [then_post]. unfold buy_and_share. wp_step. wp_step.
    rewrite (bool_decide_false (_ = BID)) by (change (GetOrderType account pb <> BID); by rewrite Hty).
    cbn [andb]. wp_step. wp_step.
    eapply (share_or_finish_summary _ _ _ _ _ (l ++ l1)); [done| |cbn; by rewrite <-app_assoc].
    right. exists (their_psbt_of pb), q. split; [done|].
    eapply sign_facts_intro; [done|exact Hs|done|done|]. rewrite Hty.
    split_and!; [by apply their_psbt_Some|done|by intros ? [= <-]].
Qed.

Lemma HasReply_summary account checker w :
  is_s64 (tc_price checker) -> is_s64 (tc_units checker) ->
  wp (HasReply account checker)
    (fun o w' => exists l, wtrace w' = wtrace w ++ l /\
       reply_summary account checker (wst w) o (wst w') l) w.
Proof.
  intros Hp Hu. set (pb := wst w). set (Q := fun o w' => _).
  assert (Hnothing : forall o n l, silent o -> Forall harmless l ->
            Q o (mkWorld pb n (wtrace w ++ l))).
  { intros o n l Ho Hl. exists l. split; [done|]. by apply rs_nothing. }
  unfold HasReply. wp_step. wp_step.
  destruct (bool_decide_reflect (state_of (wst w) = INITIATED)) as [Hi|]; cbn [negb];
    [|wp_step; rewrite <-(world_id w); apply Hnothing; [by intros r [= <-]|harmless_calls]].
  wp_use wp_CreateSellerData; cbn [wst wnode wtrace];
    [intros o n l Hno Hl|intros na ca h k n l Hty Hsd Hl].
  2: { wp_step. wp_step. wp_step. wp_step; [|done]. wp_step. exists l. split; [done|].
       by apply (rs_seller_data account checker (wst w) na ca h k). }
  destruct o as [[]|e|]; cbn [then_post];
    [done| |apply Hnothing; [by intros ? [=]|done]..].
  wp_step. wp_step.
  destruct (has (ts_seller_data (wst w))) eqn:Hsd; cbn [negb];
    [|wp_step; apply Hnothing; [by intros r [= <-]|done]].
  destruct (bool_decide_reflect (GetOrderType account (wst w) = ASK)) as [Hty|Hty]; cbn [andb].
  - destruct (has (ts_their_psbt (wst w))) eqn:Hth; cbn [negb];
      [|wp_step; apply Hnothing; [by intros r [= <-]|done]].
    eapply sell_summary; try done.
  - wp_step. wp_step. eapply buy_summary; try done. destruct (GetOrderType account (wst w)) eqn:E; [by destruct Hty|done].
Qed.

End stages.
