(* ===== verification/TradeSafety.v ===== *)
(** * Safety of a trade

    What the methods of [Trades] guarantee for the user who runs them: what
    the wallet is asked to sign and broadcast, what leaves the process, how a
    trade's state moves, and when it is considered final. *)

From Stdlib Require Import ZArith Lia String Ascii.
From stdpp Require Import base gmap strings list pretty relations.
From S2P Require Import Prelude Json Proto Effects Mock Checker MyOrders Trades.

(* ------------------------------------------------------------------ *)
(** ** Lifecycle *)

(** The ways a single method moves the status. *)
Inductive transition : TradeStatus -> TradeStatus -> Prop :=
| tr_same s : transition s s
| tr_pending : transition INITIATED PENDING
| tr_abandoned : transition INITIATED ABANDONED
| tr_success : transition PENDING SUCCESS
| tr_failed : transition PENDING FAILED.

(** A field that is set at most once. *)
Definition write_once {A} (x y : option A) : Prop := x = None \/ y = x.

(** How a trade may change over time: the terms are fixed, what the parties
    contribute is set at most once, and a finalised trade is frozen. *)
Record evolves (t t' : TradeState) : Prop := mkEvolves {
  ev_order : ts_order t' = ts_order t;
  ev_units : ts_units t' = ts_units t;
  ev_counterparty : ts_counterparty t' = ts_counterparty t;
  ev_start : ts_start_time t' = ts_start_time t;
  ev_seller_data : write_once (ts_seller_data t) (ts_seller_data t');
  ev_our : write_once (ts_our_psbt t) (ts_our_psbt t');
  ev_their : write_once (ts_their_psbt t) (ts_their_psbt t');
  ev_status : rtc transition (state_of t) (state_of t');
  ev_final : IsFinalised t = true -> t' = t
}.

#[export] Instance evolves_preorder : PreOrder evolves.
Proof.
  split.
  - intros t. by split; try right.
  - intros a b c [] []. split; try congruence; try (by etransitivity).
    all: unfold write_once in *; try (intuition congruence).
    intros Hf. rewrite <-(ev_final0 Hf). apply ev_final1. by rewrite (ev_final0 Hf).
Qed.

(** What holds of a trade between two method calls. *)
Record trade_inv (account : string) (t : TradeState) : Prop := mkTradeInv {
  (** A trade that waits for the chain, or got there, has our PSBT. *)
  ti_psbt : state_of t = PENDING \/ state_of t = SUCCESS \/ state_of t = FAILED ->
    has (ts_our_psbt t) = true;
  (** Our PSBT is made only once the seller's data is there. *)
  ti_seller : has (ts_our_psbt t) = true -> has (ts_seller_data t) = true;
  (** A seller signs the counterparty's PSBT. *)
  ti_their : GetOrderType account t = ASK -> has (ts_our_psbt t) = true ->
    has (ts_their_psbt t) = true;
  (** The seller's data is complete: with the name output on the seller's
      side, without it and with different addresses on the buyer's. *)
  ti_data : forall sd, ts_seller_data t = Some sd ->
    has (sd_name_address sd) = true /\ has (sd_chi_address sd) = true /\
    match GetOrderType account t with
    | ASK => exists h n, sd_name_output sd = Some (mkOutPoint (Some h) (Some n))
    | BID => sd_name_output sd = None /\ name_address_of sd <> chi_address_of sd
    end;
  (** Block heights are 32-bit numbers. *)
  ti_conflict : forall h, ts_conflict_height t = Some h -> is_u32 h
}.

Section lifecycle.
Context `{JsonLib} `{!JsonLaws} `{!Uint256Lib} `{!AmountLib} {Node : Type} `{!XayaRpc Node}
  `{!DemGspRpc Node} `{!AssetSpec Node} `{!Clock Node} `{!Flags}.
Implicit Types (w : World Node TradeState) (account : string).

(** A method call on a trade of [account], however it ends. *)
Inductive trade_call (account : string) : World Node TradeState -> World Node TradeState -> Prop :=
| call_message msg w :
    trade_call account w (mkWorld (HandleTradeMessage account msg (wst w)) (wnode w) (wtrace w))
| call_reply w :
    trade_call account w (snd (HasReply account (BuildTradeChecker account (wst w)) w))
| call_update w : trade_call account w (snd (Update w)).

Lemma run_summary account w :
  exists l, wtrace (snd (HasReply account (BuildTradeChecker account (wst w)) w)) = wtrace w ++ l /\
    reply_summary account (BuildTradeChecker account (wst w)) (wst w)
      (fst (HasReply account (BuildTradeChecker account (wst w)) w))
      (wst (snd (HasReply account (BuildTradeChecker account (wst w)) w))) l.
Proof.
  destruct (checker_widths account (wst w)) as [Hp Hu].
  pose proof (HasReply_summary account _ w Hp Hu) as Hs. unfold wp in Hs.
  by destruct (HasReply account (BuildTradeChecker account (wst w)) w).
Qed.

(** *** The periodic update *)

(** The trade after an update, whatever the services answered. *)
Definition updated (t t' : TradeState) : Prop :=
  t' = t \/
  (state_of t = INITIATED /\ t' = with_state (Some ABANDONED) t) \/
  (state_of t = PENDING /\
   (t' = with_state (Some SUCCESS) t \/ t' = with_state (Some FAILED) t \/
    exists h, t' = with_conflict_height h t /\ forall x, h = Some x -> is_u32 x)).

(** The reply of [checktrade]: the GSP's height, the trade's data and state. *)
Definition gsp_reply (r : Json) (cur : Z) (data : Json) (st : string) : Prop :=
  (exists h, jget r "height" = Some h /\ is_uint h = true /\ as_uint h = Some cur) /\
  jget r "data" = Some data /\ reads_string data "state" st.

Lemma quiet_check_trade b : steps (Node:=Node) (only_calls (fun _ => True)) (check_trade b).
Proof. unfold check_trade, field. steps_auto; done. Qed.

Lemma wp_check_trade b w (Q : outcome (Z * Json * string) -> World Node TradeState -> Prop) :
  (forall o n l, (forall cur data st, o = Ret (cur, data, st) ->
      is_u32 cur /\ exists r, EvGsp b (inr r) ∈ l /\ gsp_reply r cur data st) ->
     Q o (mkWorld (wst w) n (wtrace w ++ l))) ->
  wp (check_trade b) Q w.
Proof.
  intros HQ. eapply wp_log; [apply quiet_check_trade| |intros o n l _; apply HQ].
  unfold check_trade. wp_step. wp_step; [done|]. wp_step. wp_step; [|done].
  wp_use wp_field; [intros h Hh|done]. wp_step. wp_step; [|done].
  wp_step. wp_step; [|done]. wp_use wp_field; [intros data Hdata|done].
  wp_step. wp_step; [|done]. wp_use wp_field; [intros sv Hsv|done].
  wp_step. wp_step; [|done]. wp_step. wp_step; [|done]. wp_step.
  intros l Hl cur data' st [= <- <- <-]. apply app_inv_head in Hl as <-.
  destruct (is_uint_spec h) as (k & Hk & Hr); [done|]. simplify_eq. split; [exact Hr|].
  eexists. split; [by apply list_elem_of_singleton|].
  split; [by exists h|]. split; [done|]. by exists sv.
Qed.

Lemma quiet_is_final c d : steps (Node:=Node) (only_calls (fun _ => True)) (is_final c d).
Proof. unfold is_final, field. steps_auto; done. Qed.

Lemma quiet_is_conflicted vin : steps (Node:=Node) (only_calls (fun _ => True)) (is_conflicted vin).
Proof. induction vin; cbn [is_conflicted]; unfold field; steps_auto; done. Qed.

Lemma wp_Update_updated w : wp Update (fun _ w' => updated (wst w) (wst w')) w.
Proof.
  unfold Update. wp_step. wp_step.
  destruct (state_of (wst w)) eqn:Hs; try (by wp_step; left).
  - unfold update_initiated. wp_step. wp_step. wp_step. wp_step.
    case_match; wp_step; [|by left]. right; left. by rewrite Hs.
  - unfold update_pending. wp_step. wp_step. wp_step. wp_step; [|by left].
    wp_step. wp_step; [by left|]. wp_step. wp_step; [|by left].
    wp_use wp_field; [intros tx _|by left]. wp_step. wp_step; [|by left].
    wp_use wp_field; [intros b _|by left]. wp_step. wp_step; [|by left].
    wp_step. wp_step; [|by left].
    wp_use wp_check_trade. intros o n1 l1 Hchk.
    destruct o as [[[cur data] st]|e|]; cbn [then_post]; [|by left..].
    destruct (Hchk cur data st eq_refl) as [Hcur _].
    apply wp_bind, (wp_only_calls (fun _ => True)).
    { case_match; [apply quiet_is_final|steps_auto]. }
    intros o n' l' _. destruct o as [[]|e|]; cbn [then_post]; [| |by left..].
    { wp_step. right; right. auto. }
    destruct (negb _); [wp_step; right; right; split; [done|]; right; right; by exists None|].
    unfold update_unknown. wp_use wp_field; [intros vin _|by left].
    wp_step. wp_step; [|by left].
    wp_use (wp_only_calls (fun _ => True)); [apply quiet_is_conflicted|intros o n2 l2 _].
    destruct o as [[]|e|]; cbn [then_post negb]; [| |by left..].
    + wp_step. wp_step. case_match; [case_match|]; wp_step; [|by left|].
      * right; right. auto.
      * right; right. split; [done|]. right; right. exists (Some cur). split; [done|].
        by intros ? [= <-].
    + wp_step. right; right. split; [done|]. right; right. by exists None.
Qed.

(** *** What a verdict rests on *)

(** The transaction of our PSBT, as the wallet decodes it among the calls [l]. *)
Definition our_transaction (t : TradeState) (d : Json) (btxid : string) (l : list Event) : Prop :=
  EvXaya (decodepsbt (our_psbt_of t)) (inr d) ∈ l /\
  exists tx, jget d "tx" = Some tx /\ reads_string tx "btxid" btxid.

(** The GSP reported the trade as confirmed, deeply enough. *)
Definition seen_confirmed (t : TradeState) (l : list Event) : Prop :=
  exists d btxid r cur data hv h,
    our_transaction t d btxid l /\ EvGsp btxid (inr r) ∈ l /\
    gsp_reply r cur data "confirmed" /\ jget data "height" = Some hv /\ as_uint hv = Some h /\
    h <= cur /\ h + FLAGS_democrit_confirmations <= cur + 1.

(** The GSP did not know the trade, some input of it is gone, and that was
    first seen long enough ago. *)
Definition seen_conflicted (t : TradeState) (l : list Event) : Prop :=
  exists d btxid r cur data h vin inp hash n u,
    our_transaction t d btxid l /\ EvGsp btxid (inr r) ∈ l /\
    gsp_reply r cur data "unknown" /\
    ts_conflict_height t = Some h /\ h + FLAGS_democrit_confirmations <= cur + 1 /\
    tx_array d "vin" vin /\ inp ∈ vin /\ spends hash n inp /\
    EvXaya (gettxout hash n) (inr u) ∈ l /\ is_null u = true.

Lemma confirmed_since_exact h cur :
  is_u32 h -> is_u32 cur -> is_s32 FLAGS_democrit_confirmations ->
  0 <= FLAGS_democrit_confirmations ->
  confirmed_since h cur = true <-> h + FLAGS_democrit_confirmations <= cur + 1.
Proof.
  intros. unfold confirmed_since. rewrite Z.leb_le, !u64_id by width. done.
Qed.

Lemma wp_is_conflicted vin w (Q : outcome bool -> World Node TradeState -> Prop) :
  (forall o n l, (o = Ret true -> exists inp hash k u, inp ∈ vin /\ spends hash k inp /\
      EvXaya (gettxout hash k) (inr u) ∈ l /\ is_null u = true) ->
     Q o (mkWorld (wst w) n (wtrace w ++ l))) ->
  wp (is_conflicted vin) Q w.
Proof.
  revert w Q. induction vin as [|inp vin IH]; intros w Q HQ; cbn [is_conflicted].
  { wp_step. rewrite <-(world_id w). by apply HQ. }
  assert (Hid : forall o, o <> Ret true -> Q o w)
    by (intros o Ho; rewrite <-(world_id w); apply HQ; done).
  wp_step. wp_step; [|by apply Hid]. wp_use wp_field; [intros hv Hh|by intros; apply Hid].
  wp_step. wp_step; [|by apply Hid]. wp_use wp_field; [intros kv Hk|by intros; apply Hid].
  wp_step. wp_step; [|by apply Hid]. wp_step. wp_step; [|by apply Hid].
  wp_step. wp_step; [|by apply Hid]. wp_step. wp_step; [by apply HQ|].
  destruct (is_null _) eqn:Hnull.
  - wp_step. apply HQ. intros _. eexists inp, _, _, _.
    split_and!; [left| |by apply list_elem_of_singleton|done]. split; by eexists.
  - apply IH. intros o n' l Hl. trace_form. apply HQ. intros Ho.
    destruct (Hl Ho) as (inp' & h & k & u & Hin & Hs & He & Hu).
    exists inp', h, k, u. split_and!; [by right|done|by right|done].
Qed.

Lemma wp_is_final cur data w (Q : outcome bool -> World Node TradeState -> Prop) :
  is_u32 cur -> is_s32 FLAGS_democrit_confirmations -> 0 <= FLAGS_democrit_confirmations ->
  (forall o, (o = Ret true -> exists hv h, jget data "height" = Some hv /\ as_uint hv = Some h /\
      h <= cur /\ h + FLAGS_democrit_confirmations <= cur + 1) -> Q o w) ->
  wp (is_final cur data) Q w.
Proof.
  intros Hc Hf Hf0 HQ. unfold is_final. wp_use wp_field; [intros hv Hh|by intros; apply HQ].
  wp_step. wp_step; [|by apply HQ]. wp_step. wp_step; [|by apply HQ].
  wp_step. wp_step; [|by apply HQ]. wp_step. apply HQ. intros [= Hs].
  destruct (is_uint_spec hv) as (k & Hk & Hr); [done|]. simplify_eq.
  apply confirmed_since_exact in Hs; [|done..]. eexists hv, _. split_and!; [done|done|lia|done].
Qed.

(** A trade the GSP does not know fails only if an input is gone, and was first
    seen to be long enough ago. *)
Lemma wp_update_unknown tx cur w (Q : outcome unit -> World Node TradeState -> Prop) :
  is_u32 cur -> is_s32 FLAGS_democrit_confirmations -> 0 <= FLAGS_democrit_confirmations ->
  (forall h, ts_conflict_height (wst w) = Some h -> is_u32 h) ->
  (forall o t n l, state_of t = state_of (wst w) -> Q o (mkWorld t n (wtrace w ++ l))) ->
  (forall n l h vin inp hash k u, ts_conflict_height (wst w) = Some h ->
     h + FLAGS_democrit_confirmations <= cur + 1 -> jget tx "vin" = Some vin -> is_array vin = true ->
     inp ∈ jelems vin -> spends hash k inp -> EvXaya (gettxout hash k) (inr u) ∈ l -> is_null u = true ->
     Q (Ret tt) (mkWorld (with_state (Some FAILED) (wst w)) n (wtrace w ++ l))) ->
  wp (update_unknown tx cur) Q w.
Proof.
  intros Hcur Hf Hf0 Hcon Hsame Hgone.
  assert (Hid : forall o, Q o w) by (intros o; rewrite <-(world_id w); by apply Hsame).
  unfold update_unknown. wp_use wp_field; [intros vin Hvin|by intros; apply Hid].
  wp_step. wp_step; [|by apply Hid].
  wp_use wp_is_conflicted. intros o n l Hc.
  destruct o as [[]|e|]; cbn [then_post negb]; [| |by apply Hsame..].
  - wp_step. wp_step. destruct (ts_conflict_height (wst w)) as [h|] eqn:Hh; [|by wp_step; apply Hsame].
    destruct (confirmed_since h cur) eqn:Hcs; wp_step; [|by apply Hsame].
    apply confirmed_since_exact in Hcs; [|by auto|done..].
    destruct (Hc eq_refl) as (inp & hash & k & u & Hin & Hsp & Hev & Hu).
    by apply (Hgone n l h vin inp hash k u).
  - wp_step. by apply Hsame.
Qed.

(** What is known after an update that changed the status. *)
Definition verdict (w w' : World Node TradeState) (l : list Event) : Prop :=
  match state_of (wst w') with
  | ABANDONED => exists now n, clock_now (wnode w) = (now, n) /\
      FLAGS_democrit_trade_timeout_ms < (now - start_time_of (wst w)) * 1000
  | SUCCESS => seen_confirmed (wst w) l
  | FAILED => seen_conflicted (wst w) l
  | _ => False
  end.

Lemma wp_Update_verdict w :
  is_s32 FLAGS_democrit_confirmations -> 0 <= FLAGS_democrit_confirmations ->
  (forall h, ts_conflict_height (wst w) = Some h -> is_u32 h) ->
  wp Update (fun o w' => exists l, wtrace w' = wtrace w ++ l /\
    (state_of (wst w') = state_of (wst w) \/ verdict w w' l)) w.
Proof.
  intros Hf Hf0 Hcon. set (Q := fun o w' => _).
  assert (Hsame : forall o t n l, state_of t = state_of (wst w) -> Q o (mkWorld t n (wtrace w ++ l))).
  { intros o t n l Ht. exists l. split; [done|by left]. }
  assert (Hid : forall o, Q o w) by (intros o; rewrite <-(world_id w); by apply Hsame).
  unfold Update. wp_step. wp_step.
  destruct (state_of (wst w)) eqn:Hs; try (by wp_step; apply Hid).
  - unfold update_initiated. wp_step. wp_step. wp_step. wp_step.
    destruct (_ <? _) eqn:Hlt; wp_step.
    + exists []. rewrite app_nil_r. split; [done|]. right. apply Z.ltb_lt in Hlt.
      by exists t, n.
    + rewrite <-(app_nil_r (wtrace w)). by apply Hsame.
  - unfold update_pending. wp_step. wp_step. wp_step. wp_step; [|apply Hid].
    wp_step. wp_step; [by apply Hsame|]. rename x into d.
    wp_step. wp_step; [|by apply Hsame].
    wp_use wp_field; [intros tx Htx|intros; by apply Hsame]. wp_step. wp_step; [|by apply Hsame].
    wp_use wp_field; [intros b Hb|intros; by apply Hsame]. wp_step. wp_step; [|by apply Hsame].
    wp_step. wp_step; [|by apply Hsame].
    wp_use wp_check_trade. intros o n1 l1 Hchk. trace_form.
    destruct o as [[[cur data] st]|e|]; cbn [then_post]; [|by apply Hsame..].
    destruct (Hchk cur data st eq_refl) as (Hcur & r & Hr & Hg).
    set (l0 := EvXaya (decodepsbt (our_psbt_of (wst w))) (inr d) :: l1) in *.
    assert (Hour : our_transaction (wst w) d a l0)
      by (split; [by left|]; exists tx; split; [done|by exists b]).
    apply wp_bind.
    assert (Hfin : wp (if String.eqb st "confirmed" then is_final cur data else mret false)
      (fun o w2 => w2 = mkWorld (wst w) n1 (wtrace w ++ l0) /\
         (o = Ret true -> seen_confirmed (wst w) l0)) (mkWorld (wst w) n1 (wtrace w ++ l0))).
    { destruct (String.eqb_spec st "confirmed") as [->|]; [|by wp_step].
      apply wp_is_final; [done..|]. intros o Hk. split; [done|]. intros Ho.
      destruct (Hk Ho) as (hv & h & ? & ? & ? & ?).
      exists d, a, r, cur, data, hv, h. split_and!; try done. by right. }
    eapply wp_conseq; [exact Hfin|]. clear Hfin. cbn beta. intros o w2 [-> Hk].
    destruct o as [[]|e|]; cbn [then_post]; [| |by apply Hsame..].
    { wp_step. exists l0. split; [done|]. right. by apply Hk. }
    destruct (String.eqb_spec st "unknown") as [->|]; cbn [negb]; [|wp_step; by apply Hsame].
    apply wp_update_unknown; [done..| |]; cbn [wst wtrace].
    { intros o t n2 l2 Ht. trace_form. apply Hsame; congruence. }
    intros n2 l2 h vin inp hash k u Hh Hcs Hvin Harr Hin Hsp Hev Hu. trace_form.
    exists (l0 ++ l2). split; [done|]. right.
    exists d, a, r, cur, data, h, (jelems vin), inp, hash, k, u.
    split_and!; try done; try (rewrite elem_of_app; by auto).
    + destruct Hour as [Hin' ?]. split; [rewrite elem_of_app; by left|done].
    + rewrite elem_of_app. left. by right.
    + by exists tx, vin.
Qed.

Lemma run_updated w : updated (wst w) (wst (snd (Update w))).
Proof. pose proof (wp_Update_updated w) as Hu. unfold wp in Hu. by destruct (Update w). Qed.

(** *** Each method respects the lifecycle *)

Lemma transition_initiated t b :
  state_of t = INITIATED -> transition INITIATED b -> rtc transition (state_of t) b.
Proof. intros -> Ht. by apply rtc_once. Qed.

Lemma not_final t : state_of t = INITIATED \/ state_of t = PENDING -> IsFinalised t = false.
Proof. unfold state_of, IsFinalised. destruct (ts_state t) as [[]|]; naive_solver. Qed.

Lemma updated_evolves t t' : updated t t' -> evolves t t'.
Proof.
  intros [->|[[Hi ->]|[Hp Hu]]]; [reflexivity| |].
  - split; try done; try (by right).
    + apply transition_initiated; [done|constructor].
    + rewrite not_final by auto. done.
  - destruct Hu as [-> |[-> |[h [-> _]]]]; split; try done; try (by right);
      try (by rewrite not_final by auto).
    + rewrite Hp. apply rtc_once. constructor.
    + rewrite Hp. apply rtc_once. constructor.
Qed.

Lemma message_evolves account msg t : evolves t (HandleTradeMessage account msg t).
Proof.
  unfold HandleTradeMessage.
  destruct (bool_decide_reflect (state_of t = INITIATED)) as [Hi|]; cbn [negb]; [|reflexivity].
  assert (Hm : forall sd u, state_of u = INITIATED -> evolves u (MergeSellerData account sd u)).
  { intros sd u Hu. unfold MergeSellerData. repeat case_match; try reflexivity.
    split; try done; try (by right).
    - left. by apply has_None.
    - rewrite not_final by auto. done. }
  assert (Hs : forall sd u, state_of (MergeSellerData account sd u) = state_of u).
  { intros sd u. unfold MergeSellerData. by repeat case_match. }
  assert (Hp : forall p u, state_of u = INITIATED -> evolves u (MergePsbt p u)).
  { intros p u Hu. unfold MergePsbt. case_match; [reflexivity|].
    split; try done; try (by right).
    - left. by apply has_None.
    - rewrite not_final by auto. done. }
  destruct (pm_seller_data msg) as [sd|], (pm_psbt msg) as [p|]; auto; [|reflexivity].
  etransitivity; [by apply Hm|]. apply Hp. by rewrite Hs.
Qed.

Lemma our_stage_evolves account checker pb pb1 l :
  state_of pb = INITIATED -> our_stage account checker pb pb1 l -> evolves pb pb1.
Proof.
  intros Hi [(-> & _)|(p & q & -> & l1 & l2 & _ & Hour & _)]; [reflexivity|].
  split; try done; try (by right); [by left|]. rewrite not_final by auto. done.
Qed.

Lemma pending_evolves t : state_of t = INITIATED -> evolves t (with_state (Some PENDING) t).
Proof.
  intros Hi. split; try done; try (by right).
  - apply transition_initiated; [done|constructor].
  - rewrite not_final by auto. done.
Qed.

Lemma our_stage_state account checker pb pb1 l :
  our_stage account checker pb pb1 l -> state_of pb1 = state_of pb.
Proof. by intros [(-> & _)|(p & q & -> & _)]. Qed.

Lemma summary_evolves account checker pb o pb' l :
  reply_summary account checker pb o pb' l -> evolves pb pb'.
Proof.
  intros Hs. destruct Hs as [|? ? ? ? ? Hi ? Hsd|?|? ? ? Hi ? ? Hf|? ? ? ? Hi Ho|? ? ? Hi Ho|
    pb1 ? ? r Hi Ho]; try reflexivity.
  - split; try done; try (by right); [by left|]. rewrite not_final by auto. done.
  - eapply (our_stage_evolves _ _ _ _ _ Hi). right. eauto.
  - by eapply our_stage_evolves.
  - etransitivity; [by eapply our_stage_evolves|]. apply pending_evolves.
    by rewrite (our_stage_state _ _ _ _ _ Ho).
  - destruct r; [by eapply our_stage_evolves|].
    etransitivity; [by eapply our_stage_evolves|]. apply pending_evolves.
    by rewrite (our_stage_state _ _ _ _ _ Ho).
Qed.

Lemma call_evolves account w w' : trade_call account w w' -> evolves (wst w) (wst w').
Proof.
  intros [msg u|u|u].
  - apply message_evolves.
  - destruct (run_summary account u) as (l & _ & Hs). by eapply summary_evolves.
  - apply updated_evolves, run_updated.
Qed.

Lemma call_transition account w w' :
  trade_call account w w' -> transition (state_of (wst w)) (state_of (wst w')).
Proof.
  intros [msg u|u|u]; cbn [wst].
  - replace (state_of (HandleTradeMessage account msg (wst u))) with (state_of (wst u));
      [constructor|].
    unfold HandleTradeMessage, MergeSellerData, MergePsbt. by repeat case_match.
  - destruct (run_summary account u) as (l & _ & Hs).
    destruct Hs as [| | |? ? ? Hi|o pb1 ? ? Hi Ho|? pb1 ? Hi Ho|pb1 ? ? r Hi Ho];
      try constructor; try rewrite Hi.
    + rewrite (our_stage_state _ _ _ _ _ Ho), Hi. constructor.
    + constructor.
    + destruct r; [rewrite (our_stage_state _ _ _ _ _ Ho), Hi|]; constructor.
  - destruct (run_updated u) as [->|[[Hi ->]|[Hp [-> |[-> |[h [-> _]]]]]]];
      rewrite ?Hi, ?Hp; try constructor. cbn. fold (state_of (wst u)). rewrite Hp. constructor.
Qed.

(** *** The invariant *)

Lemma has_with_our q t : has (ts_our_psbt (with_our_psbt (Some q) t)) = true.
Proof. done. Qed.

Lemma inv_initiated account t :
  state_of t = INITIATED ->
  (has (ts_our_psbt t) = true -> has (ts_seller_data t) = true) ->
  (GetOrderType account t = ASK -> has (ts_our_psbt t) = true -> has (ts_their_psbt t) = true) ->
  (forall sd, ts_seller_data t = Some sd ->
    has (sd_name_address sd) = true /\ has (sd_chi_address sd) = true /\
    match GetOrderType account t with
    | ASK => exists h n, sd_name_output sd = Some (mkOutPoint (Some h) (Some n))
    | BID => sd_name_output sd = None /\ name_address_of sd <> chi_address_of sd
    end) ->
  (forall h, ts_conflict_height t = Some h -> is_u32 h) ->
  trade_inv account t.
Proof. intros Hi ????. split; try done. rewrite Hi. naive_solver. Qed.

(** Changing the status alone, once our PSBT is there. *)
Lemma inv_with_state account s t :
  has (ts_our_psbt t) = true -> trade_inv account t -> trade_inv account (with_state s t).
Proof. intros Hour [I1 I2 I3 I4 I5]. by split. Qed.

Lemma message_inv account msg t :
  trade_inv account t -> trade_inv account (HandleTradeMessage account msg t).
Proof.
  unfold HandleTradeMessage.
  destruct (bool_decide_reflect (state_of t = INITIATED)) as [Hi|]; cbn [negb]; [|done].
  intros Hinv.
  assert (Hm : forall sd u, trade_inv account u -> trade_inv account (MergeSellerData account sd u)).
  { intros sd u Hu. unfold MergeSellerData. destruct (GetOrderType account u) eqn:Hty; [done|].
    destruct (has (ts_seller_data u)) eqn:Hsd; [done|].
    destruct (_ || has (sd_name_output sd)) eqn:Hbad; [done|].
    destruct (String.eqb_spec (name_address_of sd) (chi_address_of sd)) as [|Hne]; [done|].
    apply orb_false_iff in Hbad as [[Ha%negb_false_iff Hc%negb_false_iff]%orb_false_iff Ho].
    destruct Hu as [I1 I2 I3 I4 I5]. split; try done.
    intros sd' [= <-]. change (GetOrderType account (with_seller_data (Some sd) u))
      with (GetOrderType account u). rewrite Hty. split_and!; try done. by apply has_None. }
  assert (Hp : forall p u, trade_inv account u -> trade_inv account (MergePsbt p u)).
  { intros p u Hu. unfold MergePsbt. destruct (has (ts_their_psbt u)); [done|].
    destruct Hu; by split. }
  destruct (pm_seller_data msg), (pm_psbt msg); auto.
Qed.

Lemma updated_inv account t t' : updated t t' -> trade_inv account t -> trade_inv account t'.
Proof.
  intros Hu Hinv. pose proof Hinv as [I1 I2 I3 I4 I5].
  destruct Hu as [->|[[Hi ->]|[Hp Hu]]]; [done| |].
  - split; try done. naive_solver.
  - assert (Hour : has (ts_our_psbt t) = true) by (apply I1; auto).
    destruct Hu as [-> |[-> |[h [-> Hh]]]]; [by apply inv_with_state..|]. by split.
Qed.

Lemma our_stage_inv account checker pb pb1 l :
  state_of pb = INITIATED -> trade_inv account pb -> our_stage account checker pb pb1 l ->
  trade_inv account pb1 /\ has (ts_our_psbt pb1) = true.
Proof.
  intros Hi Hinv [(-> & _ & ?)|(p & q & -> & l1 & l2 & _ & Hour & Hsd & Hk)]; [done|].
  split; [|done]. destruct Hinv as [I1 I2 I3 I4 I5]. apply inv_initiated; try done.
  intros Hty _. change (GetOrderType account (with_our_psbt (Some q) pb))
    with (GetOrderType account pb) in Hty. rewrite Hty in Hk. destruct Hk as (Hk & _).
  cbn. by rewrite Hk.
Qed.

Lemma summary_inv account checker pb o pb' l :
  reply_summary account checker pb o pb' l -> trade_inv account pb -> trade_inv account pb'.
Proof.
  intros Hs Hinv. destruct Hs as [|na ca h k ? Hi Hty Hsd|?|? ? ? Hi ? ? Hf|? ? ? ? Hi Ho|? ? ? Hi Ho|
    pb1 ? ? r Hi Ho]; try done.
  - destruct Hinv as [I1 I2 I3 I4 I5]. apply inv_initiated; try done.
    intros sd' [= <-]. change (GetOrderType account _) with (GetOrderType account pb).
    rewrite Hty. split_and!; try done. by exists h, k.
  - apply (our_stage_inv account checker pb _ l Hi Hinv). right. by exists p, q.
  - by destruct (our_stage_inv _ _ _ _ _ Hi Hinv Ho).
  - destruct (our_stage_inv _ _ _ _ _ Hi Hinv Ho). by apply inv_with_state.
  - destruct (our_stage_inv _ _ _ _ _ Hi Hinv Ho). destruct r; [done|]. by apply inv_with_state.
Qed.

Lemma call_inv account w w' :
  trade_call account w w' -> trade_inv account (wst w) -> trade_inv account (wst w').
Proof.
  intros [msg u|u|u].
  - apply message_inv.
  - destruct (run_summary account u) as (l & _ & Hs). by eapply summary_inv.
  - by eapply updated_inv, run_updated.
Qed.

End lifecycle.

(* ------------------------------------------------------------------ *)
(** ** Safety *)

Section safety.
Context `{JsonLib} `{!JsonLaws} `{!Uint256Lib} `{!AmountLib} {Node : Type} `{!XayaRpc Node}
  `{!DemGspRpc Node} `{!AssetSpec Node} `{!Clock Node} `{!Flags}.
Implicit Types (w : World Node TradeState) (account : string).

Lemma HasReply_run account w o w' :
  HasReply account (BuildTradeChecker account (wst w)) w = (o, w') ->
  exists l, wtrace w' = wtrace w ++ l /\
    reply_summary account (BuildTradeChecker account (wst w)) (wst w) o (wst w') l.
Proof. intros Hr. pose proof (run_summary account w) as Hs. by rewrite Hr in Hs. Qed.

Lemma harmless_signs l : Forall harmless l -> forall e, e ∈ l -> signs e = None.
Proof. rewrite Forall_forall. intros Hl e He. by destruct (Hl e He). Qed.

Lemma broadcast_last_signs account pb l r :
  broadcast_last account pb l r -> forall e, e ∈ l -> signs e = None.
Proof.
  intros (l1 & hex & -> & Hl & _) e [He|He%list_elem_of_singleton]%elem_of_app;
    [by eapply harmless_signs|by subst].
Qed.

(** The calls of a whole [HasReply]: the signing part, then calls that sign
    nothing. *)
Lemma summary_calls account checker pb o pb' l :
  reply_summary account checker pb o pb' l ->
  (forall e, e ∈ l -> signs e = None) \/
  exists p q la lb, l = la ++ lb /\ state_of pb = INITIATED /\
    sign_facts account checker pb p q la /\ (forall e, e ∈ lb -> signs e = None).
Proof.
  assert (Hst : forall pb1 la lb, state_of pb = INITIATED ->
    our_stage account checker pb pb1 la -> (forall e, e ∈ lb -> signs e = None) ->
    (forall e, e ∈ la ++ lb -> signs e = None) \/
    exists p q la' lb', la ++ lb = la' ++ lb' /\ state_of pb = INITIATED /\
      sign_facts account checker pb p q la' /\ (forall e, e ∈ lb' -> signs e = None)).
  { intros pb1 la lb Hi [(_ & Hl & _)|(p & q & _ & Hf)] Hlb.
    - left. intros e [He|He]%elem_of_app; [by eapply harmless_signs|auto].
    - right. exists p, (Some q), la, lb. auto. }
  assert (Hnil : forall e : Event, e ∈ [] -> signs e = None) by (intros e He; by inversion He).
  intros Hs. destruct Hs as [o l Ho Hl|na ca h k l|o p l Hi Ho Hf|p q l Hi Hr Ht Hf|
    o pb1 la lb Hi Hst' Ho Hl|q pb1 la Hi Hst'|pb1 la lb r Hi Hst' Hr Ho Ht Hb].
  - left. by apply harmless_signs.
  - left. by apply harmless_signs.
  - right. exists p, None, l, []. by rewrite app_nil_r.
  - right. exists p, (Some q), l, []. by rewrite app_nil_r.
  - eapply Hst; [done..|]. by apply harmless_signs.
  - rewrite <-(app_nil_r la). by eapply Hst.
  - eapply Hst; [done..|]. by eapply broadcast_last_signs.
Qed.

(** C1: a call of [HasReply] asks the wallet for at most one signature, only
    on an initiated trade that does not have our PSBT yet.  A seller lets the
    wallet sign nothing but the PSBT the counterparty sent, and only after the
    same call decoded it and found it to pay the agreed total to the seller's
    address and to update the seller's name to the agreed move; a buyer lets it
    sign nothing but a transaction this call has joined itself from two parts
    it had the wallet make: a payment of exactly the agreed total to the
    seller's address, and the update of the seller's name to the agreed move.
    (The agreed total is price times units where that fits an amount.) *)
Theorem wallet_signs_only_checked account w o w' :
  HasReply account (BuildTradeChecker account (wst w)) w = (o, w') ->
  exists l, wtrace w' = wtrace w ++ l /\
    ((forall e, e ∈ l -> signs e = None) \/
     exists l1 p r l2, l = l1 ++ EvXaya (walletprocesspsbt p) r :: l2 /\
       (forall e, e ∈ l1 ++ l2 -> signs e = None) /\
       state_of (wst w) = INITIATED /\ ts_our_psbt (wst w) = None /\
       match GetOrderType account (wst w) with
       | ASK => ts_their_psbt (wst w) = Some p /\
           outputs_accepted (BuildTradeChecker account (wst w)) (seller_data_of (wst w)) p l1
       | BID => purchase (BuildTradeChecker account (wst w)) (seller_data_of (wst w))
           (counterparty_of (wst w)) p l1
       end).
Proof.
  intros Hr. destruct (HasReply_run _ _ _ _ Hr) as (l & Hl & Hs). exists l. split; [done|].
  destruct (summary_calls _ _ _ _ _ _ Hs) as [?|(p & q & la & lb & -> & Hi & Hf & Hlb)]; [by left|].
  destruct Hf as (l1 & l2 & (r & -> & Hl1 & Hl2) & Hour & _ & Hk). right.
  exists l1, p, r, (l2 ++ lb). rewrite <-app_assoc. split_and!; try done.
  - intros e. rewrite !elem_of_app. intros [He|[He|He]];
      [by apply (harmless_signs l1)|by apply (harmless_signs l2)|by apply Hlb].
  - destruct (GetOrderType account (wst w)); [|done]. naive_solver.
Qed.




(** C16: every reply is addressed to the trade's counterparty under the
    trade's identifier and carries exactly one contribution: the seller's two
    addresses (never its name output), the taker's PSBT, at which point the
    trade is pending, or, from a maker who buys, the purchase it has just joined
    from the payment of the agreed total and the seller's name update, as it
    was before the maker signed it. *)
Theorem reply_contents account w reply w' :
  HasReply account (BuildTradeChecker account (wst w)) w = (Ret (Some reply), w') ->
  pm_counterparty reply = Some (counterparty_of (wst w)) /\
  pm_identifier reply = Some (GetIdentifier (wst w)) /\
  pm_taking_order reply = None /\
  ((exists sd, pm_seller_data reply = Some sd /\ pm_psbt reply = None /\
      GetOrderType account (wst w) = ASK /\ sd_name_output sd = None /\
      ts_seller_data (wst w) = None /\ name_address_of sd = name_address_of (seller_data_of (wst w')) /\
      chi_address_of sd = chi_address_of (seller_data_of (wst w'))) \/
   (exists q, pm_seller_data reply = None /\ pm_psbt reply = Some (mkTradePsbt (Some q)) /\
      GetRole account (wst w) = TAKER /\ state_of (wst w') = PENDING /\
      ts_our_psbt (wst w') = Some q) \/
   (exists p l, pm_seller_data reply = None /\ pm_psbt reply = Some (mkTradePsbt (Some p)) /\
      GetRole account (wst w) = MAKER /\ GetOrderType account (wst w) = BID /\
      state_of (wst w') = INITIATED /\
      wtrace w' = wtrace w ++ l /\
      purchase (BuildTradeChecker account (wst w)) (seller_data_of (wst w))
        (counterparty_of (wst w)) p l)).
Proof.
  intros Hr. destruct (HasReply_run _ _ _ _ Hr) as (l & Hl & Hs).
  remember (Ret (Some reply)) as o eqn:Ho. remember (wst w') as pb' eqn:Hpb'. clear Hpb' Hr.
  destruct Hs as [o l Hq|na ca h k l Hi Hty Hsd|o p l Hi Hq|p q' l Hi Hr Ht Hf|o pb1 la lb Hi _ Hq|
    q' pb1 la Hi Hst Hr Hq|pb1 la lb r];
    try (by subst; specialize (Hq _ eq_refl)); try (by destruct r); injection Ho as <-;
    (split; [done|]; split; [done|]; split; [done|]).
  - left. eexists. by split_and!.
  - destruct Hf as (l1 & l2 & (r & -> & _) & _ & _ & Hk). rewrite Ht in Hk.
    right; right. exists p. eexists. split_and!; try done.
    eapply purchase_mono; [|exact Hk]. set_solver.
  - right; left. by exists q'.
Qed.

(** C15: only a maker broadcasts, after both PSBTs are there: what it
    broadcasts is what the wallet's [finalizepsbt] gave for its own PSBT when it
    sells, and for the combination of both PSBTs when it buys.  When the
    broadcast succeeds the trade becomes pending. *)
Theorem broadcasts_only_finalised account w o w' l :
  HasReply account (BuildTradeChecker account (wst w)) w = (o, w') ->
  wtrace w' = wtrace w ++ l -> Exists (fun e => broadcasts e = true) l ->
  GetRole account (wst w) = MAKER /\ has (ts_their_psbt (wst w')) = true /\
  has (ts_our_psbt (wst w')) = true /\
  exists l' hex r, l = l' ++ [EvXaya (sendrawtransaction hex) r] /\
    Forall (fun e => broadcasts e = false) l' /\
    finalised_to account (wst w') hex l' /\
    match r with
    | inr _ => state_of (wst w') = PENDING /\ o = Ret None
    | inl msg => state_of (wst w') = INITIATED /\ o = Throw (JsonRpcException msg)
    end.
Proof.
  intros Hr Hl Hb. destruct (HasReply_run _ _ _ _ Hr) as (l0 & Hl0 & Hs).
  rewrite Hl0 in Hl. apply app_inv_head in Hl as ->.
  assert (Hquiet : forall l1, Forall (fun e => broadcasts e = false) l1 ->
            Exists (fun e => broadcasts e = true) l1 -> False).
  { intros l1 Hf He. apply Exists_exists in He as (e & He & Ht).
    rewrite Forall_forall in Hf. specialize (Hf e He). congruence. }
  assert (Hh : forall l1, Forall harmless l1 -> Forall (fun e => broadcasts e = false) l1).
  { intros l1 Hf. eapply Forall_impl; [exact Hf|]. by intros e [_ ?]. }
  assert (Hsf : forall p q l1, sign_facts account (BuildTradeChecker account (wst w)) (wst w) p q l1 ->
            Forall (fun e => broadcasts e = false) l1).
  { intros p q l1 (la & lb & (r & -> & Hla & Hlb) & _). apply Forall_app; split; [by apply Hh|].
    constructor; [done|by apply Hh]. }
  assert (Hst : forall pb1 la, our_stage account (BuildTradeChecker account (wst w)) (wst w) pb1 la ->
            Forall (fun e => broadcasts e = false) la).
  { intros pb1 la [(_ & Hf & _)|(p & q & _ & Hf)]; [by apply Hh|by eapply Hsf]. }
  remember (wst w') as pb' eqn:Hpb'. clear Hpb' Hr Hl0.
  destruct Hs as [? ? ? Hf|? ? ? ? ? ? ? ? Hf|? ? ? ? ? Hf|? ? ? ? ? ? Hf|? pb1 la lb ? Hf ? Hlb|
    ? pb1 ? ? Hf|pb1 la lb r Hi Ho Hrole Hour Htheir (l1 & hex & -> & Hl1 & Hfin)];
    try (exfalso; eapply Hquiet; [|exact Hb]; eauto; fail).
  - exfalso. eapply Hquiet; [|exact Hb]. apply Forall_app; eauto.
  - pose proof (our_stage_state _ _ _ _ _ Ho) as Hs1.
    destruct (our_stage_same _ _ _ _ _ Ho) as (Hr1 & Ht1 & Hth1).
    split; [done|]. split; [destruct r; cbn; congruence|]. split; [by destruct r|].
    exists (la ++ l1), hex, r. rewrite <-app_assoc. split; [done|].
    split; [apply Forall_app; eauto|]. split.
    + destruct Hfin as (f & rr & Hin & Hhex & Hk). exists f, rr.
      split; [set_solver|]. split; [done|].
      replace (GetOrderType account (match r with inl _ => pb1 | inr _ => with_state (Some PENDING) pb1 end))
        with (GetOrderType account pb1) by (by destruct r).
      destruct (GetOrderType account pb1); [by destruct r|]. destruct r; set_solver.
    + destruct r; [|done]. split; [congruence|done].
Qed.

(** C14: through any history of incoming messages, replies and updates, however
    the services answer and whichever calls fail, a trade keeps its terms, sets
    each contribution at most once, moves only from initiated to pending or
    abandoned and from pending to success or failed, and never changes again
    once it is finalised. *)
Theorem trade_lifecycle account w w' :
  rtc (trade_call account) w w' -> evolves (wst w) (wst w').
Proof.
  induction 1 as [|x y z Hxy _ IH]; [reflexivity|].
  etransitivity; [by eapply call_evolves|done].
Qed.

(** Through any history of calls, a trade that is pending or was
    settled on the chain has our PSBT, our PSBT is there only together with
    the seller's complete data, a seller's own PSBT only together with the
    counterparty's, and a buyer only accepts seller data with two different
    addresses and no name output. *)
Theorem trade_invariant account w w' :
  rtc (trade_call account) w w' -> trade_inv account (wst w) -> trade_inv account (wst w').
Proof. induction 1 as [|x y z Hxy _ IH]; [done|]. intros Hi. apply IH. by eapply call_inv. Qed.

(** C17: an update changes the status of a trade only for a reason: it is
    abandoned when the clock is past its start by more than the timeout, it
    succeeds when the GSP reports the transaction of our PSBT as confirmed with
    at least the required confirmations, and it fails when the GSP does not know
    that transaction, an input of it is spent or missing, and this was first
    recorded the required number of blocks ago. *)
Theorem Update_verdict_justified w o w' :
  is_s32 FLAGS_democrit_confirmations -> 0 <= FLAGS_democrit_confirmations ->
  (forall h, ts_conflict_height (wst w) = Some h -> is_u32 h) ->
  Update w = (o, w') -> state_of (wst w') <> state_of (wst w) ->
  exists l, wtrace w' = wtrace w ++ l /\
  match state_of (wst w') with
  | ABANDONED => exists now n, clock_now (wnode w) = (now, n) /\
      FLAGS_democrit_trade_timeout_ms < (now - start_time_of (wst w)) * 1000
  | SUCCESS => seen_confirmed (wst w) l
  | FAILED => seen_conflicted (wst w) l
  | _ => False
  end.
Proof.
  intros Hf Hf0 Hc Hu Hne. pose proof (wp_Update_verdict w Hf Hf0 Hc) as Hw.
  unfold wp in Hw. rewrite Hu in Hw. destruct Hw as (l & Hl & [?|Hv]); [done|]. by exists l.
Qed.

(** A pending trade that the GSP reports as confirmed with the required
    confirmations is marked as a success: with our PSBT in place and answers of
    the documented shape the update ends and does so. *)
Theorem Update_confirms w q d tx b btxid n1 r n2 cur hc data sv hv h :
  is_s32 FLAGS_democrit_confirmations -> 0 <= FLAGS_democrit_confirmations ->
  state_of (wst w) = PENDING -> ts_our_psbt (wst w) = Some q ->
  xaya_rpc (decodepsbt q) (wnode w) = (inr d, n1) -> is_object d = true ->
  jget d "tx" = Some tx -> is_object tx = true -> jget tx "btxid" = Some b ->
  is_string b = true -> as_string b = Some btxid ->
  gsp_rpc btxid n1 = (inr r, n2) -> is_object r = true ->
  jget r "height" = Some hc -> is_uint hc = true -> as_uint hc = Some cur ->
  jget r "data" = Some data -> is_object data = true ->
  jget data "state" = Some sv -> is_string sv = true -> as_string sv = Some "confirmed" ->
  jget data "height" = Some hv -> is_uint hv = true -> as_uint hv = Some h -> h <= cur ->
  h + FLAGS_democrit_confirmations <= cur + 1 ->
  exists w', Update w = (Ret tt, w') /\ wst w' = with_state (Some SUCCESS) (wst w).
Proof.
  intros Hf Hf0 Hs Hq Hd Hdo Htx Hto Hb Hbs Hbtx Hr Hro Hhc Hhcu Hcur Hdata Hdo' Hsv Hss Hst
    Hhv Hhu Hh Hle Hconf.
  assert (Hw : wp Update (fun o w' => o = Ret tt /\ wst w' = with_state (Some SUCCESS) (wst w)) w).
  { unfold Update. wp_step. wp_step. rewrite Hs. unfold update_pending. wp_step. wp_step. wp_step.
    wp_step; [|by rewrite Hq in *]. unfold our_psbt_of. rewrite Hq. cbn [from_option id].
    wp_call Hd. wp_step. wp_step; [|congruence].
    wp_use wp_field; [intros ? ?; simplify_eq|congruence]. wp_step. wp_step; [|congruence].
    wp_use wp_field; [intros ? ?; simplify_eq|congruence]. wp_step. wp_step; [|congruence].
    wp_step. wp_step; [|congruence]. simplify_eq. unfold check_trade.
    wp_step. wp_step. wp_step; same_result.
    wp_step. wp_step; [|congruence].
    wp_use wp_field; [intros ? ?; simplify_eq|congruence]. wp_step. wp_step; [|congruence].
    wp_step. wp_step; [|congruence]. simplify_eq.
    wp_use wp_field; [intros ? ?; simplify_eq|congruence]. wp_step. wp_step; [|congruence].
    wp_use wp_field; [intros ? ?; simplify_eq|congruence]. wp_step. wp_step; [|congruence].
    wp_step. wp_step; [|congruence]. simplify_eq. wp_step. rewrite String.eqb_refl.
    wp_step. unfold is_final. wp_use wp_field; [intros ? ?; simplify_eq|congruence].
    wp_step. wp_step; [|congruence]. wp_step. wp_step; [|congruence]. simplify_eq.
    wp_step. wp_step; [|lia].
    destruct (is_uint_spec _ Hhu) as (h' & Hh' & Hhr).
    destruct (is_uint_spec _ Hhcu) as (c' & Hc' & Hcr). simplify_eq.
    wp_step. rewrite (proj2 (confirmed_since_exact _ _ Hhr Hcr Hf Hf0)) by done. by wp_step. }
  unfold wp in Hw. destruct (Update w) as [o w']. destruct Hw as [-> ?]. by exists w'.
Qed.

End safety.

(* ------------------------------------------------------------------ *)
(** ** Two parties of a trade *)

(** Strings without a newline, and the last newline of a string. *)
Fixpoint no_newline (s : string) : bool :=
  match s with
  | EmptyString => true
  | String c s' => negb (Ascii.eqb c (ascii_of_nat 10)) && no_newline s'
  end.

Lemma no_newline_app a p : no_newline (a +:+ newline +:+ p) = false.
Proof.
  induction a as [|c a IH]; [done|].
  change (negb (Ascii.eqb c (ascii_of_nat 10)) && no_newline (a +:+ newline +:+ p) = false).
  rewrite IH. by rewrite andb_false_r.
Qed.

Lemma split_at_last_newline a a' p p' :
  no_newline p = true -> no_newline p' = true ->
  a +:+ newline +:+ p = a' +:+ newline +:+ p' -> a = a' /\ p = p'.
Proof.
  intros Hp Hp'. revert a'. induction a as [|c a IH]; intros [|c' a'] He.
  - change (String (ascii_of_nat 10) p = String (ascii_of_nat 10) p') in He. by simplify_eq.
  - change (String (ascii_of_nat 10) p = String c' (a' +:+ newline +:+ p')) in He.
    simplify_eq. by rewrite no_newline_app in Hp.
  - change (String c (a +:+ newline +:+ p) = String (ascii_of_nat 10) p') in He.
    simplify_eq. by rewrite no_newline_app in Hp'.
  - change (String c (a +:+ newline +:+ p) = String c' (a' +:+ newline +:+ p')) in He.
    injection He as -> He. destruct (IH a' He) as [-> ->]. done.
Qed.

Lemma no_newline_digit n : no_newline (String (pretty_N_char n) "") = true.
Proof. unfold pretty_N_char. by repeat case_match. Qed.

Lemma no_newline_pretty_N_go n s : no_newline s = true -> no_newline (pretty_N_go n s) = true.
Proof.
  revert s. induction (N.lt_wf_0 n) as [n _ IH]. intros s Hs.
  destruct (decide (n = 0%N)) as [->|Hn]; [by rewrite pretty_N_go_0|].
  rewrite pretty_N_go_step by lia. apply IH; [apply N.div_lt; lia|].
  pose proof (no_newline_digit (n mod 10)) as Hd. cbn in Hd |- *.
  rewrite andb_true_r in Hd. by rewrite Hd.
Qed.

Lemma no_newline_pretty (z : Z) : no_newline (pretty z) = true.
Proof.
  destruct z as [|q|q]; [done|apply (no_newline_pretty_N_go (Npos q)); done|].
  change (pretty (Z.neg q)) with ("-" +:+ pretty_N_go (Npos q) "").
  exact (no_newline_pretty_N_go (Npos q) "" eq_refl).
Qed.

Section parties.

(** The identifier of a trade determines the maker's account and order ID,
    for any account name at all: the ID after the last newline is decimal. *)
Theorem identifier_injective t t' :
  GetIdentifier t = GetIdentifier t' <->
  account_of (order_of t) = account_of (order_of t') /\ id_of (order_of t) = id_of (order_of t').
Proof.
  unfold GetIdentifier. split.
  - intros He. apply split_at_last_newline in He as [Ha Hi]; [|apply no_newline_pretty..].
    split; [done|]. by apply (base.inj pretty).
  - by intros [-> ->].
Qed.

(** The two parties of a trade see the same thing: for a maker and a
    different taker with the same order and units, both derive the same buyer,
    seller, asset, price and units (so the same name value), opposite order
    types and roles, and each recognises the messages of the other. *)
Theorem parties_agree maker taker t t' msg :
  maker <> taker ->
  order_of t = order_of t' -> units_of t = units_of t' ->
  account_of (order_of t) = maker ->
  counterparty_of t = taker -> counterparty_of t' = maker ->
  BuildTradeChecker maker t = BuildTradeChecker taker t' /\
  GetOrderType maker t <> GetOrderType taker t' /\
  GetRole maker t = MAKER /\ GetRole taker t' = TAKER /\
  (pm_identifier msg = pm_identifier (InitProcessingMessage t') ->
   Matches t (with_msg_counterparty (Some taker) msg) = true) /\
  (pm_identifier msg = pm_identifier (InitProcessingMessage t) ->
   Matches t' (with_msg_counterparty (Some maker) msg) = true).
Proof.
  intros Hne Ho Hu Ha Hc Hc'.
  assert (Hr : GetRole maker t = MAKER) by (unfold GetRole; by rewrite Ha, String.eqb_refl).
  assert (Hr' : GetRole taker t' = TAKER).
  { unfold GetRole. rewrite <-Ho, Ha. by destruct (String.eqb_spec maker taker). }
  assert (Hid : GetIdentifier t = GetIdentifier t') by (unfold GetIdentifier; by rewrite Ho).
  assert (Hty : GetOrderType maker t = type_of (order_of t)) by (unfold GetOrderType; by rewrite Hr).
  assert (Hty' : GetOrderType taker t' = match type_of (order_of t) with BID => ASK | ASK => BID end)
    by (unfold GetOrderType; by rewrite Hr', Ho).
  split_and!; try done.
  - unfold BuildTradeChecker. rewrite Hty, Hty', Hc, Hc', <-Ho, <-Hu. by destruct (type_of (order_of t)).
  - rewrite Hty, Hty'. by destruct (type_of (order_of t)).
  - intros Hm. unfold Matches, msg_identifier, msg_counterparty, with_msg_counterparty.
    cbn [pm_identifier pm_counterparty]. rewrite Hm, Hc.
    cbn [InitProcessingMessage pm_identifier from_option id].
    by rewrite Hid, !String.eqb_refl.
  - intros Hm. unfold Matches, msg_identifier, msg_counterparty, with_msg_counterparty.
    cbn [pm_identifier pm_counterparty]. rewrite Hm, Hc'.
    cbn [InitProcessingMessage pm_identifier from_option id].
    by rewrite Hid, !String.eqb_refl.
Qed.

End parties.

(* ------------------------------------------------------------------ *)
(** ** The theorems at concrete inputs *)

Module TradeSafetyWitness.
Import Mock.

#[local] Existing Instance default_flags.

Definition order : Order :=
  mkOrder (Some "alice") (Some 7) (Some "gold") None (Some 5) (Some ASK) (Some 5) None.

Definition seller_data : SellerData :=
  mkSellerData (Some "addr-name") (Some "addr-chi") (Some (mkOutPoint (Some "nametx") (Some 1))).

(** "alice" sells two units to "bob", who has sent the transaction with its
    part signed. *)
Definition sale : TradeState :=
  mkTradeState (Some order) (Some 2) (Some "bob") (Some 990) (Some INITIATED)
    (Some seller_data) None (Some "buyer-signed") None.

(** The same trade before anything was exchanged, and once it is pending. *)
Definition fresh_sale : TradeState :=
  mkTradeState (Some order) (Some 2) (Some "bob") (Some 900) (Some INITIATED) None None None None.
Definition pending_sale : TradeState :=
  mkTradeState (Some order) (Some 2) (Some "bob") (Some 900) (Some PENDING)
    (Some seller_data) (Some "full") (Some "buyer-signed") None.

Definition w : World Node TradeState := world_of sale node.
Definition w_fresh : World Node TradeState := world_of fresh_sale node.
Definition w_pending : World Node TradeState := world_of pending_sale node.

#[local] Abbreviation reply_of w :=
  (HasReply "alice" (BuildTradeChecker "alice" (wst w)) w).

Lemma wallet_signs_only_checked_witness :
  exists l, wtrace (snd (reply_of w)) = wtrace w ++ l.
Proof.
  destruct (wallet_signs_only_checked "alice" w _ _ (surjective_pairing (reply_of w)))
    as (l & Hl & _). by exists l.
Defined.


Lemma reply_contents_witness :
  match fst (reply_of w_fresh) with
  | Ret (Some reply) => pm_counterparty reply = Some "bob" /\
      pm_identifier reply = Some (GetIdentifier (wst w_fresh))
  | _ => False
  end.
Proof.
  assert (Hr : match fst (reply_of w_fresh) with
               | Ret (Some r) => reply_of w_fresh = (Ret (Some r), snd (reply_of w_fresh))
               | _ => False end).
  { destruct (fst (reply_of w_fresh)) as [[r|]|e|] eqn:He.
    - apply run_eq. exact He.
    - vm_compute in He. discriminate.
    - vm_compute in He. discriminate.
    - vm_compute in He. discriminate. }
  destruct (fst (reply_of w_fresh)) as [[r|]|e|]; try contradiction.
  destruct (reply_contents "alice" w_fresh r (snd (reply_of w_fresh)) Hr) as (Hc & Hi & _).
  split; [exact Hc|exact Hi].
Defined.

Lemma broadcasts_only_finalised_witness :
  GetRole "alice" (wst w) = MAKER /\ has (ts_their_psbt (wst (snd (reply_of w)))) = true.
Proof.
  destruct (broadcasts_only_finalised "alice" w _ _ (wtrace (snd (reply_of w)))
              (surjective_pairing (reply_of w))) as (Hr & Ht & _).
  - reflexivity.
  - assert (He : existsb broadcasts (wtrace (snd (reply_of w))) = true)
      by (vm_compute; reflexivity).
    apply existsb_exists in He as (e & Hin & He). apply Exists_exists. exists e.
    split; [by apply list_elem_of_In|exact He].
  - split; [exact Hr|exact Ht].
Defined.

Lemma one_call : rtc (trade_call "alice") w (snd (reply_of w)).
Proof. apply rtc_once, (call_reply "alice" w). Qed.

Lemma trade_lifecycle_witness : evolves (wst w) (wst (snd (reply_of w))).
Proof. apply (trade_lifecycle "alice" w (snd (reply_of w))), one_call. Defined.

Lemma trade_invariant_witness : trade_inv "alice" (wst (snd (reply_of w))).
Proof.
  apply (trade_invariant "alice" w (snd (reply_of w))); [apply one_call|].
  split; try done.
  - intros [H|[H|H]]; discriminate H.
  - intros sd [= <-]. split_and!; try reflexivity. by exists "nametx", 1.
Defined.

Lemma Update_verdict_justified_witness :
  exists l, wtrace (snd (Update w_fresh)) = wtrace w_fresh ++ l.
Proof.
  destruct (Update_verdict_justified w_fresh (fst (Update w_fresh)) (snd (Update w_fresh)))
    as (l & Hl & _).
  - vm_compute; split; congruence.
  - vm_compute; congruence.
  - done.
  - exact (surjective_pairing (Update w_fresh)).
  - vm_compute. congruence.
  - by exists l.
Defined.

Lemma Update_confirms_witness :
  exists w', Update w_pending = (Ret tt, w') /\ wst w' = with_state (Some SUCCESS) (wst w_pending).
Proof.
  eapply (Update_confirms w_pending "full"); try reflexivity;
    vm_compute; first [split; congruence | congruence].
Defined.

Lemma parties_agree_witness :
  BuildTradeChecker "alice" sale =
  BuildTradeChecker "bob" (mkTradeState (Some order) (Some 2) (Some "alice") None None None None None None).
Proof.
  apply (parties_agree "alice" "bob" sale
    (mkTradeState (Some order) (Some 2) (Some "alice") None None None None None None) empty_message);
    first [discriminate | reflexivity].
Defined.

End TradeSafetyWitness.
