(* ===== verification/TradeManager.v ===== *)
(** * The trade manager ([TradeManager] of [src/trades.cpp])

    The active trades and the archive are part of the global state.  The
    manager takes orders, accepts that own orders are taken, routes the
    counterparties' messages to the trades, and runs the periodic update. *)

From Stdlib Require Import ZArith Lia String.
From stdpp Require Import base gmap strings list.
From S2P Require Import Prelude Json Proto Effects Mock Checker MyOrders Trades TradeSafety.

(** Trade [i] of the state, as a state of its own. *)
Definition trade_at (i : nat) (s : State) : TradeState :=
  nth i (st_trades s) empty_trade.

Definition set_trade (i : nat) (t : TradeState) (s : State) : State :=
  with_trades (<[i := t]> (st_trades s)) s.

(** An order can be taken for [units], and has what a trade needs. *)
Definition CheckOrder (o : Order) (units : Z) : bool :=
  if (s64 (max_units_of o) <? units) || (units <? s64 (min_units_of o)) then false
  else has (o_account o) && has (o_id o) && has (o_asset o) && has (o_type o)
       && has (o_price_sat o).

(** The trade both parties start with. *)
Definition new_trade (o : Order) (now units : Z) (counterparty : string) : TradeState :=
  mkTradeState (Some o) (Some (u64 units)) (Some counterparty) (Some now)
    (Some INITIATED) None None None None.

Section manager.
Context `{JsonLib} `{!Uint256Lib} `{!AmountLib} `{!ProtoRuntime} {Node : Type}
  `{!XayaRpc Node} `{!DemGspRpc Node} `{!AssetSpec Node} `{!Clock Node} `{!Flags}
  {S : Type} `{!HasState S} `{!OrderHooks Node S}.

(** The loop of [UpdateAndArchiveTrades] over the trades from index [i]. *)
Fixpoint update_trades (account : string) (n i : nat)
    (finalised stillActive : list TradeState)
  : M Node State (list TradeState * list TradeState) :=
  match n with
  | O => mret (finalised, stillActive)
  | Datatypes.S n' =>
      zoom (trade_at i) (set_trade i) Update;;
      s ← get;
      let t := trade_at i s in
      if IsFinalised t then
        modify (fun s => with_trade_archive (st_trade_archive s ++ [GetPublicInfo account t]) s);;
        modify (set_trade i (moved_from_trade t));;
        update_trades account n' (i + 1) (finalised ++ [t]) stillActive
      else
        modify (set_trade i (moved_from_trade t));;
        update_trades account n' (i + 1) finalised (stillActive ++ [t])
  end.

(** The work on the other components for the archived trades. *)
Fixpoint handle_finalised (account : string) (l : list TradeState) : M Node S unit :=
  match l with
  | [] => mret tt
  | t :: l' =>
      (match state_of t with
       | ABANDONED | FAILED => HandleFailure account t
       | SUCCESS => HandleSuccess account t
       | INITIATED | PENDING => fatal
       end);;
      handle_finalised account l'
  end.

(** The part under the state lock: the account and the finalised trades. *)
Definition archive_finalised : M Node State (string * list TradeState) :=
  s ← get;
  let account := acct s in
  '(finalised, stillActive) ← update_trades account (length (st_trades s)) 0 [] [];
  modify (with_trades stillActive);;
  mret (account, finalised).

Definition UpdateAndArchiveTrades : M Node S unit :=
  '(account, finalised) ← AccessState archive_finalised;
  handle_finalised account finalised.

Definition GetTrades : M Node S (list TradeInfo) :=
  ReadState (fun s => map (GetPublicInfo (acct s)) (st_trades s) ++ st_trade_archive s).

(** The part of [TakeOrder] under the state's lock, with the new trade. *)
Definition take_locked (data : TradeState) : M Node State (option ProcessingMessage) :=
  s ← get;
  if String.eqb (counterparty_of data) (acct s) then mret None
  else
    r ← catch_rpc (
      r ← local data (HasReply (acct s) (BuildTradeChecker (acct s) data));
      mret (Some r))
    (mret None);
    match r with
    | None => mret None
    | Some (reply, data) =>
        let msg := default (InitProcessingMessage data) reply in
        modify (fun s => with_trades (st_trades s ++ [data]) s);;
        mret (Some (SetTakingOrder data msg))
    end.

(** [None] is the return value false, [Some msg] returns true. *)
Definition TakeOrder (o : Order) (units : Z) : M Node S (option ProcessingMessage) :=
  if negb (CheckOrder o units) then mret None
  else
    now ← GetCurrentTime;
    AccessState (take_locked (new_trade o now units (account_of o))).

Definition taken_locked (data : TradeState) : M Node State bool :=
  s ← get;
  check (String.eqb (account_of (order_of data)) (acct s));;
  if String.eqb (counterparty_of data) (acct s) then mret false
  else
    modify (fun s => with_trades (st_trades s ++ [data]) s);;
    mret true.

Definition OrderTaken (o : Order) (units : Z) (counterparty : string) : M Node S bool :=
  if negb (CheckOrder o units) then mret false
  else
    now ← GetCurrentTime;
    AccessState (taken_locked (new_trade o now units counterparty)).

(** The first trade the message is for. *)
Fixpoint find_match (msg : ProcessingMessage) (l : list TradeState) (i : nat)
  : option nat :=
  match l with
  | [] => None
  | t :: l' => if Matches t msg then Some i else find_match msg l' (i + 1)
  end.

(** The message is given to trade [i]; an error reply of an RPC server ends
    its processing, but what was done to the trade before stays. *)
Definition process_for (account : string) (msg : ProcessingMessage) (checker : TradeChecker)
  : M Node TradeState (option ProcessingMessage) :=
  catch_rpc (
    modify (HandleTradeMessage account msg);;
    HasReply account checker)
  (mret None).

(** Whether the message's taking order, if it has one, was accepted. *)
Definition accept_taking_order (msg : ProcessingMessage) : M Node S bool :=
  match pm_taking_order msg with
  | None => mret true
  | Some to =>
      locked ← TryLock (to_id_of to);
      match locked with
      | None => mret false
      | Some o =>
          ok ← OrderTaken o (s64 (to_units_of to)) (msg_counterparty msg);
          if ok : bool then mret true
          else
            Unlock (to_id_of to);;
            mret false
      end
  end.

Definition process_locked (msg : ProcessingMessage) : M Node State (option ProcessingMessage) :=
  s ← get;
  match find_match msg (st_trades s) 0 with
  | None => mret None
  | Some i =>
      zoom (trade_at i) (set_trade i)
        (process_for (acct s) msg (BuildTradeChecker (acct s) (trade_at i s)))
  end.

Definition ProcessMessage (msg : ProcessingMessage) : M Node S (option ProcessingMessage) :=
  check (has (pm_counterparty msg));;
  accepted ← accept_taking_order msg;
  if negb accepted then mret None else AccessState (process_locked msg).

End manager.

(* ------------------------------------------------------------------ *)
(** ** Lemmas *)

Section lemmas.
Context `{JsonLib} `{!JsonLaws} `{!Uint256Lib} `{!AmountLib} `{!ProtoRuntime} {Node : Type}
  `{!XayaRpc Node} `{!DemGspRpc Node} `{!AssetSpec Node} `{!Clock Node} `{!Flags}.
Implicit Types w : World Node State.

(** States that agree on everything but trades and archive. *)
Definition same_but_trades (s s' : State) : Prop :=
  forall l a, with_trade_archive a (with_trades l s') = with_trade_archive a (with_trades l s).

Lemma same_but_trades_trans s1 s2 s3 :
  same_but_trades s1 s2 -> same_but_trades s2 s3 -> same_but_trades s1 s3.
Proof. intros Ha Hb l a. by rewrite Hb. Qed.

Lemma trade_at_lookup i s t : st_trades s !! i = Some t -> trade_at i s = t.
Proof. unfold trade_at. intros Hi. rewrite nth_lookup, Hi. done. Qed.

(** The trades of a list are updated one after the other, with the services
    as the updates before have left them. *)
Inductive updated_all : list TradeState -> Node * list Event -> list TradeState -> Node * list Event -> Prop :=
| ua_nil e : updated_all [] e [] e
| ua_cons t rest e v ts e' :
    Update (mkWorld t e.1 e.2) = (Ret tt, v) -> updated_all rest (wnode v, wtrace v) ts e' ->
    updated_all (t :: rest) e (wst v :: ts) e'.

Lemma updated_all_updated rest e ts e' : updated_all rest e ts e' -> Forall2 updated rest ts.
Proof.
  induction 1 as [|t rest e v ts e' Hu _ IH]; constructor; [|done].
  pose proof (run_updated (mkWorld t e.1 e.2)) as Hr. by rewrite Hu in Hr.
Qed.

(** What the loop over the trades does, for the trades [rest] from index
    [length done] on. *)
Lemma wp_update_trades account done rest fin act w
    (Q : outcome (list TradeState * list TradeState) -> World Node State -> Prop) :
  st_trades (wst w) = done ++ rest ->
  (forall ts w', updated_all rest (wnode w, wtrace w) ts (wnode w', wtrace w') ->
     same_but_trades (wst w) (wst w') -> st_trade_archive (wst w') = st_trade_archive (wst w)
       ++ map (GetPublicInfo account) (filter (fun t => IsFinalised t = true) ts) ->
     Q (Ret (fin ++ filter (fun t => IsFinalised t = true) ts,
             act ++ filter (fun t => IsFinalised t = false) ts)) w') ->
  (forall e w', Q (Throw e) w') -> (forall w', Q Fatal w') ->
  wp (update_trades account (length rest) (length done) fin act) Q w.
Proof.
  revert done fin act w. induction rest as [|t rest IH]; intros done fin act w Hl HQ HT HF;
    cbn [length update_trades].
  { wp_step. specialize (HQ [] w). rewrite !filter_nil, !app_nil_r in HQ. apply HQ; [constructor|done..]. }
  assert (Hat : st_trades (wst w) !! length done = Some t)
    by (rewrite Hl; by apply list_lookup_middle).
  wp_step. wp_step. rewrite (trade_at_lookup _ _ _ Hat).
  apply wp_intro. intros o w1 Hu.
  destruct o as [[]|e|]; cbn [then_post]; [|by apply HT|by apply HF].
  wp_step. wp_step. set (t1 := wst w1) in *.
  assert (Hset : st_trades (set_trade (length done) t1 (wst w)) = done ++ t1 :: rest).
  { unfold set_trade. cbn. rewrite Hl, insert_app_r_alt, Nat.sub_diag by lia. done. }
  assert (Hat1 : trade_at (length done) (set_trade (length done) t1 (wst w)) = t1).
  { apply trade_at_lookup. rewrite Hset. by apply list_lookup_middle. }
  rewrite Hat1.
  assert (Hset2 : forall s, st_trades s = done ++ t1 :: rest ->
    st_trades (set_trade (length done) (moved_from_trade t1) s)
      = (done ++ [moved_from_trade t1]) ++ rest).
  { intros s Hs. unfold set_trade. cbn. rewrite Hs, insert_app_r_alt, Nat.sub_diag by lia.
    cbn. by rewrite <-app_assoc. }
  replace (length done + 1)%nat with (length (done ++ [moved_from_trade t1]))
    by (rewrite length_app; done).
  destruct (IsFinalised t1) eqn:Hfin.
  - wp_step. wp_step. wp_step. wp_step. apply IH; cbn [wst]; [by apply Hset2| |done|done].
    intros ts w' Hts Hsame Har. rewrite <-app_assoc. cbn [app].
    specialize (HQ (t1 :: ts) w'). rewrite filter_cons_True in HQ by done.
    rewrite filter_cons_False in HQ by congruence. apply HQ.
    + by constructor.
    + intros l a. rewrite Hsame. done.
    + rewrite Har. cbn. by rewrite <-app_assoc.
  - wp_step. wp_step. apply IH; cbn [wst]; [by apply Hset2| |done|done].
    intros ts w' Hts Hsame Har. rewrite <-app_assoc. cbn [app].
    specialize (HQ (t1 :: ts) w'). rewrite filter_cons_False in HQ by congruence.
    rewrite filter_cons_True in HQ by done. apply HQ.
    + by constructor.
    + intros l a. rewrite Hsame. done.
    + rewrite Har. done.
Qed.

(** *** Processing one message *)

Lemma checker_message account msg t :
  BuildTradeChecker account (HandleTradeMessage account msg t) = BuildTradeChecker account t.
Proof.
  unfold BuildTradeChecker, GetOrderType, GetRole, counterparty_of, order_of, units_of.
  destruct (message_evolves account msg t) as [-> -> -> _ _ _ _ _ _]. done.
Qed.

Lemma wp_process_for account msg t n tr
    (Q : outcome (option ProcessingMessage) -> World Node TradeState -> Prop) :
  (forall o t' n' l, silent o \/ (exists r, o = Ret (Some r)) ->
     (forall m, o <> Throw (JsonRpcException m)) ->
     evolves t t' -> (trade_inv account t -> trade_inv account t') ->
     (state_of t <> INITIATED -> t' = t) ->
     Q o (mkWorld t' n' (tr ++ l))) ->
  wp (process_for account msg (BuildTradeChecker account t)) Q (mkWorld t n tr).
Proof.
  intros HQ. unfold process_for. wp_step. wp_step. wp_step.
  set (t1 := HandleTradeMessage account msg t).
  destruct (checker_widths account t) as [Hp Hu].
  eapply wp_conseq; [apply (HasReply_summary account _ (mkWorld t1 n tr) Hp Hu)|].
  cbn [wst wtrace]. intros o w' (l & Hl & Hs).
  rewrite <-(checker_message account msg t) in Hs. fold t1 in Hs.
  assert (He : evolves t (wst w')).
  { etransitivity; [apply (message_evolves account msg)|]. by eapply summary_evolves. }
  assert (Hi : trade_inv account t -> trade_inv account (wst w')).
  { intros Hinv. eapply summary_inv; [exact Hs|]. by apply message_inv. }
  assert (Hf : state_of t <> INITIATED -> wst w' = t).
  { intros Hne. assert (t1 = t) as Ht1.
    { unfold t1, HandleTradeMessage. by rewrite bool_decide_false. }
    rewrite Ht1 in Hs. remember (wst w') as t2. destruct Hs; done. }
  assert (Hw : w' = mkWorld (wst w') (wnode w') (tr ++ l)) by (destruct w'; cbn in *; by subst).
  rewrite Hw. destruct o as [[r|]|[]|]; try wp_step;
    (apply HQ; eauto; left; by intros ? [=]).
Qed.

Lemma find_match_Some msg l i j :
  find_match msg l i = Some j ->
  exists t, (i <= j)%nat /\ l !! (j - i)%nat = Some t /\ Matches t msg = true /\
    forall k u, (k < j - i)%nat -> l !! k = Some u -> Matches u msg = false.
Proof.
  revert i. induction l as [|t l IH]; intros i Hf; cbn in Hf; [done|].
  destruct (Matches t msg) eqn:Hm.
  - simplify_eq. exists t. rewrite Nat.sub_diag. split_and!; try done; lia.
  - destruct (IH _ Hf) as (u & Hle & Hl & Hmu & Hmin). exists u.
    replace (j - i)%nat with (Datatypes.S (j - (i + 1)))%nat by lia.
    split_and!; [lia|done|done|]. intros [|k] v Hk Hv; cbn in Hv; [by simplify_eq|].
    apply (Hmin k v); [lia|done].
Qed.

Lemma find_match_None msg l i :
  find_match msg l i = None -> Forall (fun t => Matches t msg = false) l.
Proof.
  revert i. induction l as [|t l IH]; intros i Hf; cbn in Hf; [constructor|].
  destruct (Matches t msg) eqn:Hm; [done|]. constructor; [done|by eapply IH].
Qed.

End lemmas.

(** *** Taking orders *)

Section taking.
Context `{JsonLib} `{!JsonLaws} `{!Uint256Lib} `{!AmountLib} `{!ProtoRuntime} {Node : Type}
  `{!XayaRpc Node} `{!AssetSpec Node} `{!Clock Node} `{!Flags}
  {S : Type} `{!HasState S} `{!HasStateLaws S}.
Implicit Types w : World Node S.

(** A new trade has nothing signed and is in order. *)
Lemma new_trade_inv account o now units cp : trade_inv account (new_trade o now units cp).
Proof. split; try done. cbn. naive_solver. Qed.

(** The seller data a taker who sells adds to its new trade. *)
Definition taker_seller_data (sd : SellerData) : Prop :=
  exists na ca h k, sd = mkSellerData (Some na) (Some ca) (Some (mkOutPoint (Some h) (Some k))).

(** The first [HasReply] of a taker cannot sign: there is no seller data. *)
Lemma fresh_summary account checker t o t' l :
  reply_summary account checker t o t' l ->
  ts_our_psbt t = None -> ts_seller_data t = None ->
  (t' = t /\ silent o) \/
  exists sd, taker_seller_data sd /\ GetOrderType account t = ASK /\
    t' = with_seller_data (Some sd) t /\
    o = Ret (Some (with_msg_seller_data (Some (clear_name_output sd)) (InitProcessingMessage t))).
Proof.
  intros Hs Hour Hsd.
  assert (Hst : forall t1 la, our_stage account checker t t1 la -> False).
  { intros t1 la [(_ & _ & Ho)|(p & q & _ & l1 & l2 & _ & _ & Ho & _)].
    - by rewrite Hour in Ho.
    - by rewrite Hsd in Ho. }
  destruct Hs as [|na ca h k| |p q l Hi Hr Ht (l1 & l2 & _ & _ & Ho & _)| | |]; try (by left);
    try (exfalso; by eapply Hst); [|by rewrite Hsd in Ho].
  right. eexists. split_and!; [by exists na, ca, h, k|done|done|done].
Qed.

Lemma wp_TakeOrder o units w
    (Q : outcome (option ProcessingMessage) -> World Node S -> Prop) :
  (forall r w', proj (wst w') = proj (wst w) -> silent r -> Q r w') ->
  (forall now t reply w', CheckOrder o units = true ->
     account_of o <> acct (proj (wst w)) ->
     let t0 := new_trade o now units (account_of o) in
     (t = t0 /\ reply = InitProcessingMessage t \/
      exists sd, taker_seller_data sd /\ GetOrderType (acct (proj (wst w))) t0 = ASK /\
        t = with_seller_data (Some sd) t0 /\
        reply = with_msg_seller_data (Some (clear_name_output sd)) (InitProcessingMessage t)) ->
     proj (wst w') = with_trades (st_trades (proj (wst w)) ++ [t]) (proj (wst w)) ->
     Q (Ret (Some (SetTakingOrder t reply))) w') ->
  wp (TakeOrder o units) Q w.
Proof.
  intros HN HS. unfold TakeOrder, take_locked. destruct (CheckOrder o units) eqn:Hc; cbn [negb];
    [|wp_step; by apply HN; [|intros ? [= <-]]].
  wp_step. wp_step. wp_step. wp_step. wp_step. rename t into now.
  destruct (String.eqb_spec (counterparty_of (new_trade o now units (account_of o)))
              (acct (proj (wst w)))) as [|Hne].
  { wp_step. apply HN; [cbn [wst]; apply proj_inj|by intros ? [= <-]]. }
  wp_step. wp_step. wp_step. wp_step.
  set (t0 := new_trade o now units (account_of o)) in *.
  set (account := acct (proj (wst w))) in *.
  destruct (checker_widths account t0) as [Hp Hu].
  eapply wp_conseq; [apply (HasReply_summary account _ _ Hp Hu)|].
  cbn [wst wtrace wnode]. intros out w1 (l & _ & Hsum).
  apply fresh_summary in Hsum; [|done..].
  destruct out as [r|[]|]; cbn [then_post];
    [|try wp_step; (apply HN; [cbn [wst]; apply proj_inj|by intros ? [=]])..].
  wp_step. wp_step. wp_step. wp_step. cbn [wst].
  apply (HS now); [done|exact Hne| |cbn [wst]; by rewrite proj_inj].
  destruct Hsum as [[-> Hs]|(sd & Hsd & Hty & -> & [= ->])].
  - left. rewrite (Hs r eq_refl). done.
  - right. by exists sd.
Qed.

End taking.

(* ------------------------------------------------------------------ *)
(** ** Correctness of the manager *)

Section theorems.
Context `{JsonLib} `{!JsonLaws} `{!Uint256Lib} `{!AmountLib} `{!ProtoRuntime} {Node : Type}
  `{!XayaRpc Node} `{!DemGspRpc Node} `{!AssetSpec Node} `{!Clock Node} `{!Flags}.

(** What the part of the update under the lock does, if it gets through. *)
Lemma wp_archive_finalised (w : World Node State) :
  wp archive_finalised (fun o w' => forall r, o = Ret r ->
    exists ts, updated_all (st_trades (wst w)) (wnode w, wtrace w) ts (wnode w', wtrace w') /\
      r = (acct (wst w), filter (fun t => IsFinalised t = true) ts) /\
      wst w' = with_trade_archive (st_trade_archive (wst w) ++
                   map (GetPublicInfo (acct (wst w))) (filter (fun t => IsFinalised t = true) ts))
                 (with_trades (filter (fun t => IsFinalised t = false) ts) (wst w))) w.
Proof.
  unfold archive_finalised. wp_step. wp_step. apply wp_bind.
  apply (wp_update_trades (acct (wst w)) [] (st_trades (wst w)) [] []); [done| |done|done].
  intros ts w1 Hts Hsame Har. cbn [then_post app]. wp_step. wp_step. wp_step.
  intros r [= <-]. exists ts. split; [done|]. split; [done|]. cbn [wst].
  rewrite <-Har, <-Hsame. by destruct (wst w1).
Qed.

(** The periodic update neither loses nor duplicates a trade: every active
    trade is updated once, those that are finalised then go to the archive as
    public information, in order, and to the follow-up processing, the others
    stay active in order, and nothing else of the state changes. *)
Theorem archive_partitions (w w' : World Node State) account fin :
  archive_finalised w = (Ret (account, fin), w') ->
  exists ts, Forall2 updated (st_trades (wst w)) ts /\
    account = acct (wst w) /\
    fin = filter (fun t => IsFinalised t = true) ts /\
    wst w' = with_trade_archive (st_trade_archive (wst w) ++ map (GetPublicInfo account) fin)
               (with_trades (filter (fun t => IsFinalised t = false) ts) (wst w)).
Proof.
  intros Hr. pose proof (wp_run_eq _ _ _ _ _ (wp_archive_finalised w) Hr) as Hw.
  destruct (Hw _ eq_refl) as (ts & Hts%updated_all_updated & Hpair & Hs). injection Hpair as -> ->. by exists ts.
Qed.

End theorems.

Section process_theorems.
Context `{JsonLib} `{!JsonLaws} `{!Uint256Lib} `{!AmountLib} `{!ProtoRuntime} {Node : Type}
  `{!XayaRpc Node} `{!DemGspRpc Node} `{!AssetSpec Node} `{!Clock Node} `{!Flags}
  {S : Type} `{!HasState S} `{!HasStateLaws S} `{!OrderHooks Node S}.
Implicit Types w : World Node S.

(** C37: an order is taken only within its terms: when [TakeOrder] succeeds the
    units lie between the order's minimum and maximum, the order has every
    field a trade needs and is not our own, and exactly one trade is added: an
    initiated one with these terms against the order's account, in which
    nothing is signed yet and only a seller's own data is filled in; the
    message goes to that account, names the trade and repeats order ID and
    units.  When it fails, the state is as before. *)
Theorem TakeOrder_correct o units w r w' :
  TakeOrder o units w = (r, w') ->
  let s := proj (wst w) in
  (silent r /\ proj (wst w') = s) \/
  exists msg t now, r = Ret (Some msg) /\
    s64 (min_units_of o) <= units <= s64 (max_units_of o) /\
    has (o_account o) = true /\ has (o_id o) = true /\ has (o_asset o) = true /\
    has (o_type o) = true /\ has (o_price_sat o) = true /\ account_of o <> acct s /\
    proj (wst w') = with_trades (st_trades s ++ [t]) s /\
    evolves (new_trade o now units (account_of o)) t /\ trade_inv (acct s) t /\
    state_of t = INITIATED /\ ts_our_psbt t = None /\ ts_their_psbt t = None /\
    (has (ts_seller_data t) = true -> GetOrderType (acct s) t = ASK) /\
    pm_counterparty msg = Some (account_of o) /\ pm_identifier msg = Some (GetIdentifier t) /\
    pm_psbt msg = None /\
    pm_taking_order msg = Some (mkTakingOrder (Some (id_of o)) (Some (u64 units))).
Proof.
  cbv zeta. intros Hr. by_wp Hr. apply wp_TakeOrder.
  - intros r' w1 Hp Hs. by left.
  - intros now t reply w1 Hc Hne t0 Ht Hp. right. subst t0.
    unfold CheckOrder in Hc. destruct (_ || _) eqn:Hb; [done|].
    apply orb_false_iff in Hb as [Hmax%Z.ltb_ge Hmin%Z.ltb_ge].
    rewrite !andb_true_iff in Hc. destruct Hc as [[[[? ?] ?] ?] ?].
    exists (SetTakingOrder t reply), t, now. do 8 (split; [done|]). split; [exact Hp|].
    destruct Ht as [[-> ->]|(sd & (na & ca & h & k & ->) & Hty & -> & ->)].
    + split; [reflexivity|]. split; [apply new_trade_inv|]. by split_and!.
    + split; [|split].
      * split; try done; try (by right); try reflexivity; by left.
      * apply inv_initiated; try done. intros sd [= <-].
        change (GetOrderType (acct (proj (wst w))) _)
          with (GetOrderType (acct (proj (wst w))) (new_trade o now units (account_of o))).
        rewrite Hty. split_and!; try done. by exists h, k.
      * by split_and!.
Qed.

(** A message that takes no order affects at most the first trade of the
    same counterparty and identifier: the other trades and the rest of the
    state stay as they are, that trade evolves as the lifecycle allows and
    keeps its invariant, a trade that is not initiated does not change, and
    there is a reply only if such a trade exists; no wallet error escapes. *)
Theorem ProcessMessage_routes msg w r w' :
  has (pm_counterparty msg) = true -> pm_taking_order msg = None ->
  ProcessMessage msg w = (r, w') ->
  let s := proj (wst w) in
  (forall m, r <> Throw (JsonRpcException m)) /\
  ((silent r /\ proj (wst w') = s /\ Forall (fun t => Matches t msg = false) (st_trades s)) \/
   exists i t t', st_trades s !! i = Some t /\ Matches t msg = true /\
     (forall j u, (j < i)%nat -> st_trades s !! j = Some u -> Matches u msg = false) /\
     proj (wst w') = set_trade i t' s /\ evolves t t' /\
     (trade_inv (acct s) t -> trade_inv (acct s) t') /\
     (state_of t <> INITIATED -> t' = t)).
Proof.
  cbv zeta. intros Hcp Hto Hr. by_wp Hr.
  unfold ProcessMessage, process_locked, accept_taking_order. rewrite Hto.
  wp_step. wp_step; [|congruence]. wp_step. wp_step. cbn [negb].
  wp_step. wp_step. wp_step. destruct (find_match msg (st_trades (proj (wst w))) 0) as [i|] eqn:Hf.
  - apply find_match_Some in Hf as (t & _ & Hi & Hm & Hmin). rewrite Nat.sub_0_r in *.
    wp_step. rewrite (trade_at_lookup _ _ _ Hi). apply wp_process_for.
    intros o t' n' l _ Ho He Hinv Hfix. split; [done|]. right.
    exists i, t, t'. cbn. rewrite proj_inj. by split_and!.
  - wp_step. split; [done|]. left. cbn. rewrite proj_inj. split_and!; [by intros ? [= <-]|done|].
    by apply find_match_None in Hf.
Qed.

End process_theorems.

(** *** Own orders and trades together *)

Section own_orders.
Context `{JsonLib} `{!JsonLaws} `{!Uint256Lib} `{!AmountLib} `{!ProtoRuntime}
  `{!ProtoRuntimeLaws} {Node : Type} `{!XayaRpc Node} `{!DemGspRpc Node} `{!AssetSpec Node}
  `{!Clock Node} `{!Flags} {S : Type} `{!HasState S} `{!HasStateLaws S} `{!OrderHooks Node S}
  (v : string -> Order -> bool) (sent : S -> list OrdersOfAccount) `{!HooksLaws v sent}.
Implicit Types w : World Node S.

Lemma wp_implemented {A} (m : M Node S A) r s' w (Q : outcome A -> World Node S -> Prop) :
  implements v sent m w r s' ->
  (forall w', proj (wst w') = s' -> Q (Ret r) w') -> wp m Q w.
Proof. intros (w' & Hr & Hp & _) HQ. unfold wp. rewrite Hr. by apply HQ. Qed.

Lemma wp_Unlock id w (Q : outcome unit -> World Node S -> Prop) :
  (forall s' w', Spec.unlock v id (proj (wst w)) = Some s' -> proj (wst w') = s' ->
     Q (Ret tt) w') ->
  (forall w', Spec.unlock v id (proj (wst w)) = None -> Q Fatal w') ->
  wp (Unlock id) Q w.
Proof.
  intros HS HN. pose proof (Unlock_implements v sent id w) as Hi.
  destruct (Spec.unlock v id (proj (wst w))) as [s'|] eqn:Hu.
  - eapply wp_implemented; [exact Hi|]. intros w' Hp. by eapply HS.
  - destruct Hi as [w' Hr]. unfold wp. rewrite Hr. by apply HN.
Qed.

(** The order a counterparty takes, as it is given to the trade. *)
Definition taken_order (id : Z) (o : Order) (s : State) : Order :=
  with_id (Some id) (with_account (Some (acct s)) o).

Definition acceptable (id units : Z) (cp : string) (o : Order) (s : State) : bool :=
  CheckOrder (taken_order id o s) units && negb (String.eqb cp (acct s)).

Lemma wp_OrderTaken o units cp w (Q : outcome bool -> World Node S -> Prop) :
  account_of o = acct (proj (wst w)) ->
  (CheckOrder o units && negb (String.eqb cp (acct (proj (wst w)))) = true ->
   forall now w', proj (wst w') = with_trades
       (st_trades (proj (wst w)) ++ [new_trade o now units cp]) (proj (wst w)) ->
     Q (Ret true) w') ->
  (CheckOrder o units && negb (String.eqb cp (acct (proj (wst w)))) = false ->
   forall w', proj (wst w') = proj (wst w) -> Q (Ret false) w') ->
  wp (OrderTaken o units cp) Q w.
Proof.
  intros Ha HT HF. unfold OrderTaken, taken_locked. destruct (CheckOrder o units); cbn [negb andb] in *;
    [|wp_step; by apply HF].
  wp_step. wp_step. wp_step. wp_step. wp_step. wp_step.
  wp_step; [|exfalso; cbn in *; rewrite Ha, String.eqb_refl in *; done].
  change (counterparty_of (new_trade o t units cp)) with cp.
  destruct (String.eqb cp (acct (proj (wst w)))); cbn [negb] in *.
  - wp_step. apply HF; [done|]. cbn [wst]. by rewrite proj_inj.
  - wp_step. wp_step. wp_step. apply (HT eq_refl t). cbn [wst]. by rewrite proj_inj.
Qed.

Lemma wp_accept_taking_order to msg w (Q : outcome bool -> World Node S -> Prop) :
  pm_taking_order msg = Some to ->
  let s := proj (wst w) in
  let id := to_id_of to in
  let units := s64 (to_units_of to) in
  let cp := msg_counterparty msg in
  let s1 := (Spec.try_lock v id s).2 in
  match Spec.lockable id s with
  | None => forall w', proj (wst w') = s1 -> Q (Ret false) w'
  | Some o =>
      if acceptable id units cp o s then
        forall now w', proj (wst w') = with_trades
            (st_trades s ++ [new_trade (taken_order id o s) now units cp]) s1 -> Q (Ret true) w'
      else match Spec.unlock v id s1 with
           | Some s2 => forall w', proj (wst w') = s2 -> Q (Ret false) w'
           | None => forall w', Q Fatal w'
           end
  end ->
  wp (accept_taking_order msg) Q w.
Proof.
  intros Hto s id units cp s1 HQ. unfold accept_taking_order. rewrite Hto.
  apply wp_bind. pose proof (TryLock_implements v sent id w) as Hl.
  unfold Spec.try_lock in Hl. fold s in Hl.
  destruct (Spec.lockable id s) as [o|] eqn:Hlo.
  - assert (Hs1 : s1 = Spec.refresh v (with_own_map (<[id := with_locked (Some true) o]> (own_map s)) s))
      by (subst s1; unfold Spec.try_lock; by rewrite Hlo).
    rewrite <-Hs1 in Hl. eapply wp_implemented; [exact Hl|]. intros w1 Hp1. cbn [then_post].
    assert (Hacct : acct (proj (wst w1)) = acct s) by (rewrite Hp1, Hs1; done).
    assert (Htr : st_trades (proj (wst w1)) = st_trades s) by (rewrite Hp1, Hs1; done).
    unfold acceptable in HQ. fold (taken_order id o s). fold units cp.
    apply wp_bind, wp_OrderTaken; rewrite ?Hacct, ?Htr.
    + done.
    + intros Hok now w2 Hp2. rewrite Hok in HQ. cbn [then_post]. wp_step.
      apply (HQ now). by rewrite Hp2, Hp1.
    + intros Hno w2 Hp2. rewrite Hno in HQ. cbn [then_post]. apply wp_bind, wp_Unlock.
      * intros s2 w3 Hu Hp3. rewrite Hp2, Hp1 in Hu. fold id in Hu. rewrite Hu in HQ. cbn [then_post].
        wp_step. by apply HQ.
      * intros w3 Hu. rewrite Hp2, Hp1 in Hu. fold id in Hu. rewrite Hu in HQ. by apply HQ.
  - eapply wp_implemented; [exact Hl|]. intros w1 Hp1. cbn [then_post]. wp_step. apply HQ.
    rewrite Hp1. subst s1. unfold Spec.try_lock. by rewrite Hlo.
Qed.

Lemma wp_state_kept {A} (m : M Node S A) w (Q : outcome A -> World Node S -> Prop) :
  steps (only_calls harmless) m ->
  (forall o w', wst w' = wst w -> Q o w') -> wp m Q w.
Proof. intros Hm HQ. apply (wp_only_calls harmless); [done|]. intros. by apply HQ. Qed.

Lemma wp_HandleFailure account t w (Q : outcome unit -> World Node S -> Prop) :
  GetRole account t = MAKER ->
  (forall s' o w', Spec.unlock v (id_of (order_of t)) (proj (wst w)) = Some s' ->
     proj (wst w') = s' -> Q o w') ->
  (forall w', Spec.unlock v (id_of (order_of t)) (proj (wst w)) = None -> Q Fatal w') ->
  wp (HandleFailure account t) Q w.
Proof.
  intros Hr HS HN. unfold HandleFailure. rewrite Hr. apply wp_bind, wp_Unlock.
  - intros s' w1 Hu Hp. cbn [then_post]. specialize (HS s').
    assert (HQ : forall o w', wst w' = wst w1 -> Q o w')
      by (intros o w' Hw; apply HS; [done|by rewrite Hw]).
    apply wp_bind. apply wp_state_kept.
    { case_match; [|apply steps_ret; typeclasses eauto].
      apply steps_bind; [typeclasses eauto|apply quiet_LockUnspent|].
      intros _. apply steps_ret; typeclasses eauto. }
    intros o w2 Hw2. destruct o as [[]|e|]; cbn [then_post]; try by apply HQ.
    apply wp_state_kept.
    { case_match; [apply quiet_UnlockPsbtInputs|apply steps_ret; typeclasses eauto]. }
    intros o w3 Hw3. apply HQ. by rewrite Hw3.
  - intros w1 Hu. cbn [then_post]. by apply HN.
Qed.

(** C18: when a counterparty's request to take an own order is accepted, the
    order existed and was free, the units respect its terms, the counterparty
    is someone else, exactly one trade is added, with that order, those units
    and that counterparty, and the order is locked from then on. *)
Theorem taken_order_is_locked to msg w w' :
  pm_taking_order msg = Some to ->
  accept_taking_order msg w = (Ret true, w') ->
  let s := proj (wst w) in let id := to_id_of to in let units := s64 (to_units_of to) in
  Spec.ids_ok s ->
  exists o now, own_map s !! id = Some o /\ locked_of o = false /\
    s64 (min_units_of o) <= units <= s64 (max_units_of o) /\
    msg_counterparty msg <> acct s /\
    st_trades (proj (wst w')) =
      st_trades s ++ [new_trade (taken_order id o s) now units (msg_counterparty msg)] /\
    Spec.held id (proj (wst w')).
Proof.
  intros Hto Hr s id units Hok.
  assert (Hgoal : forall r, r = Ret true -> accept_taking_order msg w = (r, w') ->
    exists o now, own_map s !! id = Some o /\ locked_of o = false /\
    s64 (min_units_of o) <= units <= s64 (max_units_of o) /\
    msg_counterparty msg <> acct s /\
    st_trades (proj (wst w')) =
      st_trades s ++ [new_trade (taken_order id o s) now units (msg_counterparty msg)] /\
    Spec.held id (proj (wst w'))); [|by eapply Hgoal].
  clear Hr. intros r Ho Hr. revert Ho. by_wp Hr. apply (wp_accept_taking_order to); [done|].
  cbv zeta. fold s id units.
  destruct (Spec.lockable id s) as [o|] eqn:Hl; [|done].
  assert (Ho : own_map s !! id = Some o /\ locked_of o = false).
  { unfold Spec.lockable in Hl. destruct (own_map s !! id) as [x|]; [|done].
    destruct (locked_of x) eqn:Hx; [done|]. by simplify_eq. }
  destruct (acceptable id units (msg_counterparty msg) o s) eqn:Hacc.
  - intros now w1 Hp _. exists o, now. unfold acceptable in Hacc.
    apply andb_true_iff in Hacc as [Hc Hne%negb_true_iff%String.eqb_neq].
    unfold CheckOrder in Hc. destruct (_ || _) eqn:Hb; [done|].
    apply orb_false_iff in Hb as [Hmax%Z.ltb_ge Hmin%Z.ltb_ge].
    rewrite Hp. unfold Spec.try_lock. rewrite Hl. destruct Ho as [Ho1 Ho2].
    split_and!; try done. split; [exact (Hok id (mk_is_Some _ _ Ho1))|].
    intros y Hy. change (own_map (Spec.refresh v
      (with_own_map (<[id := with_locked (Some true) o]> (own_map s)) s)) !! id = Some y) in Hy.
    apply lookup_refresh in Hy as [Hy _].
    rewrite own_map_with_own_map, lookup_insert_eq in Hy. by simplify_eq.
  - by destruct (Spec.unlock _ _ _).
Qed.

(** If an own order has become invalid, a counterparty that asks to take
    it with units the order does not allow, or with an own account, aborts the
    process: locking the order refreshes the own orders, which drops it, and
    the lock of a missing order cannot be released. *)
Theorem taking_invalid_order_aborts to msg o w :
  pm_taking_order msg = Some to ->
  Spec.lockable (to_id_of to) (proj (wst w)) = Some o ->
  v (acct (proj (wst w))) (with_locked (Some true) o) = false ->
  acceptable (to_id_of to) (s64 (to_units_of to)) (msg_counterparty msg) o (proj (wst w)) = false ->
  exists w', accept_taking_order msg w = (Fatal, w').
Proof.
  intros Hto Hl Hv Hacc.
  assert (Hw : wp (accept_taking_order msg) (fun r _ => r = Fatal) w).
  { apply (wp_accept_taking_order to); [done|]. cbv zeta. rewrite Hl, Hacc.
    assert (Spec.unlock v (to_id_of to) (Spec.try_lock v (to_id_of to) (proj (wst w))).2 = None)
      as ->; [|done].
    unfold Spec.unlock, Spec.try_lock. rewrite Hl. cbn [snd].
    destruct (own_map _ !! to_id_of to) as [y|] eqn:Hy; [|done]. exfalso.
    apply lookup_refresh in Hy as [Hy Hvy].
    rewrite own_map_with_own_map, lookup_insert_eq in Hy. simplify_eq.
    change (acct (with_own_map _ (proj (wst w)))) with (acct (proj (wst w))) in Hvy. congruence. }
  unfold wp in Hw. destruct (accept_taking_order msg w) as [r w']. rewrite Hw. by exists w'.
Qed.

(** When a trade against an own order fails or is abandoned, the order is
    unlocked whatever the wallet answers to the unlocking of outputs, so that it
    can be taken again (unless it has become invalid). *)
Theorem failure_releases_order account t o w r w' :
  GetRole account t = MAKER ->
  own_map (proj (wst w)) !! id_of (order_of t) = Some o -> locked_of o = true ->
  HandleFailure account t w = (r, w') ->
  own_map (proj (wst w')) !! id_of (order_of t) =
    if v (acct (proj (wst w))) (with_locked None o) then Some (with_locked None o) else None.
Proof.
  intros Hr Ho Hlo Hrun. by_wp Hrun. apply wp_HandleFailure; [done| |].
  - intros s' out w1 Hu Hp. unfold Spec.unlock in Hu. rewrite Ho, Hlo in Hu. simplify_eq.
    rewrite <-Hu. set (s1 := with_own_map _ _).
    destruct (v (acct (proj (wst w))) (with_locked None o)) eqn:Hv.
    + apply lookup_refresh. split; [|done]. subst s1.
      by rewrite own_map_with_own_map, lookup_insert_eq.
    + apply eq_None_not_Some. intros [y [Hy Hvy]%lookup_refresh]. subst s1.
      rewrite own_map_with_own_map, lookup_insert_eq in Hy. simplify_eq.
      change (v (acct (proj (wst w))) (with_locked None o) = true) in Hvy. congruence.
  - intros w1 Hu. unfold Spec.unlock in Hu. by rewrite Ho, Hlo in Hu.
Qed.

(** When the maker's order is gone by the time its trade fails (it was
    cancelled, or dropped as invalid), handling the failure aborts the process. *)
Theorem failure_of_cancelled_order_aborts account t w :
  GetRole account t = MAKER -> own_map (proj (wst w)) !! id_of (order_of t) = None ->
  exists w', HandleFailure account t w = (Fatal, w').
Proof.
  intros Hr Ho.
  assert (Hw : wp (HandleFailure account t) (fun r _ => r = Fatal) w).
  { apply wp_HandleFailure; [done| |done].
    intros s' out w1 Hu. unfold Spec.unlock in Hu. by rewrite Ho in Hu. }
  unfold wp in Hw. destruct (HandleFailure account t w) as [r w']. rewrite Hw. by exists w'.
Qed.

(** When a trade against an own order succeeds, the order is replaced by
    what remains of it, under a new ID, if units remain and they still reach
    the order's minimum; otherwise it is removed.  A taker's orders stay. *)
Theorem success_reduces_order account t w :
  exists w', HandleSuccess account t w = (Ret tt, w') /\
    proj (wst w') =
    match GetRole account t with
    | TAKER => proj (wst w)
    | MAKER =>
        let rest := u64 (max_units_of (order_of t) - units_of t) in
        let s1 := Spec.remove v (id_of (order_of t)) (proj (wst w)) in
        if (0 <? rest) && (min_units_of (order_of t) <=? rest)
        then (Spec.add v (reduced_order t) s1).2 else s1
    end.
Proof.
  assert (Hw : wp (HandleSuccess account t) (fun r w' => r = Ret tt /\ proj (wst w') =
    match GetRole account t with
    | TAKER => proj (wst w)
    | MAKER =>
        let rest := u64 (max_units_of (order_of t) - units_of t) in
        let s1 := Spec.remove v (id_of (order_of t)) (proj (wst w)) in
        if (0 <? rest) && (min_units_of (order_of t) <=? rest)
        then (Spec.add v (reduced_order t) s1).2 else s1
    end) w).
  { unfold HandleSuccess. destruct (GetRole account t); [|by wp_step].
    apply wp_bind. eapply wp_implemented; [apply (RemoveById_implements v sent)|].
    intros w1 Hp1. cbn [then_post]. cbv zeta.
    change (max_units_of (reduced_order t)) with (u64 (max_units_of (order_of t) - units_of t)).
    change (min_units_of (reduced_order t)) with (min_units_of (order_of t)).
    destruct (_ && _); [|by wp_step].
    pose proof (Add_implements v sent (reduced_order t) w1) as Ha.
    destruct (Spec.add v (reduced_order t) (proj (wst w1))) as [b s2] eqn:Hadd.
    apply wp_bind. eapply wp_implemented; [exact Ha|]. intros w2 Hp2. cbn [then_post].
    wp_step. split; [done|]. rewrite Hp2, <-Hp1, Hadd. done. }
  unfold wp in Hw. destruct (HandleSuccess account t w) as [r w'].
  destruct Hw as [-> ?]. by exists w'.
Qed.

End own_orders.

(** *** A trade for nothing *)

Section zero_units.
Context `{JsonLib} `{!JsonLaws} `{!Uint256Lib} `{!AmountLib} {Node : Type}
  `{!XayaRpc Node} `{!AssetSpec Node} `{!Flags}.

(** C40: an order without a minimum can be taken for zero units, and then the
    seller aborts as soon as the buyer sends any transaction the wallet can
    decode: the checks on the way to the total never asked for a positive
    number of units. *)
Theorem zero_units_accepted_then_abort account o p d n' vout (w : World Node TradeState) :
  o_min_units o = None -> 0 <= max_units_of o < two63 ->
  has (o_account o) = true -> has (o_id o) = true -> has (o_asset o) = true ->
  has (o_type o) = true -> has (o_price_sat o) = true ->
  units_of (wst w) = 0 -> GetOrderType account (wst w) = ASK -> state_of (wst w) = INITIATED ->
  trade_inv account (wst w) -> has (ts_seller_data (wst w)) = true ->
  ts_our_psbt (wst w) = None -> ts_their_psbt (wst w) = Some p ->
  xaya_rpc (decodepsbt p) (wnode w) = (inr d, n') ->
  is_object d = true -> tx_array d "vout" vout ->
  CheckOrder o 0 = true /\
  exists w', HasReply account (BuildTradeChecker account (wst w)) w = (Fatal, w').
Proof.
  intros Hmin Hmax ????? Hu Hty Hi Hinv Hsd Hour Htheir Hd Hdo (tx & arr & Htx & Hto & Harr & Hia & _).
  split.
  { unfold CheckOrder, min_units_of. rewrite Hmin, s64_small by done. cbn.
    rewrite (proj2 (Z.ltb_ge _ _)) by lia. cbn [Z.ltb Z.compare s64 default from_option]. repeat match goal with Hh : has _ = true |- _ => rewrite Hh; clear Hh end. done. }
  assert (Hwp : wp (HasReply account (BuildTradeChecker account (wst w))) (fun r _ => r = Fatal) w).
  { unfold HasReply. wp_step. wp_step. rewrite bool_decide_true by done. cbn [negb].
    unfold CreateSellerData. wp_step. wp_step. wp_step. rewrite bool_decide_true by done.
    cbn [negb]. rewrite Hsd. wp_step. wp_step. wp_step. rewrite Hsd, Htheir. cbn [negb has].
    rewrite bool_decide_true by done. cbn [andb]. rewrite Hour. cbn [has negb].
    wp_step. unfold seller_sign. wp_step. wp_step. wp_step. rewrite Htheir.
    wp_step; [|done]. unfold their_psbt_of. rewrite Htheir. cbn [from_option id].
    destruct (ts_seller_data (wst w)) as [sd|] eqn:Hsd'; [|done].
    destruct (ti_data _ _ Hinv sd Hsd') as (Hna & Hca & _).
    unfold CheckForSellerOutputs, seller_data_of. rewrite Hsd'. cbn [from_option id].
    wp_step. wp_step. wp_step; [|by rewrite Hna, Hca in *]. wp_call Hd.
    wp_step. wp_step; [|congruence]. wp_use wp_field; [intros ? ?; simplify_eq|congruence].
    wp_step. wp_step; [|congruence]. wp_use wp_field; [intros ? ?; simplify_eq|congruence].
    wp_step. wp_step; [|congruence].
    assert (Hz : tc_units (BuildTradeChecker account (wst w)) = 0).
    { unfold BuildTradeChecker. rewrite Hty. cbn. by rewrite Hu. }
    wp_use wp_GetTotalSat; [done|by rewrite Hz|]. intros [].
    rewrite Hz, Z.mul_0_r. by vm_compute. }
  unfold wp in Hwp. destruct (HasReply account (BuildTradeChecker account (wst w)) w) as [r w'].
  rewrite Hwp. by exists w'.
Qed.

End zero_units.

(* ------------------------------------------------------------------ *)
(** ** The theorems at concrete inputs *)

Module TradeManagerWitness.
Import Mock.

#[local] Existing Instance default_flags.
#[local] Existing Instance MyOrdersWitness.proc_state.
#[local] Existing Instance MyOrdersWitness.proc_laws.
#[local] Existing Instance MyOrdersWitness.hooks.
#[local] Existing Instance MyOrdersWitness.hooks_laws.
#[local] Abbreviation Proc := MyOrdersWitness.Proc.
#[local] Abbreviation mkProc := MyOrdersWitness.mkProc.
#[local] Abbreviation v := MyOrdersWitness.v.
#[local] Abbreviation sent := MyOrdersWitness.pr_sent.

Definition own : Order :=
  mkOrder None None (Some "gold") None (Some 5) (Some ASK) (Some 5) None.
Definition s0 : State :=
  with_own_map (<[7 := own]> ∅) (with_next_free_id 8 (initial_state "alice")).
Definition w0 : World Node Proc := world_of (mkProc s0 []) node.

(** "bob" offers to buy; "alice" takes it. *)
Definition bid : Order :=
  mkOrder (Some "bob") (Some 3) (Some "gold") None (Some 5) (Some BID) (Some 5) None.

Lemma TakeOrder_correct_witness :
  match fst (TakeOrder bid 2 w0) with
  | Ret (Some msg) => pm_counterparty msg = Some "bob"
  | _ => False
  end.
Proof.
  destruct (TakeOrder_correct bid 2 w0 _ _ (surjective_pairing (TakeOrder bid 2 w0)))
    as [[Hs _]|(msg & t & now & Hr & Hrest)].
  - exfalso. assert (He : has (match fst (TakeOrder bid 2 w0) with Ret r => r | _ => None end) = true)
      by (vm_compute; reflexivity).
    destruct (fst (TakeOrder bid 2 w0)) as [r|e|]; try discriminate He.
    rewrite (Hs r eq_refl) in He. discriminate He.
  - rewrite Hr. apply Hrest.
Defined.

(** Nothing keeps a taker from taking the same order again while the first
    trade is active; both trades have the same identifier. *)
Example same_order_taken_twice :
  let w := snd (TakeOrder bid 2 (snd (TakeOrder bid 2 w0))) in
  map GetIdentifier (st_trades (proj (wst w))) = [GetIdentifier (new_trade bid 0 2 "bob"); GetIdentifier (new_trade bid 0 2 "bob")].
Proof. vm_compute. reflexivity. Qed.

(** "bob" takes two units of order 7. *)
Definition take (units : Z) : ProcessingMessage :=
  mkProcessingMessage (Some "bob") (Some (GetIdentifier TradeSafetyWitness.sale))
    (Some (mkTakingOrder (Some 7) (Some units))) None None.

Lemma manager_ids_ok : Spec.ids_ok s0.
Proof.
  intros id [o Ho]. unfold s0 in Ho. rewrite own_map_with_own_map in Ho.
  rewrite lookup_insert_Some in Ho. cbn. rewrite lookup_empty in Ho. naive_solver lia.
Qed.

Lemma taken_order_is_locked_witness :
  Spec.held 7 (proj (wst (snd (accept_taking_order (take 2) w0)))).
Proof.
  destruct (taken_order_is_locked v sent (mkTakingOrder (Some 7) (Some 2)) (take 2) w0
              (snd (accept_taking_order (take 2) w0)))
    as (o & now & _ & _ & _ & _ & _ & Hh).
  - reflexivity.
  - apply run_eq. vm_compute. reflexivity.
  - exact manager_ids_ok.
  - exact Hh.
Defined.

(** A state with the sale against order 7, which is locked. *)
Definition s1 : State :=
  with_trades [TradeSafetyWitness.fresh_sale; TradeSafetyWitness.pending_sale]
    (with_own_map (<[7 := with_locked (Some true) own]> ∅) s0).
Definition w1 : World Node Proc := world_of (mkProc s1 []) node.

Lemma ProcessMessage_routes_witness :
  exists t', proj (wst (snd (ProcessMessage (with_msg_taking_order None (take 2)) w1)))
      = set_trade 0 t' s1 /\ evolves TradeSafetyWitness.fresh_sale t'.
Proof.
  destruct (ProcessMessage_routes (with_msg_taking_order None (take 2)) w1 _
    (snd (ProcessMessage (with_msg_taking_order None (take 2)) w1))
    eq_refl eq_refl (surjective_pairing _))
    as [_ [(_ & _ & Hn)|(i & t & t' & Hi & _ & Hmin & Hs & He & _)]].
  - apply Forall_inv in Hn. discriminate Hn.
  - destruct i as [|i].
    + injection Hi as <-. exists t'. exact (conj Hs He).
    + specialize (Hmin 0%nat _ (Nat.lt_0_succ i) eq_refl). discriminate Hmin.
Defined.

Lemma archive_partitions_witness :
  exists ts, Forall2 updated (st_trades s1) ts.
Proof.
  destruct (archive_partitions (world_of s1 node)
              (snd (archive_finalised (world_of s1 node))) "alice"
              (match fst (archive_finalised (world_of s1 node)) with
               | Ret r => snd r | _ => [] end)) as (ts & Hts & _).
  - apply run_eq. vm_compute. reflexivity.
  - exists ts. exact Hts.
Defined.

(** An order without a price is not valid any more. *)
Definition stale : Order := with_price_sat None own.
Definition w_stale : World Node Proc :=
  world_of (mkProc (with_own_map (<[7 := stale]> ∅) s0) []) node.

Lemma taking_invalid_order_aborts_witness :
  exists w', accept_taking_order (take 2) w_stale = (Fatal, w').
Proof.
  apply (taking_invalid_order_aborts v sent (mkTakingOrder (Some 7) (Some 2)) (take 2) stale w_stale);
    vm_compute; reflexivity.
Defined.

Lemma failure_releases_order_witness :
  own_map (proj (wst (snd (HandleFailure "alice" TradeSafetyWitness.sale w1)))) !! 7 =
    if v (acct (proj (wst w1))) (with_locked None (with_locked (Some true) own))
    then Some (with_locked None (with_locked (Some true) own)) else None.
Proof.
  apply (failure_releases_order v sent "alice" TradeSafetyWitness.sale
           (with_locked (Some true) own) w1
           (fst (HandleFailure "alice" TradeSafetyWitness.sale w1))).
  - reflexivity.
  - vm_compute. reflexivity.
  - reflexivity.
  - apply surjective_pairing.
Defined.

Lemma failure_of_cancelled_order_aborts_witness :
  exists w', HandleFailure "alice" TradeSafetyWitness.sale
    (world_of (mkProc (initial_state "alice") []) node) = (Fatal, w').
Proof.
  apply (failure_of_cancelled_order_aborts v sent "alice" TradeSafetyWitness.sale
           (world_of (mkProc (initial_state "alice") []) node)); reflexivity.
Defined.

Lemma success_reduces_order_witness :
  exists w', HandleSuccess "alice" TradeSafetyWitness.sale w1 = (Ret tt, w').
Proof.
  destruct (success_reduces_order v sent "alice" TradeSafetyWitness.sale w1) as (w' & Hr & _).
  exists w'. exact Hr.
Defined.

(** The sale for zero units. *)
Definition free_sale : TradeState :=
  mkTradeState (Some TradeSafetyWitness.order) (Some 0) (Some "bob") (Some 990) (Some INITIATED)
    (Some TradeSafetyWitness.seller_data) None (Some "buyer-signed") None.

Lemma zero_units_accepted_then_abort_witness :
  exists w', HasReply "alice" (BuildTradeChecker "alice" free_sale) (world_of free_sale node)
    = (Fatal, w').
Proof.
  apply (zero_units_accepted_then_abort "alice" TradeSafetyWitness.order "buyer-signed"
           (decode "buyer-signed") node trade_outs (world_of free_sale node));
    try reflexivity; try (vm_compute; split; congruence).
  - split; try done.
    + intros [H|[H|H]]; discriminate H.
    + intros sd [= <-]. split_and!; try reflexivity. by exists "nametx", 1.
  - eexists _, _. split_and!; reflexivity.
Defined.

End TradeManagerWitness.
