(* ===== verification/IntervalJob.v ===== *)
(** * Periodic jobs ([src/src/intervaljob.cpp])

    A thread that runs a job at intervals until the object is destroyed: the
    own orders are refreshed, the order book is timed out, trades are updated
    and the connection is kept up by such threads.  The thread and the
    destructor synchronise through a mutex, a flag and a condition variable;
    they are the steps of a transition system here, in which the threads
    interleave wherever the mutex lets them. *)

From Stdlib Require Import ZArith Lia String.
From stdpp Require Import base gmap strings list relations.
From S2P Require Import Prelude Json Proto Effects Mock Checker MyOrders Trades TradeSafety TradeManager.

(** Where the worker is.  It holds the mutex while it tests the flag and while
    the job runs, not while it waits (for the mutex at first, for the
    condition variable later).  [Terminated]: an exception has left the thread
    function, or the job has aborted, and the process is gone. *)
Inductive WorkerPc := Waiting | Testing | Running | Finished | Terminated.

(** Where the destructor is; [Joining] is past the block that sets the flag. *)
Inductive DtorPc := Alive | Joining | Joined.

#[export] Instance WorkerPc_eq_dec : EqDecision WorkerPc.
Proof. solve_decision. Defined.

Section job.
Context `{JsonLib} {Node S : Type}.

Record IntervalJob := mkIntervalJob {
  stop : bool;
  pc : WorkerPc;
  dtor : DtorPc;
  world : World Node S
}.

Context (job : M Node S unit) (others : World Node S -> World Node S -> Prop).

(** [StartWorker]: the new thread has yet to get the mutex. *)
Definition StartWorker (w : World Node S) : IntervalJob := mkIntervalJob false Waiting Alive w.

(** The mutex is free. *)
Definition unlocked (p : WorkerPc) : bool :=
  match p with Waiting | Finished => true | _ => false end.

(** The body of the loop: the job, and where the thread is afterwards. *)
Definition run_job (j : IntervalJob) : IntervalJob :=
  match job (world j) with
  | (Ret _, w') => mkIntervalJob (stop j) Waiting (dtor j) w'
  | (_, w') => mkIntervalJob (stop j) Terminated (dtor j) w'
  end.

(** Steps of the worker thread: it gets the mutex (after the interval, a
    notification, or for no reason), tests the flag, runs the job. *)
Inductive worker_step : IntervalJob -> IntervalJob -> Prop :=
| ws_wake s d w : worker_step (mkIntervalJob s Waiting d w) (mkIntervalJob s Testing d w)
| ws_go d w : worker_step (mkIntervalJob false Testing d w) (mkIntervalJob false Running d w)
| ws_end d w : worker_step (mkIntervalJob true Testing d w) (mkIntervalJob true Finished d w)
| ws_job s d w :
    worker_step (mkIntervalJob s Running d w) (run_job (mkIntervalJob s Running d w)).

(** All steps: the worker, the destructor, and other threads of the process. *)
Inductive job_step : IntervalJob -> IntervalJob -> Prop :=
| js_worker j j' : worker_step j j' -> job_step j j'
| js_destroy s p w :
    unlocked p = true -> job_step (mkIntervalJob s p Alive w) (mkIntervalJob true p Joining w)
| js_join s w : job_step (mkIntervalJob s Finished Joining w) (mkIntervalJob s Finished Joined w)
| js_others s p d w w' :
    p <> Terminated -> others w w' -> job_step (mkIntervalJob s p d w) (mkIntervalJob s p d w').

(** ** Safety and termination *)

(** The flag is set exactly once the destructor has had the mutex, and from
    then on the job does not run. *)
Record job_ok (j : IntervalJob) : Prop := mkJobOk {
  jok_flag : stop j = true <-> dtor j <> Alive;
  jok_running : stop j = true -> pc j <> Running /\ pc j <> Terminated;
  jok_joined : dtor j = Joined -> pc j = Finished;
  jok_finished : pc j = Finished -> stop j = true
}.

Lemma StartWorker_ok w : job_ok (StartWorker w).
Proof. by split. Qed.

Lemma worker_step_ok j j' : worker_step j j' -> job_ok j -> job_ok j'.
Proof.
  intros [s d w|d w|d w|s d w] [Hf Hr Hj Hfin]; cbn [stop pc dtor] in *.
  - split; cbn; [done|by intros|by intros ?%Hj|done].
  - split; cbn; [done|done|by intros ?%Hj|done].
  - split; cbn; [done|done|done|done].
  - destruct s; [by destruct (Hr eq_refl)|]. unfold run_job. cbn [world].
    destruct (job w) as [[]]; split; cbn; try done; by intros ?%Hj.
Qed.

Lemma job_step_ok j j' : job_step j j' -> job_ok j -> job_ok j'.
Proof.
  intros [j0 j1 Hw|s p w Hp|s w|s p d w w' Hp _]; [by eapply worker_step_ok|..];
    intros [Hf Hr Hj Hfin]; cbn [stop pc dtor] in *.
  - split; cbn; try done. intros _. by destruct p.
  - split; cbn; [|done..]. rewrite Hf. done.
  - by split.
Qed.

(** The steps the worker has left once the flag is set. *)
Definition steps_left (p : WorkerPc) : nat :=
  match p with Waiting => 2 | Testing => 1 | _ => 0 end.

Lemma steps_left_stopped n j j' :
  nsteps worker_step n j j' -> job_ok j -> stop j = true ->
  (n + steps_left (pc j') <= steps_left (pc j))%nat /\ stop j' = true /\ world j' = world j.
Proof.
  induction 1 as [j|n j j1 j' Hs Hn IH]; intros Hok Hstop; [cbn; split; [lia|done]|].
  pose proof (worker_step_ok _ _ Hs Hok) as Hok1.
  assert (Hj1 : (1 + steps_left (pc j1) <= steps_left (pc j))%nat /\ stop j1 = true /\ world j1 = world j).
  { destruct Hs as [s d w|d w|d w|s d w]; cbn [stop pc world] in *; [cbn; split; [lia|done]|done|cbn; split; [lia|done]|].
    by destruct (jok_running _ Hok Hstop). }
  destruct Hj1 as (Hle & Hs1 & Hw1). destruct (IH Hok1 Hs1) as (Hle' & ? & ?).
  split; [lia|]. split; [done|congruence].
Qed.

(** A thread that is not done can go on. *)
Lemma worker_progress j :
  pc j <> Finished -> pc j <> Terminated -> exists j', worker_step j j'.
Proof.
  destruct j as [[] [] d w]; cbn; intros H1 H2; try done; eexists; constructor.
Qed.

(** C32: destroying a periodic job is final and does not wait for another job:
    once the destructor has set the flag, the worker makes at most two more
    steps, none of which runs the job or touches anything, and can always make
    them until it is done, so the join returns (how long the worker still waits
    for the notification or the end of its interval is not part of this); and
    after the join nothing of the thread is left. *)
Theorem job_shutdown w j :
  rtc job_step (StartWorker w) j ->
  (dtor j <> Alive -> forall n j', nsteps worker_step n j j' ->
    (n <= 2)%nat /\ world j' = world j /\
    (pc j' = Finished \/ exists j'', worker_step j' j'')) /\
  (dtor j = Joined -> forall j', ~ worker_step j j').
Proof.
  intros Hr. assert (Hok : job_ok j).
  { revert Hr. generalize (StartWorker_ok w). generalize (StartWorker w). intros j0 Hok Hr.
    induction Hr as [|x y z Hxy _ IH]; [done|]. apply IH. by eapply job_step_ok. }
  split.
  - intros Hd n j' Hn. assert (Hstop : stop j = true) by (by apply jok_flag).
    destruct (steps_left_stopped n j j' Hn Hok Hstop) as (Hle & Hs' & Hw).
    assert (Hok' : job_ok j').
    { clear -Hn Hok. induction Hn as [|n x y z Hxy _ IH]; [done|]. apply IH. by eapply worker_step_ok. }
    split; [|split; [done|]].
    + assert (steps_left (pc j) <= 2)%nat by (destruct (pc j); cbn; lia). lia.
    + destruct (decide (pc j' = Finished)); [by left|]. right. apply worker_progress; [done|].
      by apply jok_running.
  - intros Hd j' Hs. pose proof (jok_joined _ Hok Hd) as Hf. by destruct Hs.
Qed.

End job.

(* ------------------------------------------------------------------ *)
(** ** The periodic jobs of the daemon *)

Section jobs.
Context `{JsonLib} `{!Uint256Lib} `{!AmountLib} `{!ProtoRuntime} {Node : Type}
  `{!XayaRpc Node} `{!DemGspRpc Node} `{!AssetSpec Node} `{!Clock Node} `{!Flags}
  {S : Type} `{!HasState S} `{!OrderHooks Node S}.
Implicit Types w : World Node S.

(** [SetupUpdater] and [StartRefresher]: the updates of the trades and of the
    own orders as jobs. *)
Definition SetupUpdater w : IntervalJob := StartWorker (Node := Node) (S := S) w.
Definition updater_step : IntervalJob -> IntervalJob -> Prop := worker_step UpdateAndArchiveTrades.
Definition StartRefresher w : IntervalJob := StartWorker (Node := Node) (S := S) w.
Definition refresher_step : IntervalJob -> IntervalJob -> Prop := worker_step RunRefresh.

Lemma running_dies (job : M Node S unit) s d w j' :
  is_err (fst (job w)) -> worker_step job (mkIntervalJob s Running d w) j' -> pc j' = Terminated.
Proof.
  intros He Hs. inversion Hs; subst. unfold run_job. cbn [world].
  by destruct (job w) as [[]].
Qed.

(** Nothing catches the exception of a failed RPC call in the updater
    thread: if the wallet does not answer [decodepsbt] when the first trade is
    pending, the periodic update does not skip the trade but ends the process. *)
Theorem periodic_update_dies w t rest q msg n s d j' :
  st_trades (proj (wst w)) = t :: rest -> state_of t = PENDING -> ts_our_psbt t = Some q ->
  xaya_rpc (decodepsbt q) (wnode w) = (inl msg, n) ->
  updater_step (mkIntervalJob s Running d w) j' -> pc j' = Terminated.
Proof.
  intros Ht Hs Hq Hx. apply running_dies.
  enough (Hw : wp UpdateAndArchiveTrades (fun o _ => is_err o) w).
  { unfold wp in Hw. by destruct (UpdateAndArchiveTrades w). }
  unfold UpdateAndArchiveTrades, archive_finalised. wp_step. wp_step. wp_step. wp_step.
  rewrite Ht. cbn [length update_trades]. wp_step. wp_step. wp_step.
  rewrite (trade_at_lookup 0 _ t) by (by rewrite Ht).
  unfold Update. wp_step. wp_step. rewrite Hs. unfold update_pending, our_psbt_of.
  wp_step. wp_step. wp_step. wp_step; rewrite Hq in *; [|done]. wp_step.
  eapply (wp_xaya_known (decodepsbt q)); [exact Hx|]. done.
Qed.

End jobs.

(* ------------------------------------------------------------------ *)
(** ** The theorems at concrete inputs *)

Module IntervalJobWitness.
Import Mock TradeManagerWitness.

#[local] Existing Instance default_flags.

(** A job that counts its runs. *)
Definition tick : M Fixed nat unit := modify Datatypes.S.
Definition j0 : IntervalJob := StartWorker (world_of 0%nat fixed).
Definition quiet (w w' : World Fixed nat) : Prop := w' = w.

Definition destroyed : IntervalJob := mkIntervalJob true Waiting Joining (world_of 0%nat fixed).
Definition finished : IntervalJob := mkIntervalJob true Finished Joining (world_of 0%nat fixed).

Lemma two_steps : nsteps (worker_step tick) 2 destroyed finished.
Proof. eapply nsteps_l; [constructor|]. eapply nsteps_l; [constructor|]. constructor. Qed.

Lemma job_shutdown_witness : (2 <= 2)%nat /\ world finished = world destroyed.
Proof.
  destruct (proj1 (job_shutdown tick quiet (world_of 0%nat fixed) destroyed
    (rtc_once _ _ (js_destroy tick quiet false Waiting (world_of 0%nat fixed) eq_refl)))
    ltac:(discriminate) 2%nat finished two_steps) as (Hn & Hw & _).
  exact (conj Hn Hw).
Defined.

(** The wallet is down and the only trade is pending. *)
Definition down : Mock.Node := node_of (fun c => inl "connection refused").
Definition w_down : World Mock.Node State :=
  world_of (with_trades [TradeSafetyWitness.pending_sale] (initial_state "alice")) down.

Lemma periodic_update_dies_witness :
  pc (run_job (UpdateAndArchiveTrades (OrderHooks0 := default_hooks _ _) (Node := Mock.Node))
    (mkIntervalJob false Running Alive w_down)) = Terminated.
Proof.
  apply (periodic_update_dies (OrderHooks0 := default_hooks _ _) w_down TradeSafetyWitness.pending_sale []
    "full" "connection refused" down false Alive); try reflexivity. apply ws_job.
Defined.

End IntervalJobWitness.
