(* ===== verification/Threads.v ===== *)
(** * The threads of one daemon

    The user's requests, the counterparties' messages and the periodic jobs
    run in threads of their own.  They share the state proto, which
    [State::AccessState] ([src/private/state.hpp]) protects by a mutex: a
    method holds it for one part of its work and lets other threads in between
    two parts.  Here every method of [MyOrders] and [TradeManager] is a
    program, a sequence of such sections; run alone it is the method
    ([thread_is_method]), and a process interleaves the sections of any number
    of programs in any order.  [ThreadSafety] has what holds in every such
    interleaving. *)

From Stdlib Require Import ZArith Lia String.
From stdpp Require Import base gmap strings list relations.
From S2P Require Import Prelude Json Proto Effects Mock Checker MyOrders Trades TradeSafety TradeManager.

(* ------------------------------------------------------------------ *)
(** ** Programs of sections *)

Section programs.
Context `{JsonLib} {Node S : Type}.

(** A section runs without interruption; what follows depends on its result. *)
Inductive prog (A : Type) : Type :=
| PRet (a : A)
| PSec {B : Type} (m : M Node S B) (k : B -> prog A).
Arguments PRet {A} _.
Arguments PSec {A B} _ _.

#[export] Instance prog_ret : MRet prog := @PRet.

#[export] Instance prog_bind : MBind prog :=
  fun A B f => fix go p :=
    match p with
    | PRet a => f a
    | PSec m k => PSec m (fun b => go (k b))
    end.

Definition sec {A} (m : M Node S A) : prog A := PSec m PRet.

(** A program that nothing interrupts. *)
Fixpoint run {A} (p : prog A) : M Node S A :=
  match p with
  | PRet a => mret a
  | PSec m k => m ≫= fun b => run (k b)
  end.

Lemma bind_ext {A B} (m m' : M Node S A) (f f' : A -> M Node S B) w :
  m w = m' w -> (forall a w', f a w' = f' a w') -> (m ≫= f) w = (m' ≫= f') w.
Proof. unfold mbind, M_bind. intros -> Hf. destruct (m' w) as [[]]; auto. Qed.

Lemma bind_assoc {A B C} (m : M Node S A) (f : A -> M Node S B) (g : B -> M Node S C) w :
  (m ≫= (fun a => f a ≫= g)) w = ((m ≫= f) ≫= g) w.
Proof. unfold mbind, M_bind. by destruct (m w) as [[]]. Qed.

Lemma run_sec {A} (m : M Node S A) w : run (sec m) w = m w.
Proof. cbn. unfold mbind, M_bind. by destruct (m w) as [[]]. Qed.

Lemma run_bind {A B} (p : prog A) (f : A -> prog B) w :
  run (p ≫= f) w = (run p ≫= fun a => run (f a)) w.
Proof.
  revert w. induction p as [a|C m k IH]; intros w; [done|].
  change (run (PSec m k ≫= f)) with (m ≫= (fun b => run (k b ≫= f))).
  cbn [run]. rewrite <-bind_assoc. by apply bind_ext.
Qed.

End programs.
Arguments prog {_} Node S A.
Arguments PRet {_ Node S A} _.
Arguments PSec {_ Node S A B} _ _.

(* ------------------------------------------------------------------ *)
(** ** The methods as programs *)

(** What the threads of a process are asked to do. *)
Inductive Call :=
| CallAdd (o : Order)
| CallCancel (id : Z)
| CallTake (o : Order) (units : Z)
| CallMessage (msg : ProcessingMessage)
| CallRefresh
| CallUpdate.

(** The jobs of [IntervalJob]: an exception that leaves one ends the process. *)
Definition is_job (c : Call) : bool :=
  match c with CallRefresh | CallUpdate => true | _ => false end.

Section methods.
Context `{JsonLib} `{!Uint256Lib} `{!AmountLib} `{!ProtoRuntime} {Node : Type}
  `{!XayaRpc Node} `{!DemGspRpc Node} `{!AssetSpec Node} `{!Clock Node} `{!Flags}
  {S : Type} `{!HasState S} `{!OrderHooks Node S}.
#[local] Abbreviation Prog := (prog Node S).

Definition RunRefresh_p : Prog unit :=
  sec (AccessState refresh_locked);;
  os ← sec (ReadState (InternalGetOrders false));
  sec (UpdateOrders os).

Definition Add_p (o : Order) : Prog bool :=
  added ← sec (AccessState (add_locked o));
  (if added : bool then RunRefresh_p else mret tt);;
  mret added.

Definition RemoveById_p (id : Z) : Prog unit :=
  sec (AccessState (remove_locked id));;
  RunRefresh_p.

Definition TryLock_p (id : Z) : Prog (option Order) :=
  res ← sec (AccessState (trylock_locked id));
  (if has res then RunRefresh_p else mret tt);;
  mret res.

Definition Unlock_p (id : Z) : Prog unit :=
  sec (AccessState (unlock_locked id));;
  RunRefresh_p.

Definition TakeOrder_p (o : Order) (units : Z) : Prog (option ProcessingMessage) :=
  if negb (CheckOrder o units) then mret None
  else
    now ← sec GetCurrentTime;
    sec (AccessState (take_locked (new_trade o now units (account_of o)))).

Definition OrderTaken_p (o : Order) (units : Z) (counterparty : string) : Prog bool :=
  if negb (CheckOrder o units) then mret false
  else
    now ← sec GetCurrentTime;
    sec (AccessState (taken_locked (new_trade o now units counterparty))).

Definition accept_taking_order_p (msg : ProcessingMessage) : Prog bool :=
  match pm_taking_order msg with
  | None => mret true
  | Some to =>
      locked ← TryLock_p (to_id_of to);
      match locked with
      | None => mret false
      | Some o =>
          ok ← OrderTaken_p o (s64 (to_units_of to)) (msg_counterparty msg);
          if ok : bool then mret true
          else
            Unlock_p (to_id_of to);;
            mret false
      end
  end.

Definition ProcessMessage_p (msg : ProcessingMessage) : Prog (option ProcessingMessage) :=
  sec (check (has (pm_counterparty msg)));;
  accepted ← accept_taking_order_p msg;
  if negb accepted then mret None else sec (AccessState (process_locked msg)).

Definition HandleSuccess_p (account : string) (pb : TradeState) : Prog unit :=
  match GetRole account pb with
  | TAKER => mret tt
  | MAKER =>
      RemoveById_p (id_of (order_of pb));;
      let newOrder := reduced_order pb in
      if (0 <? max_units_of newOrder) && (min_units_of newOrder <=? max_units_of newOrder)
      then Add_p newOrder;; mret tt
      else mret tt
  end.

(** The calls of the wallet that release outputs touch nothing shared. *)
Definition release_outputs (account : string) (pb : TradeState) : M Node S unit :=
  (if has (sd_name_output (seller_data_of pb))
   then LockUnspent false (name_output_of (seller_data_of pb));; mret tt
   else mret tt);;
  (if bool_decide (GetOrderType account pb = BID) && has (ts_our_psbt pb)
   then UnlockPsbtInputs (our_psbt_of pb)
   else mret tt).

Definition HandleFailure_p (account : string) (pb : TradeState) : Prog unit :=
  (match GetRole account pb with
   | MAKER => Unlock_p (id_of (order_of pb))
   | TAKER => mret tt
   end);;
  sec (release_outputs account pb).

Fixpoint handle_finalised_p (account : string) (l : list TradeState) : Prog unit :=
  match l with
  | [] => mret tt
  | t :: l' =>
      (match state_of t with
       | ABANDONED | FAILED => HandleFailure_p account t
       | SUCCESS => HandleSuccess_p account t
       | INITIATED | PENDING => sec fatal
       end);;
      handle_finalised_p account l'
  end.

Definition UpdateAndArchiveTrades_p : Prog unit :=
  '(account, finalised) ← sec (AccessState archive_finalised);
  handle_finalised_p account finalised.

Definition thread_of (c : Call) : Prog unit :=
  match c with
  | CallAdd o => Add_p o;; mret tt
  | CallCancel id => RemoveById_p id
  | CallTake o units => TakeOrder_p o units;; mret tt
  | CallMessage msg => ProcessMessage_p msg;; mret tt
  | CallRefresh => RunRefresh_p
  | CallUpdate => UpdateAndArchiveTrades_p
  end.

Definition method_of (c : Call) : M Node S unit :=
  match c with
  | CallAdd o => Add o;; mret tt
  | CallCancel id => RemoveById id
  | CallTake o units => TakeOrder o units;; mret tt
  | CallMessage msg => ProcessMessage msg;; mret tt
  | CallRefresh => RunRefresh
  | CallUpdate => UpdateAndArchiveTrades
  end.

(** *** Each program is its method *)

(** Split both sides at the next sequence. *)
Ltac same_run :=
  repeat lazymatch goal with
  | |- forall _, _ => intro
  | |- run (_ ≫= _) _ = _ => rewrite run_bind; apply bind_ext
  | |- run (sec _) _ = _ => apply run_sec
  | |- run (mret _) _ = _ => done
  | |- run (let _ := _ in _) _ = _ => cbv zeta
  | |- run (match _ with _ => _ end) _ = _ => case_match
  | |- run _ _ = _ => solve [eauto]
  end.

Lemma run_RunRefresh w : run RunRefresh_p w = RunRefresh w.
Proof. unfold RunRefresh_p, RunRefresh. same_run. Qed.
Hint Resolve run_RunRefresh : core.

Lemma run_Add o w : run (Add_p o) w = Add o w.
Proof. unfold Add_p, Add. same_run. Qed.

Lemma run_RemoveById id w : run (RemoveById_p id) w = RemoveById id w.
Proof. unfold RemoveById_p, RemoveById. same_run. Qed.

Lemma run_TryLock id w : run (TryLock_p id) w = TryLock id w.
Proof. unfold TryLock_p, TryLock. same_run. Qed.

Lemma run_Unlock id w : run (Unlock_p id) w = Unlock id w.
Proof. unfold Unlock_p, Unlock. same_run. Qed.

Lemma run_TakeOrder o units w : run (TakeOrder_p o units) w = TakeOrder o units w.
Proof. unfold TakeOrder_p, TakeOrder. same_run. Qed.

Lemma run_OrderTaken o units cp w : run (OrderTaken_p o units cp) w = OrderTaken o units cp w.
Proof. unfold OrderTaken_p, OrderTaken. same_run. Qed.
Hint Resolve run_Add run_RemoveById run_TryLock run_Unlock run_TakeOrder run_OrderTaken : core.

Lemma run_ProcessMessage msg w : run (ProcessMessage_p msg) w = ProcessMessage msg w.
Proof. unfold ProcessMessage_p, accept_taking_order_p, ProcessMessage, accept_taking_order. same_run. Qed.

Lemma run_HandleSuccess account t w : run (HandleSuccess_p account t) w = HandleSuccess account t w.
Proof. unfold HandleSuccess_p, HandleSuccess. same_run. Qed.

Lemma run_HandleFailure account t w : run (HandleFailure_p account t) w = HandleFailure account t w.
Proof. unfold HandleFailure_p, HandleFailure, release_outputs. same_run. Qed.
Hint Resolve run_ProcessMessage run_HandleSuccess run_HandleFailure : core.

Lemma run_handle_finalised account l w :
  run (handle_finalised_p account l) w = handle_finalised account l w.
Proof.
  revert w. induction l as [|t l IH]; intros w; cbn [handle_finalised_p handle_finalised]; same_run.
Qed.

(** The program of a call, when nothing interrupts it, is the method of the
    class: splitting the methods into sections neither adds nor loses work. *)
Theorem thread_is_method c w : run (thread_of c) w = method_of c w.
Proof.
  destruct c; cbn [thread_of method_of]; try solve [same_run].
  unfold UpdateAndArchiveTrades_p, UpdateAndArchiveTrades. same_run. apply run_handle_finalised.
Qed.

End methods.

(* ------------------------------------------------------------------ *)
(** ** A process *)

Definition unsigned `{JsonLib} (e : Event) : Prop := signs e = None.

(** The hooks of the own orders do not touch the state proto and do not let
    the wallet sign; they may fail at any time. *)
Class CalmHooks `{JsonLib} (Node S : Type) `{!HasState S} `{!OrderHooks Node S} : Prop := {
  calm_validate a o : steps (only_calls unsigned) (ValidateOrder (Node := Node) (S := S) a o);
  calm_update os (w : World Node S) :
    proj (wst (snd (UpdateOrders os w))) = proj (wst w) /\
    calls unsigned w (snd (UpdateOrders os w))
}.

(** Moving an order swaps it with an empty message, or copies it. *)
Class MoveLaws `{ProtoRuntime} : Prop :=
  moved_order o : moved_from o = o \/ moved_from o = empty_order.

Record Thread `{JsonLib} Node S := mkThread {
  th_call : Call;
  th_prog : prog Node S unit
}.
Arguments mkThread {_ Node S} _ _.
Arguments th_call {_ Node S} _.
Arguments th_prog {_ Node S} _.

(** The threads at work, and every call that was made since the start. *)
Record Pool `{JsonLib} Node S := mkPool {
  pool_world : World Node S;
  pool_threads : list (Thread Node S);
  pool_calls : list Call
}.
Arguments mkPool {_ Node S} _ _ _.
Arguments pool_world {_ Node S} _.
Arguments pool_threads {_ Node S} _.
Arguments pool_calls {_ Node S} _.

Section process.
Context `{JsonLib} `{!Uint256Lib} `{!AmountLib} `{!ProtoRuntime} {Node : Type}
  `{!XayaRpc Node} `{!DemGspRpc Node} `{!AssetSpec Node} `{!Clock Node} `{!Flags}
  {S : Type} `{!HasState S} `{!OrderHooks Node S}.

(** A call can come at any time; one thread at a time runs its next section;
    an exception ends the call (and the whole process in a periodic job, as an
    abort always does: there is no step then).  The rest of the process, the
    daemon's other components and the services, goes on as it likes, except
    that it does not touch the state proto or sign. *)
Inductive pool_step : Pool Node S -> Pool Node S -> Prop :=
| pool_call c w ts h :
    pool_step (mkPool w ts h) (mkPool w (ts ++ [mkThread c (thread_of c)]) (c :: h))
| pool_section c {B} (m : M Node S B) k b pre post w w' h :
    m w = (Ret b, w') ->
    pool_step (mkPool w (pre ++ mkThread c (PSec m k) :: post) h)
      (mkPool w' (pre ++ mkThread c (k b) :: post) h)
| pool_exception c {B} (m : M Node S B) k e pre post w w' h :
    m w = (Throw e, w') -> is_job c = false ->
    pool_step (mkPool w (pre ++ mkThread c (PSec m k) :: post) h) (mkPool w' (pre ++ post) h)
| pool_return c pre post w h :
    pool_step (mkPool w (pre ++ mkThread c (PRet tt) :: post) h) (mkPool w (pre ++ post) h)
| pool_other w w' ts h :
    proj (wst w') = proj (wst w) -> calls unsigned w w' ->
    pool_step (mkPool w ts h) (mkPool w' ts h).

(** What the scheduler may do next. *)
Inductive Choice := NewCall (c : Call) | RunThread (i : nat).

(** The step as a function; none if the process ends, or there is no such
    thread. *)
Definition pool_next (ch : Choice) (pl : Pool Node S) : option (Pool Node S) :=
  let '(mkPool w ts h) := pl in
  match ch with
  | NewCall c => Some (mkPool w (ts ++ [mkThread c (thread_of c)]) (c :: h))
  | RunThread i =>
      match ts !! i with
      | None => None
      | Some (mkThread c (PRet _)) => Some (mkPool w (delete i ts) h)
      | Some (mkThread c (PSec m k)) =>
          match m w with
          | (Ret b, w') => Some (mkPool w' (<[i := mkThread c (k b)]> ts) h)
          | (Throw _, w') => if is_job c then None else Some (mkPool w' (delete i ts) h)
          | (Fatal, _) => None
          end
      end
  end.

Fixpoint pool_run (l : list Choice) (pl : Pool Node S) : option (Pool Node S) :=
  match l with
  | [] => Some pl
  | ch :: l' => match pool_next ch pl with Some pl' => pool_run l' pl' | None => None end
  end.

Lemma pool_next_step ch pl pl' : pool_next ch pl = Some pl' -> pool_step pl pl'.
Proof.
  destruct pl as [w ts h], ch as [c|i]; cbn [pool_next]; [intros [= <-]; constructor|].
  destruct (ts !! i) as [[c p]|] eqn:Hi; [|done].
  pose proof (lookup_lt_Some _ _ _ Hi) as Hlt. apply list_elem_of_split_length in Hi as (pre & post & -> & Hlen).
  assert (Hdel : delete i (pre ++ mkThread c p :: post) = pre ++ post)
    by (rewrite Hlen; apply delete_middle).
  destruct p as [[]|B m k].
  - intros [= <-]. rewrite Hdel. constructor.
  - destruct (m w) as [[b|e|] w'] eqn:Hm; [|destruct (is_job c) eqn:Hj; [done|]|done]; intros [= <-].
    + rewrite Hlen, insert_app_r_alt, Nat.sub_diag by lia. by eapply pool_section.
    + rewrite Hdel. by eapply pool_exception.
Qed.

Lemma pool_run_steps l pl pl' : pool_run l pl = Some pl' -> nsteps pool_step (length l) pl pl'.
Proof.
  revert pl. induction l as [|ch l IH]; intros pl; cbn [pool_run length]; [intros [= <-]; constructor|].
  destruct (pool_next ch pl) as [pl1|] eqn:Hn; [|done]. intros Hr.
  eapply nsteps_l; [by eapply pool_next_step|by apply IH].
Qed.

End process.
