(* ===== verification/Protocol.v ===== *)
(** * Two parties negotiating one trade

    The components before describe one process.  Here a maker and a taker run
    [HandleTradeMessage] and [HasReply] (through [process_for], as
    [TradeManager::ProcessMessage] does) on their copies of one trade, each
    with a wallet, GSP and clock of its own that may answer anything, fail or
    make the call abort.  Messages travel over a network that delivers them in
    any order and may lose them; either side may run its periodic update at
    any time, and the rest of its process may use the same services. *)

From Stdlib Require Import ZArith Lia String.
From stdpp Require Import base gmap strings list.
From S2P Require Import Prelude Json Proto Effects Mock Checker MyOrders Trades TradeSafety TradeManager.

Section parties.
Context `{JsonLib} `{!JsonLaws} `{!Uint256Lib} `{!AmountLib} {Node : Type} `{!XayaRpc Node}
  `{!DemGspRpc Node} `{!AssetSpec Node} `{!Clock Node} `{!Flags}.
Implicit Types (w : World Node TradeState) (account : string).

(** A message on the wire: [SendProcessingMessage] clears the counterparty,
    which the receiver sets to the authenticated sender. *)
Definition wire (m : ProcessingMessage) : ProcessingMessage := with_msg_counterparty None m.

(** What [ProcessMessage] does with a message from [from] that takes no order,
    for a process with this one trade. *)
Definition receive account (from : string) (msg : ProcessingMessage)
  : M Node TradeState (option ProcessingMessage) :=
  s ← get;
  let msg := with_msg_counterparty (Some from) msg in
  if Matches s msg then process_for account msg (BuildTradeChecker account s) else mret None.

(** The messages a call sends. *)
Definition sent (o : outcome (option ProcessingMessage)) : list ProcessingMessage :=
  match o with Ret (Some m) => [wire m] | _ => [] end.

Record Sys := mkSys {
  s_maker : World Node TradeState;
  s_taker : World Node TradeState;
  to_maker : list ProcessingMessage;
  to_taker : list ProcessingMessage
}.

Context (maker taker : string).

(** Steps of the system; the flag says whether a message was taken from the
    network.  A call that throws or aborts ends with whatever it did so far.
    Between the calls for this trade the services may do whatever they like,
    and be called for other purposes. *)
Inductive sys_step : bool -> Sys -> Sys -> Prop :=
| deliver_to_maker s pre msg post o w' :
    to_maker s = pre ++ msg :: post -> receive maker taker msg (s_maker s) = (o, w') ->
    sys_step true s (mkSys w' (s_taker s) (pre ++ post) (to_taker s ++ sent o))
| deliver_to_taker s pre msg post o w' :
    to_taker s = pre ++ msg :: post -> receive taker maker msg (s_taker s) = (o, w') ->
    sys_step true s (mkSys (s_maker s) w' (to_maker s ++ sent o) (pre ++ post))
| lose_to_maker s pre msg post :
    to_maker s = pre ++ msg :: post ->
    sys_step true s (mkSys (s_maker s) (s_taker s) (pre ++ post) (to_taker s))
| lose_to_taker s pre msg post :
    to_taker s = pre ++ msg :: post ->
    sys_step true s (mkSys (s_maker s) (s_taker s) (to_maker s) (pre ++ post))
| update_maker s :
    sys_step false s (mkSys (snd (Update (s_maker s))) (s_taker s) (to_maker s) (to_taker s))
| update_taker s :
    sys_step false s (mkSys (s_maker s) (snd (Update (s_taker s))) (to_maker s) (to_taker s))
| others_maker s n l :
    sys_step false s (mkSys (mkWorld (wst (s_maker s)) n (wtrace (s_maker s) ++ l)) (s_taker s)
      (to_maker s) (to_taker s))
| others_taker s n l :
    sys_step false s (mkSys (s_maker s) (mkWorld (wst (s_taker s)) n (wtrace (s_taker s) ++ l))
      (to_maker s) (to_taker s)).

(** Runs, with the number of messages taken from the network. *)
Inductive sys_run : nat -> Sys -> Sys -> Prop :=
| run_refl s : sys_run 0 s s
| run_step b n s s' s'' :
    sys_run n s s' -> sys_step b s' s'' -> sys_run (if b then Datatypes.S n else n) s s''.

(** Two copies of an order that a trade may be about: the taker's comes from
    the maker's broadcast, the maker's from its own list. *)
Record same_order (o o' : Order) : Prop := mkSameOrder {
  so_account : account_of o = account_of o';
  so_id : id_of o = id_of o';
  so_asset : asset_of o = asset_of o';
  so_type : type_of o = type_of o';
  so_price : price_sat_of o = price_sat_of o'
}.

(** The start of a negotiation: the taker has run [TakeOrder], whose message
    is on its way, and the maker has accepted it with [OrderTaken]. *)
Inductive started : Sys -> Prop :=
| started_intro o o' units now now' wm wt0 wt r :
    maker <> taker -> same_order o o' -> account_of o = maker ->
    wst wm = new_trade o now units taker ->
    wst wt0 = new_trade o' now' units (account_of o') ->
    HasReply taker (BuildTradeChecker taker (wst wt0)) wt0 = (Ret r, wt) ->
    started (mkSys wm wt
      [wire (SetTakingOrder (wst wt) (default (InitProcessingMessage (wst wt)) r))] []).

(* ------------------------------------------------------------------ *)
(** ** One call of one party *)

(** Our PSBT may have been added. *)
Definition with_ours (t t1 : TradeState) : Prop :=
  t1 = t \/ ts_our_psbt t = None /\ exists q, t1 = with_our_psbt (Some q) t.

(** What a call does to the trade [t] that has got the message, with the
    messages it sends and the calls it makes. *)
Inductive local_step account (t : TradeState)
  : list ProcessingMessage -> TradeState -> list Event -> Prop :=
| ls_signed t1 l : with_ours t t1 -> local_step account t [] t1 l
| ls_data sd l :
    GetOrderType account t = ASK -> ts_seller_data t = None ->
    local_step account t
      [wire (with_msg_seller_data (Some (clear_name_output sd)) (InitProcessingMessage t))]
      (with_seller_data (Some sd) t) l
| ls_unsigned p q l :
    GetRole account t = MAKER -> ts_our_psbt t = None -> Exists (fun e => signs e = Some p) l ->
    local_step account t [wire (psbt_reply t p)] (with_our_psbt (Some q) t) l
| ls_shared q t1 l :
    GetRole account t = TAKER -> state_of t = INITIATED -> with_ours t t1 -> ts_our_psbt t1 = Some q ->
    local_step account t [wire (psbt_reply t q)] (with_state (Some PENDING) t1) l
| ls_broadcast t1 l :
    GetRole account t = MAKER -> state_of t = INITIATED -> with_ours t t1 ->
    has (ts_our_psbt t1) = true -> has (ts_their_psbt t) = true -> local_step account t [] (with_state (Some PENDING) t1) l.

Lemma our_stage_with_ours account checker t t1 l :
  our_stage account checker t t1 l -> with_ours t t1.
Proof. intros [(-> & _)|(p & q & -> & l1 & l2 & _ & Ho & _)]; [by left|right]. eauto. Qed.

Lemma sign_facts_signs account checker t p q l :
  sign_facts account checker t p q l -> Exists (fun e => signs e = Some p) l.
Proof.
  intros (l1 & l2 & (r & -> & _) & _). apply Exists_app. right. by constructor.
Qed.

Lemma summary_local account checker t o t' l :
  reply_summary account checker t o t' l -> local_step account t (sent o) t' l.
Proof.
  assert (Hsilent : forall o, silent o -> sent o = []).
  { intros [[r|]|e|] Ho; try done. by specialize (Ho _ eq_refl). }
  intros Hs. destruct Hs as [o l Ho _|na ca h k l Hi Hty Hsd _|o p l Hi Ho Hf|p q l Hi Hr Hty Hf|
    o t1 la lb Hi Hst Ho _|q t1 la Hi Hst Hr Hq|t1 la lb r Hi Hst Hr Hour Hth Hb].
  - rewrite Hsilent by done. constructor. by left.
  - by apply ls_data.
  - rewrite Hsilent by done. constructor. by left.
  - apply ls_unsigned; [done| |by eapply sign_facts_signs]. by destruct Hf as (? & ? & _ & ? & _).
  - rewrite Hsilent by done. constructor. by eapply our_stage_with_ours.
  - apply ls_shared; try done. by eapply our_stage_with_ours.
  - destruct r; cbn [sent]; [constructor; by eapply our_stage_with_ours|].
    apply ls_broadcast; try done. by eapply our_stage_with_ours.
Qed.

(** The trade after the message, before the reply. *)
Definition got account (from : string) (msg : ProcessingMessage) (t : TradeState) : TradeState :=
  HandleTradeMessage account (with_msg_counterparty (Some from) msg) t.

Lemma receive_local account from msg w o w' :
  receive account from msg w = (o, w') ->
  (w' = w /\ sent o = []) \/
  exists l, wtrace w' = wtrace w ++ l /\ evolves (wst w) (wst w') /\
    local_step account (got account from msg (wst w)) (sent o) (wst w') l.
Proof.
  unfold receive, got. set (m := with_msg_counterparty (Some from) msg).
  intros Hr. refine (wp_run_eq _ (fun o w' => (w' = w /\ sent o = []) \/
    exists l, wtrace w' = wtrace w ++ l /\ evolves (wst w) (wst w') /\
    local_step account (HandleTradeMessage account m (wst w)) (sent o) (wst w') l) _ _ _ _ Hr). clear Hr o w'.
  wp_step. wp_step. fold m. destruct (Matches (wst w) m); [|by wp_step; left].
  unfold process_for. wp_step. wp_step. wp_step. set (t1 := HandleTradeMessage account m (wst w)).
  destruct (checker_widths account (wst w)) as [Hp Hu].
  eapply wp_conseq; [apply (HasReply_summary account _ (mkWorld t1 (wnode w) (wtrace w)) Hp Hu)|].
  cbn [wst wtrace]. intros o w' (l & Hl & Hs).
  assert (He : evolves (wst w) (wst w')).
  { etransitivity; [apply (message_evolves account m)|].
    rewrite <-(checker_message account m (wst w)) in Hs. by eapply summary_evolves. }
  apply summary_local in Hs. destruct o as [r|[]|]; right; by exists l.
Qed.

(* ------------------------------------------------------------------ *)
(** ** Every negotiation ends *)

(** How many replies a trade can still cause: each one adds the seller data or
    our PSBT, or leaves the initial state. *)
Definition replies_left (t : TradeState) : nat :=
  ((if has (ts_seller_data t) then 0 else 1) + (if has (ts_our_psbt t) then 0 else 1) +
   (if decide (state_of t = INITIATED) then 1 else 0))%nat.

Lemma write_once_left {A} (x y : option A) :
  write_once x y -> ((if has y then 0 else 1) <= (if has x then 0 else 1))%nat.
Proof. intros [-> | ->]; [destruct y|destruct x]; cbn; lia. Qed.

Lemma rtc_initiated st st' : rtc transition st st' -> st' = INITIATED -> st = INITIATED.
Proof.
  intros Hr ->. remember INITIATED as i eqn:Hi. induction Hr as [|x y z Hxy _ IH]; [done|].
  specialize (IH Hi). subst. by inversion Hxy.
Qed.

Lemma evolves_left t t' : evolves t t' -> (replies_left t' <= replies_left t)%nat.
Proof.
  intros [_ _ _ _ Hsd Hour _ Hst _]. unfold replies_left.
  pose proof (write_once_left _ _ Hsd). pose proof (write_once_left _ _ Hour).
  assert ((if decide (state_of t' = INITIATED) then 1 else 0) <=
          (if decide (state_of t = INITIATED) then 1 else 0))%nat; [|lia].
  destruct (decide (state_of t' = INITIATED)) as [He|]; [|lia].
  rewrite decide_True by (by eapply rtc_initiated). lia.
Qed.

Lemma ours_left q t :
  ts_our_psbt t = None -> replies_left t = Datatypes.S (replies_left (with_our_psbt (Some q) t)).
Proof.
  intros Ho. unfold replies_left. change (state_of (with_our_psbt (Some q) t)) with (state_of t).
  change (ts_seller_data (with_our_psbt (Some q) t)) with (ts_seller_data t).
  change (ts_our_psbt (with_our_psbt (Some q) t)) with (Some q). rewrite Ho. cbn [has]. lia.
Qed.

Lemma data_left sd t :
  ts_seller_data t = None ->
  replies_left t = Datatypes.S (replies_left (with_seller_data (Some sd) t)).
Proof.
  intros Hsd. unfold replies_left. change (state_of (with_seller_data (Some sd) t)) with (state_of t).
  change (ts_our_psbt (with_seller_data (Some sd) t)) with (ts_our_psbt t).
  change (ts_seller_data (with_seller_data (Some sd) t)) with (Some sd). rewrite Hsd. cbn [has]. lia.
Qed.

Lemma pending_left t :
  state_of t = INITIATED -> replies_left t = Datatypes.S (replies_left (with_state (Some PENDING) t)).
Proof.
  intros Hi. unfold replies_left. rewrite (decide_True _ _ Hi).
  rewrite (decide_False (P := state_of (with_state (Some PENDING) t) = INITIATED)) by done.
  change (ts_our_psbt (with_state (Some PENDING) t)) with (ts_our_psbt t).
  change (ts_seller_data (with_state (Some PENDING) t)) with (ts_seller_data t). lia.
Qed.

Lemma with_ours_left t t1 : with_ours t t1 -> (replies_left t1 <= replies_left t)%nat.
Proof. intros [-> |[Ho [q ->]]]; [lia|]. rewrite (ours_left q t Ho). lia. Qed.

Lemma with_ours_state t t1 : with_ours t t1 -> state_of t1 = state_of t.
Proof. by intros [-> |[_ [q ->]]]. Qed.

(** A message that is sent is paid for. *)
Lemma local_left account t out t' l :
  local_step account t out t' l -> (length out + replies_left t' <= replies_left t)%nat.
Proof.
  intros [t1 l' Ho|sd l' _ Hsd|p q l' _ Ho _|q t1 l' _ Hi Ho _|t1 l' _ Hi Ho _ _]; cbn [length].
  - by apply with_ours_left.
  - rewrite (data_left sd t Hsd). lia.
  - rewrite (ours_left q t Ho). lia.
  - apply with_ours_state in Ho as Hs. apply with_ours_left in Ho.
    rewrite (pending_left t1) in Ho by congruence. lia.
  - apply with_ours_state in Ho as Hs. apply with_ours_left in Ho.
    rewrite (pending_left t1) in Ho by congruence. lia.
Qed.

Lemma got_left account from msg t : (replies_left (got account from msg t) <= replies_left t)%nat.
Proof. apply evolves_left, message_evolves. Qed.

Lemma receive_left account from msg w o w' :
  receive account from msg w = (o, w') ->
  (length (sent o) + replies_left (wst w') <= replies_left (wst w))%nat.
Proof.
  intros [[-> ->]|(l & _ & _ & Hl%local_left)]%receive_local; [cbn; lia|].
  pose proof (got_left account from msg (wst w)). lia.
Qed.

(** The messages that can still be delivered, at most. *)
Definition messages_left (s : Sys) : nat :=
  (length (to_maker s) + length (to_taker s) +
   replies_left (wst (s_maker s)) + replies_left (wst (s_taker s)))%nat.

Lemma sys_step_left b s s' :
  sys_step b s s' ->
  ((if b then 1 else 0) + messages_left s' <= messages_left s)%nat.
Proof.
  intros [s0 pre msg post o w' Hq Hr%receive_left|s0 pre msg post o w' Hq Hr%receive_left|
    s0 pre msg post Hq|s0 pre msg post Hq|s0|s0|s0 n l|s0 n l]; unfold messages_left;
    cbn [s_maker s_taker to_maker to_taker];
    try (rewrite Hq, ?length_app; cbn [length]; lia).
  - pose proof (evolves_left _ _ (updated_evolves _ _ (run_updated (s_maker s0)))). lia.
  - pose proof (evolves_left _ _ (updated_evolves _ _ (run_updated (s_taker s0)))). lia.
  - done.
  - done.
Qed.

Lemma sys_run_left n s s' :
  sys_run n s s' -> (n + messages_left s' <= messages_left s)%nat.
Proof.
  induction 1 as [|b n s s' s'' _ IH Hstep]; [cbn; lia|]. apply sys_step_left in Hstep.
  destruct b; lia.
Qed.

Lemma started_left s : started s -> (messages_left s <= 7)%nat.
Proof.
  intros [o o' units now now' wm wt0 wt r _ _ _ _ _ _].
  unfold messages_left. cbn [s_maker s_taker to_maker to_taker length].
  assert (replies_left (wst wm) <= 3 /\ replies_left (wst wt) <= 3)%nat; [|lia].
  unfold replies_left. destruct (has (ts_seller_data (wst wm))), (has (ts_our_psbt (wst wm))),
    (decide (state_of (wst wm) = INITIATED)), (has (ts_seller_data (wst wt))),
    (has (ts_our_psbt (wst wt))), (decide (state_of (wst wt) = INITIATED)); lia.
Qed.

(** C6: every negotiation ends by itself: from its start, whatever the two
    wallets, GSPs and clocks answer, whichever calls fail, and however the
    network orders or loses messages, at most seven messages are exchanged,
    the taking message included. *)
Theorem negotiation_terminates n s s' :
  started s -> sys_run n s s' -> (n <= 7)%nat.
Proof. intros Hs%started_left Hr%sys_run_left. lia. Qed.

(* ------------------------------------------------------------------ *)
(** ** What the parties have from each other *)

(** The seller data a message or a buyer may hold: what the seller has, less
    its name output. *)
Definition data_from w (sd : SellerData) : Prop :=
  exists sd', ts_seller_data (wst w) = Some sd' /\ sd = clear_name_output sd'.

(** A PSBT from the taker is its final contribution; one from the maker is
    what the maker had its wallet sign. *)
Definition psbt_from_taker w (p : string) : Prop :=
  ts_our_psbt (wst w) = Some p /\ state_of (wst w) <> INITIATED.
Definition psbt_from_maker w (p : string) : Prop :=
  Exists (fun e => signs e = Some p) (wtrace w).

Definition msg_ok (D : SellerData -> Prop) (P : string -> Prop) (m : ProcessingMessage) : Prop :=
  (forall sd, pm_seller_data m = Some sd -> D sd) /\
  (forall p, pm_psbt m = Some p -> P (psbt_of p)).

(** What a party has, and what is on the way to it, comes from the other. *)
Record received (D : SellerData -> Prop) (P : string -> Prop) account (t : TradeState)
    (msgs : list ProcessingMessage) : Prop := mkReceived {
  rc_msgs : Forall (msg_ok D P) msgs;
  rc_data : GetOrderType account t = BID -> forall sd, ts_seller_data t = Some sd -> D sd;
  rc_their : forall p, ts_their_psbt t = Some p -> P p
}.

Lemma received_mono (D D' : SellerData -> Prop) (P P' : string -> Prop) account t msgs more :
  (forall sd, D sd -> D' sd) -> (forall p, P p -> P' p) -> Forall (msg_ok D' P') more ->
  received D P account t msgs -> received D' P' account t (msgs ++ more).
Proof.
  intros HD HP Hm [R1 R2 R3]. split; [|by eauto..].
  apply Forall_app_2; [|done]. eapply Forall_impl; [exact R1|]. intros m [Ha Hb]. split; eauto.
Qed.

Lemma received_state D P account s t msgs :
  received D P account t msgs -> received D P account (with_state s t) msgs.
Proof. intros [R1 R2 R3]. by split. Qed.

Lemma received_conflict D P account h t msgs :
  received D P account t msgs -> received D P account (with_conflict_height h t) msgs.
Proof. intros [R1 R2 R3]. by split. Qed.

Lemma received_updated D P account t t' msgs :
  updated t t' -> received D P account t msgs -> received D P account t' msgs.
Proof.
  intros [-> |[[_ ->]|[_ [-> |[-> |(h & -> & _)]]]]] Hr;
    [done|by apply received_state..|by apply received_conflict].
Qed.

Lemma order_type_got account msg t :
  GetOrderType account (HandleTradeMessage account msg t) = GetOrderType account t.
Proof.
  unfold GetOrderType, GetRole, order_of. by rewrite (ev_order _ _ (message_evolves account msg t)).
Qed.

Lemma role_got account msg t :
  GetRole account (HandleTradeMessage account msg t) = GetRole account t.
Proof. unfold GetRole, order_of. by rewrite (ev_order _ _ (message_evolves account msg t)). Qed.

Lemma state_got account from msg t : state_of (got account from msg t) = state_of t.
Proof. unfold got, HandleTradeMessage, MergeSellerData, MergePsbt. by repeat case_match. Qed.

Lemma merge_data_cases account sd0 t :
  MergeSellerData account sd0 t = t \/ MergeSellerData account sd0 t = with_seller_data (Some sd0) t.
Proof. unfold MergeSellerData. repeat case_match; auto. Qed.

Lemma merge_psbt_cases p t :
  MergePsbt p t = t \/ MergePsbt p t = with_their_psbt (Some (psbt_of p)) t.
Proof. unfold MergePsbt. case_match; auto. Qed.

(** A message that is in order leaves things in order. *)
Lemma received_got (D : SellerData -> Prop) (P : string -> Prop) account msg t msgs :
  msg_ok D P msg -> received D P account t msgs ->
  received D P account (HandleTradeMessage account msg t) msgs.
Proof.
  intros [Hd Hp] Hr. unfold HandleTradeMessage.
  destruct (negb (bool_decide (state_of t = INITIATED))); [done|].
  assert (Hmd : forall sd u, pm_seller_data msg = Some sd -> received D P account u msgs ->
    received D P account (MergeSellerData account sd u) msgs).
  { intros sd u Hsd [R1 R2 R3]. destruct (merge_data_cases account sd u) as [-> | ->]; [by split|].
    split; [done| |done]. cbn. intros _ sd' [= <-]. by apply Hd. }
  assert (Hmp : forall p u, pm_psbt msg = Some p -> received D P account u msgs ->
    received D P account (MergePsbt p u) msgs).
  { intros p u Hps [R1 R2 R3]. destruct (merge_psbt_cases p u) as [-> | ->]; [by split|].
    split; [done..|]. cbn. intros q [= <-]. by apply Hp. }
  destruct (pm_seller_data msg) as [sd|], (pm_psbt msg) as [q|]; auto.
Qed.

Lemma received_ours D P account t t1 msgs :
  with_ours t t1 -> received D P account t msgs -> received D P account t1 msgs.
Proof. intros [-> |[_ [q ->]]] [R1 R2 R3]; by split. Qed.

Lemma received_local D P account t out t' l msgs :
  local_step account t out t' l -> received D P account t msgs -> received D P account t' msgs.
Proof.
  intros [t1 l' Ho|sd l' Hty _|p q l' _ _ _|q t1 l' _ _ Ho _|t1 l' _ _ Ho _ _] Hr.
  - by eapply received_ours.
  - destruct Hr as [R1 R2 R3]. split; [done| |done].
    change (GetOrderType account (with_seller_data (Some sd) t)) with (GetOrderType account t).
    rewrite Hty. done.
  - destruct Hr as [R1 R2 R3]. by split.
  - apply received_state. by eapply received_ours.
  - apply received_state. by eapply received_ours.
Qed.

(** Delivering a message, seen by the receiver. *)
Lemma received_deliver D P account from msg pre post w o w' :
  received D P account (wst w) (pre ++ msg :: post) -> receive account from msg w = (o, w') ->
  received D P account (wst w') (pre ++ post).
Proof.
  intros Hr Hrec. assert (Hr' : received D P account (wst w) (pre ++ post) /\ msg_ok D P msg).
  { destruct Hr as [R1 R2 R3]. apply Forall_app in R1 as [Ra [Rm Rb]%Forall_cons].
    split; [|done]. split; [|done..]. by apply Forall_app_2. }
  destruct Hr' as [Hr' Hm].
  apply receive_local in Hrec as [[-> _]|(l & _ & _ & Hl)]; [done|].
  eapply received_local; [exact Hl|]. by apply received_got.
Qed.

Lemma received_lost D P account t pre msg post :
  received D P account t (pre ++ msg :: post) -> received D P account t (pre ++ post).
Proof.
  intros [R1 R2 R3]. apply Forall_app in R1 as [Ra [Rm Rb]%Forall_cons].
  split; [|done..]. by apply Forall_app_2.
Qed.

(** *** What is sent stays true of the sender *)

Record grows w w' : Prop := mkGrows {
  gr_trade : evolves (wst w) (wst w');
  gr_trace : exists l, wtrace w' = wtrace w ++ l
}.

Lemma data_from_grows w w' sd : grows w w' -> data_from w sd -> data_from w' sd.
Proof.
  intros [[_ _ _ _ Hsd _ _ _ _] _] (sd' & Hs & ->). exists sd'. split; [|done].
  destruct Hsd as [Hsd|Hsd]; congruence.
Qed.

Lemma psbt_from_taker_grows w w' p : grows w w' -> psbt_from_taker w p -> psbt_from_taker w' p.
Proof.
  intros [[_ _ _ _ _ Hour _ Hst _] _] [Hp Hs]. split.
  - destruct Hour as [Hour|Hour]; congruence.
  - intros Hi. apply Hs. by eapply rtc_initiated.
Qed.

Lemma psbt_from_maker_grows w w' p : grows w w' -> psbt_from_maker w p -> psbt_from_maker w' p.
Proof. intros [_ [l Hl]] Hp. unfold psbt_from_maker. rewrite Hl. apply Exists_app. by left. Qed.

Lemma calls_Update : steps (Node := Node) (calls (fun _ => True)) Update.
Proof.
  unfold Update, update_initiated, update_pending, update_unknown, field.
  repeat first [ progress intros
    | (apply only_calls_calls; first [apply quiet_check_trade | apply quiet_is_final
        | apply quiet_is_conflicted])
    | apply steps_bind; [typeclasses eauto| |]
    | apply calls_modify | apply steps_get; typeclasses eauto
    | (apply only_calls_calls; first [apply only_calls_time | (steps_auto; done)])
    | case_match ].
Qed.

Lemma update_grows w : grows w (snd (Update w)).
Proof.
  split; [apply updated_evolves, run_updated|].
  destruct (calls_Update w) as (l & Hl & _). by exists l.
Qed.

Lemma others_grow w n l : grows w (mkWorld (wst w) n (wtrace w ++ l)).
Proof. split; [reflexivity|by exists l]. Qed.

Lemma receive_grows account from msg w o w' : receive account from msg w = (o, w') -> grows w w'.
Proof.
  intros [[-> _]|(l & Hl & He & _)]%receive_local.
  - split; [reflexivity|]. exists []. by rewrite app_nil_r.
  - split; [done|]. by exists l.
Qed.

(** *** What each party sends *)

Lemma maker_sends account from msg w o w' :
  receive account from msg w = (o, w') -> GetRole account (wst w) = MAKER ->
  Forall (msg_ok (data_from w') (psbt_from_maker w')) (sent o).
Proof.
  intros [[_ ->]|(l & Hl & _ & Hs)]%receive_local Hr; [constructor|].
  assert (Hg : GetRole account (got account from msg (wst w)) = MAKER)
    by (unfold got; by rewrite role_got).
  remember (wst w') as t' eqn:Ht'. remember (sent o) as out eqn:Hout.
  destruct Hs as [t1 l' _|sd l' _ _|p q l' _ _ Hx|q t1 l' Hx|t1 l' _ _ _ _ _]; [constructor| | |congruence|constructor];
    (constructor; [|constructor]).
  - split; cbn; [|done]. intros sd' [= <-]. exists sd. split; [by rewrite <-Ht'|done].
  - split; cbn; [done|]. intros p' [= <-]. unfold psbt_from_maker. rewrite Hl.
    apply Exists_app. by right.
Qed.

Lemma taker_sends account from msg w o w' :
  receive account from msg w = (o, w') -> GetRole account (wst w) = TAKER ->
  Forall (msg_ok (data_from w') (psbt_from_taker w')) (sent o).
Proof.
  intros [[_ ->]|(l & Hl & _ & Hs)]%receive_local Hr; [constructor|].
  assert (Hg : GetRole account (got account from msg (wst w)) = TAKER)
    by (unfold got; by rewrite role_got).
  remember (wst w') as t' eqn:Ht'. remember (sent o) as out eqn:Hout.
  destruct Hs as [t1 l' _|sd l' _ _|p q l' Hx|q t1 l' _ _ _ Hq|t1 l' Hx]; [constructor| |congruence| |congruence];
    (constructor; [|constructor]).
  - split; cbn; [|done]. intros sd' [= <-]. exists sd. split; [by rewrite <-Ht'|done].
  - split; cbn; [done|]. intros p' [= <-]. unfold psbt_from_taker. by rewrite <-Ht'.
Qed.

(** *** The invariant of the system *)

(** The transaction is on its way, as far as the party knows. *)
Definition settled (t : TradeState) : Prop :=
  state_of t = PENDING \/ state_of t = SUCCESS \/ state_of t = FAILED.

Lemma maker_settles account from msg w o w' :
  receive account from msg w = (o, w') -> GetRole account (wst w) = MAKER ->
  settled (wst w') -> settled (wst w) \/ has (ts_their_psbt (wst w')) = true.
Proof.
  intros [[-> _]|(l & _ & _ & Hs)]%receive_local Hr Hst; [by left|].
  assert (Hg : GetRole account (got account from msg (wst w)) = MAKER)
    by (unfold got; by rewrite role_got).
  assert (Hsame : forall t1, state_of t1 = state_of (got account from msg (wst w)) ->
    settled t1 -> settled (wst w)).
  { intros t1 He. unfold settled. by rewrite He, state_got. }
  remember (wst w') as t' eqn:Ht'. remember (sent o) as out eqn:Hout.
  destruct Hs as [t1 l' Ho|sd l' _ _|p q l' _ _ _|q t1 l' Hx|t1 l' _ _ Ho _ Hth].
  - left. eapply Hsame; [|exact Hst]. by apply with_ours_state.
  - left. by eapply Hsame.
  - left. by eapply Hsame.
  - congruence.
  - right. by destruct Ho as [-> |[_ [q ->]]].
Qed.

Lemma update_settles w :
  settled (wst (snd (Update w))) -> settled (wst w).
Proof.
  unfold settled. destruct (run_updated w) as [-> |[[Hi ->]|[Hp _]]]; [done| |by left].
  cbn. intros [?|[?|?]]; done.
Qed.

Record agrees (s : Sys) : Prop := mkAgrees {
  ag_maker_role : GetRole maker (wst (s_maker s)) = MAKER;
  ag_taker_role : GetRole taker (wst (s_taker s)) = TAKER;
  ag_terms : BuildTradeChecker maker (wst (s_maker s)) = BuildTradeChecker taker (wst (s_taker s));
  ag_types : GetOrderType maker (wst (s_maker s)) <> GetOrderType taker (wst (s_taker s));
  ag_to_maker : received (data_from (s_taker s)) (psbt_from_taker (s_taker s)) maker
    (wst (s_maker s)) (to_maker s);
  ag_to_taker : received (data_from (s_maker s)) (psbt_from_maker (s_maker s)) taker
    (wst (s_taker s)) (to_taker s);
  ag_settled : settled (wst (s_maker s)) -> has (ts_their_psbt (wst (s_maker s))) = true
}.

Lemma evolves_terms account t t' :
  evolves t t' -> GetRole account t' = GetRole account t /\
  GetOrderType account t' = GetOrderType account t /\
  BuildTradeChecker account t' = BuildTradeChecker account t.
Proof.
  intros [Ho Hu Hc _ _ _ _ _ _].
  unfold BuildTradeChecker, GetOrderType, GetRole, order_of, units_of, counterparty_of.
  by rewrite Ho, Hu, Hc.
Qed.

Lemma still_theirs w w' :
  grows w w' -> has (ts_their_psbt (wst w)) = true -> has (ts_their_psbt (wst w')) = true.
Proof. intros [[_ _ _ _ _ _ Ht _ _] _] Hh. destruct Ht as [Ht|Ht]; [by rewrite Ht in Hh|by rewrite Ht]. Qed.

Lemma received_grows_maker s w' more :
  grows (s_taker s) w' -> Forall (msg_ok (data_from w') (psbt_from_taker w')) more ->
  agrees s -> received (data_from w') (psbt_from_taker w') maker (wst (s_maker s)) (to_maker s ++ more).
Proof.
  intros Hg Hm Ha. eapply received_mono; [| |exact Hm|exact (ag_to_maker s Ha)].
  - intros sd. by apply data_from_grows.
  - intros q. by apply psbt_from_taker_grows.
Qed.

Lemma received_grows_taker s w' more :
  grows (s_maker s) w' -> Forall (msg_ok (data_from w') (psbt_from_maker w')) more ->
  agrees s -> received (data_from w') (psbt_from_maker w') taker (wst (s_taker s)) (to_taker s ++ more).
Proof.
  intros Hg Hm Ha. eapply received_mono; [| |exact Hm|exact (ag_to_taker s Ha)].
  - intros sd. by apply data_from_grows.
  - intros q. by apply psbt_from_maker_grows.
Qed.

(** The maker moves on: what it receives and what it sends are in order. *)
Lemma agrees_maker s w' msgs more :
  agrees s -> grows (s_maker s) w' ->
  received (data_from (s_taker s)) (psbt_from_taker (s_taker s)) maker (wst w') msgs ->
  Forall (msg_ok (data_from w') (psbt_from_maker w')) more ->
  (settled (wst w') -> settled (wst (s_maker s)) \/ has (ts_their_psbt (wst w')) = true) ->
  agrees (mkSys w' (s_taker s) msgs (to_taker s ++ more)).
Proof.
  intros Ha Hg Hr Hm Hs. destruct (evolves_terms maker _ _ (gr_trade _ _ Hg)) as (E1 & E2 & E3).
  split; cbn [s_maker s_taker to_maker to_taker].
  - rewrite E1. by apply ag_maker_role.
  - by apply ag_taker_role.
  - rewrite E3. by apply ag_terms.
  - rewrite E2. by apply ag_types.
  - done.
  - by apply received_grows_taker.
  - intros [Hold|?]%Hs; [|done]. eapply still_theirs; [exact Hg|]. by apply ag_settled.
Qed.

Lemma agrees_taker s w' msgs more :
  agrees s -> grows (s_taker s) w' ->
  received (data_from (s_maker s)) (psbt_from_maker (s_maker s)) taker (wst w') msgs ->
  Forall (msg_ok (data_from w') (psbt_from_taker w')) more ->
  agrees (mkSys (s_maker s) w' (to_maker s ++ more) msgs).
Proof.
  intros Ha Hg Hr Hm. destruct (evolves_terms taker _ _ (gr_trade _ _ Hg)) as (E1 & E2 & E3).
  split; cbn [s_maker s_taker to_maker to_taker].
  - by apply ag_maker_role.
  - rewrite E1. by apply ag_taker_role.
  - rewrite E3. by apply ag_terms.
  - rewrite E2. by apply ag_types.
  - by apply received_grows_maker.
  - done.
  - by apply ag_settled.
Qed.

Lemma agrees_lost_maker s pre msg post :
  to_maker s = pre ++ msg :: post -> agrees s ->
  agrees (mkSys (s_maker s) (s_taker s) (pre ++ post) (to_taker s)).
Proof.
  intros Hq [A1 A2 A3 A4 A5 A6 A7]. split; try done. rewrite Hq in A5. by eapply received_lost.
Qed.

Lemma agrees_lost_taker s pre msg post :
  to_taker s = pre ++ msg :: post -> agrees s ->
  agrees (mkSys (s_maker s) (s_taker s) (to_maker s) (pre ++ post)).
Proof.
  intros Hq [A1 A2 A3 A4 A5 A6 A7]. split; try done. rewrite Hq in A6. by eapply received_lost.
Qed.

Lemma sys_step_agrees b s s' : sys_step b s s' -> agrees s -> agrees s'.
Proof.
  intros [s0 pre msg post o w' Hq Hr|s0 pre msg post o w' Hq Hr|s0 pre msg post Hq|
    s0 pre msg post Hq|s0|s0|s0 n l|s0 n l] Ha.
  - pose proof (ag_to_maker _ Ha) as Hm. rewrite Hq in Hm.
    apply agrees_maker; [done|by eapply receive_grows|by eapply received_deliver| |].
    + eapply maker_sends; [exact Hr|by apply ag_maker_role].
    + intros Hs. eapply maker_settles; [exact Hr|by apply ag_maker_role|done].
  - pose proof (ag_to_taker _ Ha) as Hm. rewrite Hq in Hm.
    apply agrees_taker; [done|by eapply receive_grows|by eapply received_deliver|].
    eapply taker_sends; [exact Hr|by apply ag_taker_role].
  - by eapply agrees_lost_maker.
  - by eapply agrees_lost_taker.
  - rewrite <-(app_nil_r (to_taker s0)).
    apply agrees_maker; [done|apply update_grows| |constructor|intros; left; by apply update_settles].
    eapply received_updated; [apply run_updated|by apply ag_to_maker].
  - rewrite <-(app_nil_r (to_maker s0)).
    apply agrees_taker; [done|apply update_grows| |constructor].
    eapply received_updated; [apply run_updated|by apply ag_to_taker].
  - rewrite <-(app_nil_r (to_taker s0)).
    apply agrees_maker; [done|by apply others_grow|by apply ag_to_maker|constructor|by left].
  - rewrite <-(app_nil_r (to_maker s0)).
    apply agrees_taker; [done|by apply others_grow|by apply ag_to_taker|constructor].
Qed.

(** The two copies of a trade that is about to be negotiated are on the same
    terms, with opposite roles. *)
Lemma new_trades_agree o o' units now now' :
  maker <> taker -> same_order o o' -> account_of o = maker ->
  let tm := new_trade o now units taker in
  let tt := new_trade o' now' units (account_of o') in
  GetRole maker tm = MAKER /\ GetRole taker tt = TAKER /\
  GetOrderType taker tt = match GetOrderType maker tm with BID => ASK | ASK => BID end /\
  BuildTradeChecker maker tm = BuildTradeChecker taker tt /\ GetIdentifier tm = GetIdentifier tt.
Proof.
  intros Hne [Sa Si Sas St Sp] Ham tm tt.
  change (order_of tt) with o' in *. change (order_of tm) with o in *.
  assert (Hmr : GetRole maker tm = MAKER).
  { unfold GetRole. cbn. by rewrite Ham, String.eqb_refl. }
  assert (Htr : GetRole taker tt = TAKER).
  { unfold GetRole. cbn. rewrite <-Sa, Ham. by destruct (String.eqb_spec maker taker). }
  assert (Hty : GetOrderType taker tt = match GetOrderType maker tm with BID => ASK | ASK => BID end).
  { unfold GetOrderType. rewrite Hmr, Htr. cbn. by rewrite <-St. }
  split_and!; try done.
  - unfold BuildTradeChecker. rewrite Hty. cbn. rewrite <-Sa, Ham.
    unfold order_of. cbn. rewrite <-Sas, <-Sp. by destruct (GetOrderType maker tm).
  - unfold GetIdentifier, order_of. cbn. by rewrite Sa, Si.
Qed.

Lemma started_agrees s : started s -> agrees s.
Proof.
  intros [o o' units now now' wm wt0 wt r Hne Hso Ham Hwm Hwt Hrep].
  destruct (checker_widths taker (wst wt0)) as [Hp Hu].
  pose proof (HasReply_summary taker _ wt0 Hp Hu) as Hs. unfold wp in Hs. rewrite Hrep in Hs.
  destruct Hs as (l & _ & Hs). rewrite Hwt in Hs at 2.
  apply fresh_summary in Hs; [|done..].
  destruct (new_trades_agree o o' units now now' Hne Hso Ham) as (Rm & Rt & Rty & Rc & _).
  assert (Hwt' : exists sd, wst wt = new_trade o' now' units (account_of o') \/
    wst wt = with_seller_data sd (new_trade o' now' units (account_of o'))).
  { destruct Hs as [[-> _]|(sd & _ & _ & -> & _)]; [exists None|exists (Some sd)]; auto. }
  assert (Hsame : GetRole taker (wst wt) = TAKER /\
    GetOrderType taker (wst wt) = match GetOrderType maker (wst wm) with BID => ASK | ASK => BID end /\
    BuildTradeChecker maker (wst wm) = BuildTradeChecker taker (wst wt)).
  { rewrite Hwm. by destruct Hwt' as [sd [-> | ->]]. }
  destruct Hsame as (R1 & R2 & R3). rewrite <-Hwm in Rm.
  split; cbn [s_maker s_taker to_maker to_taker]; [done|done|done| | | |].
  - rewrite R2. by destruct (GetOrderType maker (wst wm)).
  - rewrite Hwm. split; [|by intros _|done]. constructor; [|constructor].
    destruct Hs as [[Ht Hsil]|(sd & _ & _ & Ht & Hr)].
    + rewrite (Hsil r eq_refl). by split.
    + injection Hr as ->. split; cbn; [|done]. intros sd' [= <-]. exists sd. by rewrite Ht.
  - split; [constructor| |].
    + intros Hty sd Hsd. exfalso. destruct Hs as [[Ht _]|(sd' & _ & Hask & Ht & _)].
      * rewrite Ht, ?Hwt in Hsd. done.
      * rewrite Ht in Hty. change (GetOrderType taker (new_trade o' now' units (account_of o')) = BID) in Hty.
        rewrite ?Hwt in Hask. congruence.
    + destruct Hs as [[Ht _]|(sd' & _ & Hask & Ht & _)]; rewrite Ht, ?Hwt; done.
  - rewrite Hwm. intros [?|[?|?]]; done.
Qed.

Lemma sys_run_agrees n s s' : sys_run n s s' -> agrees s -> agrees s'.
Proof. induction 1 as [|b n s s' s'' _ IH Hstep]; [done|]. intros Ha. eapply sys_step_agrees; eauto. Qed.

Lemma sys_run_trans n k s1 s2 s3 : sys_run n s1 s2 -> sys_run k s2 s3 -> sys_run (k + n) s1 s3.
Proof.
  intros Hn Hk. induction Hk as [|b k s2 s3 s4 _ IH Hstep]; [done|].
  replace ((if b then Datatypes.S k else k) + n)%nat with (if b then Datatypes.S (k + n) else (k + n)%nat)
    by (by destruct b). exact (run_step b (k + n) s1 s3 s4 (IH Hn) Hstep).
Qed.

(** C5: two honest parties never disagree, in any order of messages, with any
    losses, updates and failures: they trade on the same terms with opposite
    roles; the buyer's seller data are the addresses the seller chose; the PSBT
    the maker combines or signs is the one the taker has stored, and the taker
    has stopped changing the trade by then; a PSBT the taker signs is one that
    the maker had its own wallet sign; and once the maker takes the
    transaction to be on its way, the taker does not consider the trade
    initial any more. *)
Theorem negotiation_agrees n s0 s :
  started s0 -> sys_run n s0 s ->
  let m := wst (s_maker s) in
  let t := wst (s_taker s) in
  BuildTradeChecker maker m = BuildTradeChecker taker t /\
  GetOrderType maker m <> GetOrderType taker t /\
  (GetOrderType maker m = BID -> forall sd, ts_seller_data m = Some sd ->
    exists sd', ts_seller_data t = Some sd' /\ sd = clear_name_output sd') /\
  (GetOrderType taker t = BID -> forall sd, ts_seller_data t = Some sd ->
    exists sd', ts_seller_data m = Some sd' /\ sd = clear_name_output sd') /\
  (forall p, ts_their_psbt m = Some p -> ts_our_psbt t = Some p /\ state_of t <> INITIATED) /\
  (forall p, ts_their_psbt t = Some p -> Exists (fun e => signs e = Some p) (wtrace (s_maker s))) /\
  (settled m -> exists p, ts_their_psbt m = Some p /\ ts_our_psbt t = Some p /\ state_of t <> INITIATED).
Proof.
  intros Hs Hr. apply started_agrees in Hs.
  destruct (sys_run_agrees _ _ _ Hr Hs) as [_ _ Hc Hty [_ Hmd Hmp] [_ Htd Htp] Hset]. cbv zeta.
  split_and!; try done. intros Hst. apply Hset in Hst. apply has_Some in Hst as [p Hp].
  exists p. split; [done|]. by apply Hmp.
Qed.

End parties.

(** [receive] is [TradeManager::ProcessMessage] for a process with one trade,
    when the message takes no order. *)
Lemma receive_is_ProcessMessage `{JsonLib} `{!Uint256Lib} `{!AmountLib} `{!ProtoRuntime}
    {Node : Type} `{!XayaRpc Node} `{!DemGspRpc Node} `{!AssetSpec Node} `{!Clock Node} `{!Flags}
    {S : Type} `{!HasState S} `{!OrderHooks Node S} from msg t (w : World Node S) :
  pm_taking_order msg = None -> st_trades (proj (wst w)) = [t] ->
  ProcessMessage (with_msg_counterparty (Some from) msg) w =
  AccessState (zoom (trade_at 0) (set_trade 0) (receive (acct (proj (wst w))) from msg)) w.
Proof.
  intros Hto Ht. set (m := with_msg_counterparty (Some from) msg).
  assert (Hat : trade_at 0 (proj (wst w)) = t) by (unfold trade_at; by rewrite Ht).
  assert (Hset : set_trade 0 t (proj (wst w)) = proj (wst w)).
  { unfold set_trade. rewrite Ht. cbn. rewrite <-Ht. by destruct (proj (wst w)). }
  unfold ProcessMessage, process_locked, accept_taking_order. change (pm_taking_order m) with (pm_taking_order msg).
  rewrite Hto. unfold receive, AccessState, zoom, mbind, M_bind, check, mret, M_ret, get.
  fold m. cbn [has pm_counterparty m with_msg_counterparty negb]. cbn [wst wnode wtrace].
  rewrite Ht. cbn [find_match]. rewrite Hat.
  destruct (Matches t m); cbn [wst wnode wtrace]; rewrite ?Hat, ?Hset; done.
Qed.

(* ------------------------------------------------------------------ *)
(** ** Complete negotiations *)

Module ProtocolWitness.
Import Mock.

#[local] Existing Instance default_flags.

(** A party: whether its wallet has the seller's keys, and how many addresses
    the wallet has given out. *)
Record Party := mkParty { is_seller : bool; addresses : nat; seller_name : string; buyer_name : string }.

(** The joined transaction, whose inputs are decoded as in [Mock]. *)
Definition outs (seller buyer : string) : list Json :=
  let move := jwrite (obj [("g", obj [("nf", arr [jstr seller; jstr buyer; jstr "gold"; jint 2]);
                                      ("dem", jobject)])]) in
  [pay_out "change" 7; pay_out "addr-chi" 10; name_out "addr-name" (GetXayaName seller) move].

Definition decode_for (n : Party) (p : string) : Json :=
  let inputs := match jget (decode p) "inputs" with Some v => jelems v | None => [] end in
  psbt "btx" [tx_in "coin" 3; tx_in "nametx" 1] (outs (seller_name n) (buyer_name n)) inputs.

Definition signed_by (seller : bool) (p : string) : Json :=
  if seller then
    obj [("psbt", jstr (if String.eqb p "buyer-signed" then "full" else "seller-signed"));
         ("complete", jbool (String.eqb p "buyer-signed"))]
  else obj [("psbt", jstr "buyer-signed"); ("complete", jbool false)].

#[local] Instance party_wallet : XayaRpc Party := fun c n =>
  match c with
  | getnewaddress =>
      (inr (if Nat.even (addresses n) then "addr-name" else "addr-chi"),
       mkParty (is_seller n) (addresses n + 1) (seller_name n) (buyer_name n))
  | decodepsbt p => (inr (decode_for n p), n)
  | walletprocesspsbt p => (inr (signed_by (is_seller n) p), n)
  | c => (wallet c, n)
  end.

#[local] Instance party_spec : AssetSpec Party := {
  GetGameId := "nf";
  spec_is_asset a n := (Ret true, n);
  spec_can_sell nm a k n := (Ret (if k <=? 5 then Some "b3" else None), n);
  spec_can_buy nm a k n := (Ret true, n);
  GetTransferMove := GetTransferMove (AssetSpec := spec_node)
}.

#[local] Instance party_gsp : DemGspRpc Party := fun b n => (gsp b, n).
#[local] Instance party_clock : Clock Party := fun n => (1000, n).

(** *** "alice" offers gold, "bob" takes the offer *)

Definition order (ty : OrderType) (price : Z) : Order :=
  mkOrder (Some "alice") (Some 7) (Some "gold") None (Some 5) (Some ty) (Some price) None.

Definition trade (ty : OrderType) (counterparty : string) : TradeState :=
  new_trade (order ty 5) 1000 2 counterparty.

Definition wm : World Party TradeState := world_of (trade ASK "bob") (mkParty true 0 "alice" "bob").
Definition wt0 : World Party TradeState := world_of (trade ASK "alice") (mkParty false 0 "alice" "bob").
Definition taken := HasReply "bob" (BuildTradeChecker "bob" (wst wt0)) wt0.
Definition wt : World Party TradeState := snd taken.

Definition s0 : Sys :=
  mkSys wm wt [wire (SetTakingOrder (wst wt) (InitProcessingMessage (wst wt)))] [].

Definition only (l : list ProcessingMessage) : ProcessingMessage := default empty_message (head l).

(** The three deliveries of the negotiation. *)
Definition r1 := receive "alice" "bob" (only (to_maker s0)) wm.
Definition r2 := receive "bob" "alice" (only (sent (fst r1))) wt.
Definition r3 := receive "alice" "bob" (only (sent (fst r2))) (snd r1).

Definition s1 : Sys := mkSys (snd r1) wt ([] ++ []) ([] ++ sent (fst r1)).
Definition s2 : Sys := mkSys (snd r1) (snd r2) ([] ++ sent (fst r2)) ([] ++ []).
Definition s3 : Sys := mkSys (snd r3) (snd r2) ([] ++ []) ([] ++ sent (fst r3)).

Lemma s0_started : started "alice" "bob" s0.
Proof.
  apply (started_intro "alice" "bob" (order ASK 5) (order ASK 5) 2 1000 1000 wm wt0 wt None).
  - done.
  - by split.
  - reflexivity.
  - reflexivity.
  - reflexivity.
  - apply run_eq. vm_compute. reflexivity.
Qed.

Lemma run3 : sys_run "alice" "bob" 3 s0 s3.
Proof.
  apply (run_step _ _ true 2 s0 s2 s3); [apply (run_step _ _ true 1 s0 s1 s2);
    [apply (run_step _ _ true 0 s0 s0 s1); [constructor|]|]|].
  - apply (deliver_to_maker _ _ s0 [] (only (to_maker s0)) [] (fst r1) (snd r1)); [reflexivity|].
    apply surjective_pairing.
  - apply (deliver_to_taker _ _ s1 [] (only (sent (fst r1))) [] (fst r2) (snd r2));
      [vm_compute; reflexivity|apply surjective_pairing].
  - apply (deliver_to_maker _ _ s2 [] (only (sent (fst r2))) [] (fst r3) (snd r3));
      [vm_compute; reflexivity|apply surjective_pairing].
Qed.

(** With cooperating services the trade is on its way after three messages. *)
Example sale_completes :
  state_of (wst (s_maker s3)) = PENDING /\ state_of (wst (s_taker s3)) = PENDING /\
  existsb broadcasts (wtrace (s_maker s3)) = true.
Proof. vm_compute. split_and!; reflexivity. Qed.

Lemma negotiation_terminates_witness : (3 <= 7)%nat.
Proof. exact (negotiation_terminates "alice" "bob" 3 s0 s3 s0_started run3). Defined.

Lemma negotiation_agrees_witness :
  exists p, ts_their_psbt (wst (s_maker s3)) = Some p /\ ts_our_psbt (wst (s_taker s3)) = Some p.
Proof.
  destruct (negotiation_agrees "alice" "bob" 3 s0 s3 s0_started run3) as (_ & _ & _ & _ & _ & _ & Hs).
  destruct Hs as (p & Hm & Ht & _); [left; vm_compute; reflexivity|]. exists p. exact (conj Hm Ht).
Defined.

(** *** "alice" bids for gold, "bob" sells to her *)

Definition bm : World Party TradeState := world_of (trade BID "bob") (mkParty false 0 "bob" "alice").
Definition bt0 : World Party TradeState := world_of (trade BID "alice") (mkParty true 0 "bob" "alice").
Definition bid_taken := HasReply "bob" (BuildTradeChecker "bob" (wst bt0)) bt0.
Definition first_msg : ProcessingMessage :=
  wire (SetTakingOrder (wst (snd bid_taken)) (only (sent (fst bid_taken)))).
Definition b1 := receive "alice" "bob" first_msg bm.
Definition b2 := receive "bob" "alice" (only (sent (fst b1))) (snd bid_taken).
Definition b3 := receive "alice" "bob" (only (sent (fst b2))) (snd b1).

Example purchase_completes :
  state_of (wst (snd b3)) = PENDING /\ state_of (wst (snd b2)) = PENDING /\
  ts_their_psbt (wst (snd b2)) = Some "joined" /\
  existsb broadcasts (wtrace (snd b3)) = true.
Proof. vm_compute. split_and!; reflexivity. Qed.

End ProtocolWitness.
