(* ===== verification/ThreadSafety.v ===== *)
(** * What holds however the threads of a daemon interleave

    The invariant of [Threads.pool_step].  The state proto is shared, so the
    proof follows who owns what: a thread that has locked an own order holds a
    claim on it until the order is part of an active trade, is unlocked or is
    removed, and a trade that is archived hands its claim to the thread that
    archives it.  [safe] says of a program that each of its sections keeps the
    invariant, whatever the others did before; it is proved method by method. *)

From Stdlib Require Import ZArith Lia String.
From stdpp Require Import base gmap strings list relations.
From S2P Require Import Prelude Json Proto Effects Mock Checker MyOrders Trades TradeSafety TradeManager Protocol Threads.

(* ------------------------------------------------------------------ *)
(** ** What holds between two sections *)

(** What a thread owns between its sections: the right to an own order that
    it has locked, or the knowledge that an order was emptied by a refresh
    that failed. *)
Inductive Claim := Holds (id : Z) | Shell (id : Z).

Definition holds (cs : list Claim) : list Z :=
  omap (fun c => match c with Holds id => Some id | Shell _ => None end) cs.
Definition shells (cs : list Claim) : list Z :=
  omap (fun c => match c with Holds _ => None | Shell id => Some id end) cs.

Definition empty_shell (id : Z) (s : State) : Prop :=
  0 <= id < next_free_id s /\ forall o, own_map s !! id = Some o -> o_asset o = None.

(** Nobody can take the order. *)
Definition guarded (id : Z) (s : State) : Prop :=
  0 <= id < next_free_id s /\
  forall o, own_map s !! id = Some o -> locked_of o = true \/ o_asset o = None.

(** The own order a trade is about. *)
Definition own_id (account : string) (t : TradeState) : option Z :=
  match GetRole account t with MAKER => Some (id_of (order_of t)) | TAKER => None end.

(** The own orders that active trades are about. *)
Definition own_trade_ids (account : string) (s : State) : list Z := omap (own_id account) (st_trades s).

(** The order [o] asks for no more than [o'] does: it is about the same asset,
    at the same price, from the same number of units on, and not for more
    units, unless the minimum is so large that it is negative when the code
    reads it as a signed number. *)
Definition same_terms (o o' : Order) : Prop :=
  o_asset o = o_asset o' /\ o_type o = o_type o' /\ o_price_sat o = o_price_sat o' /\
  o_min_units o = o_min_units o' /\
  (0 <= s64 (min_units_of o') -> s64 (max_units_of o) <= s64 (max_units_of o')).

(** The user offered an order on these terms. *)
Definition offered (h : list Call) (o : Order) : Prop :=
  exists o', CallAdd o' ∈ h /\ same_terms o o'.

(** The user agreed to the trade: it took the other's order for so many units,
    or the order is one it offered, taken for units the order allows. *)
Definition agreed (account : string) (h : list Call) (t : TradeState) : Prop :=
  exists units, CheckOrder (order_of t) units = true /\ units_of t = u64 units /\
    match GetRole account t with
    | TAKER => CallTake (order_of t) units ∈ h
    | MAKER => offered h (order_of t)
    end.

(** The terms on which a trade is checked and its transaction built: the order's
    asset and price, the trade's units, the other party and us on the sides of
    the order's type. *)
Record trade_terms (account : string) (t : TradeState) (tc : TradeChecker) : Prop := mkTradeTerms {
  tm_asset : tc_asset tc = asset_of (order_of t);
  tm_price : tc_price tc = s64 (price_sat_of (order_of t));
  tm_units : tc_units tc = s64 (units_of t);
  tm_parties : match GetOrderType account t with
    | ASK => tc_seller tc = account /\ tc_buyer tc = counterparty_of t
    | BID => tc_buyer tc = account /\ tc_seller tc = counterparty_of t
    end
}.

Lemma BuildTradeChecker_terms account t : trade_terms account t (BuildTradeChecker account t).
Proof. unfold BuildTradeChecker. split; by destruct (GetOrderType account t). Qed.

Section invariant.
Context `{JsonLib} `{!Uint256Lib} `{!AmountLib} {Node : Type} `{!AssetSpec Node} {S : Type}
  `{!HasState S} (account : string).

(** What made the wallet sign [p], the calls [l] right before included. *)
Definition justified (h : list Call) (t : TradeState) (p : string) (l : list Event) : Prop :=
  agreed account h t /\ trade_inv account t /\ state_of t = INITIATED /\ ts_our_psbt t = None /\
  exists tc, trade_terms account t tc /\
  match GetOrderType account t with
  | ASK => ts_their_psbt t = Some p /\ outputs_accepted tc (seller_data_of t) p l
  | BID => purchase tc (seller_data_of t) (counterparty_of t) p l
  end.

Definition signatures_ok (h : list Call) (tr : list Event) : Prop :=
  forall pre p r post, tr = pre ++ EvXaya (walletprocesspsbt p) r :: post ->
    exists t l0 l, pre = l0 ++ l /\ justified h t p l.

(** The state after at most [n] steps; [cs] is what all threads own. *)
Record state_ok (n : nat) (h : list Call) (cs : list Claim) (s : State) : Prop := mkStateOk {
  ok_account : acct s = account;
  ok_next : 0 <= next_free_id s <= Z.of_nat n;
  ok_ids : Spec.ids_ok s;
  ok_once : NoDup (holds cs ++ own_trade_ids account s);
  ok_guarded : Forall (fun id => guarded id s) (holds cs ++ own_trade_ids account s);
  ok_shells : Forall (fun id => empty_shell id s) (shells cs);
  ok_trades : Forall (fun t => agreed account h t /\ trade_inv account t) (st_trades s);
  ok_orders : forall id o, own_map s !! id = Some o -> o_asset o = None \/ offered h o
}.

Definition inv (n : nat) (h : list Call) (cs : list Claim) (w : World Node S) : Prop :=
  state_ok n h cs (proj (wst w)) /\ signatures_ok h (wtrace w).

End invariant.

(* ------------------------------------------------------------------ *)
(** ** Lemmas on the invariant *)

Lemma holds_app cs cs' : holds (cs ++ cs') = holds cs ++ holds cs'.
Proof. apply omap_app. Qed.
Lemma shells_app cs cs' : shells (cs ++ cs') = shells cs ++ shells cs'.
Proof. apply omap_app. Qed.
#[export] Hint Rewrite holds_app shells_app : dem_rw.

#[export] Instance holds_perm : Proper ((≡ₚ) ==> (≡ₚ)) holds.
Proof. intros cs cs' Hp. by apply omap_Permutation. Qed.
#[export] Instance shells_perm : Proper ((≡ₚ) ==> (≡ₚ)) shells.
Proof. intros cs cs' Hp. by apply omap_Permutation. Qed.

(** At most orders were removed or emptied. *)
Record shrinks (s s' : State) : Prop := mkShrinks {
  sh_account : st_account s' = st_account s;
  sh_next : st_next_free_id s' = st_next_free_id s;
  sh_trades : st_trades s' = st_trades s;
  sh_orders : forall id o', own_map s' !! id = Some o' ->
    exists o, own_map s !! id = Some o /\ (o' = o \/ o_asset o' = None)
}.

#[export] Instance shrinks_preorder : PreOrder shrinks.
Proof.
  split; [split; eauto|]. intros s1 s2 s3 [A1 N1 T1 O1] [A2 N2 T2 O2].
  split; [congruence..|]. intros id o3 H3.
  destruct (O2 _ _ H3) as (o2 & H2 & [->|?]); [by apply O1|].
  destruct (O1 _ _ H2) as (o1 & H1 & _). eauto.
Qed.

Section facts.
Context `{JsonLib} `{!Uint256Lib} `{!AmountLib} {Node : Type} `{!AssetSpec Node} {S : Type}
  `{!HasState S} (account : string).
Implicit Types (s : State) (w : World Node S) (cs : list Claim) (h : list Call).

#[export] Instance state_ok_perm n h : Proper ((≡ₚ) ==> (=) ==> iff) (state_ok account n h).
Proof.
  assert (forall cs cs' s, cs ≡ₚ cs' -> state_ok account n h cs s -> state_ok account n h cs' s).
  { intros cs cs' s Hp []. split; try done; by rewrite <-Hp. }
  intros cs cs' Hp s ? <-. split; [|symmetry in Hp]; eauto.
Qed.

(** A thread that ends gives up what it owns. *)
Lemma state_ok_drop n h cs rest s :
  state_ok account n h (cs ++ rest) s -> state_ok account n h rest s.
Proof.
  intros []. autorewrite with dem_rw in *. rewrite <-app_assoc in *.
  split; try done.
  - by apply NoDup_app in ok_once0 as (_ & _ & ?).
  - by apply Forall_app in ok_guarded0 as [_ ?].
  - by apply Forall_app in ok_shells0 as [_ ?].
Qed.

Lemma offered_mono h h' o : h ⊆ h' -> offered h o -> offered h' o.
Proof. intros Hs (o' & Hin & ?). exists o'. split; [by apply Hs|done]. Qed.

Lemma agreed_mono h h' t : h ⊆ h' -> agreed account h t -> agreed account h' t.
Proof.
  intros Hs (u & Hc & Hu & Hr). exists u. split_and!; [done..|].
  destruct (GetRole account t); [by eapply offered_mono|by apply Hs].
Qed.

Lemma state_ok_mono n n' h h' cs s :
  (n <= n')%nat -> h ⊆ h' -> state_ok account n h cs s -> state_ok account n' h' cs s.
Proof.
  intros Hn Hh []. split; try done; [lia| |].
  - eapply Forall_impl; [done|]. intros t [? ?]. split; [by eapply agreed_mono|done].
  - intros id o Ho. destruct (ok_orders0 id o Ho); [by left|right]. by eapply offered_mono.
Qed.

Lemma signatures_ok_mono h h' tr :
  h ⊆ h' -> signatures_ok account h tr -> signatures_ok account h' tr.
Proof.
  intros Hh Hs pre p r post Htr. destruct (Hs _ _ _ _ Htr) as (t & l0 & l & -> & Ha & ?).
  exists t, l0, l. split; [done|]. split; [by eapply agreed_mono|done].
Qed.

(** A section adds calls in which every signature is justified by the calls
    before it in the same section. *)
Lemma signatures_ok_app h tr l :
  signatures_ok account h tr ->
  (forall l1 p r l2, l = l1 ++ EvXaya (walletprocesspsbt p) r :: l2 ->
     exists t, justified account h t p l1) ->
  signatures_ok account h (tr ++ l).
Proof.
  intros Htr Hl pre p r post Heq. apply app_eq_app in Heq as (l' & [[-> Heq]|[-> ->]]).
  - destruct l' as [|e l'].
    + destruct (Hl [] p r post (eq_sym Heq)) as (t & Ht). exists t, pre, []. by rewrite !app_nil_r.
    + injection Heq as <- ->. by eapply Htr.
  - destruct (Hl l' p r post eq_refl) as (t & Ht). by exists t, tr, l'.
Qed.

Lemma signatures_ok_unsigned h tr l :
  signatures_ok account h tr -> Forall unsigned l -> signatures_ok account h (tr ++ l).
Proof.
  intros Htr Hl. apply signatures_ok_app; [done|]. intros l1 p r l2 ->.
  apply Forall_app in Hl as [_ Hl%Forall_inv]. discriminate Hl.
Qed.

Lemma inv_mono n n' h h' cs w :
  (n <= n')%nat -> h ⊆ h' -> inv account n h cs w -> inv account n' h' cs w.
Proof. intros ?? [? ?]. split; [by eapply state_ok_mono|by eapply signatures_ok_mono]. Qed.

Lemma inv_drop n h cs rest w : inv account n h (cs ++ rest) w -> inv account n h rest w.
Proof. intros [? ?]. split; [by eapply state_ok_drop|done]. Qed.

#[export] Instance inv_perm n h : Proper ((≡ₚ) ==> (=) ==> iff) (inv (S := S) account n h).
Proof. intros cs cs' Hp w ? <-. unfold inv. by rewrite Hp. Qed.

(** *** State changes that need no claim *)

Lemma own_trade_ids_same s s' :
  st_trades s' = st_trades s -> own_trade_ids account s' = own_trade_ids account s.
Proof. unfold own_trade_ids. by intros ->. Qed.

Lemma guarded_shrinks id s s' : shrinks s s' -> guarded id s -> guarded id s'.
Proof.
  intros [_ Hn _ Ho] [Hr Hg]. unfold guarded, next_free_id. rewrite Hn. split; [exact Hr|].
  intros o' Ho'. destruct (Ho _ _ Ho') as (o & Hl & [->|?]); [by apply Hg|by right].
Qed.

Lemma empty_shell_shrinks id s s' : shrinks s s' -> empty_shell id s -> empty_shell id s'.
Proof.
  intros [_ Hn _ Ho] [Hr Hg]. unfold empty_shell, next_free_id. rewrite Hn. split; [exact Hr|].
  intros o' Ho'. destruct (Ho _ _ Ho') as (o & Hl & [->|?]); [by apply Hg|done].
Qed.

Lemma state_ok_shrinks n h cs s s' :
  shrinks s s' -> state_ok account n h cs s -> state_ok account n h cs s'.
Proof.
  intros Hs []. pose proof Hs as [Ha Hn Ht Ho]. split.
  - unfold acct. by rewrite Ha.
  - unfold next_free_id. by rewrite Hn.
  - intros id [o' Ho']. destruct (Ho _ _ Ho') as (o & Hl & _).
    unfold next_free_id. rewrite Hn. by apply ok_ids0.
  - by rewrite (own_trade_ids_same _ _ Ht).
  - rewrite (own_trade_ids_same _ _ Ht). eapply Forall_impl; [done|]. intros id. by apply guarded_shrinks.
  - eapply Forall_impl; [done|]. intros id. by apply empty_shell_shrinks.
  - by rewrite Ht.
  - intros id o' Ho'. destruct (Ho _ _ Ho') as (o & Hl & [->|?]); [by eapply ok_orders0|by left].
Qed.

(** *** Changes of the own orders *)

#[export] Instance same_terms_preorder : PreOrder same_terms.
Proof.
  split; [done|]. intros o1 o2 o3 (A1 & T1 & P1 & M1 & U1) (A2 & T2 & P2 & M2 & U2).
  split_and!; [congruence..|]. intros Hm.
  assert (min_units_of o2 = min_units_of o3) as Heq by (unfold min_units_of; by rewrite M2).
  rewrite Heq in U1. specialize (U1 Hm). specialize (U2 Hm). lia.
Qed.

Lemma offered_same h o o' : same_terms o o' -> offered h o' -> offered h o.
Proof. intros Hs (x & Hx & Hs'). exists x. split; [done|]. by etransitivity. Qed.

Lemma shrinks_self s : shrinks s (with_own_map (own_map s) s).
Proof. split; try done. intros id o Ho. exists o. auto. Qed.

Lemma state_ok_relock n h cs s id o o' :
  own_map s !! id = Some o -> same_terms o' o ->
  (id ∈ holds cs ++ own_trade_ids account s -> locked_of o' = true \/ o_asset o' = None) ->
  state_ok account n h cs s ->
  state_ok account n h cs (with_own_map (<[id := o']> (own_map s)) s).
Proof.
  intros Ho Hsame Hg [Ha Hn Hids Hon Hgd Hsh Htr Hor]. pose proof Hsame as (Has & _).
  split; try done.
  - intros i. rewrite own_map_with_own_map. intros Hi. apply (Hids i).
    destruct (decide (i = id)) as [->|Hne]; [by rewrite Ho|by rewrite lookup_insert_ne in Hi by done].
  - rewrite Forall_forall in *. intros i Hi. destruct (Hgd i Hi) as [Hr Hl]. split; [exact Hr|].
    intros x. rewrite own_map_with_own_map. destruct (decide (i = id)) as [->|Hne].
    + rewrite lookup_insert_eq. intros [= <-]. by apply Hg.
    + rewrite lookup_insert_ne by done. apply Hl.
  - rewrite Forall_forall in *. intros i Hi. destruct (Hsh i Hi) as [Hr Hl]. split; [exact Hr|].
    intros x. rewrite own_map_with_own_map. destruct (decide (i = id)) as [->|Hne].
    + rewrite lookup_insert_eq. intros [= <-]. rewrite Has. by apply Hl.
    + rewrite lookup_insert_ne by done. apply Hl.
  - intros i x. rewrite own_map_with_own_map. destruct (decide (i = id)) as [->|Hne].
    + rewrite lookup_insert_eq. intros [= <-]. rewrite Has.
      destruct (Hor _ _ Ho); [by left|right]. by eapply offered_same.
    + rewrite lookup_insert_ne by done. apply Hor.
Qed.

Lemma state_ok_hold n h cs s id :
  guarded id s -> id ∉ holds cs ++ own_trade_ids account s ->
  state_ok account n h cs s -> state_ok account n h (Holds id :: cs) s.
Proof.
  intros Hg Hid []. split; try done; cbn.
  - by apply NoDup_cons.
  - by apply Forall_cons.
Qed.

Lemma state_ok_shell n h cs s id :
  empty_shell id s -> state_ok account n h cs s -> state_ok account n h (Shell id :: cs) s.
Proof. intros Hg []. split; try done. cbn. by apply Forall_cons. Qed.

Lemma state_ok_trylock n h cs s id o :
  own_map s !! id = Some o -> locked_of o = false -> state_ok account n h cs s ->
  state_ok account n h ((if has (o_asset o) then Holds id else Shell id) :: cs)
    (with_own_map (<[id := with_locked (Some true) o]> (own_map s)) s).
Proof.
  intros Ho Hl Hok. set (s' := with_own_map _ _).
  assert (Hok' : state_ok account n h cs s') by (eapply state_ok_relock; [done|done|by left|done]).
  pose proof Hok as [_ _ Hids _ Hgd _ _ _].
  assert (Hr : 0 <= id < next_free_id s') by apply (Hids id (mk_is_Some _ _ Ho)).
  assert (Hx : forall x, own_map s' !! id = Some x -> x = with_locked (Some true) o).
  { intros x. unfold s'. rewrite own_map_with_own_map, lookup_insert_eq. congruence. }
  destruct (o_asset o) as [a|] eqn:Ha; cbn [has].
  - apply state_ok_hold; [|intros Hin|done].
    + split; [done|]. intros x ->%Hx. by left.
    + rewrite Forall_forall in Hgd. destruct (Hgd id Hin) as [_ Hg].
      destruct (Hg _ Ho); congruence.
  - apply state_ok_shell; [|done]. split; [done|]. by intros x ->%Hx.
Qed.

Lemma state_ok_unlock n h c cs s id o :
  c = Holds id \/ c = Shell id -> own_map s !! id = Some o ->
  state_ok account n h (c :: cs) s ->
  state_ok account n h cs (with_own_map (<[id := with_locked None o]> (own_map s)) s).
Proof.
  intros Hc Ho Hok. eapply state_ok_relock; [done|done| |by eapply (state_ok_drop n h [c])].
  destruct Hok as [_ _ _ Hon _ Hsh _ _]. intros Hin. destruct Hc as [->| ->]; cbn in *.
  - by apply NoDup_cons in Hon as [Hnot _].
  - right. apply Forall_inv in Hsh as [_ Hsh]. by apply Hsh.
Qed.

Lemma state_ok_add n h cs s o :
  Z.of_nat n + 1 < two64 -> o_asset o = None \/ offered h o -> state_ok account n h cs s ->
  state_ok account (n + 1) h cs
    (with_own_map (<[next_free_id s := o]> (own_map s)) (with_next_free_id (u64 (next_free_id s + 1)) s)).
Proof.
  intros Hb Ho [Ha Hn Hids Hon Hgd Hsh Htr Hor].
  assert (Hu : u64 (next_free_id s + 1) = next_free_id s + 1) by (apply u64_id; unfold is_u64; lia).
  assert (Hnew : forall (P : Order -> Prop) i x, 0 <= i < next_free_id s ->
    (forall y, own_map s !! i = Some y -> P y) ->
    <[next_free_id s := o]> (own_map s) !! i = Some x -> P x).
  { intros P i x Hi HP. rewrite lookup_insert_ne by lia. apply HP. }
  split; try done.
  - change (0 <= u64 (next_free_id s + 1) <= Z.of_nat (n + 1)). lia.
  - intros i [x Hx]. change (0 <= i < u64 (next_free_id s + 1)). rewrite own_map_with_own_map in Hx.
    destruct (decide (i = next_free_id s)) as [->|Hne]; [lia|].
    rewrite lookup_insert_ne in Hx by done. specialize (Hids i (mk_is_Some _ _ Hx)). lia.
  - eapply Forall_impl; [done|]. intros i [Hr Hl]. split; [change (0 <= i < u64 (next_free_id s + 1)); lia|].
    intros x. rewrite own_map_with_own_map. by apply (Hnew (fun y => locked_of y = true \/ o_asset y = None)).
  - eapply Forall_impl; [done|]. intros i [Hr Hl]. split; [change (0 <= i < u64 (next_free_id s + 1)); lia|].
    intros x. rewrite own_map_with_own_map. by apply (Hnew (fun y => o_asset y = None)).
  - intros i x. rewrite own_map_with_own_map. destruct (decide (i = next_free_id s)) as [->|Hne].
    + rewrite lookup_insert_eq. by intros [= <-].
    + rewrite lookup_insert_ne by done. apply Hor.
Qed.

(** *** Changes of the trades *)

Lemma own_ids_evolve l l' : Forall2 evolves l l' -> omap (own_id account) l = omap (own_id account) l'.
Proof.
  induction 1 as [|t t' l l' He _ IH]; [done|]. cbn [omap list_omap].
  assert (own_id account t' = own_id account t) as ->; [|by rewrite IH].
  unfold own_id, GetRole, order_of. by rewrite (ev_order _ _ He).
Qed.

Lemma agreed_evolves h t t' : evolves t t' -> agreed account h t -> agreed account h t'.
Proof.
  intros He. unfold agreed, GetRole, order_of, units_of.
  by rewrite (ev_order _ _ He), (ev_units _ _ He).
Qed.

(** The trades are replaced by the ones in [ts]. *)
Lemma state_ok_evolve n h cs s ts :
  Forall2 evolves (st_trades s) ts ->
  Forall2 (fun t t' => trade_inv account t -> trade_inv account t') (st_trades s) ts ->
  state_ok account n h cs s -> state_ok account n h cs (with_trades ts s).
Proof.
  intros He Hi [Ha Hn Hids Hon Hgd Hsh Htr Hor]. split; try done.
  - unfold own_trade_ids. cbn. by rewrite <-(own_ids_evolve _ _ He).
  - unfold own_trade_ids. cbn. by rewrite <-(own_ids_evolve _ _ He).
  - cbn [st_trades with_trades]. clear -He Hi Htr. induction He as [|t t' l l' He _ IH]; [constructor|].
    apply Forall_cons in Htr as [[Hag Hti] Htr]. apply Forall2_cons in Hi as [Hi His].
    constructor; [split; [by eapply agreed_evolves|by apply Hi]|by apply IH].
Qed.

Lemma state_ok_own_trade n h cs s t id :
  own_id account t = Some id -> agreed account h t -> trade_inv account t ->
  state_ok account n h (Holds id :: cs) s ->
  state_ok account n h cs (with_trades (st_trades s ++ [t]) s).
Proof.
  intros Hid Hag Hinv [Ha Hn Hids Hon Hgd Hsh Htr Hor].
  assert (Hp : holds cs ++ own_trade_ids account (with_trades (st_trades s ++ [t]) s)
    ≡ₚ holds (Holds id :: cs) ++ own_trade_ids account s).
  { unfold own_trade_ids. cbn [st_trades with_trades]. rewrite omap_app. cbn. rewrite Hid. cbn.
    rewrite app_assoc, (Permutation_app_comm _ [id]). done. }
  split; try done; rewrite ?Hp; try done. cbn. apply Forall_app. split; [done|]. by apply Forall_singleton.
Qed.

Lemma state_ok_other_trade n h cs s t :
  own_id account t = None -> agreed account h t -> trade_inv account t ->
  state_ok account n h cs s -> state_ok account n h cs (with_trades (st_trades s ++ [t]) s).
Proof.
  intros Hid Hag Hinv [Ha Hn Hids Hon Hgd Hsh Htr Hor].
  assert (Hp : own_trade_ids account (with_trades (st_trades s ++ [t]) s) = own_trade_ids account s).
  { unfold own_trade_ids. cbn [st_trades with_trades]. rewrite omap_app. cbn. rewrite Hid. cbn.
    by rewrite app_nil_r. }
  split; try done; rewrite ?Hp; try done. cbn. apply Forall_app. split; [done|]. by apply Forall_singleton.
Qed.

(** The archived trades leave the state; whoever has them owns their orders. *)
Lemma state_ok_archive n h cs s a (f : TradeState -> bool) :
  state_ok account n h cs s ->
  let fin := filter (fun t => f t = true) (st_trades s) in
  state_ok account n h (map Holds (omap (own_id account) fin) ++ cs)
    (with_trade_archive a (with_trades (filter (fun t => f t = false) (st_trades s)) s)) /\
  Forall (fun t => agreed account h t /\ trade_inv account t) fin.
Proof.
  intros [Ha Hn Hids Hon Hgd Hsh Htr Hor] fin.
  assert (Hmap : forall l, holds (map Holds l) = l /\ shells (map Holds l) = [])
    by (induction l as [|x l [IH1 IH2]]; [done|]; split; [|exact IH2];
        change (x :: holds (map Holds l) = x :: l); by rewrite IH1).
  destruct (Hmap (omap (own_id account) fin)) as [Hm1 Hm2].
  assert (Hsplit : st_trades s ≡ₚ fin ++ filter (fun t => f t = false) (st_trades s)).
  { unfold fin. clear. induction (st_trades s) as [|t l IH]; [done|].
    destruct (f t) eqn:E.
    - rewrite filter_cons_True, filter_cons_False by congruence. cbn [app]. by rewrite <-IH.
    - rewrite filter_cons_False, filter_cons_True by congruence.
      by rewrite <-Permutation_middle, <-IH. }
  assert (Hp : holds (map Holds (omap (own_id account) fin) ++ cs) ++
      omap (own_id account) (filter (fun t => f t = false) (st_trades s))
    ≡ₚ holds cs ++ own_trade_ids account s).
  { rewrite holds_app, Hm1. unfold own_trade_ids. rewrite Hsplit at 2. rewrite omap_app.
    by rewrite !app_assoc, (Permutation_app_comm (omap _ _) (holds cs)). }
  assert (Hsub : forall b, Forall (fun t => agreed account h t /\ trade_inv account t)
      (filter (fun t => f t = b) (st_trades s))).
  { intros b. rewrite Forall_forall in *. intros t [_ Ht]%list_elem_of_filter. by apply Htr. }
  split; [|apply Hsub]. split; try done.
  - unfold own_trade_ids. cbn [st_trades with_trades with_trade_archive]. by rewrite Hp.
  - unfold own_trade_ids. cbn [st_trades with_trades with_trade_archive]. rewrite Hp. done.
  - by rewrite shells_app, Hm2.
  - apply Hsub.
Qed.

End facts.

(* ------------------------------------------------------------------ *)
(** ** Programs that keep the invariant

    [safe surv Q h cs p]: started with the claims [cs], in a process that has
    got the calls [h], every section of [p] keeps the invariant, whatever the
    other threads do before it (their claims are [rest]); [Q] holds of the
    calls, the claims and the result at the end.  If the thread's exceptions
    do not end the process ([surv]), they keep the invariant too. *)

(** What is common to the sections that need no claim. *)
Definition calm `{JsonLib} {Node S A} `{HasState S} (m : M Node S A) (R : A -> Prop) : Prop :=
  forall w, wp m (fun o w' => shrinks (proj (wst w)) (proj (wst w')) /\ calls unsigned w w' /\
    match o with Ret a => R a | _ => True end) w.

Lemma calm_AccessState `{JsonLib} {Node S A} `{HasState S, !HasStateLaws S} (m : M Node State A) R :
  calm m R -> calm (AccessState (S := S) m) R.
Proof.
  intros Hm w. wp_step. eapply wp_conseq; [apply Hm|]. cbn [wst wtrace]. intros o w'.
  by rewrite proj_inj.
Qed.

Section safe.
Context `{JsonLib} `{!Uint256Lib} `{!AmountLib} {Node : Type} `{!AssetSpec Node} {S : Type}
  `{!HasState S} `{!HasStateLaws S} (account : string) (surv : bool).
Implicit Types (w : World Node S) (cs rest : list Claim) (h : list Call).

Fixpoint safe {A} (Q : list Call -> list Claim -> A -> Prop) (h : list Call) (cs : list Claim)
    (p : prog Node S A) : Prop :=
  match p with
  | PRet a => Q h cs a
  | PSec m k =>
      forall n h' rest w, h ⊆ h' -> Z.of_nat n + 1 < two64 ->
        inv account n h' (cs ++ rest) w ->
        wp m (fun o w' =>
          match o with
          | Ret b => exists cs', inv account (n + 1) h' (cs' ++ rest) w' /\ safe Q h' cs' (k b)
          | Throw _ => surv = true -> inv account (n + 1) h' rest w'
          | Fatal => True
          end) w
  end.

Lemma safe_conseq {A} (Q Q' : list Call -> list Claim -> A -> Prop) h cs (p : prog Node S A) :
  safe Q h cs p -> (forall h' cs' a, h ⊆ h' -> Q h' cs' a -> Q' h' cs' a) -> safe Q' h cs p.
Proof.
  revert h cs. induction p as [a|B m k IH]; intros h cs Hp HQ; cbn [safe] in *; [by apply HQ|].
  intros n h' rest w Hh Hn Hi. eapply wp_conseq; [by apply (Hp n h' rest w)|].
  intros [b|e|] w'; try done. intros (cs' & Hi' & Hs). exists cs'. split; [done|].
  eapply IH; [exact Hs|]. intros h'' cs'' a Hh'. apply HQ. by etransitivity.
Qed.

Lemma safe_bind {A B} (Q : list Call -> list Claim -> B -> Prop) h cs (p : prog Node S A)
    (f : A -> prog Node S B) :
  safe (fun h' cs' a => safe Q h' cs' (f a)) h cs p -> safe Q h cs (p ≫= f).
Proof.
  revert h cs. induction p as [a|C m k IH]; intros h cs Hp; [done|].
  change (PSec m k ≫= f) with (PSec m (fun b => k b ≫= f)). cbn [safe] in *.
  intros n h' rest w Hh Hn Hi. eapply wp_conseq; [by apply (Hp n h' rest w)|].
  intros [b|e|] w'; try done. intros (cs' & Hi' & Hs). exists cs'. split; [done|]. by apply IH.
Qed.

Lemma safe_ret {A} (Q : list Call -> list Claim -> A -> Prop) h cs (a : A) :
  Q h cs a -> safe Q h cs (mret a).
Proof. done. Qed.

(** A section under the state's lock. *)
Lemma safe_AccessState {A} (Q : list Call -> list Claim -> A -> Prop) h cs (m : M Node State A) :
  (forall n h' rest (w : World Node State), h ⊆ h' -> Z.of_nat n + 1 < two64 ->
     state_ok account n h' (cs ++ rest) (wst w) -> signatures_ok account h' (wtrace w) ->
     wp m (fun o (w' : World Node State) =>
       match o with
       | Ret b => (exists cs', state_ok account (n + 1) h' (cs' ++ rest) (wst w') /\ Q h' cs' b) /\
           signatures_ok account h' (wtrace w')
       | Throw _ => surv = true ->
           state_ok account (n + 1) h' rest (wst w') /\ signatures_ok account h' (wtrace w')
       | Fatal => True
       end) w) ->
  safe Q h cs (sec (AccessState m)).
Proof.
  intros Hm n h' rest w Hh Hn [Hs Ht]. wp_step.
  eapply wp_conseq; [by apply (Hm n h' rest)|]. unfold inv. cbn [wst wtrace].
  intros [b|e|] w'; rewrite ?proj_inj; [|done..].
  intros ((cs' & Hs' & HQ) & Ht'). by exists cs'.
Qed.

Lemma safe_calm {A} (m : M Node S A) (R : A -> Prop) (Q : list Call -> list Claim -> A -> Prop) h cs :
  calm m R -> (forall h' a, h ⊆ h' -> R a -> Q h' cs a) -> safe Q h cs (sec m).
Proof.
  intros Hm HQ n h' rest w Hh Hn [Hs Ht]. eapply wp_conseq; [apply Hm|].
  intros o w' (Hsh & (l & Hl & Hu) & HR).
  assert (Hi : inv account (n + 1) h' (cs ++ rest) w').
  { split; [|rewrite Hl; by apply signatures_ok_unsigned].
    eapply state_ok_mono; [..|by eapply state_ok_shrinks]; [lia|done]. }
  destruct o as [a|e|]; [|intros _; by eapply inv_drop|done].
  exists cs. split; [done|]. by apply HQ.
Qed.

Lemma calm_only_calls {A} (m : M Node S A) :
  steps (only_calls unsigned) m -> calm m (fun _ => True).
Proof.
  intros Hm w. apply (wp_only_calls unsigned); [done|]. intros o n l Hl. split; [reflexivity|].
  split; [by exists l|by destruct o].
Qed.

Lemma safe_ReadState {A} (f : State -> A) (Q : list Call -> list Claim -> A -> Prop) h cs :
  (forall h' a, h ⊆ h' -> Q h' cs a) -> safe Q h cs (sec (ReadState f)).
Proof.
  intros HQ. apply (safe_calm _ (fun _ => True)); [|auto]. intros w. wp_step.
  split; [reflexivity|]. split; [reflexivity|done].
Qed.

Lemma safe_check b (Q : list Call -> list Claim -> unit -> Prop) h cs :
  (forall h', h ⊆ h' -> Q h' cs tt) -> safe Q h cs (sec (check b)).
Proof.
  intros HQ. apply (safe_calm _ (fun _ => True)); [|intros h' []; auto]. intros w.
  wp_step; (split; [reflexivity|]; split; [reflexivity|done]).
Qed.

Lemma safe_time `{!Clock Node} (Q : list Call -> list Claim -> Z -> Prop) h cs :
  (forall h' t, h ⊆ h' -> Q h' cs t) -> safe Q h cs (sec GetCurrentTime).
Proof.
  intros HQ. apply (safe_calm _ (fun _ => True)); [|auto]. apply calm_only_calls, only_calls_time.
Qed.

End safe.

(* ------------------------------------------------------------------ *)
(** ** The own orders *)

Section own_orders.
Context `{JsonLib} `{!Uint256Lib} `{!AmountLib} `{!ProtoRuntime} `{!ProtoRuntimeLaws} `{!MoveLaws} {Node : Type}
  `{!AssetSpec Node} {S : Type} `{!HasState S} `{!HasStateLaws S} `{!OrderHooks Node S}
  `{!CalmHooks Node S} (account : string) (surv : bool).
Implicit Types (cs rest : list Claim) (h : list Call).
#[local] Abbreviation Post A := (list Call -> list Claim -> A -> Prop).
#[local] Abbreviation safe := (safe account surv).

Lemma wp_calm_validate a o (Q : outcome bool -> World Node State -> Prop) (w : World Node State) :
  (forall r n l, Forall unsigned l -> Q r (mkWorld (wst w) n (wtrace w ++ l))) ->
  wp (ValidateOrder (S := S) a o) Q w.
Proof. apply (wp_only_calls unsigned), (calm_validate (S := S)). Qed.

(** The loop of the refresh over orders [l] of the state [s0]. *)
Lemma wp_refresh_calm a s0 l upd (w : World Node State) :
  (forall id o, (id, o) ∈ l -> own_map s0 !! id = Some o) ->
  (forall id o, upd !! id = Some o -> own_map s0 !! id = Some o) ->
  shrinks s0 (wst w) ->
  wp (refresh_orders (S := S) a l upd) (fun r w' => shrinks s0 (wst w') /\ calls unsigned w w' /\
    match r with
    | Ret u => forall id o, u !! id = Some o -> own_map s0 !! id = Some o
    | _ => True
    end) w.
Proof.
  revert upd w. induction l as [|[id o] l IH]; intros upd w Hl Hu Hs; cbn [refresh_orders].
  { wp_step. split; [done|]. split; [reflexivity|done]. }
  assert (Ho : own_map s0 !! id = Some o) by (apply Hl; left).
  assert (Hl' : forall i x, (i, x) ∈ l -> own_map s0 !! i = Some x)
    by (intros i x Hix; apply Hl; by right).
  wp_use wp_calm_validate. intros r n tr Htr. cbn [wst].
  assert (Hgo : forall u (w1 : World Node State), wtrace w1 = wtrace w ++ tr -> shrinks s0 (wst w1) ->
    (forall i x, u !! i = Some x -> own_map s0 !! i = Some x) ->
    wp (refresh_orders (S := S) a l u) (fun r w' => shrinks s0 (wst w') /\ calls unsigned w w' /\
      match r with
      | Ret u => forall id o, u !! id = Some o -> own_map s0 !! id = Some o
      | _ => True
      end) w1).
  { intros u w1 Ht Hs1 Hu1. eapply wp_conseq; [by apply IH|]. intros r' w' (Hs' & Hc & Hr).
    split; [done|]. split; [|done]. transitivity w1; [by exists tr|done]. }
  destruct r as [[|]|e|]; cbn [then_post].
  - wp_step. wp_step. apply Hgo; [done|..].
    + destruct Hs as [Ha Hn Ht Hor]. split; try done. intros i x. cbn [wst].
      rewrite own_map_with_own_map. destruct (decide (i = id)) as [->|Hne].
      * rewrite lookup_insert_eq. intros [= <-]. exists o. split; [done|].
        destruct (moved_order o) as [->| ->]; auto.
      * rewrite lookup_insert_ne by done. apply Hor.
    + intros i x Hi. unfold map_insert in Hi. destruct (upd !! id) eqn:Hid; [by apply Hu|].
      apply lookup_insert_Some in Hi as [[<- <-]|[_ Hi]]; [done|by apply Hu].
  - apply Hgo; done.
  - split; [done|]. split; [by exists tr|done].
  - split; [done|]. split; [by exists tr|done].
Qed.

Lemma calm_refresh : calm (Node := Node) (S := State) (refresh_locked (S := S)) (fun _ => True).
Proof.
  intros w. unfold refresh_locked. wp_step. wp_step. wp_step. wp_step. apply wp_bind.
  eapply wp_conseq; [apply (wp_refresh_calm _ (wst w))|].
  - intros id o Hin. cbn in Hin. rewrite iter_perm in Hin. by apply elem_of_map_to_list in Hin.
  - by intros id o; rewrite lookup_empty.
  - apply shrinks_self.
  - cbn [wst wtrace proj State_HasState]. intros [u|e|] w' (Hs & Hc & Hu); cbn [then_post]; [|done..].
    wp_step. destruct Hs as [Ha Hn Ht _]. split; [|done]. split; try done. eauto.
Qed.

Lemma calm_UpdateOrders os : calm (UpdateOrders (Node := Node) (S := S) os) (fun _ => True).
Proof.
  intros w. apply wp_intro. intros o w' Hr. pose proof (calm_update (S := S) os w) as [Hp Hc].
  rewrite Hr in Hp, Hc. cbn [snd] in *. rewrite Hp. split; [reflexivity|]. split; [done|by destruct o].
Qed.

Lemma safe_RunRefresh (Q : Post unit) h cs :
  (forall h', h ⊆ h' -> Q h' cs tt) -> safe Q h cs RunRefresh_p.
Proof.
  intros HQ. apply safe_bind. eapply safe_calm; [apply calm_AccessState, calm_refresh|].
  intros h1 _ G1 _. apply safe_bind, safe_ReadState. intros h2 os G2.
  eapply safe_calm; [apply calm_UpdateOrders|]. intros h3 [] G3 _. apply HQ.
  by do 2 (etransitivity; [done|]).
Qed.

Lemma safe_Add (Q : Post bool) h cs o :
  o_asset o = None \/ offered h o ->
  (forall h' b, h ⊆ h' -> Q h' cs b) -> safe Q h cs (Add_p o).
Proof.
  intros Ho HQ. apply safe_bind, safe_AccessState. intros n h1 rest w G1 Hn Hs Ht.
  unfold add_locked. wp_step. wp_step. wp_use wp_calm_validate. intros r n1 l Hl.
  assert (Ht' : signatures_ok account h1 (wtrace w ++ l)) by by apply signatures_ok_unsigned.
  assert (Hs' : state_ok account (n + 1) h1 (cs ++ rest) (wst w)) by (eapply state_ok_mono; [..|done]; [lia|done]).
  destruct r as [[|]|e|]; cbn [then_post negb].
  - wp_step. wp_step. wp_step. wp_step. wp_step. wp_step. wp_step. cbn [wst wtrace].
    split; [|done]. exists cs. split.
    + refine (state_ok_add account n h1 (cs ++ rest) (wst w) _ Hn _ Hs).
      destruct Ho as [?|Ho]; [by left|right]. exact (offered_mono _ _ _ G1 Ho).
    + apply safe_bind, safe_RunRefresh. intros h2 G2. apply safe_ret, HQ. by etransitivity.
  - wp_step. split; [|done]. exists cs. split; [done|]. apply safe_bind, safe_ret, safe_ret, HQ, G1.
  - intros _. split; [by eapply state_ok_drop|done].
  - done.
Qed.

(** The caller may give up claims with the order. *)
Lemma safe_RemoveById (Q : Post unit) h cs0 cs id :
  (forall h', h ⊆ h' -> Q h' cs tt) -> safe Q h (cs0 ++ cs) (RemoveById_p id).
Proof.
  intros HQ. apply safe_bind, safe_AccessState. intros n h1 rest w G1 Hn Hs Ht.
  unfold remove_locked. wp_step. cbn [wst wtrace]. split; [|done]. exists cs. split.
  - rewrite <-app_assoc in Hs. apply state_ok_drop in Hs.
    eapply state_ok_mono; [..|eapply state_ok_shrinks, Hs]; [lia|done|].
    split; try done. intros i x. rewrite own_map_with_own_map, lookup_delete_Some. intros [_ ?]. eauto.
  - apply safe_RunRefresh. intros h2 G2. apply HQ. by etransitivity.
Qed.

Lemma safe_TryLock (Q : Post (option Order)) h cs id :
  (forall h', h ⊆ h' -> Q h' cs None) ->
  (forall h' out, h ⊆ h' -> id_of out = id -> account_of out = account -> offered h' out ->
     Q h' (Holds id :: cs) (Some out)) ->
  (forall h' out, h ⊆ h' -> o_asset out = None -> Q h' (Shell id :: cs) (Some out)) ->
  safe Q h cs (TryLock_p id).
Proof.
  intros HN HH HS. apply safe_bind, safe_AccessState. intros n h1 rest w G1 Hn Hs Ht.
  unfold trylock_locked. wp_step. wp_step. wp_step. wp_step. cbn [wst wtrace].
  rewrite own_map_with_own_map. set (s1 := with_own_map _ (wst w)).
  assert (Hs1 : state_ok account (n + 1) h1 (cs ++ rest) s1).
  { eapply state_ok_mono; [..|eapply state_ok_shrinks, Hs; apply shrinks_self]; [lia|done]. }
  assert (Hnone : exists cs', state_ok account (n + 1) h1 (cs' ++ rest) s1 /\
    safe Q h1 cs' ((if has (None : option Order) then RunRefresh_p else mret tt);; mret None)).
  { exists cs. split; [done|]. apply safe_bind, safe_ret, safe_ret, HN, G1. }
  destruct (own_map (wst w) !! id) as [o|] eqn:Ho; [|by wp_step].
  destruct (locked_of o) eqn:Hlo; [by wp_step|]. wp_step. wp_step. wp_step. cbn [wst wtrace].
  split; [|done]. eexists (_ :: cs). split; [exact (state_ok_trylock account (n + 1) h1 (cs ++ rest) s1 id o Ho Hlo Hs1)|].
  apply safe_bind, safe_RunRefresh. intros h2 G2. apply safe_ret.
  pose proof (ok_account _ _ _ _ _ Hs1) as Hacct. pose proof (ok_orders _ _ _ _ _ Hs1 id o Ho) as Hor.
  destruct (o_asset o) as [a|] eqn:Ha; cbn [has].
  - destruct Hor as [Hor|Hor]; [done|]. apply HH; [by etransitivity|done|done|].
    eapply offered_same; [|by eapply offered_mono]. done.
  - apply HS; [by etransitivity|done].
Qed.

Lemma safe_Unlock (Q : Post unit) h c cs id :
  c = Holds id \/ c = Shell id -> (forall h', h ⊆ h' -> Q h' cs tt) -> safe Q h (c :: cs) (Unlock_p id).
Proof.
  intros Hc HQ. apply safe_bind, safe_AccessState. intros n h1 rest w G1 Hn Hs Ht.
  unfold unlock_locked. wp_step. wp_step. wp_step. wp_step. cbn [wst]. rewrite own_map_with_own_map.
  apply wp_bind, wp_check_some; [intros o Ho|done]. cbn [then_post]. wp_step. wp_step; [|done].
  wp_step. cbn [wst wtrace]. split; [|done]. exists cs. split.
  - assert (Hs1 : state_ok account (n + 1) h1 (c :: cs ++ rest) (with_own_map (own_map (wst w)) (wst w))).
    { eapply state_ok_mono; [..|eapply state_ok_shrinks, Hs; apply shrinks_self]; [lia|done]. }
    exact (state_ok_unlock account _ _ c _ (with_own_map (own_map (wst w)) (wst w)) id o Hc Ho Hs1).
  - apply safe_RunRefresh. intros h2 G2. apply HQ. by etransitivity.
Qed.

End own_orders.

(* ------------------------------------------------------------------ *)
(** ** The trades *)

Lemma one_signature `{JsonLib} l1 p r l2 l1' p' r' l2' :
  (forall e, e ∈ l1' ++ l2' -> signs e = None) ->
  l1 ++ EvXaya (walletprocesspsbt p) r :: l2 = l1' ++ EvXaya (walletprocesspsbt p') r' :: l2' ->
  l1 = l1' /\ p = p'.
Proof.
  intros Hn Heq.
  assert (Hbad : forall q s, EvXaya (walletprocesspsbt q) s ∈ l1' ++ l2' -> False)
    by (intros q s He%Hn; discriminate He).
  apply app_eq_app in Heq as (k & [[-> Heq]|[-> Heq]]); destruct k as [|e k]; cbn [app] in Heq;
    try (injection Heq; intros; subst; by rewrite app_nil_r); exfalso.
  - injection Heq as <- ->. apply (Hbad p r). rewrite !elem_of_app. right. right. left.
  - injection Heq as <- ->. apply (Hbad p r). rewrite !elem_of_app. left. right. left.
Qed.

Section trades.
Context `{JsonLib} `{!JsonLaws} `{!Uint256Lib} `{!AmountLib} `{!ProtoRuntime} `{!ProtoRuntimeLaws}
  `{!MoveLaws} {Node : Type} `{!XayaRpc Node} `{!DemGspRpc Node} `{!AssetSpec Node} `{!Clock Node} `{!Flags}
  {S : Type} `{!HasState S} `{!HasStateLaws S} `{!OrderHooks Node S} `{!CalmHooks Node S}
  (account : string) (surv : bool).
Implicit Types (cs rest : list Claim) (h : list Call).
#[local] Abbreviation Post A := (list Call -> list Claim -> A -> Prop).
#[local] Abbreviation safe := (safe account surv).

(** Every signature among the calls [l] is justified. *)
Definition sound h (l : list Event) : Prop :=
  forall l1 p r l2, l = l1 ++ EvXaya (walletprocesspsbt p) r :: l2 ->
    exists t, justified account h t p l1.

Lemma unsigned_sound h l : Forall unsigned l -> sound h l.
Proof. intros Hl l1 p r l2 ->. apply Forall_app in Hl as [_ Hl%Forall_inv]. discriminate Hl. Qed.

Lemma summary_sound h t o t' l :
  reply_summary account (BuildTradeChecker account t) t o t' l ->
  agreed account h t -> trade_inv account t -> sound h l.
Proof.
  intros Hs Hag Hinv. apply summary_calls in Hs as [Hn|(p' & q & la & lb & -> & Hi & Hf & Hlb)].
  { apply unsigned_sound, Forall_forall. exact Hn. }
  intros l1 p r l2 Heq. destruct Hf as (l1' & l2' & (r' & -> & Hl1 & Hl2) & Hour & _ & Hk).
  rewrite <-app_assoc in Heq. cbn [app] in Heq. symmetry in Heq.
  apply one_signature in Heq as [-> ->].
  - exists t. split; [done|]. split; [done|]. split; [done|]. split; [done|].
    exists (BuildTradeChecker account t). split; [apply BuildTradeChecker_terms|].
    destruct (GetOrderType account t); [|done]. naive_solver.
  - intros e. rewrite !elem_of_app. intros [He|[He|He]];
      [by apply (harmless_signs l1')|by apply (harmless_signs l2')|by apply Hlb].
Qed.

(** *** One message for one trade *)

Lemma wp_process_sound h msg t n tr (Q : outcome (option ProcessingMessage) -> World Node TradeState -> Prop) :
  agreed account h t -> trade_inv account t ->
  (forall o t' n' l, evolves t t' -> trade_inv account t' -> sound h l ->
     Q o (mkWorld t' n' (tr ++ l))) ->
  wp (process_for account msg (BuildTradeChecker account t)) Q (mkWorld t n tr).
Proof.
  intros Hag Hinv HQ. unfold process_for. wp_step. wp_step. wp_step.
  set (t1 := HandleTradeMessage account msg t).
  assert (He1 : evolves t t1) by apply message_evolves.
  destruct (checker_widths account t) as [Hp Hu].
  eapply wp_conseq; [apply (HasReply_summary account _ (mkWorld t1 n tr) Hp Hu)|].
  cbn [wst wtrace]. intros o [t2 n2 tr2] (l & Hl & Hs). cbn [wst wtrace] in *. subst tr2.
  rewrite <-(checker_message account msg t) in Hs. fold t1 in Hs.
  assert (Hall : forall o', Q o' (mkWorld t2 n2 (tr ++ l))).
  { intros o'. apply HQ.
    - etransitivity; [done|]. by eapply summary_evolves.
    - eapply summary_inv; [exact Hs|]. by apply message_inv.
    - eapply summary_sound; [exact Hs|by eapply agreed_evolves|by apply message_inv]. }
  destruct o as [r|[]|]; apply Hall.
Qed.

Lemma set_trade_evolves i s t t' :
  st_trades s !! i = Some t -> evolves t t' -> Forall2 evolves (st_trades s) (<[i := t']> (st_trades s)).
Proof.
  intros Hi He. rewrite <-(list_insert_id _ _ _ Hi) at 1. apply Forall2_insert; [|done].
  by apply Forall_Forall2_diag, Forall_true.
Qed.

Lemma safe_process_locked (Q : Post (option ProcessingMessage)) h cs msg :
  (forall h' r, h ⊆ h' -> Q h' cs r) -> safe Q h cs (sec (AccessState (process_locked msg))).
Proof.
  intros HQ. apply safe_AccessState. intros n h1 rest w G1 Hn Hs Ht.
  assert (Hs1 : state_ok account (n + 1) h1 (cs ++ rest) (wst w))
    by (eapply state_ok_mono; [..|done]; [lia|done]).
  unfold process_locked. wp_step. wp_step.
  destruct (find_match msg (st_trades (wst w)) 0) as [i|] eqn:Hf; [|by wp_step; eauto 10].
  apply find_match_Some in Hf as (t & _ & Hi & _ & _). rewrite Nat.sub_0_r in Hi.
  pose proof (ok_trades _ _ _ _ _ Hs) as Htr. rewrite Forall_lookup in Htr.
  destruct (Htr _ _ Hi) as [Hag Hinv]. rewrite (ok_account _ _ _ _ _ Hs).
  wp_step. rewrite (trade_at_lookup _ _ _ Hi). apply (wp_process_sound h1); [done..|].
  intros o t' n' l He Hinv' Hl. cbn [wst wnode wtrace].
  assert (Hok : state_ok account (n + 1) h1 (cs ++ rest) (set_trade i t' (wst w))).
  { apply state_ok_evolve; [by eapply set_trade_evolves| |done].
    rewrite <-(list_insert_id _ _ _ Hi) at 1. apply Forall2_insert; [|done].
    by apply Forall_Forall2_diag, Forall_true. }
  assert (Hsig : signatures_ok account h1 (wtrace w ++ l)) by by apply signatures_ok_app.
  destruct o as [r|e|]; [|intros _; split; [by eapply state_ok_drop|done]|done].
  split; [|done]. exists cs. split; [done|]. by apply HQ.
Qed.

(** *** Taking orders *)

Lemma own_id_maker o now units cp :
  account_of o = account -> own_id account (new_trade o now units cp) = Some (id_of o).
Proof. unfold own_id, GetRole. cbn. intros ->. by rewrite String.eqb_refl. Qed.

Lemma agreed_maker h o now units cp :
  CheckOrder o units = true -> account_of o = account -> offered h o ->
  agreed account h (new_trade o now units cp).
Proof.
  intros Hc Ha Ho. exists units. split_and!; [done..|]. unfold GetRole. cbn. by rewrite Ha, String.eqb_refl.
Qed.

Lemma safe_OrderTaken (Q : Post bool) h cs id o units cp :
  id_of o = id -> account_of o = account -> offered h o ->
  (forall h', h ⊆ h' -> Q h' cs true) -> (forall h', h ⊆ h' -> Q h' (Holds id :: cs) false) ->
  safe Q h (Holds id :: cs) (OrderTaken_p o units cp).
Proof.
  intros Hid Ha Ho HT HF. unfold OrderTaken_p. destruct (CheckOrder o units) eqn:Hc; cbn [negb];
    [|by apply safe_ret, HF].
  apply safe_bind, safe_time. intros h1 now G1. apply safe_AccessState.
  intros n h2 rest w G2 Hn Hs Ht. unfold taken_locked. wp_step. wp_step. wp_step. wp_step; [|done].
  assert (Hs1 : state_ok account (n + 1) h2 (Holds id :: cs ++ rest) (wst w))
    by (eapply state_ok_mono; [..|done]; [lia|done]).
  assert (G : h ⊆ h2) by by etransitivity.
  case_match; [wp_step|do 3 wp_step]; cbn [wst wtrace]; (split; [|done]).
  - exists (Holds id :: cs). split; [done|by apply HF].
  - exists cs. split; [|by apply HT]. eapply (state_ok_own_trade account); [|..|exact Hs1].
    + rewrite own_id_maker by done. by rewrite Hid.
    + apply agreed_maker; [done..|]. by eapply offered_mono.
    + apply new_trade_inv.
Qed.

Lemma safe_accept_taking_order (Q : Post bool) h cs msg :
  (forall h' b, h ⊆ h' -> Q h' cs b) -> safe Q h cs (accept_taking_order_p msg).
Proof.
  intros HQ. unfold accept_taking_order_p. destruct (pm_taking_order msg) as [to|]; [|by apply safe_ret, HQ].
  apply safe_bind, safe_TryLock; intros h1.
  - intros G1. by apply safe_ret, HQ.
  - intros out G1 Hid Ha Ho. apply safe_bind, safe_OrderTaken; [done..| |]; intros h2 G2.
    + apply safe_ret, HQ. by etransitivity.
    + apply safe_bind, safe_Unlock; [by left|]. intros h3 G3. apply safe_ret, HQ.
      by do 2 (etransitivity; [done|]).
  - intros out G1 Ha. apply safe_bind. unfold OrderTaken_p.
    assert (CheckOrder out (s64 (to_units_of to)) = false) as ->.
    { unfold CheckOrder. rewrite Ha. cbn [has]. rewrite andb_false_r. by case_match. }
    apply safe_ret, safe_bind, safe_Unlock; [by right|]. intros h3 G3. apply safe_ret, HQ.
    by etransitivity.
Qed.

Lemma safe_ProcessMessage (Q : Post (option ProcessingMessage)) h cs msg :
  (forall h' r, h ⊆ h' -> Q h' cs r) -> safe Q h cs (ProcessMessage_p msg).
Proof.
  intros HQ. apply safe_bind, safe_check. intros h1 G1. apply safe_bind, safe_accept_taking_order.
  intros h2 b G2. destruct b; cbn [negb].
  - apply safe_process_locked. intros h3 r G3. apply HQ. by do 2 (etransitivity; [done|]).
  - apply safe_ret, HQ. by etransitivity.
Qed.

Lemma safe_TakeOrder (Q : Post (option ProcessingMessage)) h cs o units :
  CallTake o units ∈ h -> (forall h' r, h ⊆ h' -> Q h' cs r) -> safe Q h cs (TakeOrder_p o units).
Proof.
  intros Hin HQ. unfold TakeOrder_p. destruct (CheckOrder o units) eqn:Hc; cbn [negb];
    [|by apply safe_ret, HQ].
  apply safe_bind, safe_time. intros h1 now G1. apply safe_AccessState.
  intros n h2 rest w G2 Hn Hs Ht. unfold take_locked. wp_step. wp_step.
  set (t0 := new_trade o now units (account_of o)).
  assert (G : h ⊆ h2) by by etransitivity.
  assert (Hs1 : state_ok account (n + 1) h2 (cs ++ rest) (wst w))
    by (eapply state_ok_mono; [..|done]; [lia|done]).
  rewrite (ok_account _ _ _ _ _ Hs).
  destruct (String.eqb_spec (counterparty_of t0) account) as [|Hne];
    [wp_step; split; [|done]; exists cs; by eauto|].
  assert (Hrole : GetRole account t0 = TAKER).
  { unfold GetRole. destruct (String.eqb_spec (account_of (order_of t0)) account); done. }
  assert (Hag : agreed account h2 t0).
  { exists units. split_and!; [done..|]. rewrite Hrole. by apply G. }
  wp_step. wp_step. wp_step. wp_step.
  destruct (checker_widths account t0) as [Hp Hu].
  eapply wp_conseq; [apply (HasReply_summary account _ _ Hp Hu)|].
  cbn [wst wtrace wnode]. intros out [t1 n1 tr] (l & Hl & Hsum). cbn [wst wtrace wnode] in *. subst tr.
  assert (Hsig : signatures_ok account h2 (wtrace w ++ l)).
  { apply signatures_ok_app; [done|]. eapply summary_sound; [exact Hsum|done|apply new_trade_inv]. }
  assert (Hdone : forall r, exists cs', state_ok account (n + 1) h2 (cs' ++ rest) (wst w) /\ Q h2 cs' r)
    by (intros r; exists cs; split; [done|by apply HQ]).
  destruct out as [r|[]|]; cbn [then_post]; [|by wp_step|intros _; split; [by eapply state_ok_drop|done]..|done].
  do 4 wp_step. cbn [wst wtrace]. split; [|done].
  exists cs. split; [|by apply HQ].
  assert (He : evolves t0 t1) by by eapply summary_evolves.
  apply state_ok_other_trade; [|by eapply agreed_evolves| |done].
  - unfold own_id, GetRole, order_of. rewrite (ev_order _ _ He). fold (order_of t0).
    fold (GetRole account t0). by rewrite Hrole.
  - eapply summary_inv; [exact Hsum|apply new_trade_inv].
Qed.

(** *** The periodic update *)

Lemma unsigned_Update : steps (Node := Node) (calls unsigned) Update.
Proof.
  assert (Hc : forall vin, steps (Node := Node) (S := TradeState) (calls unsigned) (is_conflicted vin)).
  { intros vin. apply only_calls_calls. induction vin; cbn [is_conflicted]; unfold field; steps_auto; done. }
  unfold Update, update_initiated, update_pending, update_unknown, check_trade, is_final, field.
  steps_auto; try apply only_calls_calls; steps_auto; try done. 
Qed.

Lemma unsigned_update_trades a n i fin act :
  steps (Node := Node) (calls unsigned) (update_trades a n i fin act).
Proof.
  revert i fin act. induction n as [|n IH]; intros i fin act; cbn [update_trades]; [steps_auto|].
  assert (Hz : steps (Node := Node) (calls unsigned) (zoom (trade_at i) (set_trade i) Update)).
  { intros w. unfold zoom. pose proof (unsigned_Update (mkWorld (trade_at i (wst w)) (wnode w) (wtrace w))) as Hu.
    by destruct (Update _). }
  steps_auto.
Qed.

Lemma updates_evolve l ts : Forall2 updated l ts -> Forall2 evolves l ts.
Proof. intros Hu. eapply Forall2_impl; [done|]. intros t t'. apply updated_evolves. Qed.

(** The exceptions of the updating thread end the process. *)
Lemma safe_archive (Q : Post (string * list TradeState)) h cs :
  surv = false ->
  (forall h' fin, h ⊆ h' ->
     Forall (fun t => agreed account h' t /\ trade_inv account t) fin ->
     Q h' (map Holds (omap (own_id account) fin) ++ cs) (account, fin)) ->
  safe Q h cs (sec (AccessState archive_finalised)).
Proof.
  intros Hsurv HQ. apply safe_AccessState. intros n h1 rest w G1 Hn Hs Ht.
  assert (Hu : wp archive_finalised (fun _ w' => calls unsigned w w') w).
  { apply steps_wp. unfold archive_finalised. steps_auto. apply unsigned_update_trades. }
  pose proof (wp_and _ _ _ _ Hu (wp_archive_finalised w)) as Hw.
  eapply wp_conseq; [exact Hw|]. cbn beta. clear Hw.
  intros [r|e|] w' [(l & Hl & Hlu) Hr]; [|by rewrite Hsurv|done].
  destruct (Hr r eq_refl) as (ts & Hts%updated_all_updated & -> & Hw'). rewrite Hl, Hw'. clear Hr.
  split; [|by apply signatures_ok_unsigned]. rewrite (ok_account _ _ _ _ _ Hs).
  assert (Hs1 : state_ok account (n + 1) h1 (cs ++ rest) (with_trades ts (wst w))).
  { apply state_ok_evolve; [by apply updates_evolve| |].
    - eapply Forall2_impl; [done|]. intros t t'. apply updated_inv.
    - eapply state_ok_mono; [..|done]; [lia|done]. }
  destruct (state_ok_archive account _ _ _ _ (st_trade_archive (wst w) ++
    map (GetPublicInfo account) (filter (fun t => IsFinalised t = true) ts)) IsFinalised Hs1) as [Hok Hfin].
  eexists. rewrite <-app_assoc. split; [exact Hok|]. by apply HQ.
Qed.

Lemma calm_release t : calm (release_outputs (Node := Node) (S := S) account t) (fun _ => True).
Proof.
  apply calm_only_calls. intros w.
  assert (Hs : steps (Node := Node) (S := S) (only_calls harmless) (release_outputs account t)).
  { unfold release_outputs. apply steps_bind; [typeclasses eauto| |intros _].
    - case_match; [|apply steps_ret; typeclasses eauto].
      apply steps_bind; [typeclasses eauto|apply quiet_LockUnspent|].
      intros _. apply steps_ret; typeclasses eauto.
    - case_match; [apply quiet_UnlockPsbtInputs|apply steps_ret; typeclasses eauto]. }
  destruct (Hs w) as [Hst (l & Hl & Hh)]. split; [done|]. exists l. split; [done|].
  eapply Forall_impl; [exact Hh|]. by intros e [? _].
Qed.

(** What is put back of an order after a trade asks for no more. *)
Lemma reduced_same t units :
  CheckOrder (order_of t) units = true -> units_of t = u64 units ->
  same_terms (reduced_order t) (order_of t).
Proof.
  intros Hc Hu. split_and!; try done. intros Hm.
  change (max_units_of (reduced_order t)) with (u64 (max_units_of (order_of t) - units_of t)).
  unfold CheckOrder in Hc. destruct (_ || _) eqn:Hb; [done|].
  apply orb_false_iff in Hb as [Hb1 Hb2]. rewrite Z.ltb_ge in Hb1, Hb2.
  rewrite Hu, s64_sub by lia. lia.
Qed.

(** A finalised trade: the thread owns its order, if it is an own order. *)
Lemma safe_finalised (Q : Post unit) h cs t :
  agreed account h t -> (forall h', h ⊆ h' -> Q h' cs tt) ->
  safe Q h (map Holds (option_list (own_id account t)) ++ cs)
    (match state_of t with
     | ABANDONED | FAILED => HandleFailure_p account t
     | SUCCESS => HandleSuccess_p account t
     | INITIATED | PENDING => sec fatal
     end).
Proof.
  intros Hag HQ.
  assert (Hfail : safe Q h (map Holds (option_list (own_id account t)) ++ cs) (HandleFailure_p account t)).
  { unfold HandleFailure_p, own_id. apply safe_bind.
    assert (Hrel : forall h1, h ⊆ h1 -> safe Q h1 cs (sec (release_outputs account t))).
    { intros h1 G1. eapply safe_calm; [apply calm_release|]. intros h2 [] G2 _. apply HQ. by etransitivity. }
    destruct (GetRole account t); cbn [option_list map app].
    - apply safe_Unlock; [by left|]. exact Hrel.
    - apply safe_ret. by apply Hrel. }
  assert (Hsucc : safe Q h (map Holds (option_list (own_id account t)) ++ cs) (HandleSuccess_p account t)).
  { unfold HandleSuccess_p. destruct Hag as (u & Hc & Hu & Hag). unfold own_id.
    destruct (GetRole account t); cbn [option_list map app]; [|by apply safe_ret, HQ].
    apply safe_bind, (safe_RemoveById _ _ _ _ [Holds (id_of (order_of t))]). intros h1 G1. cbv zeta.
    case_match; [|by apply safe_ret, HQ]. apply safe_bind, safe_Add.
    - right. eapply offered_mono; [exact G1|]. by eapply offered_same; [eapply reduced_same|exact Hag].
    - intros h2 b G2. apply safe_ret, HQ. by etransitivity. }
  destruct (state_of t); try done.
  all: intros n h1 rest w G1 Hn Hi; by wp_step.
Qed.

Lemma safe_handle_finalised (Q : Post unit) h cs fin :
  Forall (agreed account h) fin -> (forall h', h ⊆ h' -> Q h' cs tt) ->
  safe Q h (map Holds (omap (own_id account) fin) ++ cs) (handle_finalised_p account fin).
Proof.
  revert h. induction fin as [|t fin IH]; intros h Hag HQ; cbn [handle_finalised_p]; [by apply safe_ret, HQ|].
  apply Forall_cons in Hag as [Ht Hfin].
  assert (map Holds (omap (own_id account) (t :: fin)) =
    map Holds (option_list (own_id account t)) ++ map Holds (omap (own_id account) fin)) as ->.
  { cbn [omap list_omap]. by destruct (own_id account t). }
  rewrite <-app_assoc. apply safe_bind, safe_finalised; [done|]. intros h1 G1. apply IH.
  - eapply Forall_impl; [done|]. intros t'. by apply agreed_mono.
  - intros h2 G2. apply HQ. by etransitivity.
Qed.

Lemma safe_UpdateAndArchiveTrades (Q : Post unit) h cs :
  surv = false -> (forall h', h ⊆ h' -> Q h' cs tt) -> safe Q h cs UpdateAndArchiveTrades_p.
Proof.
  intros Hsurv HQ. apply safe_bind, safe_archive; [done|]. intros h1 fin G1 Hfin.
  apply safe_handle_finalised.
  - eapply Forall_impl; [done|]. by intros t [? _].
  - intros h2 G2. apply HQ. by etransitivity.
Qed.

End trades.

(* ------------------------------------------------------------------ *)
(** ** Every interleaving *)

Section interleaving.
Context `{JsonLib} `{!JsonLaws} `{!Uint256Lib} `{!AmountLib} `{!ProtoRuntime} `{!ProtoRuntimeLaws}
  `{!MoveLaws} {Node : Type} `{!XayaRpc Node} `{!DemGspRpc Node} `{!AssetSpec Node} `{!Clock Node} `{!Flags}
  {S : Type} `{!HasState S} `{!HasStateLaws S} `{!OrderHooks Node S} `{!CalmHooks Node S}
  (account : string).
Implicit Types (pl : Pool Node S).

Definition any_end : list Call -> list Claim -> unit -> Prop := fun _ _ _ => True.

Lemma thread_safe c h : c ∈ h -> safe account (negb (is_job c)) any_end h [] (thread_of c).
Proof.
  intros Hc. destruct c as [o|id|o units|msg| |]; cbn [thread_of].
  - apply safe_bind, safe_Add; [right; by exists o|]. intros h1 b _. by apply safe_ret.
  - by apply (safe_RemoveById _ _ _ _ []).
  - apply safe_bind, safe_TakeOrder; [done|]. intros h1 r _. by apply safe_ret.
  - apply safe_bind, safe_ProcessMessage. intros h1 r _. by apply safe_ret.
  - by apply safe_RunRefresh.
  - by apply safe_UpdateAndArchiveTrades.
Qed.

(** A thread with what it owns, started when the calls [h0] had been made. *)
Definition thread_ok (h : list Call) (th : Thread Node S) (cs : list Claim) : Prop :=
  exists h0, h0 ⊆ h /\ safe account (negb (is_job (th_call th))) any_end h0 cs (th_prog th).

Definition pool_ok (n : nat) pl : Prop :=
  exists css, Forall2 (thread_ok (pool_calls pl)) (pool_threads pl) css /\
    inv account n (pool_calls pl) (concat css) (pool_world pl).

Lemma thread_ok_mono h h' th cs : h ⊆ h' -> thread_ok h th cs -> thread_ok h' th cs.
Proof. intros Hh (h0 & Hh0 & Hs). exists h0. split; [by etransitivity|done]. Qed.

(** One thread's claims, taken out of all. *)
Lemma concat_middle (l1 l2 : list (list Claim)) cs :
  concat (l1 ++ cs :: l2) ≡ₚ cs ++ concat (l1 ++ l2).
Proof. rewrite !concat_app. cbn. by rewrite !app_assoc, (Permutation_app_comm (concat l1)). Qed.

Lemma pool_step_ok n pl pl' :
  Z.of_nat n + 1 < two64 -> pool_ok n pl -> pool_step pl pl' -> pool_ok (n + 1) pl'.
Proof.
  intros Hn (css & Hts & Hi) Hstep.
  destruct Hstep as [c w ts h|c B m k b pre post w w' h Hm|c B m k e pre post w w' h Hm Hj
    |c pre post w h|w w' ts h Hp (l & Hl & Hu)]; cbn [pool_threads pool_calls pool_world] in *.
  - exists (css ++ [[]]). rewrite concat_app. cbn [concat app]. rewrite app_nil_r. split.
    + apply Forall2_app; [|apply Forall2_cons; split; [|constructor]].
      * eapply Forall2_impl; [done|]. intros th cs. apply thread_ok_mono. by right.
      * exists (c :: h). split; [done|]. apply thread_safe. left.
    + eapply inv_mono; [..|done]; [lia|by right].
  - apply Forall2_app_inv_l in Hts as (l1 & l2 & Hpre & Hpost & ->).
    apply Forall2_cons_inv_l in Hpost as (cs & l3 & (h0 & Hh0 & Hs) & Hpost & ->).
    cbn [th_call th_prog pool_threads pool_calls pool_world] in *. rewrite concat_middle in Hi.
    pose proof (Hs n h _ w Hh0 Hn Hi) as Hw. unfold wp in Hw. rewrite Hm in Hw.
    destruct Hw as (cs' & Hi' & Hs'). exists (l1 ++ cs' :: l3).
    split; [|cbn [pool_calls pool_world]; by rewrite concat_middle].
    apply Forall2_app; [done|]. constructor; [|done]. by exists h.
  - apply Forall2_app_inv_l in Hts as (l1 & l2 & Hpre & Hpost & ->).
    apply Forall2_cons_inv_l in Hpost as (cs & l3 & (h0 & Hh0 & Hs) & Hpost & ->).
    cbn [th_call th_prog pool_threads pool_calls pool_world] in *. rewrite concat_middle in Hi.
    pose proof (Hs n h _ w Hh0 Hn Hi) as Hw. unfold wp in Hw. rewrite Hm in Hw.
    exists (l1 ++ l3). split; [by apply Forall2_app|]. apply Hw. by rewrite Hj.
  - apply Forall2_app_inv_l in Hts as (l1 & l2 & Hpre & Hpost & ->).
    apply Forall2_cons_inv_l in Hpost as (cs & l3 & _ & Hpost & ->).
    exists (l1 ++ l3). split; [by apply Forall2_app|]. cbn [pool_calls pool_world] in *.
    rewrite concat_middle in Hi. eapply inv_mono; [..|by eapply inv_drop]; [lia|done].
  - exists css. split; [done|]. destruct Hi as [Hs Ht]. split; cbn [pool_calls pool_world] in *.
    + rewrite Hp. eapply state_ok_mono; [..|done]; [lia|done].
    + rewrite Hl. by apply signatures_ok_unsigned.
Qed.

(** The process starts with an empty state and no thread at work. *)
Definition pool_start (w : World Node S) : Prop :=
  proj (wst w) = initial_state account /\ Forall unsigned (wtrace w).

Lemma pool_start_ok w : pool_start w -> pool_ok 0 (mkPool w [] []).
Proof.
  intros [Hs Ht]. exists []. split; [constructor|]. split; cbn [pool_calls pool_world concat].
  - rewrite Hs. split; try done; [by intros id [o Ho]|constructor].
  - by apply (signatures_ok_unsigned _ _ []); [intros [] ? ? ?|].
Qed.

Lemma pool_run_ok n w pl :
  pool_start w -> nsteps pool_step n (mkPool w [] []) pl -> Z.of_nat n < two64 -> pool_ok n pl.
Proof.
  intros Hw%pool_start_ok Hr. revert Hw. assert (Hk : forall k, pool_ok k (mkPool w [] []) ->
    Z.of_nat (k + n) < two64 -> pool_ok (k + n) pl).
  { induction Hr as [x|n x y z Hxy Hyz IH]; intros k Hk Hn; [by rewrite Nat.add_0_r|].
    replace (k + Datatypes.S n)%nat with (k + 1 + n)%nat by lia. apply IH; [|lia].
    eapply pool_step_ok; [|done|done]. lia. }
  intros Hw Hn. by apply (Hk 0%nat).
Qed.

Lemma pool_ok_inv n pl : pool_ok n pl -> inv account n (pool_calls pl) [] (pool_world pl).
Proof. intros (css & _ & Hi). apply (inv_drop account n _ (concat css)). by rewrite app_nil_r. Qed.

(** C4: no own order is ever sold or bought twice: however the threads of a process
    interleave, whatever the services answer and whichever calls fail, no two
    active trades are about the same own order, and the order of an active
    trade is locked as long as it exists (a refresh that was cut short by an
    exception may have emptied it; then nobody can take it either).  Every
    active trade is one the user agreed to, and keeps its invariant. *)
Theorem orders_traded_once n w pl :
  pool_start w -> nsteps pool_step n (mkPool w [] []) pl -> Z.of_nat n < two64 ->
  let s := proj (wst (pool_world pl)) in
  NoDup (own_trade_ids account s) /\
  (forall t id o, t ∈ st_trades s -> own_id account t = Some id -> own_map s !! id = Some o ->
     locked_of o = true \/ o_asset o = None) /\
  (forall t, t ∈ st_trades s -> agreed account (pool_calls pl) t /\ trade_inv account t).
Proof.
  intros Hw Hr Hn s. pose proof (pool_run_ok n w pl Hw Hr Hn) as Hok.
  apply pool_ok_inv in Hok as [[_ _ _ Hon Hgd _ Htr _] _]. cbn [holds app omap list_omap] in *.
  split; [exact Hon|]. rewrite Forall_forall in Hgd. rewrite Forall_forall in Htr. split; [|exact Htr].
  intros t id o Ht Hid Ho. destruct (Hgd id) as [_ Hg]; [|by apply Hg].
  apply list_elem_of_omap. by exists t.
Qed.


End interleaving.

(* ------------------------------------------------------------------ *)
(** ** The theorems at concrete inputs *)

Module ThreadsWitness.
Import Mock ProtocolWitness.

#[local] Existing Instance default_flags.
#[local] Existing Instance party_wallet.
#[local] Existing Instance party_spec.
#[local] Existing Instance party_gsp.
#[local] Existing Instance party_clock.
#[local] Instance base_hooks : OrderHooks Party State := default_hooks Party State.

#[local] Instance base_calm : CalmHooks Party State.
Proof.
  split.
  - intros a o. apply steps_ret. typeclasses eauto.
  - intros os w. split; [done|]. reflexivity.
Qed.

#[local] Instance base_moves : MoveLaws.
Proof. intros o. by right. Qed.

(** "alice" offers gold; "bob" and "carol" take the offer at the same time;
    then "bob" sends a transaction. *)
Definition offer : Order :=
  mkOrder None None (Some "gold") None (Some 5) (Some ASK) (Some 5) None.
Definition ident : string :=
  GetIdentifier (new_trade (with_id (Some 0) (with_account (Some "alice") offer)) 0 0 "").
Definition taking (who : string) : ProcessingMessage :=
  mkProcessingMessage (Some who) (Some ident) (Some (mkTakingOrder (Some 0) (Some 2))) None None.
Definition paying : ProcessingMessage :=
  mkProcessingMessage (Some "bob") (Some ident) None None (Some (mkTradePsbt (Some "buyer-signed"))).

Definition w_start : World Party State := world_of (initial_state "alice") (mkParty true 0 "alice" "bob").
Definition start : Pool Party State := mkPool w_start [] [].

Definition offered_first : list Choice := NewCall (CallAdd offer) :: repeat (RunThread 0) 5.
Definition taken_twice : list Choice :=
  [NewCall (CallMessage (taking "bob")); NewCall (CallMessage (taking "carol"))] ++
  concat (repeat [RunThread 0; RunThread 1] 3) ++ repeat (RunThread 0) 6.
Definition schedule : list Choice :=
  offered_first ++ taken_twice ++ NewCall (CallMessage paying) :: repeat (RunThread 0) 3.

Definition final : Pool Party State := default start (pool_run schedule start).

(** Two takers, one trade; and the wallet has signed. *)
Example one_of_two_takers :
  match pool_run schedule start with
  | Some pl => (own_trade_ids "alice" (wst (pool_world pl)),
      map counterparty_of (st_trades (wst (pool_world pl))), length (pool_threads pl))
  | None => ([], [], 1%nat)
  end = ([0], ["bob"], 0%nat).
Proof. vm_compute. reflexivity. Qed.

Lemma final_reached : pool_run schedule start = Some final.
Proof.
  unfold final. destruct (pool_run schedule start) as [pl|] eqn:E; [reflexivity|].
  exfalso. assert (Hs : has (pool_run schedule start) = true) by (vm_compute; reflexivity).
  rewrite E in Hs. discriminate Hs.
Qed.

Lemma final_steps : nsteps pool_step (length schedule) start final.
Proof. exact (pool_run_steps schedule start final final_reached). Qed.

Lemma start_ok : pool_start "alice" w_start.
Proof. split; [reflexivity|constructor]. Qed.

Lemma schedule_short : Z.of_nat (length schedule) < two64.
Proof. vm_compute. reflexivity. Qed.

Lemma orders_traded_once_witness : NoDup (own_trade_ids "alice" (wst (pool_world final))).
Proof.
  exact (proj1 (orders_traded_once "alice" (length schedule) w_start final
    start_ok final_steps schedule_short)).
Defined.



End ThreadsWitness.
