(* ===== verification/Honest.v ===== *)
(** * Honest parties complete their trades

    The safety theorems hold whatever the wallets answer.  Here the wallets
    and the game answer as documented, the buyer can pay and the seller can
    deliver, and the checks that protect each party from the other must let the
    trade through: the negotiation ends with the transaction broadcast.  A PSBT
    is a string to the code; [meaning] says which inputs, outputs and
    signatures it stands for, and the documented effect of each wallet call is
    stated on meanings. *)

From Stdlib Require Import ZArith Lia String Ascii.
From stdpp Require Import base gmap strings list.
From S2P Require Import Prelude Json Proto Effects Mock Checker MyOrders Trades TradeSafety TradeManager Protocol.

(* ------------------------------------------------------------------ *)
(** ** What PSBTs mean *)

Inductive TxOut :=
| Coins (addr : string) (sat : Z)
| NameUpdate (addr name value : string).

(** The inputs, each with whether it is signed, and the outputs. *)
Record Psbt := mkPsbt {
  p_in : list (string * Z);
  p_out : list TxOut;
  p_sig : list bool
}.

Definition complete (p : Psbt) : bool := forallb (fun b => b) (p_sig p).

Section wallets.
Context `{JsonLib} `{!Uint256Lib} `{!AmountLib} {Node : Type} `{!XayaRpc Node} `{!AssetSpec Node}
  `{!Flags}.

(** A decoded input and a decoded output, as Xaya Core shows them. *)
Definition shows_input (o : string * Z) (inp : Json) : Prop :=
  wf_input inp /\ spends o.1 o.2 inp.

Definition shows_output (o : TxOut) (out : Json) : Prop :=
  wf_output out /\ exists spk op, jget out "scriptPubKey" = Some spk /\ jget spk "nameOp" = Some op /\
    match o with
    | Coins addr sat => is_object op = false /\ pays_address spk addr /\
        exists v, jget out "value" = Some v /\ ChiAmountFromJson v = Some sat
    | NameUpdate addr name value => is_object op = true /\ pays_address spk addr /\
        reads_string op "op" "name_update" /\ reads_string op "name" name /\
        reads_string op "value" value
    end.

(** The reply of [decodepsbt]. *)
Definition shows (p : Psbt) (d : Json) : Prop :=
  is_object d = true /\
  (exists vin, tx_array d "vin" vin /\ Forall2 shows_input (p_in p) vin) /\
  (exists vout, tx_array d "vout" vout /\ Forall2 shows_output (p_out p) vout) /\
  exists ins, psbt_inputs d ins /\ length ins = length (p_in p).

(** Two stages of signing one transaction: the transaction is shown the same,
    and an input is shown the same exactly if its signature is. *)
Definition shows_signing (p p' : Psbt) (d d' : Json) : Prop :=
  (exists tx tx', jget d "tx" = Some tx /\ jget d' "tx" = Some tx' /\ jeqb tx tx' = true) /\
  forall ins ins' i, psbt_inputs d ins -> psbt_inputs d' ins' -> (i < length (p_in p))%nat ->
    (same_input ins ins' i <-> p_sig p !! i = p_sig p' !! i).

(** What a user has at hand for trading: coins, and its name output as long as
    it is not locked. *)
Record Means := mkMeans { m_coins : Z; m_name_free : bool }.

(** The wallets of all users, by what the state of a user's node promises
    ([env]), the addresses that are a user's own, the user that can sign for an
    output, the name output of every account, the block they are at, and the
    parent of each block. *)
Class Wallets := {
  env : string -> Means -> Node -> Prop;
  own_address : string -> string -> Prop;
  meaning : string -> option Psbt;
  dec : string -> Json;
  owner : string * Z -> string;
  name_out : string -> string * Z;
  tip : U256;
  parent_of : U256 -> option U256
}.

(** The block [k] before [b]. *)
Fixpoint back `{Wallets} (k : nat) (b : U256) : option U256 :=
  match k with
  | O => Some b
  | S k' => q ← parent_of b; back k' q
  end.

Definition owns `{Wallets} (who : string) (o : string * Z) : bool := String.eqb (owner o) who.

(** The PSBT with everything signed that [who] can sign. *)
Definition signed_by_user `{Wallets} (who : string) (p : Psbt) : Psbt :=
  mkPsbt (p_in p) (p_out p) (zip_with (fun o s => s || owns who o) (p_in p) (p_sig p)).

(** Member [k] of the reply [r] is the string [q], or the boolean [b]. *)
Definition gives_string (r : Json) (k q : string) : Prop :=
  is_object r = true /\ exists v, jget r k = Some v /\ is_string v = true /\ as_string v = Some q.

Definition gives_bool (r : Json) (k : string) (b : bool) : Prop :=
  is_object r = true /\ exists v, jget r k = Some v /\ is_bool v = true /\ as_bool v = Some b.

(** The arguments of the calls. *)
Definition outpoint_json (o : string * Z) : Json :=
  jset (jset jobject "txid" (jstr o.1)) "vout" (jint o.2).

Definition pay_json (addr : string) (sat : Z) : Json :=
  jappend jarray (jset jobject addr (ChiAmountToJson sat)).

Definition funding_options : Json :=
  jset (jset jobject "fee_rate" (jint FLAGS_democrit_feerate_wo_names)) "lockUnspents" (jbool true).

Definition name_update_json (name value : string) : Json :=
  jset (jset (jset jobject "op" (jstr "name_update")) "name" (jstr name)) "value" (jstr value).

Definition pair_json (q1 q2 : string) : Json := jappend (jappend jarray (jstr q1)) (jstr q2).

Class WalletLaws `{Wallets} : Prop := {
  owner_name a : owner (name_out a) = a;
  name_index a : 0 <= (name_out a).2 < two31;
  shows_meaning q p : meaning q = Some p -> shows p (dec q);
  shows_stages q q' p p' : meaning q = Some p -> meaning q' = Some p' ->
    p_in p' = p_in p -> p_out p' = p_out p -> shows_signing p p' (dec q) (dec q');
  (** [decodepsbt] *)
  decode_reply who m n q p : env who m n -> meaning q = Some p ->
    exists n', xaya_rpc (decodepsbt q) n = (inr (dec q), n') /\ env who m n';
  (** [getnewaddress] gives an address of the user, and none twice. *)
  address_reply who m n : env who m n ->
    exists a n1 b n2, xaya_rpc getnewaddress n = (inr a, n1) /\
      xaya_rpc getnewaddress n1 = (inr b, n2) /\ env who m n2 /\ a <> b /\
      own_address who a /\ own_address who b;
  (** [name_show] and [gettxout] on name outputs *)
  name_reply who m n a : env who m n ->
    exists r n', xaya_rpc (name_show (GetXayaName a)) n = (inr r, n') /\ env who m n' /\
      outpoint_in r (mkOutPoint (Some (name_out a).1) (Some (name_out a).2));
  utxo_reply who m n a : env who m n ->
    exists u n' s, xaya_rpc (gettxout (name_out a).1 (name_out a).2) n = (inr u, n') /\
      env who m n' /\ gives_string u "bestblock" s /\ from_hex s = Some tip;
  header_reply who m n b q : env who m n -> parent_of b = Some q ->
    exists d n' v s, xaya_rpc (getblockheader (to_hex b)) n = (inr d, n') /\ env who m n' /\
      is_object d = true /\ jget d "previousblockhash" = Some v /\ is_null v = false /\
      is_string v = true /\ as_string v = Some s /\ from_hex s = Some q;
  (** [lockunspent] on the user's free name output *)
  lock_reply who c n : env who (mkMeans c true) n ->
    exists n', xaya_rpc (lockunspent false (jappend jarray (outpoint_json (name_out who)))) n =
        (inr true, n') /\ env who (mkMeans c false) n';
  (** [walletcreatefundedpsbt] pays from the user's own outputs, with change;
      the outputs are then locked. *)
  fund_reply who c f n addr v : env who (mkMeans c f) n -> 0 < v <= c ->
    exists r n' q p, xaya_rpc (walletcreatefundedpsbt jarray (pay_json addr v) 0 funding_options) n =
        (inr r, n') /\
      env who (mkMeans 0 f) n' /\ gives_string r "psbt" q /\ meaning q = Some p /\
      p_in p <> [] /\ Forall (fun o => owner o = who) (p_in p) /\ Coins addr v ∈ p_out p;
  create_reply who m n o addr v : env who m n -> 0 <= o.2 < two31 ->
    exists q n', xaya_rpc (createpsbt (jappend jarray (outpoint_json o)) (pay_json addr v)) n =
        (inr q, n') /\ env who m n' /\ meaning q = Some (mkPsbt [o] [Coins addr v] [false]);
  (** [namepsbt] turns an output into a name operation. *)
  namepsbt_reply who m n q ins addr v sigs name value : env who m n ->
    meaning q = Some (mkPsbt ins [Coins addr v] sigs) ->
    exists r n' q', xaya_rpc (namepsbt q 0 (name_update_json name value)) n = (inr r, n') /\
      env who m n' /\ gives_string r "psbt" q' /\
      meaning q' = Some (mkPsbt ins [NameUpdate addr name value] sigs);
  (** [joinpsbts] puts inputs and outputs together, in any order. *)
  join_reply who m n q1 q2 p1 p2 : env who m n -> meaning q1 = Some p1 -> meaning q2 = Some p2 ->
    exists q n' p, xaya_rpc (joinpsbts (pair_json q1 q2)) n = (inr q, n') /\
      env who m n' /\ meaning q = Some p /\ p_in p ≡ₚ p_in p1 ++ p_in p2 /\
      p_out p ≡ₚ p_out p1 ++ p_out p2 /\ p_sig p = replicate (length (p_in p)) false;
  sign_reply who m n q p : env who m n -> meaning q = Some p ->
    exists r n' q', xaya_rpc (walletprocesspsbt q) n = (inr r, n') /\ env who m n' /\
      gives_string r "psbt" q' /\ meaning q' = Some (signed_by_user who p) /\
      gives_bool r "complete" (complete (signed_by_user who p));
  combine_reply who m n q1 q2 p1 p2 : env who m n -> meaning q1 = Some p1 -> meaning q2 = Some p2 ->
    p_in p2 = p_in p1 -> p_out p2 = p_out p1 ->
    exists q n', xaya_rpc (combinepsbt (pair_json q1 q2)) n = (inr q, n') /\ env who m n' /\
      meaning q = Some (mkPsbt (p_in p1) (p_out p1) (zip_with orb (p_sig p1) (p_sig p2)));
  (** [finalizepsbt] on a PSBT with all signatures, and the broadcast of its
      transaction, whose inputs nobody has spent yet *)
  finalize_reply who m n q p : env who m n -> meaning q = Some p -> complete p = true ->
    exists r n' hex txid n'', xaya_rpc (finalizepsbt q) n = (inr r, n') /\
      gives_bool r "complete" true /\ gives_string r "hex" hex /\
      xaya_rpc (sendrawtransaction hex) n' = (inr txid, n'')
}.

(** The game agrees to the trade: the asset exists, the buyer can get it and
    the seller can send it, by some move.  The game has seen the wallets' block
    and is at most as many blocks ahead as the buyer's check follows. *)
Class FairGame `{Wallets} (tc : TradeChecker) : Prop := {
  game_asset who m n : env who m n ->
    exists n', spec_is_asset (tc_asset tc) n = (Ret true, n') /\ env who m n';
  game_buy who m n : env who m n ->
    exists n', spec_can_buy (tc_buyer tc) (tc_asset tc) (tc_units tc) n = (Ret true, n') /\
      env who m n';
  game_sell who m n : env who m n ->
    exists n' b k, spec_can_sell (tc_seller tc) (tc_asset tc) (tc_units tc) n = (Ret (Some b), n') /\
      env who m n' /\ back k b = Some tip /\ (k <= MAX_BLOCK_ANCESTORS_CHECKED)%nat;
  game_move : exists v, GetNameUpdateValue tc = Ret v
}.

End wallets.

(* ------------------------------------------------------------------ *)
(** ** The transaction of a trade *)

(** Signatures of [n] inputs: [s] at the seller's input [idx], [b] at the
    buyer's. *)
Definition sigs (n idx : nat) (b s : bool) : list bool :=
  (fun i => if bool_decide (i = idx) then s else b) <$> seq 0 n.

Lemma sigs_lookup n idx b s i :
  (i < n)%nat -> sigs n idx b s !! i = Some (if bool_decide (i = idx) then s else b).
Proof. intros Hi. unfold sigs. by rewrite list_lookup_fmap, lookup_seq_lt by done. Qed.

Lemma sigs_length n idx b s : length (sigs n idx b s) = n.
Proof. unfold sigs. by rewrite length_fmap, length_seq. Qed.

Lemma sigs_unsigned n idx : sigs n idx false false = replicate n false.
Proof.
  apply (list_eq_same_length _ _ n); [by rewrite length_replicate|by rewrite sigs_length|].
  intros i x y Hi. rewrite sigs_lookup, lookup_replicate_2 by done.
  case_bool_decide; congruence.
Qed.

Lemma sigs_combined n idx b s b' s' :
  zip_with orb (sigs n idx b s) (sigs n idx b' s') = sigs n idx (b || b') (s || s').
Proof.
  apply (list_eq_same_length _ _ n); rewrite ?length_zip_with, ?sigs_length; [done|lia|].
  intros i x y Hi. rewrite lookup_zip_with, !sigs_lookup by done. cbn.
  case_bool_decide; congruence.
Qed.

Lemma sigs_complete n idx b s :
  (idx < n)%nat -> (2 <= n)%nat -> forallb (fun x => x) (sigs n idx b s) = b && s.
Proof.
  intros Hi Hn. apply eq_true_iff_eq. rewrite forallb_forall, andb_true_iff. split.
  - intros Hf.
    assert (Hat : forall i, (i < n)%nat -> (if bool_decide (i = idx) then s else b) = true).
    { intros i Hlt. apply Hf, list_elem_of_In, (list_elem_of_lookup_2 _ i). by rewrite sigs_lookup. }
    split; [|specialize (Hat idx Hi); by rewrite bool_decide_true in Hat].
    destruct (decide (idx = 0%nat)) as [->|Hne].
    + specialize (Hat 1%nat ltac:(lia)). by rewrite bool_decide_false in Hat.
    + specialize (Hat 0%nat ltac:(lia)). by rewrite bool_decide_false in Hat.
  - intros [-> ->] x Hx. unfold sigs in Hx. apply in_map_iff in Hx as (i & <- & _).
    by case_bool_decide.
Qed.

(** A test or an access whose result is known, and a known member. *)
Ltac wp_ok := wp_step; wp_step; [|congruence]; simplify_eq.
Ltac wp_known_field := wp_use wp_field; [intros ? ?; simplify_eq|congruence].

Section honest.
Context `{JsonLib} `{!JsonLaws} `{!Uint256Lib} `{!Uint256Laws} `{!AmountLib} {Node : Type}
  `{!XayaRpc Node} `{!AssetSpec Node} `{!Flags} `{!Wallets} `{!WalletLaws}.

(** The seller's name input at [idx], all other inputs the buyer's, and the
    outputs the trade demands. *)
Record trade_tx (tc : TradeChecker) (sd : SellerData) (ins : list (string * Z))
    (outs : list TxOut) (idx : nat) : Prop := {
  tt_two : (2 <= length ins)%nat;
  tt_name : ins !! idx = Some (name_out (tc_seller tc));
  tt_owner i o : ins !! i = Some o ->
    owner o = if bool_decide (i = idx) then tc_seller tc else tc_buyer tc;
  tt_pay : Coins (chi_address_of sd) (tc_price tc * tc_units tc) ∈ outs;
  tt_update : exists v, GetNameUpdateValue tc = Ret v /\
    NameUpdate (name_address_of sd) (GetXayaName (tc_seller tc)) v ∈ outs
}.

(** The transaction, signed by the buyer if [b] and by the seller if [s]. *)
Definition stage (ins : list (string * Z)) (outs : list TxOut) (idx : nat) (b s : bool) : Psbt :=
  mkPsbt ins outs (sigs (length ins) idx b s).

Lemma stage_complete tc sd ins outs idx b s :
  trade_tx tc sd ins outs idx -> complete (stage ins outs idx b s) = b && s.
Proof. intros [Ht Hn _ _ _]. apply sigs_complete; [by eapply lookup_lt_Some|done]. Qed.

Lemma stage_signed tc sd ins outs idx b s who :
  trade_tx tc sd ins outs idx ->
  signed_by_user who (stage ins outs idx b s) =
  stage ins outs idx (b || String.eqb (tc_buyer tc) who) (s || String.eqb (tc_seller tc) who).
Proof.
  intros [_ _ Hown _ _]. unfold signed_by_user, stage. cbn [p_in p_out p_sig]. f_equal.
  apply (list_eq_same_length _ _ (length ins));
    rewrite ?length_zip_with, ?sigs_length; [done|lia|].
  intros i x y Hi. rewrite lookup_zip_with, !sigs_lookup by done.
  destruct (lookup_lt_is_Some_2 ins i Hi) as [o Ho]. rewrite Ho. cbn. unfold owns.
  rewrite (Hown i o Ho). case_bool_decide; congruence.
Qed.

(* ------------------------------------------------------------------ *)
(** ** The checks and calls on it *)

Context {S : Type}.
Implicit Types (w : World Node S) (ins : list (string * Z)) (outs : list TxOut).

Lemma wp_reply_psbt r q (Q : outcome string -> World Node S -> Prop) w :
  gives_string r "psbt" q -> Q (Ret q) w -> wp (reply_psbt r) Q w.
Proof.
  intros (Ho & v & Hv & Hs & Hq) HQ. unfold reply_psbt.
  wp_ok. wp_known_field. wp_ok. wp_step; congruence.
Qed.

Lemma wp_sign who m q p (Q : outcome (string * bool) -> World Node S -> Prop) w :
  env who m (wnode w) -> meaning q = Some p ->
  (forall n t q', env who m n -> meaning q' = Some (signed_by_user who p) ->
     Q (Ret (q', complete (signed_by_user who p))) (mkWorld (wst w) n t)) ->
  wp (SignPsbt q) Q w.
Proof.
  intros He Hm HQ.
  destruct (sign_reply _ _ _ _ _ He Hm) as (r & n & q' & Hr & He' & (Ho & v & Hv & Hs & Hq) & Hm' &
    (_ & c & Hc & Hb & Hcb)).
  unfold SignPsbt. wp_call Hr. wp_ok. wp_known_field. wp_ok. wp_known_field. wp_ok. wp_ok. wp_ok.
  wp_step. by apply HQ.
Qed.

(** Both stages of a signing are decoded, and what they show. *)
Lemma signing_seen who m n q q' p p' :
  env who m n -> meaning q = Some p -> meaning q' = Some p' ->
  p_in p' = p_in p -> p_out p' = p_out p ->
  exists n' vin is1 is2, env who m n' /\
    signing_view n q q' n' (dec q) (dec q') vin is1 is2 /\
    Forall2 shows_input (p_in p) vin /\ length is1 = length (p_in p) /\
    forall i, (i < length is1)%nat -> (same_input is1 is2 i <-> p_sig p !! i = p_sig p' !! i).
Proof.
  intros He Hm Hm' Hi Ho.
  destruct (decode_reply _ _ _ _ _ He Hm) as (n1 & Hd & He1).
  destruct (decode_reply _ _ _ _ _ He1 Hm') as (n2 & Hd' & He2).
  destruct (shows_meaning _ _ Hm) as (_ & (vin & Hvin & Hin) & _ & is1 & Hins & Hlen).
  destruct (shows_meaning _ _ Hm') as (_ & _ & _ & is2 & Hins' & Hlen').
  destruct (shows_stages _ _ _ _ Hm Hm' Hi Ho) as ((tx & tx' & Htx & Htx' & Heq) & Hsame).
  exists n2, vin, is1, is2. split_and!; try done.
  - exists n1, tx, tx'. split_and!; try done. by rewrite Hlen, Hlen', Hi.
  - intros i Hlt. apply Hsame; [done..|]. lia.
Qed.

Lemma stages_differ ins outs idx b s b' s' i :
  (i < length ins)%nat ->
  (p_sig (stage ins outs idx b s) !! i = p_sig (stage ins outs idx b' s') !! i <->
   (if bool_decide (i = idx) then s = s' else b = b')).
Proof.
  intros Hi. cbn. rewrite !sigs_lookup by done. case_bool_decide; split; congruence.
Qed.

(** The buyer's own signature passes: only the name input is unsigned. *)
Lemma wp_buyer_signature_ok who m tc sd ins outs idx q q' s
    (Q : outcome bool -> World Node S -> Prop) w :
  env who m (wnode w) -> trade_tx tc sd ins outs idx ->
  meaning q = Some (stage ins outs idx false s) -> meaning q' = Some (stage ins outs idx true s) ->
  (forall n t, env who m n -> Q (Ret true) (mkWorld (wst w) n t)) ->
  wp (CheckForBuyerSignature q q') Q w.
Proof.
  intros He [_ Hn _ _ _] Hm Hm' HQ. apply lookup_lt_Some in Hn.
  destruct (signing_seen _ _ _ _ _ _ _ He Hm Hm' eq_refl eq_refl)
    as (n' & vin & i1 & i2 & He' & Hview & _ & Hlen & Hsame). cbn [stage p_in] in Hlen.
  eapply wp_buyer_signature_verdict; [exact Hview|]. intros b Hb.
  replace b with true; [by apply HQ|]. symmetry. apply Hb. exists idx. split; [lia|].
  split; [|intros i Hi Hne; rewrite Hsame, stages_differ by lia; by rewrite bool_decide_false].
  rewrite Hsame, stages_differ by lia. by rewrite bool_decide_true.
Qed.

(** An input shown at a position is the one of the transaction. *)
Lemma shown_spends ins vin i inp h k :
  Forall2 shows_input ins vin -> vin !! i = Some inp -> spends h k inp -> ins !! i = Some (h, k).
Proof.
  intros Hall Hi ((x & Hx & Hxs) & y & Hy & Hyu).
  destruct (Forall2_lookup_r _ _ _ _ _ Hall Hi) as ([h' k'] & Ho & _ & (x' & Hx' & Hxs') & y' & Hy' & Hyu').
  cbn in *. by simplify_eq.
Qed.

(** So does the seller's, with its name input as the only change. *)
Lemma wp_seller_signature_ok who m tc sd ins outs idx q q' b
    (Q : outcome bool -> World Node S -> Prop) w :
  env who m (wnode w) -> trade_tx tc sd ins outs idx -> tc_buyer tc <> tc_seller tc ->
  sd_name_output sd =
    Some (mkOutPoint (Some (name_out (tc_seller tc)).1) (Some (name_out (tc_seller tc)).2)) ->
  meaning q = Some (stage ins outs idx b false) -> meaning q' = Some (stage ins outs idx b true) ->
  (forall n t, env who m n -> Q (Ret true) (mkWorld (wst w) n t)) ->
  wp (CheckForSellerSignature q q' sd) Q w.
Proof.
  intros He [_ Hn Hown _ _] Hne Hsd Hm Hm' HQ. pose proof (lookup_lt_Some _ _ _ Hn) as Hlt.
  destruct (signing_seen _ _ _ _ _ _ _ He Hm Hm' eq_refl eq_refl)
    as (n' & vin & i1 & i2 & He' & Hview & Hin & Hlen & Hsame). cbn [stage p_in] in Hlen, Hin.
  eapply wp_seller_signature_verdict; [exact Hsd|exact Hview| |].
  { eapply Forall2_Forall_r; [exact Hin|]. apply Forall_true. intros o y [Hwf _]. done. }
  intros r Hr. replace r with true; [by apply HQ|]. symmetry. apply Hr. exists idx. split.
  - destruct (Forall2_lookup_l _ _ _ _ _ Hin Hn) as (inp & Hi & _ & Hsp). split; [by exists inp|].
    intros j y Hj Hy Hs. pose proof (shown_spends _ _ _ _ _ _ Hin Hy Hs) as Ho.
    rewrite <-surjective_pairing in Ho. apply Hown in Ho.
    rewrite bool_decide_false, owner_name in Ho by lia. done.
  - intros i Hi Hii. rewrite Hsame, stages_differ by lia. by rewrite bool_decide_false.
Qed.

(** The terms make sense: whole units, and a positive total that fits. *)
Record sound_terms (tc : TradeChecker) : Prop := {
  st_price : is_s64 (tc_price tc);
  st_units : is_s64 (tc_units tc);
  st_some : 0 < tc_units tc;
  st_total : is_s64 (tc_price tc * tc_units tc);
  st_positive : 0 < tc_price tc * tc_units tc
}.

(** The outputs of the trade are what the seller demands. *)
Lemma trade_outputs_acceptable tc sd ins outs idx vout :
  sound_terms tc -> trade_tx tc sd ins outs idx -> Forall2 shows_output outs vout ->
  acceptable_outputs tc sd vout.
Proof.
  intros Ht [_ _ _ Hpay (v & Hv & Hupd)] Hout. destruct Ht as [_ _ _ Hfit Hpos].
  exists (tc_price tc * tc_units tc). split; [unfold agreed_total; by rewrite bool_decide_true|].
  split; [lia|].
  assert (Hshown : forall o, o ∈ outs -> exists y, y ∈ vout /\ shows_output o y).
  { intros o [i Ho]%list_elem_of_lookup_1. destruct (Forall2_lookup_l _ _ _ _ _ Hout Ho) as (y & Hy & Hs).
    exists y. split; [by eapply list_elem_of_lookup_2|done]. }
  split; [right|]; apply Exists_exists.
  - destruct (Hshown _ Hpay) as (y & Hy & _ & spk & op & Hspk & Hop & Ho & Hp & x & Hx & Ha).
    exists y. split; [done|]. exists spk, op, x, (tc_price tc * tc_units tc). by split_and!.
  - destruct (Hshown _ Hupd) as (y & Hy & _ & spk & op & Hspk & Hop & Ho & Hp & Hk & Hn & Hval).
    exists y. split; [done|]. exists spk, op, v. by split_and!.
Qed.

Lemma wp_seller_outputs_ok who m tc sd ins outs idx b s q (Q : outcome bool -> World Node S -> Prop) w :
  env who m (wnode w) -> FairGame tc -> sound_terms tc -> trade_tx tc sd ins outs idx ->
  has (sd_chi_address sd) = true -> has (sd_name_address sd) = true ->
  meaning q = Some (stage ins outs idx b s) ->
  (forall n t, env who m n -> Q (Ret true) (mkWorld (wst w) n t)) ->
  wp (CheckForSellerOutputs tc q sd) Q w.
Proof.
  intros He Hg Ht Htx Hca Hna Hm HQ.
  destruct (decode_reply _ _ _ _ _ He Hm) as (n' & Hd & He').
  destruct (shows_meaning _ _ Hm) as (Hobj & _ & (vout & Hvout & Hout) & _).
  pose proof Ht as [Hp Hu Hs Htot Hpos].
  eapply wp_seller_outputs_verdict; try done; [nia|by left| |apply game_move|].
  { eapply Forall2_Forall_r; [exact Hout|]. apply Forall_true. by intros o y [Hwf _]. }
  intros r Hr. replace r with true; [by apply HQ|]. symmetry. apply Hr.
  by eapply trade_outputs_acceptable.
Qed.

(** From the game's block the check gets back to the wallets'. *)
Lemma wp_ancestor_ok who m b k n (Q : outcome bool -> World Node S -> Prop) w :
  env who m (wnode w) -> back k b = Some tip -> (k <= n)%nat ->
  (forall n t, env who m n -> Q (Ret true) (mkWorld (wst w) n t)) ->
  wp (IsBlockAncestor tip b n) Q w.
Proof.
  intros He Hb Hk HQ. revert b n w He Hb Hk HQ.
  induction k as [|k IH]; intros b n w He Hb Hk HQ; cbn [back] in Hb.
  - simplify_eq. destruct n; cbn [IsBlockAncestor]; rewrite (proj2 (u256_eqb_eq tip tip) eq_refl);
      wp_step; specialize (HQ (wnode w) (wtrace w) He); by destruct w.
  - destruct n as [|n]; [lia|]. cbn [IsBlockAncestor]. destruct (u256_eqb tip b).
    { wp_step. specialize (HQ (wnode w) (wtrace w) He). by destruct w. }
    destruct (parent_of b) as [q|] eqn:Hq; [|done]. cbn in Hb.
    destruct (header_reply _ _ _ _ _ He Hq) as (d & n' & v & s & Hr & He' & Ho & Hv & Hnn & Hs & Hvs & Hf).
    wp_call Hr. wp_ok. wp_known_field. rewrite Hnn. wp_ok. wp_ok. wp_ok.
    apply (IH _ _ (mkWorld _ n' _)); [done|done|lia|]. intros n1 t1 E1. by apply HQ.
Qed.

(** The buyer finds the seller able to deliver. *)
Lemma wp_buyer_trade_ok who m tc (Q : outcome (option OutPoint) -> World Node S -> Prop) w :
  env who m (wnode w) -> FairGame tc ->
  (forall n t, env who m n ->
     Q (Ret (Some (mkOutPoint (Some (name_out (tc_seller tc)).1) (Some (name_out (tc_seller tc)).2))))
       (mkWorld (wst w) n t)) ->
  wp (CheckForBuyerTrade tc) Q w.
Proof.
  intros He Hg HQ. set (p := mkOutPoint (Some (name_out (tc_seller tc)).1) (Some (name_out (tc_seller tc)).2)).
  destruct (game_asset _ _ _ He) as (n1 & G1 & E1). destruct (game_buy _ _ _ E1) as (n2 & G2 & E2).
  destruct (name_reply _ _ _ (tc_seller tc) E2) as (r & n3 & G3 & E3 & Hp). fold p in Hp.
  destruct (utxo_reply _ _ _ (tc_seller tc) E3) as (u & n4 & s & G4 & E4 & (Hu & v & Hv & Hvs & Hs) & Ht).
  destruct (game_sell _ _ _ E4) as (n5 & b & k & G5 & E5 & Hb & Hk).
  unfold CheckForBuyerTrade, GetNameOutPoint.
  wp_step. wp_step; same_result. cbn [negb]. wp_step. wp_step; same_result. cbn [negb].
  wp_step. wp_step. wp_call G3.
  wp_use wp_OutPointFromJson; [intros p' Hp'|intros Hno; by destruct (Hno p)].
  rewrite (outpoint_in_unique _ _ _ Hp' Hp). wp_call G4. rewrite (is_null_object _ Hu).
  wp_ok. wp_known_field. wp_ok. wp_ok. wp_ok. wp_step. wp_step; same_result.
  apply wp_bind, (wp_ancestor_ok who m b k); [done..|]. intros n6 t6 E6. cbn [then_post negb].
  wp_step. by apply HQ.
Qed.

(* ------------------------------------------------------------------ *)
(** ** Building the transaction *)

(** Funding inputs of the buyer and the name input, in any order. *)
Lemma joined_inputs tc ins coins :
  ins ≡ₚ coins ++ [name_out (tc_seller tc)] -> coins <> [] ->
  Forall (fun o => owner o = tc_buyer tc) coins ->
  exists idx, (2 <= length ins)%nat /\ ins !! idx = Some (name_out (tc_seller tc)) /\
    forall i o, ins !! i = Some o ->
      owner o = if bool_decide (i = idx) then tc_seller tc else tc_buyer tc.
Proof.
  intros Hp Hne Hown.
  assert (Hin : name_out (tc_seller tc) ∈ ins) by (rewrite Hp; set_solver).
  apply list_elem_of_split in Hin as (l1 & l2 & ->). exists (length l1).
  assert (Hl : l1 ++ l2 ≡ₚ coins).
  { apply (Permutation_app_inv_r [name_out (tc_seller tc)]). rewrite <-Hp, <-app_assoc.
    apply Permutation_app_head. by rewrite Permutation_app_comm. }
  assert (Hown' : Forall (fun o => owner o = tc_buyer tc) (l1 ++ l2)) by (by rewrite Hl).
  assert (Hlen : length (l1 ++ l2) <> 0%nat) by (rewrite Hl; by destruct coins).
  apply Forall_app in Hown' as [Ho1 Ho2]. rewrite length_app in *. cbn [length].
  split_and!; [lia|by apply list_lookup_middle|]. intros i o Hi. case_bool_decide as Hii.
  - subst. rewrite list_lookup_middle in Hi by done. simplify_eq. apply owner_name.
  - apply lookup_app_Some in Hi as [Hi|[Hge Hi]]; [by eapply (Forall_lookup_1 _ _ _ _ Ho1)|].
    destruct (i - length l1)%nat as [|k] eqn:Hk; [lia|]. by eapply (Forall_lookup_1 _ _ _ _ Ho2).
Qed.

Lemma wp_fund_ok who c f sd total (Q : outcome string -> World Node S -> Prop) w :
  env who (mkMeans c f) (wnode w) -> 0 < total <= c ->
  (forall n t q p, env who (mkMeans 0 f) n -> meaning q = Some p -> p_in p <> [] ->
     Forall (fun o => owner o = who) (p_in p) -> Coins (chi_address_of sd) total ∈ p_out p ->
     Q (Ret q) (mkWorld (wst w) n t)) ->
  wp (fund_chi_part sd total) Q w.
Proof.
  intros He Ht HQ.
  destruct (fund_reply _ _ _ _ (chi_address_of sd) _ He Ht) as (r & n & q & p & Hr & He' & Hq & Hm & G1 & G2 & G3).
  unfold fund_chi_part. cbv zeta. wp_call Hr. by apply wp_reply_psbt with q; [|eapply HQ].
Qed.

Lemma wp_name_part_ok who m sd tc (Q : outcome string -> World Node S -> Prop) w :
  env who m (wnode w) -> FairGame tc ->
  (forall n t q v, env who m n -> GetNameUpdateValue tc = Ret v ->
     meaning q = Some (mkPsbt [name_out (tc_seller tc)]
       [NameUpdate (name_address_of sd) (GetXayaName (tc_seller tc)) v] [false]) ->
     Q (Ret q) (mkWorld (wst w) n t)) ->
  wp (build_name_part sd (tc_seller tc)
        (mkOutPoint (Some (name_out (tc_seller tc)).1) (Some (name_out (tc_seller tc)).2)) tc) Q w.
Proof.
  intros He Hg HQ. set (o := name_out (tc_seller tc)) in *.
  pose proof (name_index (tc_seller tc)) as Hi. fold o in Hi. destruct game_move as [v Hv].
  destruct (create_reply _ _ _ _ (name_address_of sd) NAME_VALUE He Hi) as (q & n & Hr & He' & Hm).
  destruct (namepsbt_reply _ _ _ _ _ _ _ _ (GetXayaName (tc_seller tc)) v He' Hm)
    as (r & n' & q' & Hr' & He'' & Hq & Hm').
  unfold build_name_part, hash_of, n_of. cbn [op_hash op_n from_option id]. cbv zeta.
  replace (s32 o.2) with o.2 by (by rewrite s32_small).
  wp_call Hr. rewrite Hv. wp_step. wp_step. wp_call Hr'.
  apply wp_reply_psbt with q'; [done|]. by eapply HQ.
Qed.

Lemma wp_construct_ok account c f pb tc (Q : outcome string -> World Node S -> Prop) w :
  env (tc_buyer tc) (mkMeans c f) (wnode w) -> FairGame tc -> sound_terms tc ->
  tc_price tc * tc_units tc <= c -> GetOrderType account pb = BID -> counterparty_of pb = tc_seller tc ->
  has (sd_chi_address (seller_data_of pb)) = true ->
  has (sd_name_address (seller_data_of pb)) = true ->
  (forall n t q ins outs idx, env (tc_buyer tc) (mkMeans 0 f) n ->
     trade_tx tc (seller_data_of pb) ins outs idx ->
     meaning q = Some (stage ins outs idx false false) -> Q (Ret q) (mkWorld (wst w) n t)) ->
  wp (ConstructTransaction account pb tc
        (mkOutPoint (Some (name_out (tc_seller tc)).1) (Some (name_out (tc_seller tc)).2))) Q w.
Proof.
  intros He Hg [Hp Hu Hs Htot Hpos] Hc Hty Hcp Hca Hna HQ. unfold ConstructTransaction.
  rewrite Hty, Hcp. wp_step. wp_step; [|done]. cbv zeta. rewrite Hca, Hna. wp_step. wp_step; [|done].
  wp_use wp_GetTotalSat; [lia|intros _ _|done]. wp_step. wp_step; [|done]. simplify_eq.
  wp_use (wp_fund_ok (tc_buyer tc) c f); [exact He|lia|]. intros n1 t1 q1 p1 E1 Hm1 Hne Hown Hpay.
  wp_use (wp_name_part_ok (tc_buyer tc) (mkMeans 0 f)); [exact E1|done|]. intros n2 t2 q2 v E2 Hv Hm2.
  destruct (join_reply _ _ _ _ _ _ _ E2 Hm1 Hm2) as (q & n3 & [ins outs sg] & Hr & E3 & Hm & Hins & Houts & Hsg).
  cbn [p_in p_out p_sig] in *. wp_call Hr.
  destruct (joined_inputs tc ins (p_in p1)) as (idx & Hlen & Hn & Ho); [done..|].
  apply (HQ _ _ _ ins outs idx); [done| |].
  - split; try done; [rewrite Houts; set_solver|]. exists v. split; [done|]. rewrite Houts. set_solver.
  - by rewrite Hm, Hsg, <-(sigs_unsigned _ idx).
Qed.

End honest.

(* ------------------------------------------------------------------ *)
(** ** The steps of a negotiation *)

Section steps.
Context `{JsonLib} `{!JsonLaws} `{!Uint256Lib} `{!Uint256Laws} `{!AmountLib} {Node : Type}
  `{!XayaRpc Node} `{!AssetSpec Node} `{!Flags} `{!Wallets} `{!WalletLaws}.
Context (account : string) (tc : TradeChecker).
Implicit Types (w : World Node TradeState) (pb : TradeState) (ins : list (string * Z))
  (outs : list TxOut) (Q : outcome (option ProcessingMessage) -> World Node TradeState -> Prop).

Definition name_outpoint (a : string) : OutPoint :=
  mkOutPoint (Some (name_out a).1) (Some (name_out a).2).

(** The seller data of an honest seller [a]: two addresses of its own wallet,
    and its name output. *)
Definition seller_data_by (a : string) (sd : SellerData) : Prop :=
  exists na ca, na <> ca /\ own_address a na /\ own_address a ca /\ sd = mkSellerData (Some na) (Some ca) (Some (name_outpoint a)).

Lemma wp_create_seller_data c (Q : outcome bool -> World Node TradeState -> Prop) w :
  env account (mkMeans c true) (wnode w) ->
  GetOrderType account (wst w) = ASK -> ts_seller_data (wst w) = None ->
  (forall n t sd, env account (mkMeans c false) n -> seller_data_by account sd ->
     Q (Ret true) (mkWorld (with_seller_data (Some sd) (wst w)) n t)) ->
  wp (CreateSellerData account) Q w.
Proof.
  intros He Hty Hsd HQ.
  destruct (name_reply _ _ _ account He) as (r & n1 & G1 & E1 & Hp). fold (name_outpoint account) in Hp.
  destruct (lock_reply _ _ _ E1) as (n2 & G2 & E2).
  destruct (address_reply _ _ _ E2) as (na & n3 & ca & n4 & G3 & G4 & E4 & Hne & Hna & Hca).
  unfold CreateSellerData, GetNameOutPoint, LockUnspent. wp_step. wp_step.
  rewrite Hty, Hsd, bool_decide_true by done. cbn [negb has].
  wp_step. wp_step. wp_call G1.
  wp_use wp_OutPointFromJson; [intros p Hp'|intros Hno; by destruct (Hno (name_outpoint account))].
  rewrite (outpoint_in_unique _ _ _ Hp' Hp). wp_step. wp_step. cbv zeta.
  unfold hash_of, n_of, name_outpoint. cbn [op_hash op_n from_option id negb].
  rewrite (s32_small (name_out account).2) by apply name_index. wp_call G2. cbn [negb].
  wp_call G3. wp_call G4. wp_step. wp_step. wp_step. apply HQ; [done|]. by exists na, ca.
Qed.

(** The party buys in the trade [pb] under the terms [tc], or sells. *)
Record buying pb : Prop := {
  bu_type : GetOrderType account pb = BID;
  bu_us : tc_buyer tc = account;
  bu_them : counterparty_of pb = tc_seller tc;
  bu_ne : tc_buyer tc <> tc_seller tc;
  bu_terms : sound_terms tc
}.

Record selling pb : Prop := {
  se_type : GetOrderType account pb = ASK;
  se_us : tc_seller tc = account;
  se_ne : tc_buyer tc <> tc_seller tc;
  se_terms : sound_terms tc
}.

Definition offers_addresses (sd : SellerData) : Prop :=
  has (sd_chi_address sd) = true /\ has (sd_name_address sd) = true.

Lemma wp_buyer_construct_ok c f reply (Q : outcome Stage -> World Node TradeState -> Prop) w :
  env account (mkMeans c f) (wnode w) -> FairGame tc -> buying (wst w) ->
  tc_price tc * tc_units tc <= c -> offers_addresses (seller_data_of (wst w)) ->
  (forall n t u q ins outs idx, trade_tx tc (seller_data_of (wst w)) ins outs idx ->
     env account (mkMeans 0 f) n -> meaning u = Some (stage ins outs idx false false) ->
     meaning q = Some (stage ins outs idx true false) ->
     Q (Ret (match GetRole account (wst w) with
             | MAKER => Done (Some (with_msg_psbt (Some (mkTradePsbt (Some u))) reply))
             | TAKER => Continue
             end)) (mkWorld (with_our_psbt (Some q) (wst w)) n t)) ->
  wp (buyer_construct account tc reply) Q w.
Proof.
  intros He Hg [Hty Hus Hthem Hne Hterms] Hc [Hca Hna] HQ. unfold buyer_construct.
  wp_step. wp_step. wp_use (wp_buyer_trade_ok account (mkMeans c f)); [exact He|done|]. intros n1 t1 E1.
  wp_use (wp_construct_ok account c f); [by rewrite Hus|done..|]. intros n2 t2 u ins outs idx E2 Htx Hu.
  rewrite Hus in E2. wp_use (wp_sign account (mkMeans 0 f) u (stage ins outs idx false false)); [done..|]. intros n3 t3 q E3 Hq.
  rewrite (stage_signed tc (seller_data_of (wst w))), (stage_complete tc (seller_data_of (wst w))) in * by done.
  rewrite Hus, String.eqb_refl, (proj2 (String.eqb_neq (tc_seller tc) account)) in * by congruence.
  cbn [orb andb] in *.
  wp_use (wp_buyer_signature_ok account (mkMeans 0 f) tc (seller_data_of (wst w)) ins outs idx u q false); [done..|].
  intros n4 t4 E4. cbn [negb]. wp_step. wp_step; [|done]. wp_step. wp_step. cbn [wst].
  specialize (HQ _ t4 _ _ _ _ _ Htx E4 Hu Hq). by destruct (GetRole account (wst w)); wp_step.
Qed.

Lemma wp_seller_sign_ok m q ins outs idx b (Q : outcome Stage -> World Node TradeState -> Prop) w :
  env account m (wnode w) -> FairGame tc -> selling (wst w) ->
  trade_tx tc (seller_data_of (wst w)) ins outs idx -> offers_addresses (seller_data_of (wst w)) ->
  sd_name_output (seller_data_of (wst w)) = Some (name_outpoint account) ->
  ts_their_psbt (wst w) = Some q -> meaning q = Some (stage ins outs idx b false) ->
  b = bool_decide (GetRole account (wst w) = MAKER) ->
  (forall n t q', env account m n -> meaning q' = Some (stage ins outs idx b true) ->
     Q (Ret Continue) (mkWorld (with_our_psbt (Some q') (wst w)) n t)) ->
  wp (seller_sign account tc) Q w.
Proof.
  intros He Hg [Hty Hus Hne Hterms] Htx [Hca Hna] Hout Hth Hq Hb HQ. unfold seller_sign.
  wp_step. wp_step. unfold their_psbt_of. rewrite Hth. cbn [has from_option id].
  wp_step. wp_step; [|done].
  wp_use (wp_seller_outputs_ok account m tc _ ins outs idx b false); [done..|]. intros n1 t1 E1. cbn [negb].
  wp_use (wp_sign account m q (stage ins outs idx b false)); [done..|]. intros n2 t2 q' E2 Hq'.
  rewrite (stage_signed tc (seller_data_of (wst w))), (stage_complete tc (seller_data_of (wst w))) in * by done.
  rewrite Hus, String.eqb_refl, (proj2 (String.eqb_neq (tc_buyer tc) account)) in * by congruence.
  rewrite orb_false_r in *. cbn [orb] in *. rewrite andb_true_r.
  wp_use (wp_seller_signature_ok account m tc (seller_data_of (wst w)) ins outs idx q q' b);
    [done|done|congruence|by rewrite Hus|done|done|]. intros n3 t3 E3. cbn [negb].
  destruct (GetRole account (wst w)); rewrite Hb in *; cbn [negb];
    rewrite ?bool_decide_true, ?bool_decide_false by done; cbn [negb]; wp_step; wp_step; wp_step; by apply HQ.
Qed.

(** With both signatures together the maker broadcasts. *)
Definition both_signatures pb ins outs idx : Prop :=
  match GetOrderType account pb with
  | ASK => exists q, ts_our_psbt pb = Some q /\ meaning q = Some (stage ins outs idx true true)
  | BID => exists q1 q2, ts_their_psbt pb = Some q1 /\ ts_our_psbt pb = Some q2 /\
      meaning q1 = Some (stage ins outs idx false true) /\
      meaning q2 = Some (stage ins outs idx true false)
  end.

(** The last calls finalise the transaction [p] and broadcast it. *)
Definition broadcast_last (p : Psbt) (l : list Event) : Prop :=
  exists l0 q r hex txid, l = l0 ++ [EvXaya (finalizepsbt q) (inr r);
      EvXaya (sendrawtransaction hex) (inr txid)] /\
    meaning q = Some p /\ gives_string r "hex" hex.

Lemma wp_final_psbt_ok m ins outs idx (Q : outcome string -> World Node TradeState -> Prop) w :
  env account m (wnode w) -> both_signatures (wst w) ins outs idx ->
  (forall n t q, env account m n -> meaning q = Some (stage ins outs idx true true) ->
     Q (Ret q) (mkWorld (wst w) n t)) ->
  wp (final_psbt account) Q w.
Proof.
  unfold both_signatures, final_psbt. intros He Hb HQ. wp_step. wp_step.
  destruct (GetOrderType account (wst w)).
  - destruct Hb as (q & Hour & Hq). unfold our_psbt_of. rewrite Hour. wp_step.
    specialize (HQ (wnode w) (wtrace w) q He Hq). by destruct w.
  - destruct Hb as (q1 & q2 & Hth & Hour & Hq1 & Hq2). unfold their_psbt_of, our_psbt_of.
    rewrite Hth, Hour. cbn [from_option id].
    destruct (combine_reply _ _ _ _ _ _ _ He Hq1 Hq2 eq_refl eq_refl) as (q & n & Hr & He' & Hq).
    cbn [stage p_in p_out p_sig] in Hq. rewrite sigs_combined in Hq. wp_call Hr. by eapply HQ.
Qed.

Lemma wp_maker_finish_ok m sd ins outs idx Q w :
  env account m (wnode w) -> trade_tx tc sd ins outs idx -> GetRole account (wst w) = MAKER ->
  has (ts_their_psbt (wst w)) = true -> both_signatures (wst w) ins outs idx ->
  (forall n t, broadcast_last (stage ins outs idx true true) t ->
     Q (Ret None) (mkWorld (with_state (Some PENDING) (wst w)) n t)) ->
  wp (maker_finish account) Q w.
Proof.
  intros He Htx Hr Hth Hb HQ. unfold maker_finish. wp_step. wp_step. rewrite Hr, Hth. cbn [negb].
  wp_step. wp_step; [|done].
  wp_use (wp_final_psbt_ok m ins outs idx); [done..|]. intros n t q He' Hq.
  destruct (finalize_reply _ _ _ _ _ He' Hq) as (r & n1 & hex & txid & n2 & G1 & (Ho & v & Hv & Hvb & Hc) &
    Hhex & G2); [by rewrite (stage_complete tc sd)|].
  pose proof Hhex as (_ & x & Hx & Hxs & Hxh).
  wp_call G1. wp_ok. wp_known_field. wp_ok. wp_ok. cbn [negb]. wp_known_field. wp_ok. wp_ok.
  wp_call G2. wp_step. wp_step. wp_step. apply HQ. exists t, q, r, hex, txid. split_and!; try done.
  by rewrite <-app_assoc.
Qed.

(* ------------------------------------------------------------------ *)
(** ** Replies *)

(** The seller's first reply carries its addresses. *)
Lemma wp_reply_addresses c Q w :
  env account (mkMeans c true) (wnode w) -> state_of (wst w) = INITIATED ->
  GetOrderType account (wst w) = ASK -> ts_seller_data (wst w) = None ->
  (forall n t sd, env account (mkMeans c false) n -> seller_data_by account sd ->
     Q (Ret (Some (with_msg_seller_data (Some (clear_name_output sd)) (InitProcessingMessage (wst w)))))
       (mkWorld (with_seller_data (Some sd) (wst w)) n t)) ->
  wp (HasReply account tc) Q w.
Proof.
  intros He Hi Hty Hsd HQ. unfold HasReply. wp_step. wp_step. rewrite Hi. cbn [bool_decide]. cbv zeta.
  rewrite bool_decide_true by done. cbn [negb].
  wp_use (wp_create_seller_data c); [done..|]. intros n t sd He' Hby. cbn [wst]. wp_step. wp_step.
  cbn [wst]. wp_step. wp_step; [|done]. wp_step. by apply HQ.
Qed.

Lemma wp_no_seller_data (Q : outcome bool -> World Node TradeState -> Prop) w :
  GetOrderType account (wst w) = BID \/ has (ts_seller_data (wst w)) = true ->
  Q (Ret false) w -> wp (CreateSellerData account) Q w.
Proof.
  intros Hor HQ. unfold CreateSellerData. wp_step. wp_step.
  destruct (bool_decide_reflect (GetOrderType account (wst w) = ASK)) as [Ha|Ha]; cbn [negb];
    [|by wp_step]. destruct Hor as [Hb| ->]; [congruence|by wp_step].
Qed.

(** The buyer waits for the addresses. *)
Lemma reply_waiting w :
  state_of (wst w) = INITIATED -> GetOrderType account (wst w) = BID ->
  ts_seller_data (wst w) = None -> HasReply account tc w = (Ret None, w).
Proof.
  intros Hi Hty Hsd. apply wp_eq. unfold HasReply. wp_step. wp_step. rewrite Hi. cbv zeta.
  rewrite bool_decide_true by done. cbn [negb].
  wp_use wp_no_seller_data; [by left|]. wp_step. wp_step. rewrite Hsd. cbn [has negb]. by wp_step.
Qed.

(** Once the addresses are known, the buyer builds the transaction. *)
Lemma wp_reply_buyer c f Q w :
  env account (mkMeans c f) (wnode w) -> FairGame tc -> buying (wst w) ->
  state_of (wst w) = INITIATED -> tc_price tc * tc_units tc <= c ->
  has (ts_seller_data (wst w)) = true -> offers_addresses (seller_data_of (wst w)) ->
  ts_our_psbt (wst w) = None ->
  (forall n t u q ins outs idx, trade_tx tc (seller_data_of (wst w)) ins outs idx ->
     env account (mkMeans 0 f) n -> meaning u = Some (stage ins outs idx false false) ->
     meaning q = Some (stage ins outs idx true false) ->
     match GetRole account (wst w) with
     | MAKER => Q (Ret (Some (psbt_reply (wst w) u))) (mkWorld (with_our_psbt (Some q) (wst w)) n t)
     | TAKER => Q (Ret (Some (psbt_reply (wst w) q)))
         (mkWorld (with_state (Some PENDING) (with_our_psbt (Some q) (wst w))) n t)
     end) ->
  wp (HasReply account tc) Q w.
Proof.
  intros He Hg Hb Hi Hc Hsd Hoff Hour HQ. pose proof Hb as [Hty _ _ _ _].
  unfold HasReply. wp_step. wp_step. rewrite Hi. cbv zeta. rewrite bool_decide_true by done. cbn [negb].
  wp_use wp_no_seller_data; [by left|]. wp_step. wp_step. rewrite Hsd, Hty. cbn [negb].
  rewrite bool_decide_false by done. cbn [andb]. wp_step. wp_step.
  unfold buy_and_share. wp_step. wp_step. rewrite Hty, Hour, bool_decide_true by done. cbn [andb has negb].
  wp_use (wp_buyer_construct_ok c f); [done..|]. intros n t u q ins outs idx Htx He' Hu Hq.
  specialize (HQ n t u q ins outs idx Htx He' Hu Hq).
  destruct (GetRole account (wst w)) eqn:Hr; [by wp_step|].
  unfold share_or_finish. wp_step. wp_step. cbn [wst]. wp_step. wp_step; [|done].
  change (GetRole account (with_our_psbt (Some q) (wst w))) with (GetRole account (wst w)). rewrite Hr.
  wp_step. wp_step. by wp_step.
Qed.

(** The seller signs what it got; the taker then shares it, the maker
    broadcasts. *)
Lemma wp_reply_seller m p ins outs idx b Q w :
  env account m (wnode w) -> FairGame tc -> selling (wst w) -> state_of (wst w) = INITIATED ->
  trade_tx tc (seller_data_of (wst w)) ins outs idx ->
  has (ts_seller_data (wst w)) = true -> offers_addresses (seller_data_of (wst w)) ->
  sd_name_output (seller_data_of (wst w)) = Some (name_outpoint account) ->
  ts_our_psbt (wst w) = None -> ts_their_psbt (wst w) = Some p ->
  meaning p = Some (stage ins outs idx b false) ->
  b = bool_decide (GetRole account (wst w) = MAKER) ->
  (forall n t q, env account m n -> meaning q = Some (stage ins outs idx b true) ->
     let w' := mkWorld (with_state (Some PENDING) (with_our_psbt (Some q) (wst w))) n t in
     match GetRole account (wst w) with
     | MAKER => forall n' t', broadcast_last (stage ins outs idx true true) t' ->
         Q (Ret None) (mkWorld (wst w') n' t')
     | TAKER => Q (Ret (Some (psbt_reply (wst w) q))) w'
     end) ->
  wp (HasReply account tc) Q w.
Proof.
  intros He Hg Hs Hi Htx Hsd Hoff Hout Hour Hth Hp Hb HQ. pose proof Hs as [Hty _ _ _].
  unfold HasReply. wp_step. wp_step. rewrite Hi. cbv zeta. rewrite bool_decide_true by done. cbn [negb].
  wp_use wp_no_seller_data; [by right|]. wp_step. wp_step. rewrite Hsd, Hty, Hour, Hth. cbn [negb has].
  rewrite bool_decide_true by done. cbn [andb].
  wp_use (wp_seller_sign_ok m p ins outs idx b); [done..|]. intros n t q He' Hq.
  unfold buy_and_share. wp_step. wp_step. cbn [wst].
  change (GetOrderType account (with_our_psbt (Some q) (wst w))) with (GetOrderType account (wst w)).
  rewrite Hty, bool_decide_false by done. cbn [andb]. wp_step. wp_step.
  unfold share_or_finish. wp_step. wp_step. wp_step. wp_step; [|done]. cbn [wst].
  change (GetRole account (with_our_psbt (Some q) (wst w))) with (GetRole account (wst w)).
  specialize (HQ n t q He' Hq). cbv zeta in HQ. destruct (GetRole account (wst w)) eqn:Hr.
  - subst b. rewrite bool_decide_true in Hq by done.
    apply (wp_maker_finish_ok m (seller_data_of (wst w)) ins outs idx); try done.
    + cbn. by rewrite Hth.
    + unfold both_signatures. cbn [wst].
      change (GetOrderType account (with_our_psbt (Some q) (wst w))) with (GetOrderType account (wst w)).
      rewrite Hty. by exists q.
  - wp_step. wp_step. by wp_step.
Qed.

(** The buying maker broadcasts when the seller's PSBT is there. *)
Lemma wp_reply_bought m sd p q ins outs idx Q w :
  env account m (wnode w) -> state_of (wst w) = INITIATED -> GetOrderType account (wst w) = BID ->
  GetRole account (wst w) = MAKER -> trade_tx tc sd ins outs idx ->
  has (ts_seller_data (wst w)) = true ->
  ts_our_psbt (wst w) = Some q -> meaning q = Some (stage ins outs idx true false) ->
  ts_their_psbt (wst w) = Some p -> meaning p = Some (stage ins outs idx false true) ->
  (forall n t, broadcast_last (stage ins outs idx true true) t ->
     Q (Ret None) (mkWorld (with_state (Some PENDING) (wst w)) n t)) ->
  wp (HasReply account tc) Q w.
Proof.
  intros He Hi Hty Hr Htx Hsd Hour Hq Hth Hp HQ.
  unfold HasReply. wp_step. wp_step. rewrite Hi. cbv zeta. rewrite bool_decide_true by done. cbn [negb].
  wp_use wp_no_seller_data; [by left|]. wp_step. wp_step. rewrite Hsd, Hty. cbn [negb].
  rewrite bool_decide_false by done. cbn [andb]. wp_step. wp_step.
  unfold buy_and_share. wp_step. wp_step. rewrite Hty, Hour, bool_decide_true by done. cbn [andb has negb].
  wp_step. wp_step. unfold share_or_finish. wp_step. wp_step. wp_step. wp_step; [|by rewrite Hour in *].
  rewrite Hr. apply (wp_maker_finish_ok m sd ins outs idx); try done; [by rewrite Hth|].
  unfold both_signatures. rewrite Hty. by exists p, q.
Qed.

End steps.

(* ------------------------------------------------------------------ *)
(** ** The whole negotiation *)

Section negotiation.
Context `{JsonLib} `{!JsonLaws} `{!Uint256Lib} `{!Uint256Laws} `{!AmountLib} {Node : Type}
  `{!XayaRpc Node} `{!DemGspRpc Node} `{!AssetSpec Node} `{!Clock Node} `{!Flags} `{!Wallets}
  `{!WalletLaws}.
Implicit Types (w : World Node TradeState) (t : TradeState).

(** A message about this trade is handled, and answered. *)
Lemma wp_receive_ok account from msg (Q : outcome (option ProcessingMessage) -> _ -> Prop) w :
  counterparty_of (wst w) = from -> msg_identifier msg = GetIdentifier (wst w) ->
  wp (HasReply account (BuildTradeChecker account (wst w)))
    (fun o w' => match o with Throw (JsonRpcException _) => Q (Ret None) w' | o => Q o w' end)
    (mkWorld (got account from msg (wst w)) (wnode w) (wtrace w)) ->
  wp (receive account from msg) Q w.
Proof.
  intros Hc Hid HQ. unfold receive. wp_step. wp_step.
  assert (HM : Matches (wst w) (with_msg_counterparty (Some from) msg) = true).
  { unfold Matches. change (msg_identifier (with_msg_counterparty (Some from) msg)) with (msg_identifier msg).
    rewrite Hid, String.eqb_refl, andb_true_r. apply String.eqb_eq. by rewrite Hc. }
  rewrite HM. unfold process_for. wp_step. wp_step. wp_step. exact HQ.
Qed.

Lemma got_nothing account from msg t :
  pm_seller_data msg = None -> pm_psbt msg = None -> got account from msg t = t.
Proof.
  intros Hs Hp. unfold got, HandleTradeMessage. cbn [pm_seller_data pm_psbt with_msg_counterparty].
  rewrite Hs, Hp. by case_match.
Qed.

Lemma got_addresses account from msg t a sd :
  state_of t = INITIATED -> GetOrderType account t = BID -> ts_seller_data t = None ->
  pm_seller_data msg = Some (clear_name_output sd) -> pm_psbt msg = None -> seller_data_by a sd ->
  got account from msg t = with_seller_data (Some (clear_name_output sd)) t.
Proof.
  intros Hi Hty Hsd Hs Hp (na & ca & Hne & _ & _ & ->). unfold got, HandleTradeMessage.
  cbn [pm_seller_data pm_psbt with_msg_counterparty].
  rewrite Hs, Hp, Hi, bool_decide_true by done. cbn [negb]. unfold MergeSellerData.
  rewrite Hty, Hsd. cbn. by destruct (String.eqb_spec na ca).
Qed.

Lemma got_psbt account from msg t p :
  state_of t = INITIATED -> ts_their_psbt t = None ->
  pm_seller_data msg = None -> pm_psbt msg = Some (mkTradePsbt (Some p)) ->
  got account from msg t = with_their_psbt (Some p) t.
Proof.
  intros Hi Hth Hs Hp. unfold got, HandleTradeMessage. cbn [pm_seller_data pm_psbt with_msg_counterparty].
  rewrite Hs, Hp, Hi, bool_decide_true by done. cbn [negb]. unfold MergePsbt. by rewrite Hth.
Qed.

Lemma trade_tx_clear tc sd ins outs idx :
  trade_tx tc (clear_name_output sd) ins outs idx <-> trade_tx tc sd ins outs idx.
Proof. split; intros [G1 G2 G3 G4 G5]; by split. Qed.

Lemma seller_data_offers a sd :
  seller_data_by a sd -> offers_addresses sd /\ offers_addresses (clear_name_output sd) /\
    sd_name_output sd = Some (name_outpoint a).
Proof. by intros (na & ca & _ & _ & _ & ->). Qed.

Context (maker taker : string).

(** The network delivers the oldest message in flight. *)
Definition deliver (s : Sys (Node:=Node)) : Sys :=
  match to_maker s, to_taker s with
  | msg :: rest, _ =>
      let '(o, w') := receive maker taker msg (s_maker s) in
      mkSys w' (s_taker s) rest (to_taker s ++ sent o)
  | [], msg :: rest =>
      let '(o, w') := receive taker maker msg (s_taker s) in
      mkSys (s_maker s) w' (sent o) rest
  | [], [] => s
  end.

Lemma deliver_step s :
  to_maker s <> [] \/ to_taker s <> [] -> sys_step maker taker true s (deliver s).
Proof.
  intros Hs. unfold deliver. destruct (to_maker s) as [|msg rest] eqn:Hm.
  - destruct (to_taker s) as [|msg rest] eqn:Ht; [naive_solver|].
    destruct (receive taker maker msg (s_taker s)) as [o w'] eqn:Hr.
    pose proof (deliver_to_taker maker taker s [] msg rest o w' Ht Hr) as Hd. by rewrite Hm in Hd.
  - destruct (receive maker taker msg (s_maker s)) as [o w'] eqn:Hr.
    exact (deliver_to_maker maker taker s [] msg rest o w' Hm Hr).
Qed.

Lemma deliver_maker_wp (P : Sys -> Prop) wm wt msg :
  wp (receive maker taker msg) (fun o w' => P (mkSys w' wt [] (sent o))) wm ->
  P (deliver (mkSys wm wt [msg] [])).
Proof. unfold wp, deliver. cbn. by destruct (receive maker taker msg wm). Qed.

Lemma deliver_taker_wp (P : Sys -> Prop) wm wt msg :
  wp (receive taker maker msg) (fun o w' => P (mkSys wm w' (sent o) [])) wt ->
  P (deliver (mkSys wm wt [] [msg])).
Proof. unfold wp, deliver. cbn. by destruct (receive taker maker msg wt). Qed.

(** The start and the end of a negotiation that works. *)
Definition opening (wm wt : World Node TradeState) (r : option ProcessingMessage) : Sys :=
  mkSys wm wt [wire (SetTakingOrder (wst wt) (default (InitProcessingMessage (wst wt)) r))] [].

Definition completed (tc : TradeChecker) (s : Sys (Node:=Node)) : Prop :=
  state_of (wst (s_maker s)) = PENDING /\ state_of (wst (s_taker s)) = PENDING /\
  to_maker s = [] /\ to_taker s = [] /\
  exists sd ins outs idx, seller_data_by (tc_seller tc) sd /\ trade_tx tc sd ins outs idx /\
    broadcast_last (stage ins outs idx true true) (wtrace (s_maker s)).

(** The means [m] of [who] are enough for its part of the trade. *)
Definition can_afford (tc : TradeChecker) (who : string) (m : Means) : Prop :=
  (tc_buyer tc = who -> tc_price tc * tc_units tc <= m_coins m) /\
  (tc_seller tc = who -> m_name_free m = true).

(** The two copies of a trade that is about to be negotiated. *)
Record copies (tc : TradeChecker) (tm tt : TradeState) : Prop := {
  co_maker : counterparty_of tm = taker /\ GetRole maker tm = MAKER /\ BuildTradeChecker maker tm = tc;
  co_taker : counterparty_of tt = maker /\ GetRole taker tt = TAKER /\ BuildTradeChecker taker tt = tc;
  co_id : GetIdentifier tm = GetIdentifier tt;
  co_type : GetOrderType taker tt = match GetOrderType maker tm with BID => ASK | ASK => BID end;
  co_maker_new : state_of tm = INITIATED /\ ts_seller_data tm = None /\ ts_our_psbt tm = None /\
    ts_their_psbt tm = None;
  co_taker_new : state_of tt = INITIATED /\ ts_seller_data tt = None /\ ts_our_psbt tt = None /\
    ts_their_psbt tt = None;
  co_ne : maker <> taker
}.

Lemma new_trades_copies o o' units now now' :
  maker <> taker -> same_order o o' -> account_of o = maker ->
  copies (BuildTradeChecker maker (new_trade o now units taker))
    (new_trade o now units taker) (new_trade o' now' units (account_of o')).
Proof.
  intros Hne Hso Ham.
  destruct (new_trades_agree maker taker o o' units now now' Hne Hso Ham) as (Hmr & Htr & Hty & Hk & Hid).
  split; try done. split_and!; [cbn|done..]. rewrite <-(so_account _ _ Hso), Ham. done.
Qed.

Lemma checker_buying account t tc :
  BuildTradeChecker account t = tc -> GetOrderType account t = BID -> account <> counterparty_of t ->
  sound_terms tc -> buying account tc t.
Proof. intros <- Hty Hne Ht. unfold BuildTradeChecker in *. rewrite Hty in *. by split. Qed.

Lemma checker_selling account t tc :
  BuildTradeChecker account t = tc -> GetOrderType account t = ASK -> account <> counterparty_of t ->
  sound_terms tc -> selling account tc t.
Proof. intros <- Hty Hne Ht. unfold BuildTradeChecker in *. rewrite Hty in *. by split. Qed.

(** The maker sells: addresses, the buyer's signed transaction, broadcast. *)
Lemma sale_goes_through tc mm mt wm wt :
  copies tc (wst wm) (wst wt) -> GetOrderType maker (wst wm) = ASK -> FairGame tc -> sound_terms tc ->
  env maker mm (wnode wm) -> env taker mt (wnode wt) -> can_afford tc maker mm -> can_afford tc taker mt ->
  HasReply taker tc wt = (Ret None, wt) /\ completed tc (Nat.iter 3 deliver (opening wm wt None)).
Proof.
  intros [(Mc & Mr & Mk) (Tc & Tr & Tk) Hid Hty (Mi & Msd & Mo & Mt) (Ti & Tsd & To & Tt) Hne]
    Hask Hg Hterms Em Et [_ Hfree] [Hpay _]. rewrite Hask in Hty.
  pose proof (checker_selling maker (wst wm) tc Mk Hask ltac:(congruence) Hterms) as Hsell.
  pose proof (checker_buying taker (wst wt) tc Tk Hty ltac:(congruence) Hterms) as Hbuy.
  specialize (Hpay (bu_us _ _ _ Hbuy)). specialize (Hfree (se_us _ _ _ Hsell)).
  destruct mm as [cm fm], mt as [ct ft]. cbn in Hfree, Hpay. subst fm.
  split; [by apply reply_waiting|]. unfold opening. cbn [Nat.iter nat_rect].
  set (s0 := deliver (mkSys wm wt _ [])). pattern s0. apply deliver_maker_wp. clear s0.
  apply wp_receive_ok; [done|exact (eq_sym Hid)|]. rewrite got_nothing, Mk by done.
  apply (wp_reply_addresses maker tc cm); [done..|]. cbn [wst]. intros n1 t1 sd E1 Hby. cbn [sent].
  destruct (seller_data_offers _ _ Hby) as (Hoff & Hoff' & Hout).
  apply deliver_taker_wp, wp_receive_ok; [done|exact Hid|].
  rewrite (got_addresses taker maker _ _ maker sd), Tk by done.
  apply (wp_reply_buyer taker tc ct ft); try done; [by destruct Hbuy|].
  cbn [wst]. intros n2 t2 u q ins outs idx Htx E2 Hu Hq.
  change (GetRole taker (with_seller_data (Some (clear_name_output sd)) (wst wt))) with (GetRole taker (wst wt)).
  rewrite Tr. cbn [sent].
  apply deliver_maker_wp, wp_receive_ok; [done|exact (eq_sym Hid)|].
  rewrite (got_psbt maker taker _ _ q) by done.
  change (BuildTradeChecker maker _) with (BuildTradeChecker maker (wst wm)). rewrite Mk.
  apply (trade_tx_clear tc sd) in Htx.
  apply (wp_reply_seller maker tc (mkMeans cm false) q ins outs idx true); try done.
  - by destruct Hsell.
  - cbn [wst]. change (GetRole maker _) with (GetRole maker (wst wm)). by rewrite Mr.
  - cbn [wst]. intros n3 t3 q' E3 Hq'. change (GetRole maker _) with (GetRole maker (wst wm)). rewrite Mr.
    intros n4 t4 Hb. split_and!; try done. exists sd, ins, outs, idx.
    split_and!; [by rewrite (se_us _ _ _ Hsell)|done|done].
Qed.

(** The maker buys: its unsigned transaction, the seller's signature,
    broadcast. *)
Lemma purchase_goes_through tc mm mt wm wt0 :
  copies tc (wst wm) (wst wt0) -> GetOrderType maker (wst wm) = BID -> FairGame tc -> sound_terms tc ->
  env maker mm (wnode wm) -> env taker mt (wnode wt0) -> can_afford tc maker mm -> can_afford tc taker mt ->
  wp (HasReply taker tc) (fun o wt => exists r, o = Ret r /\
    completed tc (Nat.iter 3 deliver (opening wm wt r))) wt0.
Proof.
  intros [(Mc & Mr & Mk) (Tc & Tr & Tk) Hid Hty (Mi & Msd & Mo & Mt) (Ti & Tsd & To & Tt) Hne]
    Hbid Hg Hterms Em Et [Hpay _] [_ Hfree]. rewrite Hbid in Hty.
  pose proof (checker_buying maker (wst wm) tc Mk Hbid ltac:(congruence) Hterms) as Hbuy.
  pose proof (checker_selling taker (wst wt0) tc Tk Hty ltac:(congruence) Hterms) as Hsell.
  specialize (Hpay (bu_us _ _ _ Hbuy)). specialize (Hfree (se_us _ _ _ Hsell)).
  destruct mm as [cm fm], mt as [ct ft]. cbn in Hfree, Hpay. subst ft.
  apply (wp_reply_addresses taker tc ct); [done..|]. intros n1 t1 sd E1 Hby.
  eexists. split; [done|]. unfold opening. cbn [Nat.iter nat_rect].
  destruct (seller_data_offers _ _ Hby) as (Hoff & Hoff' & Hout).
  set (s0 := deliver (mkSys wm _ _ [])). pattern s0. apply deliver_maker_wp. clear s0.
  apply wp_receive_ok; [done|exact (eq_sym Hid)|].
  rewrite (got_addresses maker taker _ _ taker sd), Mk by done.
  apply (wp_reply_buyer maker tc cm fm); try done; [by destruct Hbuy|].
  cbn [wst]. intros n2 t2 u q ins outs idx Htx E2 Hu Hq.
  change (GetRole maker (with_seller_data (Some (clear_name_output sd)) (wst wm))) with (GetRole maker (wst wm)).
  rewrite Mr. cbn [sent]. apply (trade_tx_clear tc sd) in Htx.
  apply deliver_taker_wp, wp_receive_ok; [done|exact Hid|].
  rewrite (got_psbt taker maker _ _ u) by done.
  change (BuildTradeChecker taker _) with (BuildTradeChecker taker (wst wt0)). rewrite Tk.
  apply (wp_reply_seller taker tc (mkMeans ct false) u ins outs idx false); try done.
  { by destruct Hsell. }
  { cbn [wst]. change (GetRole taker _) with (GetRole taker (wst wt0)). by rewrite Tr. }
  cbn [wst]. intros n3 t3 q' E3 Hq'. change (GetRole taker _) with (GetRole taker (wst wt0)). rewrite Tr.
  cbn [sent]. apply deliver_maker_wp, wp_receive_ok; [done|exact (eq_sym Hid)|].
  rewrite (got_psbt maker taker _ _ q') by done.
  change (BuildTradeChecker maker _) with (BuildTradeChecker maker (wst wm)). rewrite Mk.
  apply (wp_reply_bought maker tc (mkMeans 0 fm) sd q' q ins outs idx); try done.
  intros n4 t4 Hb. split_and!; try done. exists sd, ins, outs, idx.
  split_and!; [by rewrite (se_us _ _ _ Hsell)|done|done].
Qed.

(** C7: honest parties complete their trades: the terms are the same on both
    sides, with a positive total that fits an amount, the buyer has the money,
    the seller's name is free, the wallets and the game answer as documented (the
    game at most three blocks ahead of the wallets), and the network delivers.
    After the taking message and the two replies to it
    both sides have the trade as pending, nothing is left on the wire, and the
    maker's last calls finalise and broadcast a transaction that spends the
    seller's name output and otherwise inputs of the buyer, pays the total to
    an address of the seller's own wallet, makes the agreed move with the
    seller's name at another address of that wallet, and has all signatures. *)
Theorem honest_negotiation_completes o o' units now now' wm wt0 mm mt :
  let tc := BuildTradeChecker maker (wst wm) in
  maker <> taker -> same_order o o' -> account_of o = maker ->
  wst wm = new_trade o now units taker -> wst wt0 = new_trade o' now' units (account_of o') ->
  FairGame tc -> sound_terms tc ->
  env maker mm (wnode wm) -> env taker mt (wnode wt0) ->
  can_afford tc maker mm -> can_afford tc taker mt ->
  exists r wt, HasReply taker (BuildTradeChecker taker (wst wt0)) wt0 = (Ret r, wt) /\
    completed tc (Nat.iter 3 deliver (opening wm wt r)).
Proof.
  intros tc Hne Hso Ham Hm Ht Hg Hterms Em Et Am At.
  pose proof (new_trades_copies _ _ units now now' Hne Hso Ham) as Hco.
  rewrite <-Hm, <-Ht in Hco. fold tc in Hco. rewrite (proj2 (proj2 (co_taker _ _ _ Hco))).
  destruct (GetOrderType maker (wst wm)) eqn:Hty.
  - destruct (sale_goes_through tc mm mt wm wt0) as [Hr Hs]; [done..|]. by exists None, wt0.
  - pose proof (purchase_goes_through tc mm mt wm wt0 Hco Hty Hg Hterms Em Et Am At) as Hp.
    unfold wp in Hp. destruct (HasReply taker tc wt0) as [rr wt]. destruct Hp as (r & -> & Hs).
    by exists r, wt.
Qed.

End negotiation.

(* ------------------------------------------------------------------ *)
(** ** Wallets that keep their promises *)

Module HonestWitness.
Import Mock.

#[local] Existing Instance default_flags.

(** A PSBT string is the PSBT in binary. *)
Fixpoint bits (p : positive) : string :=
  match p with
  | xH => EmptyString
  | xO p => String "0"%char (bits p)
  | xI p => String "1"%char (bits p)
  end.

Fixpoint unbits (s : string) : positive :=
  match s with
  | EmptyString => xH
  | String c s => if Ascii.eqb c "0"%char then xO (unbits s) else xI (unbits s)
  end.

Lemma unbits_bits p : unbits (bits p) = p.
Proof. induction p; cbn; congruence. Qed.

#[local] Instance TxOut_eq_dec : EqDecision TxOut.
Proof. solve_decision. Defined.

#[local] Instance TxOut_countable : Countable TxOut.
Proof.
  apply (inj_countable'
    (fun o => match o with Coins a v => inl (a, v) | NameUpdate a n v => inr (a, n, v) end)
    (fun x => match x with inl (a, v) => Coins a v | inr (a, n, v) => NameUpdate a n v end)).
  by intros [].
Defined.

#[local] Instance Psbt_eq_dec : EqDecision Psbt.
Proof. solve_decision. Defined.

#[local] Instance Psbt_countable : Countable Psbt.
Proof.
  apply (inj_countable' (fun p => (p_in p, p_out p, p_sig p)) (fun x => mkPsbt x.1.1 x.1.2 x.2)).
  by intros [].
Defined.

Definition valid (p : Psbt) : bool :=
  forallb (fun o => (0 <=? o.2) && (o.2 <? two31)) (p_in p) && (length (p_sig p) =? length (p_in p))%nat.

Definition enc (p : Psbt) : string := bits (encode p).

Definition read (q : string) : option Psbt :=
  match countable.decode (unbits q) with
  | Some p => if valid p then Some p else None
  | None => None
  end.

Lemma read_enc p : valid p = true -> read (enc p) = Some p.
Proof. intros Hv. unfold read, enc. by rewrite unbits_bits, decode_encode, Hv. Qed.

Lemma read_valid q p : read q = Some p -> valid p = true.
Proof. unfold read. intros Hr. by repeat case_match; simplify_eq. Qed.

(** [decodepsbt] *)
Definition show_out (o : TxOut) : Json :=
  match o with
  | Coins addr v => pay_out addr v
  | NameUpdate addr name value => Mock.name_out addr name value
  end.

Definition show_sig (b : bool) : Json := if b then obj [("final", jstr "sig")] else jobject.

Definition shown (p : Psbt) : Json :=
  psbt "btx" ((fun o => tx_in o.1 o.2) <$> p_in p) (show_out <$> p_out p) (show_sig <$> p_sig p).

(** The first input of everyone is the name output, the second the coins. *)
Definition strip (s : string) : string :=
  match s with String _ (String _ s) => s | _ => s end.

Record User := mkUser { u_name : string; u_coins : Z; u_free : bool; u_flip : bool }.

#[local] Instance wallets : Wallets (Node:=User) := {
  env who m n := u_name n = who /\ u_coins n = m_coins m /\ u_free n = m_name_free m;
  own_address who a := a = "name of " +:+ who \/ a = "chi of " +:+ who;
  meaning := read;
  dec q := match read q with Some p => shown p | None => jnull end;
  owner o := strip o.1;
  name_out a := (GetXayaName a, 0);
  tip := "b1";
  parent_of := Mock.parent
}.

(** Reading the arguments of the calls. *)
Definition text (v : Json) (k : string) : string := default "" (jget v k ≫= as_string).

Definition pays (outputs : Json) : option TxOut :=
  match outputs with
  | JsonModel.VArr [JsonModel.VObj [(addr, JsonModel.VReal v)]] => Some (Coins addr v)
  | _ => None
  end.

Definition spent (inputs : Json) : option (string * Z) :=
  match inputs with
  | JsonModel.VArr [v] => n ← jget v "vout" ≫= as_uint; Some (text v "txid", n)
  | _ => None
  end.

Definition two (psbts : Json) : option (Psbt * Psbt) :=
  match psbts with
  | JsonModel.VArr [JsonModel.VStr q1; JsonModel.VStr q2] => p1 ← read q1; p2 ← read q2; Some (p1, p2)
  | _ => None
  end.

Definition pack {A} (f : A -> string) (x : option A) : string + string :=
  match x with Some a => inr (f a) | None => inl "invalid" end.

Definition pack_reply {A} (f : A -> Json) (x : option A) : string + Json :=
  match x with Some a => inr (f a) | None => inl "invalid" end.

Definition psbt_member (p : Psbt) : Json := obj [("psbt", jstr (enc p))].

Definition funded (who : string) (outputs : Json) : option Psbt :=
  o ← pays outputs; Some (mkPsbt [("c/" +:+ who, 1)] [o] [false]).

Definition created (inputs outputs : Json) : option Psbt :=
  i ← spent inputs; o ← pays outputs; Some (mkPsbt [i] [o] [false]).

Definition named (q : string) (op : Json) : option Psbt :=
  p ← read q;
  match p_out p with
  | [Coins addr v] => Some (mkPsbt (p_in p) [NameUpdate addr (text op "name") (text op "value")] (p_sig p))
  | _ => None
  end.

Definition join (pp : Psbt * Psbt) : Psbt :=
  let ins := p_in pp.1 ++ p_in pp.2 in
  mkPsbt ins (p_out pp.1 ++ p_out pp.2) (replicate (length ins) false).

Definition combine (pp : Psbt * Psbt) : Psbt :=
  mkPsbt (p_in pp.1) (p_out pp.1) (zip_with orb (p_sig pp.1) (p_sig pp.2)).

Definition signed_reply (p : Psbt) : Json :=
  obj [("psbt", jstr (enc p)); ("complete", jbool (complete p))].

#[local] Instance user_wallet : XayaRpc User := fun c n =>
  match c with
  | getnewaddress =>
      (inr ((if u_flip n then "chi of " else "name of ") +:+ u_name n),
       mkUser (u_name n) (u_coins n) (u_free n) (negb (u_flip n)))
  | name_show nm => (inr (tx_in nm 0), n)
  | gettxout _ _ => (inr (obj [("bestblock", jstr "b1")]), n)
  | getblockheader h => (inr (header h), n)
  | decodepsbt q => (pack_reply shown (read q), n)
  | walletcreatefundedpsbt _ outputs _ _ =>
      (pack_reply psbt_member (funded (u_name n) outputs), mkUser (u_name n) 0 (u_free n) (u_flip n))
  | createpsbt inputs outputs => (pack enc (created inputs outputs), n)
  | namepsbt q _ op => (pack_reply psbt_member (named q op), n)
  | joinpsbts qs => (pack enc (join <$> two qs), n)
  | walletprocesspsbt q => (pack_reply signed_reply (signed_by_user (u_name n) <$> read q), n)
  | lockunspent _ _ => (inr (u_free n), mkUser (u_name n) (u_coins n) false (u_flip n))
  | combinepsbt qs => (pack enc (combine <$> two qs), n)
  | finalizepsbt q => (pack_reply (fun p => obj [("complete", jbool (complete p)); ("hex", jstr q)]) (read q), n)
  | sendrawtransaction _ => (inr "txid", n)
  end.

#[local] Instance user_gsp : DemGspRpc User := fun b n => (gsp b, n).
#[local] Instance user_clock : Clock User := fun n => (1000, n).

#[local] Instance user_spec : AssetSpec User := {
  GetGameId := "nf";
  spec_is_asset a n := (Ret true, n);
  spec_can_sell nm a k n := (Ret (Some "b3"), n);
  spec_can_buy nm a k n := (Ret true, n);
  GetTransferMove := GetTransferMove (AssetSpec := spec_node)
}.

Lemma fair_game tc : FairGame tc.
Proof.
  split; [intros who m n He; by exists n..| |].
  - intros who m n He. exists n, "b3", 2%nat. split_and!; try done. unfold MAX_BLOCK_ANCESTORS_CHECKED. lia.
  - by eexists.
Qed.

(** *** What the decoder shows *)

Lemma arr_elems l : arr l = JsonModel.VArr l.
Proof.
  assert (Hf : forall l', fold_left jappend l (JsonModel.VArr l') = JsonModel.VArr (l' ++ l)).
  { induction l as [|x l IH]; intros l'; cbn; [by rewrite app_nil_r|]. by rewrite IH, <-app_assoc. }
  apply (Hf []).
Qed.

Lemma shown_array p : 
  tx_array (shown p) "vin" ((fun o => tx_in o.1 o.2) <$> p_in p) /\
  tx_array (shown p) "vout" (show_out <$> p_out p) /\
  psbt_inputs (shown p) (show_sig <$> p_sig p).
Proof.
  unfold shown, psbt. rewrite !arr_elems. split_and!; repeat eexists.
Qed.

Lemma shows_out o : shows_output o (show_out o).
Proof.
  destruct o as [addr v|addr name value]; (split; [split; [done|]; do 2 eexists; split_and!; try reflexivity|
    do 2 eexists; split_and!; try reflexivity]).
  - right. split_and!; try reflexivity. do 2 eexists. split; reflexivity.
  - left. do 2 eexists. split_and!; reflexivity.
  - eexists. split; reflexivity.
  - left. split_and!; try reflexivity; repeat eexists.
  - right. eexists. split_and!; reflexivity.
  - eexists. split; reflexivity.
  - eexists. split; reflexivity.
  - eexists. split; reflexivity.
Qed.

Lemma shows_in o : 0 <= o.2 < two31 -> shows_input o (tx_in o.1 o.2).
Proof.
  intros Ho. destruct o as [h k]. cbn [fst snd] in *.
  split; [|split; eexists; split; reflexivity]. split; [done|]. split; eexists; (split; [reflexivity|]); [done|].
  cbn. apply andb_true_iff. width.
Qed.

Lemma shows_shown p : valid p = true -> shows p (shown p).
Proof.
  intros Hv. apply andb_true_iff in Hv as [Hin Hlen%Nat.eqb_eq].
  destruct (shown_array p) as (Hi & Ho & Hs). split; [done|]. split_and!.
  - eexists. split; [exact Hi|]. apply Forall2_fmap_r, Forall2_same_length_lookup_2; [done|].
    intros i o o' Ho1 Ho2. simplify_eq. apply shows_in.
    rewrite forallb_forall in Hin. specialize (Hin o). rewrite <-list_elem_of_In in Hin.
    apply list_elem_of_lookup_2, Hin, andb_true_iff in Ho1. lia.
  - eexists. split; [exact Ho|]. apply Forall2_fmap_r, Forall2_same_length_lookup_2; [done|].
    intros i o o' Ho1 Ho2. simplify_eq. apply shows_out.
  - eexists. split; [exact Hs|]. by rewrite length_fmap.
Qed.

Lemma psbt_inputs_unique d l l' : psbt_inputs d l -> psbt_inputs d l' -> l = l'.
Proof. intros (x & Hx & _ & <-) (y & Hy & _ & <-). congruence. Qed.

Lemma shows_stages_shown p p' :
  valid p = true -> valid p' = true -> p_in p' = p_in p -> p_out p' = p_out p ->
  shows_signing p p' (shown p) (shown p').
Proof.
  intros Hv Hv' Hi Ho. apply andb_true_iff in Hv as [_ Hl%Nat.eqb_eq].
  apply andb_true_iff in Hv' as [_ Hl'%Nat.eqb_eq]. split.
  - do 2 eexists. split; [reflexivity|]. split; [reflexivity|]. rewrite Hi, Ho. apply JsonModel.veqb_refl.
  - intros is1 is2 i H1' H2' Hlt.
    rewrite (psbt_inputs_unique _ _ _ H1' (proj2 (proj2 (shown_array p)))).
    rewrite (psbt_inputs_unique _ _ _ H2' (proj2 (proj2 (shown_array p')))).
    rewrite <-Hl in Hlt. assert (Hlt' : (i < length (p_sig p'))%nat) by (rewrite Hl', Hi; lia).
    destruct (lookup_lt_is_Some_2 _ _ Hlt) as [b Hb]. destruct (lookup_lt_is_Some_2 _ _ Hlt') as [b' Hb'].
    unfold same_input. rewrite !nth_lookup, !list_lookup_fmap, Hb, Hb'. cbn [default fmap option_fmap option_map from_option id].
    split; [by destruct b, b'|]. intros [= ->]. apply JsonModel.veqb_refl.
Qed.

(** *** The promises *)

Lemma valid_spec p :
  valid p = true <-> Forall (fun o => 0 <= o.2 < two31) (p_in p) /\ length (p_sig p) = length (p_in p).
Proof.
  unfold valid. rewrite andb_true_iff, Nat.eqb_eq, forallb_forall, Forall_forall.
  split; intros [Hi Hl]; (split; [|done]); intros o Ho; specialize (Hi o);
    rewrite <-list_elem_of_In in *; specialize (Hi Ho); lia.
Qed.

Lemma valid_signed who p : valid p = true -> valid (signed_by_user who p) = true.
Proof.
  rewrite !valid_spec. intros [Hi Hl]. split; [done|]. cbn. rewrite length_zip_with. lia.
Qed.

Lemma valid_join p1 p2 : valid p1 = true -> valid p2 = true -> valid (join (p1, p2)) = true.
Proof.
  rewrite !valid_spec. intros [Hi _] [Hi' _]. split; [by apply Forall_app|]. cbn. by rewrite length_replicate.
Qed.

Lemma valid_combine p1 p2 :
  valid p1 = true -> valid p2 = true -> p_in p2 = p_in p1 -> valid (combine (p1, p2)) = true.
Proof.
  rewrite !valid_spec. intros [Hi Hl] [_ Hl'] He. split; [done|]. cbn.
  rewrite length_zip_with, Hl, Hl', He. lia.
Qed.

Lemma gives_member p : gives_string (psbt_member p) "psbt" (enc p).
Proof. split; [done|]. eexists. split_and!; reflexivity. Qed.

Lemma user_signs n q p :
  read q = Some p ->
  exists r q', xaya_rpc (walletprocesspsbt q) n = (inr r, n) /\ gives_string r "psbt" q' /\
    read q' = Some (signed_by_user (u_name n) p) /\
    gives_bool r "complete" (complete (signed_by_user (u_name n) p)).
Proof.
  intros Hm. pose proof (read_valid _ _ Hm) as Hv.
  do 2 eexists. split; [cbn; rewrite Hm; reflexivity|].
  split; [split; [done|]; eexists; split_and!; reflexivity|].
  split; [apply read_enc; by apply valid_signed|]. split; [done|]. eexists; split_and!; reflexivity.
Qed.

Lemma user_finalizes n q p :
  read q = Some p -> complete p = true ->
  exists r, xaya_rpc (finalizepsbt q) n = (inr r, n) /\ gives_bool r "complete" true /\
    gives_string r "hex" q.
Proof.
  intros Hm Hc. eexists. split; [cbn; rewrite Hm; reflexivity|]. rewrite Hc.
  split; (split; [done|]; eexists; split_and!; reflexivity).
Qed.

#[local] Instance promises : WalletLaws (Node:=User).
Proof.
  split.
  - done.
  - done.
  - intros q p Hm. change (read q = Some p) in Hm. cbn. rewrite Hm. apply shows_shown. by eapply read_valid.
  - intros q q' p p' Hm Hm' Hi Ho. change (read q = Some p) in Hm. change (read q' = Some p') in Hm'.
    cbn. rewrite Hm, Hm'. by apply shows_stages_shown; [eapply read_valid..| |].
  - intros who m n q p He Hm. exists n. cbn in *. by rewrite Hm.
  - intros who m [nm c f b] He. pose proof He as [Hw _]. cbn in Hw. subst nm.
    destruct b; do 4 eexists; (split; [reflexivity|]); (split; [reflexivity|]); (split; [exact He|]);
      (split; [done|]); cbn; auto.
  - intros who m n a He. do 2 eexists. split; [reflexivity|]. split; [done|]. split; [done|].
    do 4 eexists. split_and!; reflexivity.
  - intros who m n a He. do 3 eexists. split; [reflexivity|]. split; [done|]. split; [|reflexivity].
    split; [done|]. eexists. split_and!; reflexivity.
  - intros who m n b q He Hq. change (Mock.parent b = Some q) in Hq.
    exists (header b), n, (jstr q), q. split; [done|]. split; [done|].
    unfold header. rewrite Hq. split_and!; reflexivity.
  - intros who c [nm c' f b] (He & Hc & Hf). cbn in *. subst. by eexists.
  - intros who c f [nm c' f' b] addr v (He & Hc & Hf) Hv. cbn in *. subst.
    do 4 eexists. split; [reflexivity|]. split; [done|]. split; [apply gives_member|].
    split; [by apply read_enc|]. split; [done|]. split; [by constructor|]. cbn. set_solver.
  - intros who m n [h k] addr v He Ho. do 2 eexists. split; [reflexivity|]. split; [done|].
    apply read_enc, valid_spec. split; [by constructor|done].
  - intros who m n q ins addr v sg name value He Hm. pose proof (read_valid _ _ Hm) as Hv.
    change (read q = Some (mkPsbt ins [Coins addr v] sg)) in Hm.
    do 3 eexists. split; [cbn; unfold named; rewrite Hm; reflexivity|]. split; [done|].
    split; [apply gives_member|]. apply read_enc. done.
  - intros who m n q1 q2 p1 p2 He G1 G2. pose proof (read_valid _ _ G1). pose proof (read_valid _ _ G2).
    change (read q1 = Some p1) in G1. change (read q2 = Some p2) in G2.
    do 3 eexists. split; [cbn; rewrite G1; cbn; rewrite G2; reflexivity|]. split; [done|].
    split; [apply read_enc; by apply valid_join|done].
  - intros who m n q p He Hm. destruct He as (He & Hc & Hf). subst who.
    destruct (user_signs n q p Hm) as (r & q' & Hr & Hs). by exists r, n, q'.
  - intros who m n q1 q2 p1 p2 He G1 G2 Hi Ho. pose proof (read_valid _ _ G1). pose proof (read_valid _ _ G2).
    change (read q1 = Some p1) in G1. change (read q2 = Some p2) in G2.
    do 2 eexists. split; [cbn; rewrite G1; cbn; rewrite G2; reflexivity|]. split; [done|].
    apply read_enc. by apply valid_combine.
  - intros who m n q p He Hm Hc. destruct (user_finalizes n q p Hm Hc) as (r & Hr & Hb & Hs).
    by exists r, n, q, "txid", n.
Qed.

(** *** "alice" sells gold to "bob", or bids for his *)

Definition order (ty : OrderType) : Order :=
  mkOrder (Some "alice") (Some 7) (Some "gold") None (Some 5) (Some ty) (Some 5) None.

Definition party (ty : OrderType) (counterparty : string) (u : User) : World User TradeState :=
  world_of (new_trade (order ty) 1000 2 counterparty) u.

Definition user (name : string) : User := mkUser name 10 true false.

Definition completes (ty : OrderType) : Prop :=
  exists r wt, HasReply "bob" (BuildTradeChecker "bob" (wst (party ty "alice" (user "bob"))))
      (party ty "alice" (user "bob")) = (Ret r, wt) /\
    completed (BuildTradeChecker "alice" (wst (party ty "bob" (user "alice"))))
      (Nat.iter 3 (deliver "alice" "bob") (opening (party ty "bob" (user "alice")) wt r)).

Lemma honest_negotiation_completes_witness : completes ASK /\ completes BID.
Proof.
  split.
  - apply (honest_negotiation_completes "alice" "bob" (order ASK) (order ASK) 2 1000 1000
      (party ASK "bob" (user "alice")) (party ASK "alice" (user "bob")) (mkMeans 10 true) (mkMeans 10 true));
      try done; apply fair_game.
  - apply (honest_negotiation_completes "alice" "bob" (order BID) (order BID) 2 1000 1000
      (party BID "bob" (user "alice")) (party BID "alice" (user "bob")) (mkMeans 10 true) (mkMeans 10 true));
      try done; apply fair_game.
Defined.

End HonestWitness.
