(* ===== verification/Authenticator.v ===== *)
(** * Account names from XMPP identities

    The class [Authenticator] of [src/src/authenticator.cpp]: which servers
    are trusted, how the username of a JID encodes a Xaya account name, and
    the map from accounts back to JIDs that replies are sent to.  The encoding
    is specified by [EncodeName], the inverse the code itself does not have:
    decoding accepts exactly the encodings, so that two different usernames
    never stand for the same account. *)

From Stdlib Require Import ZArith Lia String Ascii.
From stdpp Require Import base gmap strings list.
From S2P Require Import Prelude Json Proto Effects Mock.

(** The part of [gloox::JID] the code reads. *)
Class JidLib := {
  JID : Type;
  jid_server : JID -> string;
  jid_username : JID -> string
}.

(** ** Decoding *)

Definition comma : ascii := ",".

(** The loop of [getline] calls, character by character: [cur] is what the
    current call has read. *)
Fixpoint read_pieces (cur rest : string) (res : gset string) : gset string :=
  match rest with
  | EmptyString => {[cur]} ∪ res
  | String c rest' =>
      if Ascii.eqb c comma then read_pieces "" rest' ({[cur]} ∪ res)
      else read_pieces (cur +:+ String c "") rest' res
  end.

Definition ParseCommaSeparated (lst : string) : gset string :=
  if String.eqb lst "" then ∅ else read_pieces "" lst ∅.

Definition code (c : ascii) : Z := Z.of_N (N_of_ascii c).

Definition IsSimpleChar (c : ascii) : bool :=
  if (code "0" <=? code c) && (code c <=? code "9") then true
  else if (code "a" <=? code c) && (code c <=? code "z") then true
  else false.

Definition HexCharValue (c : ascii) : Z :=
  if (code "0" <=? code c) && (code c <=? code "9") then code c - code "0"
  else if (code "a" <=? code c) && (code c <=? code "f") then 10 + code c - code "a"
  else -1.

Definition ENCODED_PREFIX : string := "x-".

(** [uint8_t] and the conversion of one to [char]. *)
Definition u8 (z : Z) : Z := z mod 256.
Definition char_of (z : Z) : ascii := ascii_of_N (Z.to_N z).

Fixpoint all_simple (s : string) : bool :=
  match s with
  | EmptyString => true
  | String c s' => if negb (IsSimpleChar c) then false else all_simple s'
  end.

(** The loop over the hex digits; [None] is the return value false. *)
Fixpoint hex_loop (s : string) (cur : Z) (inByte foundNonSimple : bool) (out : string)
  : outcome (option (Z * bool * bool * string)) :=
  match s with
  | EmptyString => Ret (Some (cur, inByte, foundNonSimple, out))
  | String c s' =>
      let val := HexCharValue c in
      if val =? -1 then Ret None
      else if negb (0 <=? val) || negb (val <? 16) then Fatal
      else
        let cur := Z.lor cur val in
        if inByte then
          let decodedChar := char_of cur in
          hex_loop s' 0 false (foundNonSimple || negb (IsSimpleChar decodedChar))
            (out +:+ String decodedChar "")
        else hex_loop s' (u8 (Z.shiftl cur 4)) true foundNonSimple out
  end.

(** [None] is the return value false. *)
Definition DecodeName (name : string) : outcome (option string) :=
  if String.eqb name "" then Ret None
  else if negb (String.eqb (substring 0 (String.length ENCODED_PREFIX) name) ENCODED_PREFIX)
  then Ret (if all_simple name then Some name else None)
  else
    let hexPart := substring (String.length ENCODED_PREFIX)
                     (String.length name - String.length ENCODED_PREFIX) name in
    if negb (Nat.even (String.length hexPart)) then Ret None
    else if String.eqb hexPart "" then Ret (Some "")
    else
      match hex_loop hexPart 0 false false "" with
      | Ret None => Ret None
      | Ret (Some (cur, inByte, foundNonSimple, out)) =>
          if inByte || negb (cur =? 0) then Fatal
          else if negb foundNonSimple then Ret None
          else Ret (Some out)
      | Throw e => Throw e
      | Fatal => Fatal
      end.

(** ** The authenticator *)

Section authenticator.
Context `{JsonLib} {Node : Type} `{!JidLib}.

Record Authenticator := mkAuthenticator {
  xidServers : gset string;
  knownJids : gmap string JID
}.

Definition new_Authenticator (servers : string) : Authenticator :=
  mkAuthenticator (ParseCommaSeparated servers) ∅.

(** [Some account] returns true and sets the account. *)
Definition Authenticate (jid : JID) : M Node Authenticator (option string) :=
  a ← get;
  if bool_decide (jid_server jid ∉ xidServers a) then mret None
  else
    decoded ← lift_outcome (DecodeName (jid_username jid));
    match decoded with
    | None => mret None
    | Some account =>
        put (mkAuthenticator (xidServers a) (<[account := jid]> (knownJids a)));;
        mret (Some account)
    end.

Definition LookupJid (account : string) : M Node Authenticator (option JID) :=
  a ← get; mret (knownJids a !! account).

End authenticator.

(** ** What the encoding is *)

Definition digit (v : Z) : ascii :=
  if v <? 10 then char_of (code "0" + v) else char_of (code "a" + (v - 10)).

(** The two lower-case hex digits of every character. *)
Fixpoint to_hex_digits (s : string) : string :=
  match s with
  | EmptyString => ""
  | String c s' =>
      String (digit (Z.shiftr (code c) 4)) (String (digit (Z.land (code c) 15)) (to_hex_digits s'))
  end.

(** A name of lower-case letters and digits stands for itself, any other
    name is written in hex. *)
Definition EncodeName (name : string) : string :=
  if negb (String.eqb name "") && all_simple name then name
  else ENCODED_PREFIX +:+ to_hex_digits name.

(* ------------------------------------------------------------------ *)
(** ** Lemmas on hex digits *)

(** A statement about every character is checked on all of them. *)
Definition all_chars (f : ascii -> bool) : bool :=
  forallb (fun n => f (ascii_of_nat n)) (seq 0 256).

Lemma all_chars_spec f : all_chars f = true -> forall c, f c = true.
Proof.
  intros Hf c. rewrite <-(ascii_nat_embedding c).
  unfold all_chars in Hf. rewrite forallb_forall in Hf. apply Hf.
  apply in_seq. pose proof (nat_ascii_bounded c). lia.
Qed.

Definition nibbles : list Z := map Z.of_nat (seq 0 16).

Lemma in_nibbles v : 0 <= v < 16 -> v ∈ nibbles.
Proof.
  intros Hv. unfold nibbles. replace v with (Z.of_nat (Z.to_nat v)) by lia.
  apply list_elem_of_In, in_map, in_seq. lia.
Qed.

Lemma all_nibbles (f : Z -> bool) :
  forallb f nibbles = true -> forall v, 0 <= v < 16 -> f v = true.
Proof.
  rewrite forallb_forall. intros Hf v Hv. apply Hf, list_elem_of_In. by apply in_nibbles.
Qed.

Lemma HexCharValue_digit v : 0 <= v < 16 -> HexCharValue (digit v) = v.
Proof.
  intros Hv. apply Z.eqb_eq. revert v Hv. apply all_nibbles. vm_compute. reflexivity.
Qed.

Lemma digit_HexCharValue c :
  HexCharValue c = -1 \/ 0 <= HexCharValue c < 16 /\ digit (HexCharValue c) = c.
Proof.
  pose proof (all_chars_spec (fun c => (HexCharValue c =? -1) ||
    ((0 <=? HexCharValue c) && (HexCharValue c <? 16) && Ascii.eqb (digit (HexCharValue c)) c))
    ltac:(vm_compute; reflexivity) c) as H.
  apply orb_true_iff in H as [H%Z.eqb_eq|H]; [by left|right].
  apply andb_true_iff in H as [[?%Z.leb_le ?%Z.ltb_lt]%andb_true_iff ?%Ascii.eqb_eq].
  by split; [lia|].
Qed.

(** The character with two given nibbles. *)
Definition byte_of (hi lo : Z) : ascii := char_of (Z.lor (u8 (Z.shiftl hi 4)) lo).

Lemma nibbles_byte_of hi lo :
  0 <= hi < 16 -> 0 <= lo < 16 ->
  Z.shiftr (code (byte_of hi lo)) 4 = hi /\ Z.land (code (byte_of hi lo)) 15 = lo.
Proof.
  intros Hhi Hlo.
  enough (forallb (fun lo => (Z.shiftr (code (byte_of hi lo)) 4 =? hi)
            && (Z.land (code (byte_of hi lo)) 15 =? lo)) nibbles = true) as H.
  { pose proof (all_nibbles _ H lo Hlo) as Hb. cbn beta in Hb.
    by apply andb_true_iff in Hb as [?%Z.eqb_eq ?%Z.eqb_eq]. }
  revert hi Hhi. apply all_nibbles. vm_compute. reflexivity.
Qed.

Lemma byte_of_nibbles c :
  0 <= Z.shiftr (code c) 4 < 16 /\ 0 <= Z.land (code c) 15 < 16 /\
  byte_of (Z.shiftr (code c) 4) (Z.land (code c) 15) = c.
Proof.
  pose proof (all_chars_spec (fun c =>
    (0 <=? Z.shiftr (code c) 4) && (Z.shiftr (code c) 4 <? 16) &&
    ((0 <=? Z.land (code c) 15) && (Z.land (code c) 15 <? 16)) &&
    Ascii.eqb (byte_of (Z.shiftr (code c) 4) (Z.land (code c) 15)) c)
    ltac:(vm_compute; reflexivity) c) as H. cbn beta in H.
  rewrite !andb_true_iff, !Z.leb_le, !Z.ltb_lt, Ascii.eqb_eq in H. tauto.
Qed.

Lemma to_hex_digits_cons hi lo s :
  0 <= hi < 16 -> 0 <= lo < 16 ->
  to_hex_digits (String (byte_of hi lo) s) = String (digit hi) (String (digit lo) (to_hex_digits s)).
Proof.
  intros Hhi Hlo. cbn [to_hex_digits].
  by destruct (nibbles_byte_of hi lo Hhi Hlo) as [-> ->].
Qed.

(** One character of the decoded name. *)
Lemma hex_loop_pair hi lo s found out :
  0 <= hi < 16 -> 0 <= lo < 16 ->
  hex_loop (String (digit hi) (String (digit lo) s)) 0 false found out =
  hex_loop s 0 false (found || negb (IsSimpleChar (byte_of hi lo))) (out +:+ String (byte_of hi lo) "").
Proof.
  intros Hhi Hlo. cbn [hex_loop]. rewrite !HexCharValue_digit by done. cbn [andb orb negb].
  rewrite !(proj2 (Z.eqb_neq _ _)) by lia. rewrite !(proj2 (Z.leb_le _ _)) by lia.
  rewrite !(proj2 (Z.ltb_lt _ _)) by lia. by rewrite Z.lor_0_l.
Qed.

Lemma string_app_cons c (a b : string) : String c a +:+ b = String c (a +:+ b).
Proof. done. Qed.

Lemma string_app_assoc (a b c : string) : (a +:+ b) +:+ c = a +:+ (b +:+ c).
Proof. induction a as [|x a IH]; [done|]. by rewrite !string_app_cons, IH. Qed.

Lemma string_app_nil (a : string) : a +:+ "" = a.
Proof. induction a as [|x a IH]; [done|]. by rewrite string_app_cons, IH. Qed.

Lemma hex_loop_digits t found out :
  hex_loop (to_hex_digits t) 0 false found out =
  Ret (Some (0, false, found || negb (all_simple t), out +:+ t)).
Proof.
  revert found out. induction t as [|c t IH]; intros found out.
  - cbn. by rewrite orb_false_r, string_app_nil.
  - cbn [to_hex_digits]. destruct (byte_of_nibbles c) as (H1 & H2 & H3).
    rewrite hex_loop_pair, H3, IH by done. rewrite string_app_assoc. cbn.
    by destruct found, (IsSimpleChar c).
Qed.

(** A hex string of even length is read completely, or refused. *)
Lemma hex_loop_inv n s found out :
  (String.length s <= n)%nat -> Nat.even (String.length s) = true ->
  hex_loop s 0 false found out = Ret None \/ exists t, s = to_hex_digits t.
Proof.
  revert s found out. induction n as [|n IH]; intros s found out Hn He.
  - destruct s; [|cbn in Hn; lia]. right. by exists "".
  - destruct s as [|a [|b s]]; [right; by exists ""|done|].
    cbn [String.length] in Hn. cbn in He.
    destruct (digit_HexCharValue a) as [Ha|[Ha Ha']].
    { left. cbn. by rewrite Ha. }
    rewrite <-Ha'. destruct (digit_HexCharValue b) as [Hb|[Hb Hb']].
    { left. cbn. rewrite HexCharValue_digit by done.
      rewrite (proj2 (Z.eqb_neq _ _)) by lia. rewrite (proj2 (Z.leb_le _ _)) by lia.
      rewrite (proj2 (Z.ltb_lt _ _)) by lia. cbn. by rewrite Hb. }
    rewrite <-Hb', hex_loop_pair by done.
    destruct (IH s (found || negb (IsSimpleChar (byte_of (HexCharValue a) (HexCharValue b))))
                (out +:+ String (byte_of (HexCharValue a) (HexCharValue b)) "") ltac:(lia) He)
      as [H|[t ->]]; [by left|right].
    exists (String (byte_of (HexCharValue a) (HexCharValue b)) t).
    by rewrite to_hex_digits_cons.
Qed.

Lemma even_to_hex t : Nat.even (String.length (to_hex_digits t)) = true.
Proof. by induction t. Qed.

(** Cutting the prefix off. *)
Lemma prefix_split name :
  substring 0 2 name = ENCODED_PREFIX <->
  name = ENCODED_PREFIX +:+ substring 2 (String.length name - 2) name.
Proof.
  split.
  - destruct name as [|a [|b s]]; try done. cbn [substring String.length].
    intros Hp. assert (a = "x"%char /\ b = "-"%char) as [-> ->].
    { unfold ENCODED_PREFIX in Hp. by injection Hp as -> -> _. }
    replace (Datatypes.S (Datatypes.S (String.length s)) - 2)%nat with (String.length s) by lia.
    by rewrite substring_all.
  - intros ->. by destruct (substring 2 _ _).
Qed.

Lemma to_hex_digits_inj s t : to_hex_digits s = to_hex_digits t -> s = t.
Proof.
  intros He. pose proof (hex_loop_digits s false "") as Hs.
  rewrite He, hex_loop_digits in Hs. by simplify_eq.
Qed.

Lemma EncodeName_prefixed name h :
  EncodeName name = ENCODED_PREFIX +:+ h <->
  (name = "" \/ all_simple name = false) /\ h = to_hex_digits name.
Proof.
  unfold EncodeName. destruct (String.eqb_spec name "") as [->|Hne]; cbn [negb andb].
  - split; [intros <-%(base.inj _); auto|]. by intros [_ ->].
  - destruct (all_simple name) eqn:Hs.
    + split; [by intros ->|]. intros [[?|?] _]; congruence.
    + split; [intros <-%(base.inj _); auto|]. by intros [_ ->].
Qed.

Lemma EncodeName_plain name u :
  u <> "" -> substring 0 2 u <> ENCODED_PREFIX ->
  EncodeName name = u <-> name = u /\ all_simple u = true.
Proof.
  intros Hu Hp. unfold EncodeName. split.
  - destruct (_ && _) eqn:Hb.
    + apply andb_true_iff in Hb as [_ ?]. by intros <-.
    + intros <-. destruct Hp. by destruct (to_hex_digits name).
  - intros [-> Hs]. rewrite Hs. by destruct (String.eqb_spec u "").
Qed.

(** ** Decoding is exact *)

Lemma decode_is_inverse u :
  exists r, DecodeName u = Ret r /\ forall name, r = Some name <-> u = EncodeName name.
Proof.
  unfold DecodeName. destruct (String.eqb_spec u "") as [->|Hne].
  { eexists. split; [done|]. intros name. split; [done|]. unfold EncodeName.
    destruct name; cbn; [done|]. by case_match. }
  change (String.length ENCODED_PREFIX) with 2%nat.
  destruct (String.eqb_spec (substring 0 2 u) ENCODED_PREFIX) as [Hp|Hp]; cbn [negb].
  - apply prefix_split in Hp. generalize dependent (substring 2 (String.length u - 2) u).
    intros h ->. setoid_rewrite (eq_comm (ENCODED_PREFIX +:+ h)).
    setoid_rewrite EncodeName_prefixed.
    destruct (Nat.even (String.length h)) eqn:Hev; cbn [negb].
    2: { eexists. split; [done|]. intros name. split; [done|].
         intros [_ ->]. by rewrite even_to_hex in Hev. }
    destruct (String.eqb_spec h "") as [->|Hh].
    { eexists. split; [done|]. intros name. split; [intros [= <-]; auto|].
      intros [_ He]. by destruct name. }
    destruct (hex_loop_inv _ h false "" (Nat.le_refl _) Hev) as [Hl|[t ->]].
    { rewrite Hl. eexists. split; [done|]. intros name. split; [done|].
      intros [_ ->]. by rewrite hex_loop_digits in Hl. }
    rewrite hex_loop_digits. cbn [orb negb Z.eqb]. rewrite negb_involutive.
    destruct (all_simple t) eqn:Hs; eexists; (split; [done|]); intros name.
    + split; [done|]. intros [Hn ->%to_hex_digits_inj]. destruct Hn as [->|Hn]; [by destruct Hh|congruence].
    + split; [intros [= <-]; auto|]. by intros [_ ->%to_hex_digits_inj].
  - eexists. split; [done|]. intros name. rewrite (eq_comm u), EncodeName_plain by done.
    split.
    + destruct (all_simple u); [|done]. by intros [= ->].
    + intros [-> ->]. done.
Qed.

(** C27: decoding a username never aborts and succeeds with a name exactly if
    the username is the one encoding of that name: names of lower-case letters
    and digits as they are, all others in lower-case hex after the prefix.  So
    every account has one username, and no two usernames share an account. *)
Theorem DecodeName_exact u :
  exists r, DecodeName u = Ret r /\ forall name, r = Some name <-> u = EncodeName name.
Proof. apply decode_is_inverse. Qed.

(** ** Lists of servers *)

Fixpoint no_comma (s : string) : bool :=
  match s with
  | EmptyString => true
  | String c s' => negb (Ascii.eqb c comma) && no_comma s'
  end.

Lemma read_pieces_word s rest cur res :
  no_comma s = true -> read_pieces cur (s +:+ rest) res = read_pieces (cur +:+ s) rest res.
Proof.
  revert cur. induction s as [|c s IH]; intros cur Hs.
  - by rewrite string_app_nil.
  - cbn in Hs. apply andb_true_iff in Hs as [Hc%negb_true_iff Hs].
    rewrite string_app_cons. cbn [read_pieces]. rewrite Hc, IH by done.
    by rewrite string_app_assoc.
Qed.

Lemma read_pieces_concat x l res :
  Forall (fun s => no_comma s = true) (x :: l) ->
  read_pieces "" (String.concat "," (x :: l)) res = list_to_set (x :: l) ∪ res.
Proof.
  revert x res. induction l as [|y l IH]; intros x res Hl; apply Forall_cons in Hl as [Hx Hl].
  - change (String.concat "," [x]) with x. rewrite <-(string_app_nil x) at 1.
    rewrite read_pieces_word by done. cbn [read_pieces]. set_solver.
  - change (String.concat "," (x :: y :: l))
      with (x +:+ String comma (String.concat "," (y :: l))).
    rewrite read_pieces_word by done. cbn [read_pieces]. rewrite Ascii.eqb_refl, IH by done.
    cbn [list_to_set]. change ("" +:+ x) with x. set_solver.
Qed.

(** Parsing the comma-separated server list is exact: writing any list of
    names without commas and reading it back gives the set of these names,
    empty ones included (the empty text is the empty list). *)
Theorem ParseCommaSeparated_concat l :
  Forall (fun s => no_comma s = true) l -> l <> [""] ->
  ParseCommaSeparated (String.concat "," l) = list_to_set l.
Proof.
  intros Hl Hne. unfold ParseCommaSeparated.
  destruct l as [|x l]; [done|]. destruct (String.eqb_spec (String.concat "," (x :: l)) "") as [He|He].
  - destruct x as [|c x]; [|by destruct l]. by destruct l.
  - rewrite read_pieces_concat by done. set_solver.
Qed.

(* ------------------------------------------------------------------ *)
(** ** Authentication *)

Section theorems.
Context `{JsonLib} {Node : Type} `{!JidLib}.

(** The JID is one of the account, on a trusted server. *)
Definition jid_of (servers : gset string) (account : string) (jid : JID) : bool :=
  bool_decide (jid_server jid ∈ servers) && String.eqb (jid_username jid) (EncodeName account).

Lemma EncodeName_inj x y : EncodeName x = EncodeName y -> x = y.
Proof.
  intros He. destruct (decode_is_inverse (EncodeName x)) as (r & _ & Hr).
  pose proof (proj2 (Hr x) eq_refl). pose proof (proj2 (Hr y) He). congruence.
Qed.

Lemma jid_of_inj servers x y jid :
  jid_of servers x jid = true -> jid_of servers y jid = true -> x = y.
Proof.
  unfold jid_of. rewrite !andb_true_iff, !String.eqb_eq. intros [_ Hx] [_ Hy].
  apply EncodeName_inj. congruence.
Qed.

Lemma wp_Authenticate jid (w : World Node Authenticator)
    (Q : outcome (option string) -> World Node Authenticator -> Prop) :
  (forall account, jid_of (xidServers (wst w)) account jid = true ->
     Q (Ret (Some account))
       (mkWorld (mkAuthenticator (xidServers (wst w)) (<[account := jid]> (knownJids (wst w))))
          (wnode w) (wtrace w))) ->
  ((forall account, jid_of (xidServers (wst w)) account jid = false) -> Q (Ret None) w) ->
  wp (Authenticate jid) Q w.
Proof.
  intros Hyes Hno. unfold Authenticate. wp_step. wp_step.
  destruct (decode_is_inverse (jid_username jid)) as (r & Hr & Hspec).
  unfold jid_of in *. destruct (decide (jid_server jid ∈ xidServers (wst w))) as [Hs|Hs].
  2: { rewrite (bool_decide_true (_ ∉ _)) by done. apply wp_ret, Hno. intros account.
       by rewrite bool_decide_false. }
  rewrite (bool_decide_false (_ ∉ _)) by (intros Hn; by apply Hn).
  rewrite bool_decide_true in Hyes, Hno by done. cbn [andb] in *.
  rewrite Hr. wp_step. wp_step. destruct r as [account|]; cbn [then_post].
  - wp_step. wp_step. wp_step. apply Hyes, String.eqb_eq. by apply Hspec.
  - apply wp_ret, Hno. intros account. apply String.eqb_neq. intros He.
    by apply Hspec in He.
Qed.

(** A sender is taken for an account exactly if its server is one of the
    trusted ones and its username is the encoding of that account; the call
    never fails. *)
Theorem Authenticate_correct jid (w : World Node Authenticator) :
  exists r w', Authenticate jid w = (Ret r, w') /\
    forall account, r = Some account <->
      jid_server jid ∈ xidServers (wst w) /\ jid_username jid = EncodeName account.
Proof.
  assert (Hw : wp (Authenticate jid) (fun o _ => exists r, o = Ret r /\
    forall account, r = Some account <-> jid_of (xidServers (wst w)) account jid = true) w).
  { apply wp_Authenticate.
    - intros a Ha. eexists. split; [done|]. intros b. split; [by intros [= <-]|].
      intros Hb. by rewrite (jid_of_inj _ _ _ _ Ha Hb).
    - intros Ha. eexists. split; [done|]. intros b. rewrite Ha. done. }
  unfold wp in Hw. destruct (Authenticate jid w) as [o w']. destruct Hw as (r & -> & Hr).
  exists r, w'. split; [done|]. intros account. rewrite Hr. unfold jid_of.
  by rewrite andb_true_iff, bool_decide_eq_true, String.eqb_eq.
Qed.

(** Messages from a list of senders, one after the other. *)
Fixpoint authenticate_all (l : list JID) : M Node Authenticator unit :=
  match l with
  | [] => mret tt
  | jid :: l' => Authenticate jid;; authenticate_all l'
  end.

Lemma wp_authenticate_all l (w : World Node Authenticator)
    (Q : outcome unit -> World Node Authenticator -> Prop) :
  (forall known,
     (forall account, known !! account =
        match last (filter (fun j => jid_of (xidServers (wst w)) account j = true) l) with
        | Some jid => Some jid
        | None => knownJids (wst w) !! account
        end) ->
     Q (Ret tt) (mkWorld (mkAuthenticator (xidServers (wst w)) known) (wnode w) (wtrace w))) ->
  wp (authenticate_all l) Q w.
Proof.
  revert w. induction l as [|jid l IH]; intros w HQ.
  - apply wp_ret. destruct w as [[servers known] n t]. by apply HQ.
  - cbn [authenticate_all]. apply wp_bind, wp_Authenticate.
    + intros a Ha. apply IH. cbn. intros known Hk. apply HQ. intros b. rewrite Hk.
      rewrite filter_cons. destruct (decide (jid_of _ b jid = true)) as [Hb|Hb].
      * rewrite (jid_of_inj _ _ _ _ Hb Ha). rewrite last_cons, lookup_insert_eq. by case_match.
      * case_match; [done|]. apply lookup_insert_ne. by intros ->.
    + intros Hno. apply IH. intros known Hk. apply HQ. intros b. rewrite Hk.
      rewrite filter_cons. rewrite decide_False by (rewrite Hno; done). done.
Qed.

(** Replies to an account go to the last sender that was authenticated
    as this account, and to nobody if there was none: after any list of
    messages the lookup gives exactly that JID. *)
Theorem LookupJid_last servers l account (w : World Node Authenticator) :
  wst w = new_Authenticator servers ->
  exists w', authenticate_all l w = (Ret tt, w') /\
    LookupJid account w' =
      (Ret (last (filter (fun j => jid_of (ParseCommaSeparated servers) account j = true) l)), w').
Proof.
  intros Hw.
  assert (Hwp : wp (authenticate_all l) (fun o w' => o = Ret tt /\ knownJids (wst w') !! account =
    last (filter (fun j => jid_of (ParseCommaSeparated servers) account j = true) l)) w).
  { apply wp_authenticate_all. intros known Hk. split; [done|]. cbn.
    rewrite Hk, Hw. cbn. case_match; [done|]. apply lookup_empty. }
  unfold wp in Hwp. destruct (authenticate_all l w) as [o w']. destruct Hwp as [-> Hk].
  exists w'. split; [done|]. by rewrite <-Hk.
Qed.

End theorems.

(* ------------------------------------------------------------------ *)
(** ** The theorems at concrete inputs *)

Module AuthenticatorWitness.
Import Mock.

#[export] Instance jids : JidLib := {
  JID := string * string; jid_server := fst; jid_username := snd
}.

Lemma ParseCommaSeparated_concat_witness :
  ParseCommaSeparated "chat.xaya.io,,other" = {["chat.xaya.io"; ""; "other"]}.
Proof.
  change "chat.xaya.io,,other" with (String.concat "," ["chat.xaya.io"; ""; "other"]).
  rewrite ParseCommaSeparated_concat.
  - set_solver.
  - by repeat constructor.
  - discriminate.
Defined.

Definition w0 : World Fixed Authenticator := world_of (new_Authenticator "chat.xaya.io") fixed.

Definition senders : list JID :=
  [("chat.xaya.io", "domob"); ("evil.org", "domob"); ("chat.xaya.io", "x-21")].

Lemma LookupJid_last_witness :
  fst (LookupJid "domob" (snd (authenticate_all senders w0)))
  = Ret (Some ("chat.xaya.io", "domob")).
Proof.
  destruct (LookupJid_last "chat.xaya.io" senders "domob" w0 eq_refl) as (w' & Hw & Hl).
  rewrite Hw. cbn [snd]. rewrite Hl. reflexivity.
Defined.

End AuthenticatorWitness.
