(* ===== verification/OrderBook.v ===== *)
(** * The book of other users' orders

    The class [OrderBook] of [src/src/orderbook.cpp]: the orders of every
    known account with the time of their last update, the queue of update
    events by which stale accounts are timed out, and the two views of the
    book by asset, with bids and asks sorted by price. *)

From Stdlib Require Import ZArith Lia String.
From stdpp Require Import base gmap strings list sorting fin_maps.
From S2P Require Import Prelude Json Proto Effects Mock.

(** [std::chrono::steady_clock::now]. *)
Class SteadyClock (Node : Type) := steady_now : Node -> Z * Node.

Record AccountOrders := mkAccountOrders {
  ao_orders : OrdersOfAccount;
  ao_lastUpdate : Z
}.

Record UpdateEvent := mkUpdateEvent {
  ue_account : string;
  ue_time : Z
}.

(** Durations and times are in ticks of the steady clock (nanoseconds). *)
Record OrderBook := mkOrderBook {
  ob_timeout : Z;
  ob_timeoutIntv : Z;
  ob_orders : gmap string AccountOrders;
  ob_updates : list UpdateEvent
}.

Definition MAX_TIMEOUT_INTV : Z := 5 * 1000000000.

Definition new_OrderBook (timeout : Z) : OrderBook :=
  mkOrderBook timeout
    (if timeout <? MAX_TIMEOUT_INTV then timeout else MAX_TIMEOUT_INTV) ∅ [].

Definition with_ob_orders (m : gmap string AccountOrders) (b : OrderBook) : OrderBook :=
  mkOrderBook (ob_timeout b) (ob_timeoutIntv b) m (ob_updates b).
Definition with_ob_updates (l : list UpdateEvent) (b : OrderBook) : OrderBook :=
  mkOrderBook (ob_timeout b) (ob_timeoutIntv b) (ob_orders b) l.

(** What [UpdateOrders] demands of every order. *)
Definition order_complete (o : Order) : bool :=
  has (o_asset o) && has (o_type o) && has (o_price_sat o).

(** The loop of [RunTimeout]: the queue and the orders that are left. *)
Fixpoint expire (timeoutBefore : Z) (updates : list UpdateEvent)
    (orders : gmap string AccountOrders) : list UpdateEvent * gmap string AccountOrders :=
  match updates with
  | [] => ([], orders)
  | u :: us =>
      if ue_time u <? timeoutBefore then
        match orders !! ue_account u with
        | None => expire timeoutBefore us orders
        | Some ao =>
            if ao_lastUpdate ao <? timeoutBefore
            then expire timeoutBefore us (delete (ue_account u) orders)
            else expire timeoutBefore us orders
        end
      else (updates, orders)
  end.

(** The strict order of both sides of the book. *)
Definition byPriceAsc (a b : Order) : bool :=
  if negb (price_sat_of a =? price_sat_of b) then price_sat_of a <? price_sat_of b
  else if negb (String.eqb (account_of a) (account_of b)) then str_ltb (account_of a) (account_of b)
  else id_of a <? id_of b.

(** [std::sort] with that comparison. *)
Definition not_after (a b : Order) : Prop := byPriceAsc b a = false.
#[export] Instance not_after_dec a b : Decision (not_after a b) := decide (byPriceAsc b a = false).

Definition sort_by_price (l : list Order) : list Order := merge_sort not_after l.

(** The comparison demands these fields, whenever it is called. *)
Definition comparable (l : list Order) : bool :=
  (length l <? 2)%nat ||
  forallb (fun o => has (o_price_sat o) && has (o_account o) && has (o_id o)) l.

(** The accounts in the order of [std::map]. *)
Definition key_not_after (a b : string * AccountOrders) : Prop := str_ltb b.1 a.1 = false.
#[export] Instance key_not_after_dec a b : Decision (key_not_after a b) :=
  decide (str_ltb b.1 a.1 = false).
Definition accounts_of (m : gmap string AccountOrders) : list (string * AccountOrders) :=
  merge_sort key_not_after (map_to_list m).

Section operations.
Context `{JsonLib} `{!ProtoRuntime} {Node : Type} `{!SteadyClock Node}.

Definition SteadyNow {S} : M Node S Z :=
  fun w => let '(t, n) := steady_now (wnode w) in (Ret t, mkWorld (wst w) n (wtrace w)).

Definition RunTimeout : M Node OrderBook unit :=
  now ← SteadyNow;
  b ← get;
  let '(updates, orders) := expire (now - ob_timeout b) (ob_updates b) (ob_orders b) in
  put (with_ob_updates updates (with_ob_orders orders b)).

Definition UpdateBook (upd : OrdersOfAccount) : M Node OrderBook unit :=
  check (has (oa_account upd));;
  check (forallb (fun entry => order_complete entry.2) (iter (oa_orders upd)));;
  let account := default "" (oa_account upd) in
  let upd := mkOrdersOfAccount None (oa_orders upd) in
  time ← SteadyNow;
  if bool_decide (oa_orders upd = ∅)
  then modify (fun b => with_ob_orders (delete account (ob_orders b)) b)
  else
    modify (fun b => with_ob_updates (ob_updates b ++ [mkUpdateEvent account time]) b);;
    modify (fun b => with_ob_orders (<[account := mkAccountOrders upd time]> (ob_orders b)) b).

(** The order goes to its side of its asset's entry, which is created for
    the first order of the asset. *)
Definition add_order (orders : OrderbookByAsset) (o : Order) : OrderbookByAsset :=
  let forAsset := default (mkOrderbookForAsset (Some (asset_of o)) [] [])
                    (ba_assets orders !! asset_of o) in
  let o' := with_type None (with_asset None o) in
  let forAsset :=
    match type_of o with
    | ASK => mkOrderbookForAsset (fa_asset forAsset) (fa_bids forAsset) (fa_asks forAsset ++ [o'])
    | BID => mkOrderbookForAsset (fa_asset forAsset) (fa_bids forAsset ++ [o']) (fa_asks forAsset)
    end in
  mkOrderbookByAsset (<[asset_of o := forAsset]> (ba_assets orders)).

Definition AddOrderForAsset (orders : OrderbookByAsset) (o : Order)
  : M Node OrderBook OrderbookByAsset :=
  check (has (o_asset o));;
  mret (add_order orders o).

Definition sort_side (fa : OrderbookForAsset) : OrderbookForAsset :=
  mkOrderbookForAsset (fa_asset fa) (rev (sort_by_price (rev (fa_bids fa))))
    (sort_by_price (fa_asks fa)).

Definition SortByPrices (orders : OrderbookByAsset) : M Node OrderBook OrderbookByAsset :=
  check (forallb (fun entry => comparable (fa_asks entry.2) && comparable (fa_bids entry.2))
           (iter (ba_assets orders)));;
  mret (mkOrderbookByAsset (sort_side <$> ba_assets orders)).

(** The inner loop over the orders of one account. *)
Fixpoint add_account (asset : option string) (acc : string) (l : list (Z * Order))
    (res : OrderbookByAsset) : M Node OrderBook OrderbookByAsset :=
  match l with
  | [] => mret res
  | (id, o) :: l' =>
      check (has (o_asset o));;
      if match asset with Some a => negb (String.eqb (asset_of o) a) | None => false end
      then add_account asset acc l' res
      else
        res ← AddOrderForAsset res (with_id (Some id) (with_account (Some acc) o));
        add_account asset acc l' res
  end.

Fixpoint add_accounts (asset : option string) (l : list (string * AccountOrders))
    (res : OrderbookByAsset) : M Node OrderBook OrderbookByAsset :=
  match l with
  | [] => mret res
  | (acc, ao) :: l' =>
      res ← add_account asset acc (iter (oa_orders (ao_orders ao))) res;
      add_accounts asset l' res
  end.

Definition InternalGetByAsset (asset : option string) : M Node OrderBook OrderbookByAsset :=
  b ← get;
  res ← add_accounts asset (accounts_of (ob_orders b)) (mkOrderbookByAsset ∅);
  SortByPrices res.

Definition GetForAsset (asset : string) : M Node OrderBook OrderbookForAsset :=
  allAssets ← InternalGetByAsset (Some asset);
  if bool_decide (ba_assets allAssets = ∅) then mret (mkOrderbookForAsset (Some asset) [] [])
  else
    check (bool_decide (size (ba_assets allAssets) = 1%nat));;
    fa ← check_some (ba_assets allAssets !! asset);
    check (String.eqb (default "" (fa_asset fa)) asset);;
    mret fa.

Definition GetByAsset : M Node OrderBook OrderbookByAsset := InternalGetByAsset None.

End operations.

(* ------------------------------------------------------------------ *)
(** ** What the views promise *)

(** An order as it appears in a view. *)
Definition listed (acc : string) (id : Z) (o : Order) : Order :=
  with_type None (with_asset None (with_id (Some id) (with_account (Some acc) o))).

Definition in_book (b : OrderBook) (asset : string) (t : OrderType) (x : Order) : Prop :=
  exists acc ao id o, ob_orders b !! acc = Some ao /\ oa_orders (ao_orders ao) !! id = Some o /\
    asset_of o = asset /\ type_of o = t /\ x = listed acc id o.

Definition book_complete (b : OrderBook) : Prop :=
  forall acc ao id o, ob_orders b !! acc = Some ao -> oa_orders (ao_orders ao) !! id = Some o ->
    order_complete o = true.

(** Strictly sorted by price, account and ID. *)
Definition price_lt (a b : Order) : Prop := byPriceAsc a b = true.

(** The view has exactly the orders of the asset, asks ascending and bids
    descending; this determines both lists. *)
Definition lists_exactly (b : OrderBook) (asset : string) (fa : OrderbookForAsset) : Prop :=
  fa_asset fa = Some asset /\
  StronglySorted price_lt (fa_asks fa) /\ StronglySorted (flip price_lt) (fa_bids fa) /\
  (forall x, x ∈ fa_asks fa <-> in_book b asset ASK x) /\
  (forall x, x ∈ fa_bids fa <-> in_book b asset BID x).

(** The contract of the book without the queue: updates replace the orders
    of an account, timeouts drop those last updated before a point in time. *)
Definition spec_update (account : string) (orders : gmap Z Order) (time : Z)
    (m : gmap string AccountOrders) : gmap string AccountOrders :=
  if bool_decide (orders = ∅) then delete account m
  else <[account := mkAccountOrders (mkOrdersOfAccount None orders) time]> m.

Definition spec_timeout (before : Z) (m : gmap string AccountOrders) : gmap string AccountOrders :=
  filter (fun kv => before <= ao_lastUpdate kv.2) m.

(** The invariant of the book at time [now]. *)
Record book_ok (now : Z) (b : OrderBook) : Prop := mkBookOk {
  bo_queued acc ao : ob_orders b !! acc = Some ao ->
    mkUpdateEvent acc (ao_lastUpdate ao) ∈ ob_updates b;
  bo_sorted : StronglySorted (fun u u' => ue_time u <= ue_time u') (ob_updates b);
  bo_past : Forall (fun u => ue_time u <= now) (ob_updates b);
  bo_complete : book_complete b;
  bo_nonempty acc ao : ob_orders b !! acc = Some ao -> oa_orders (ao_orders ao) <> ∅
}.

(** ** The order by price *)

Lemma price_lt_spec a b :
  price_lt a b <->
  price_sat_of a < price_sat_of b \/ price_sat_of a = price_sat_of b /\
    (str_ltb (account_of a) (account_of b) = true \/
     account_of a = account_of b /\ id_of a < id_of b).
Proof.
  unfold price_lt, byPriceAsc.
  destruct (Z.eqb_spec (price_sat_of a) (price_sat_of b)) as [Hp|Hp]; cbn [negb].
  - destruct (String.eqb_spec (account_of a) (account_of b)) as [Ha|Ha]; cbn [negb].
    + rewrite Z.ltb_lt, Ha, str_ltb_irrefl. intuition (try lia; try congruence).
    + intuition (try lia; try congruence).
  - rewrite Z.ltb_lt. intuition lia.
Qed.

Lemma price_lt_trans a b c : price_lt a b -> price_lt b c -> price_lt a c.
Proof.
  rewrite !price_lt_spec. pose proof (str_ltb_trans (account_of a) (account_of b) (account_of c)).
  intros [?|(? & [?|[Ha ?]])] [?|(? & [?|[Hb ?]])]; try (left; lia); right; (split; [lia|]);
    [left; tauto|left; by rewrite <-Hb|left; by rewrite Ha|].
  right. split; [congruence|lia].
Qed.

Lemma price_lt_total a b :
  price_lt a b \/ price_lt b a \/
  price_sat_of a = price_sat_of b /\ account_of a = account_of b /\ id_of a = id_of b.
Proof.
  rewrite !price_lt_spec.
  destruct (Z.lt_trichotomy (price_sat_of a) (price_sat_of b)) as [?|[Hp|?]]; [tauto| |tauto].
  rewrite Hp. destruct (str_ltb_total (account_of a) (account_of b)) as [Ha|[?|?]]; [|tauto|tauto].
  rewrite Ha. destruct (Z.lt_trichotomy (id_of a) (id_of b)) as [?|[?|?]]; tauto.
Qed.

Lemma price_lt_irrefl a : ~ price_lt a a.
Proof. rewrite price_lt_spec, str_ltb_irrefl. intuition (try lia; try congruence). Qed.

Lemma not_after_spec a b :
  not_after a b <-> price_lt a b \/
  price_sat_of a = price_sat_of b /\ account_of a = account_of b /\ id_of a = id_of b.
Proof.
  unfold not_after. fold (price_lt b a). rewrite <-not_true_iff_false. fold (price_lt b a). split.
  - intros Hn. destruct (price_lt_total a b) as [?|[?|?]]; tauto.
  - intros [Hl|(Hp & Ha & Hi)] Hn.
    + by apply (price_lt_irrefl a), (price_lt_trans _ b).
    + revert Hn. rewrite price_lt_spec, Ha, str_ltb_irrefl. intuition (try lia; try congruence).
Qed.

#[export] Instance not_after_total : Total not_after.
Proof. intros a b. rewrite !not_after_spec. destruct (price_lt_total a b) as [?|[?|?]]; intuition. Qed.

#[export] Instance not_after_trans : Transitive not_after.
Proof.
  intros a b c. unfold not_after. rewrite <-!not_true_iff_false. fold (price_lt b a) (price_lt c b) (price_lt c a).
  intros H1 H2 H3. destruct (price_lt_total a b) as [Hl|[Hl|(Hp & Ha & Hi)]]; [|done|].
  - apply H2. by apply (price_lt_trans _ a).
  - apply H2. revert H3. rewrite !price_lt_spec. by rewrite Hp, Ha, Hi.
Qed.

Definition key (o : Order) : string * Z := (account_of o, id_of o).

Lemma sort_strict l : NoDup (key <$> l) -> StronglySorted price_lt (sort_by_price l).
Proof.
  intros Hn. unfold sort_by_price.
  assert (Hk : NoDup (key <$> merge_sort not_after l)) by (by rewrite merge_sort_Permutation).
  pose proof (StronglySorted_merge_sort not_after l) as Hs. revert Hk.
  induction Hs as [|x k Hs IH Hx]; intros Hk; [constructor|].
  apply NoDup_cons in Hk as [Hnx Hk]. constructor; [by apply IH|].
  rewrite Forall_forall in Hx |- *. intros y Hy. destruct (proj1 (not_after_spec _ _) (Hx y Hy))
    as [?|(_ & Ha & Hi)]; [done|].
  destruct Hnx. apply list_elem_of_fmap. exists y. split; [|done]. unfold key. by rewrite Ha, Hi.
Qed.

Lemma StronglySorted_rev {A} (R : relation A) l :
  StronglySorted R l -> StronglySorted (flip R) (rev l).
Proof.
  induction 1 as [|x l Hs IH Hx]; [constructor|]. cbn. rewrite rev_alt in *.
  apply StronglySorted_app_2; [|done|by repeat constructor].
  intros y z Hy ->%list_elem_of_singleton. rewrite <-rev_alt in Hy.
  apply list_elem_of_In, in_rev in Hy. rewrite Forall_forall in Hx.
  by apply Hx, list_elem_of_In.
Qed.

(* ------------------------------------------------------------------ *)
(** ** The loops over the book *)

Definition side (t : OrderType) (fa : OrderbookForAsset) : list Order :=
  match t with ASK => fa_asks fa | BID => fa_bids fa end.

Definition side_at (res : OrderbookByAsset) (a : string) (t : OrderType) : list Order :=
  from_option (side t) [] (ba_assets res !! a).

Definition strip (o : Order) : Order := with_type None (with_asset None o).

Lemma add_order_side res o a t :
  side_at (add_order res o) a t =
  side_at res a t ++ (if decide (asset_of o = a /\ type_of o = t) then [strip o] else []).
Proof.
  unfold side_at, add_order. cbn [ba_assets].
  destruct (decide (asset_of o = a)) as [<-|Hne].
  - rewrite lookup_insert_eq. destruct (ba_assets res !! asset_of o), (type_of o), t; cbn;
      case_decide; try rewrite app_nil_r; try done; naive_solver.
  - rewrite lookup_insert_ne, decide_False, app_nil_r by naive_solver. done.
Qed.

Lemma fold_add_side l res a t :
  side_at (fold_left add_order l res) a t =
  side_at res a t ++ map strip (filter (fun o => asset_of o = a /\ type_of o = t) l).
Proof.
  revert res. induction l as [|o l IH]; intros res; cbn [fold_left]; [by rewrite app_nil_r|].
  rewrite IH, add_order_side, filter_cons, <-app_assoc. by case_decide.
Qed.

Definition assets_set (res : OrderbookByAsset) : Prop :=
  forall a fa, ba_assets res !! a = Some fa -> fa_asset fa = Some a.

Lemma fold_add_assets l res : assets_set res -> assets_set (fold_left add_order l res).
Proof.
  revert res. induction l as [|o l IH]; intros res Hr; [done|]. apply IH.
  intros a fa. unfold add_order. cbn. rewrite lookup_insert_Some. intros [[<- <-]|[_ Ha]]; [|by apply Hr].
  destruct (ba_assets res !! asset_of o) eqn:He; cbn; [apply Hr in He|]; by destruct (type_of o).
Qed.

Lemma fold_add_dom l res a :
  is_Some (ba_assets (fold_left add_order l res) !! a) <->
  is_Some (ba_assets res !! a) \/ exists o, o ∈ l /\ asset_of o = a.
Proof.
  revert res. induction l as [|o l IH]; intros res; cbn [fold_left].
  - split; [auto|]. intros [?|(o & Ho & _)]; [done|]. by apply elem_of_nil in Ho.
  - rewrite IH. unfold add_order. cbn [ba_assets]. rewrite lookup_insert_is_Some.
    setoid_rewrite elem_of_cons. split; [naive_solver|].
    intros [?|(x & [->|?] & ?)]; [|tauto|naive_solver].
    destruct (decide (asset_of o = a)); tauto.
Qed.

Definition numbered (acc : string) (e : Z * Order) : Order :=
  with_id (Some e.1) (with_account (Some acc) e.2).

Definition wanted (asset : option string) (o : Order) : bool :=
  match asset with Some a => String.eqb (asset_of o) a | None => true end.

Section views.
Context `{JsonLib} `{!ProtoRuntime} `{!ProtoRuntimeLaws} {Node : Type}.

(** All orders, with account and ID. *)
Definition entries (l : list (string * AccountOrders)) : list Order :=
  concat (map (fun e => map (numbered e.1) (iter (oa_orders (ao_orders e.2)))) l).

Lemma wp_add_account asset acc l res (w : World Node OrderBook)
    (Q : outcome OrderbookByAsset -> World Node OrderBook -> Prop) :
  Forall (fun e => has (o_asset e.2) = true) l ->
  Q (Ret (fold_left add_order (filter (fun o => wanted asset o = true) (map (numbered acc) l)) res)) w ->
  wp (add_account asset acc l res) Q w.
Proof.
  revert res. induction l as [|[id o] l IH]; intros res Hl HQ; [done|].
  apply Forall_cons in Hl as [Ho Hl]. cbn [add_account map]. cbn [map] in HQ.
  rewrite filter_cons in HQ. wp_step. wp_step; [|cbn in Ho; congruence].
  replace (match asset with Some a => negb (String.eqb (asset_of o) a) | None => false end)
    with (negb (wanted asset (numbered acc (id, o)))) by (by destruct asset).
  destruct (decide (wanted asset (numbered acc (id, o)) = true)) as [Hw|Hw].
  - rewrite Hw. cbn [negb]. unfold AddOrderForAsset.
    wp_step. wp_step. wp_step; [|cbn in *; congruence]. wp_step. by apply IH.
  - rewrite (not_true_is_false _ Hw). cbn [negb]. by apply IH.
Qed.

Lemma wp_add_accounts asset l res (w : World Node OrderBook)
    (Q : outcome OrderbookByAsset -> World Node OrderBook -> Prop) :
  Forall (fun e => Forall (fun e => has (o_asset e.2) = true) (iter (oa_orders (ao_orders e.2)))) l ->
  Q (Ret (fold_left add_order (filter (fun o => wanted asset o = true) (entries l)) res)) w ->
  wp (add_accounts asset l res) Q w.
Proof.
  revert res. induction l as [|[acc ao] l IH]; intros res Hl HQ; [done|].
  apply Forall_cons in Hl as [Ho Hl]. cbn [add_accounts]. unfold entries in HQ. cbn [map concat] in HQ.
  rewrite filter_app, fold_left_app in HQ.
  apply wp_bind, wp_add_account; [done|]. cbn [then_post]. by apply IH.
Qed.

Lemma elem_of_accounts m acc ao : (acc, ao) ∈ accounts_of m <-> m !! acc = Some ao.
Proof.
  unfold accounts_of. rewrite (merge_sort_Permutation key_not_after (map_to_list m)).
  apply elem_of_map_to_list.
Qed.

Lemma elem_of_iter (m : gmap Z Order) id o : (id, o) ∈ iter m <-> m !! id = Some o.
Proof. rewrite (iter_perm m). apply elem_of_map_to_list. Qed.

Lemma elem_of_entries m x :
  x ∈ entries (accounts_of m) <->
  exists acc ao id o, m !! acc = Some ao /\ oa_orders (ao_orders ao) !! id = Some o /\
    x = numbered acc (id, o).
Proof.
  unfold entries. rewrite list_elem_of_In, in_concat. split.
  - intros (l & Hl & Hx). apply in_map_iff in Hl as ([acc ao] & <- & Hl).
    apply in_map_iff in Hx as ([id o] & <- & Hx).
    apply list_elem_of_In, elem_of_accounts in Hl. apply list_elem_of_In, elem_of_iter in Hx.
    by exists acc, ao, id, o.
  - intros (acc & ao & id & o & Hl & Hx & ->).
    eexists. split; [apply in_map_iff; exists (acc, ao); split; [done|]|].
    + by apply list_elem_of_In, elem_of_accounts.
    + apply in_map, list_elem_of_In. by apply elem_of_iter.
Qed.

Lemma key_numbered acc (l : list (Z * Order)) :
  key <$> map (numbered acc) l = (fun id => (acc, id)) <$> l.*1.
Proof. induction l as [|[id o] l IH]; [done|]. cbn. f_equal. exact IH. Qed.

Lemma NoDup_entries l :
  NoDup (l.*1) -> NoDup (key <$> entries l).
Proof.
  induction l as [|[acc ao] l IH]; intros Hn; [constructor|].
  apply NoDup_cons in Hn as [Hx Hn]. unfold entries. cbn [map concat].
  rewrite fmap_app. apply NoDup_app. split_and!; [| |by apply IH].
  - rewrite key_numbered.
    apply (NoDup_fmap_2 _). rewrite (iter_perm _). apply NoDup_fst_map_to_list.
  - intros k Hk Hk'. destruct Hx.
    rewrite key_numbered in Hk. apply list_elem_of_fmap in Hk as (id & -> & _).
    apply list_elem_of_fmap in Hk' as (y & Hxy & Hy).
    apply list_elem_of_In, in_concat in Hy as (q & Hq & Hy). apply in_map_iff in Hq as ([acc' ao'] & <- & Hq).
    apply in_map_iff in Hy as ([id' o'] & <- & _). injection Hxy as -> _.
    apply list_elem_of_fmap. exists (acc', ao'). split; [done|]. by apply list_elem_of_In.
Qed.

Lemma NoDup_fmap_filter {A B} (f : A -> B) (P : A -> Prop) `{!forall x, Decision (P x)} l :
  NoDup (f <$> l) -> NoDup (f <$> filter P l).
Proof.
  induction l as [|x l IH]; [done|]. rewrite fmap_cons, filter_cons. intros [Hx Hl]%NoDup_cons.
  case_decide; [|auto]. rewrite fmap_cons. constructor; [|auto].
  intros (y & Hxy & [_ Hy]%list_elem_of_filter)%list_elem_of_fmap. apply Hx.
  apply list_elem_of_fmap. by exists y.
Qed.

(** The orders of one side of an asset, in the order they are found. *)
Definition found (asset : option string) (m : gmap string AccountOrders) (a : string)
    (t : OrderType) : list Order :=
  map strip (filter (fun o => asset_of o = a /\ type_of o = t)
    (filter (fun o => wanted asset o = true) (entries (accounts_of m)))).

Lemma key_strip l : key <$> map strip l = key <$> l.
Proof. induction l as [|o l IH]; [done|]. cbn. f_equal. exact IH. Qed.

Lemma NoDup_found asset m a t : NoDup (key <$> found asset m a t).
Proof.
  unfold found. rewrite key_strip. apply NoDup_fmap_filter, NoDup_fmap_filter, NoDup_entries.
  unfold accounts_of. rewrite merge_sort_Permutation. apply NoDup_fst_map_to_list.
Qed.

Lemma elem_of_found asset b a t x :
  x ∈ found asset (ob_orders b) a t <->
  (match asset with Some a' => a' = a | None => True end) /\ in_book b a t x.
Proof.
  unfold found. rewrite list_elem_of_In, in_map_iff. setoid_rewrite <-list_elem_of_In.
  setoid_rewrite list_elem_of_filter. setoid_rewrite list_elem_of_filter.
  setoid_rewrite elem_of_entries. unfold in_book, wanted. split.
  - intros (y & <- & [Ha Ht] & Hw & acc & ao & id & o & Hm & Ho & ->). split.
    + destruct asset as [a'|]; [|done]. apply String.eqb_eq in Hw. congruence.
    + exists acc, ao, id, o. by split_and!.
  - intros [Hw (acc & ao & id & o & Hm & Ho & Ha & Ht & ->)].
    exists (numbered acc (id, o)). split; [done|]. split; [done|]. split; [|by exists acc, ao, id, o].
    destruct asset as [a'|]; [|done]. apply String.eqb_eq. by subst.
Qed.

Lemma found_complete asset b a t :
  book_complete b ->
  forallb (fun o => has (o_price_sat o) && has (o_account o) && has (o_id o))
    (found asset (ob_orders b) a t) = true.
Proof.
  intros Hc. apply forallb_forall. intros x Hx. apply list_elem_of_In, elem_of_found in Hx as [_ Hx].
  destruct Hx as (acc & ao & id & o & Hm & Ho & _ & _ & ->). cbn.
  pose proof (Hc _ _ _ _ Hm Ho) as Ho'. unfold order_complete in Ho'.
  rewrite !andb_true_iff in Ho' |- *. tauto.
Qed.

Lemma wp_InternalGetByAsset asset (w : World Node OrderBook)
    (Q : outcome OrderbookByAsset -> World Node OrderBook -> Prop) :
  book_complete (wst w) ->
  (forall res, (forall a fa, ba_assets res !! a = Some fa -> lists_exactly (wst w) a fa) ->
     (forall a, is_Some (ba_assets res !! a) <->
        (match asset with Some a' => a' = a | None => True end) /\
        exists t x, in_book (wst w) a t x) ->
     Q (Ret res) w) ->
  wp (InternalGetByAsset asset) Q w.
Proof.
  intros Hc HQ. unfold InternalGetByAsset. wp_step. wp_step. apply wp_bind, wp_add_accounts.
  { apply Forall_forall. intros [acc ao] Hm%elem_of_accounts. apply Forall_forall.
    intros [id o] Ho%elem_of_iter. pose proof (Hc _ _ _ _ Hm Ho) as Ho'.
    unfold order_complete in Ho'. rewrite !andb_true_iff in Ho'. tauto. }
  cbn [then_post]. set (res0 := fold_left _ _ _).
  assert (Hside : forall a t, side_at res0 a t = found asset (ob_orders (wst w)) a t).
  { intros a t. unfold res0. rewrite fold_add_side. unfold side_at at 1. cbn [ba_assets].
    by rewrite lookup_empty. }
  assert (Hset : assets_set res0) by (apply fold_add_assets; intros ? ?; cbn; by rewrite lookup_empty).
  assert (Hlk : forall a fa t, ba_assets res0 !! a = Some fa -> side t fa = found asset (ob_orders (wst w)) a t).
  { intros a fa t Ha. rewrite <-Hside. unfold side_at. by rewrite Ha. }
  assert (Hdom : forall a, is_Some (ba_assets res0 !! a) <->
    (match asset with Some a' => a' = a | None => True end) /\ exists t x, in_book (wst w) a t x).
  { intros a. unfold res0. rewrite fold_add_dom. cbn [ba_assets]. rewrite lookup_empty, is_Some_alt. split.
    - intros [[]|(o & Ho & Ha)].
      assert (Hf : strip o ∈ found asset (ob_orders (wst w)) a (type_of o)).
      { apply list_elem_of_In, in_map, list_elem_of_In, list_elem_of_filter. done. }
      apply elem_of_found in Hf as [? ?]. split; [done|]. by eexists _, _.
    - intros [Hw (t & x & Hx)]. right.
      assert (Hf : x ∈ found asset (ob_orders (wst w)) a t) by (by apply elem_of_found).
      apply list_elem_of_In, in_map_iff in Hf as (o & _ & Ho).
      apply list_elem_of_In, list_elem_of_filter in Ho as [[? _] ?]. by exists o. }
  unfold SortByPrices. wp_step. wp_step.
  2: { exfalso. apply not_true_iff_false in H2. destruct H2. apply forallb_forall. intros [a fa] Ha.
       apply list_elem_of_In in Ha. rewrite (iter_perm _) in Ha. apply elem_of_map_to_list in Ha.
       cbn. unfold comparable. rewrite (Hlk a fa ASK Ha : fa_asks fa = _), (Hlk a fa BID Ha : fa_bids fa = _).
       by rewrite !found_complete, !orb_true_r. }
  wp_step. apply HQ; cbn [ba_assets].
  - intros a fa. rewrite lookup_fmap, fmap_Some. intros (fa0 & Ha & ->).
    destruct (proj1 (Hdom a) (ex_intro _ fa0 Ha)) as [Hw _].
    assert (Hel : forall t x, x ∈ side t fa0 <-> in_book (wst w) a t x).
    { intros t x. rewrite (Hlk a fa0 t Ha), elem_of_found. tauto. }
    pose proof (fun t => NoDup_found asset (ob_orders (wst w)) a t) as Hnd.
    split_and!; cbn.
    + by apply Hset.
    + apply sort_strict. by rewrite (Hlk a fa0 ASK Ha : fa_asks fa0 = _).
    + apply StronglySorted_rev, sort_strict. rewrite (Permutation_sym (Permutation_rev (fa_bids fa0))).
      by rewrite (Hlk a fa0 BID Ha : fa_bids fa0 = _).
    + intros x. rewrite <-(Hel ASK). unfold sort_by_price. by rewrite merge_sort_Permutation.
    + intros x. rewrite <-(Hel BID), <-Permutation_rev. unfold sort_by_price.
      by rewrite merge_sort_Permutation, <-Permutation_rev.
  - intros a. by rewrite lookup_fmap, fmap_is_Some.
Qed.

End views.

(* ------------------------------------------------------------------ *)
(** ** The queue of updates *)

Section queue.
Context (before : Z).

Definition queued (us : list UpdateEvent) (m : gmap string AccountOrders) : Prop :=
  forall acc ao, m !! acc = Some ao -> mkUpdateEvent acc (ao_lastUpdate ao) ∈ us.

Lemma spec_timeout_lookup m acc ao :
  spec_timeout before m !! acc = Some ao <-> m !! acc = Some ao /\ before <= ao_lastUpdate ao.
Proof. unfold spec_timeout. by rewrite map_lookup_filter_Some. Qed.

Lemma spec_timeout_all m :
  (forall acc ao, m !! acc = Some ao -> before <= ao_lastUpdate ao) -> spec_timeout before m = m.
Proof. intros Hm. apply map_filter_id. intros acc ao. apply Hm. Qed.

Lemma spec_timeout_delete m acc ao :
  m !! acc = Some ao -> ao_lastUpdate ao < before ->
  spec_timeout before (delete acc m) = spec_timeout before m.
Proof.
  intros Ha Hl. unfold spec_timeout. rewrite map_filter_delete, delete_id; [done|].
  apply map_lookup_filter_None. right. intros ao' Ha'. simplify_eq. cbn. lia.
Qed.

(** Working off the queue times out exactly the stale accounts, and every
    account that is left still has its event. *)
Lemma expire_spec us m :
  StronglySorted (fun u u' => ue_time u <= ue_time u') us -> queued us m ->
  (expire before us m).2 = spec_timeout before m /\
  queued (expire before us m).1 (spec_timeout before m) /\
  (expire before us m).1 `suffix_of` us.
Proof.
  intros Hs. revert m. induction Hs as [|u us Hs IH Hu]; intros m Hq; cbn [expire].
  - assert (He : spec_timeout before m = m).
    { apply spec_timeout_all. intros acc ao Ha. by apply Hq, elem_of_nil in Ha. }
    rewrite He. by split_and!.
  - assert (Hskip : forall m', (forall acc ao, m' !! acc = Some ao -> m !! acc = Some ao /\
      (acc = ue_account u -> ao_lastUpdate ao <> ue_time u)) -> queued us m').
    { intros m' Hm' acc ao Ha. destruct (Hm' acc ao Ha) as [Hma Hne].
      apply Hq in Hma. apply elem_of_cons in Hma as [<-|?]; [|done]. by destruct (Hne eq_refl). }
    assert (Hstep : forall m', queued us m' -> spec_timeout before m' = spec_timeout before m ->
      (expire before us m').2 = spec_timeout before m /\
      queued (expire before us m').1 (spec_timeout before m) /\
      (expire before us m').1 `suffix_of` (u :: us)).
    { intros m' Hm' <-. destruct (IH m' Hm') as (? & ? & ?). split_and!; [done..|].
      by apply suffix_cons_r. }
    destruct (Z.ltb_spec (ue_time u) before) as [Ht|Ht].
    + destruct (m !! ue_account u) as [ao|] eqn:Ha; [destruct (Z.ltb_spec (ao_lastUpdate ao) before)|].
      * apply Hstep; [|by apply spec_timeout_delete with ao].
        apply Hskip. intros acc ao'. rewrite lookup_delete_Some. naive_solver.
      * apply Hstep; [|done]. apply Hskip. intros acc ao' Ha'. split; [done|].
        intros ->. simplify_eq. lia.
      * apply Hstep; [|done]. apply Hskip. intros acc ao' Ha'. split; [done|]. intros ->. congruence.
    + assert (He : spec_timeout before m = m).
      { apply spec_timeout_all. intros acc ao Ha%Hq. rewrite Forall_forall in Hu.
        apply elem_of_cons in Ha as [<-|Ha]; [done|]. apply Hu in Ha. cbn in Ha. lia. }
      rewrite He. by split_and!.
Qed.

End queue.

(** A book with fewer accounts and a suffix of the queue. *)
Lemma book_ok_sub now b b' :
  book_ok now b -> ob_updates b' `suffix_of` ob_updates b ->
  queued (ob_updates b') (ob_orders b') -> ob_orders b' ⊆ ob_orders b -> book_ok now b'.
Proof.
  intros [Hq Hs Hp Hc Hne] [us' Hus] Hq' Hm. split.
  - exact Hq'.
  - rewrite Hus in Hs. by apply StronglySorted_app_1_r in Hs.
  - rewrite Hus in Hp. by apply Forall_app in Hp as [_ ?].
  - intros acc ao id o Ha. apply (Hc acc ao id o). by apply (lookup_weaken (ob_orders b')).
  - intros acc ao Ha. apply (Hne acc ao). by apply (lookup_weaken (ob_orders b')).
Qed.

Lemma book_ok_later now t b : now <= t -> book_ok now b -> book_ok t b.
Proof.
  intros Ht [Hq Hs Hp Hc Hne]. split; try done. eapply Forall_impl; [exact Hp|].
  cbn. intros u Hu. lia.
Qed.

Lemma new_book_ok now timeout : book_ok now (new_OrderBook timeout).
Proof. split; try constructor; intros ?*; cbn; by rewrite lookup_empty. Qed.

Lemma book_ok_insert now t b acc upd :
  now <= t -> book_ok now b -> oa_orders upd <> ∅ ->
  map_Forall (fun _ o => order_complete o = true) (oa_orders upd) ->
  book_ok t (with_ob_orders (<[acc := mkAccountOrders upd t]> (ob_orders b))
    (with_ob_updates (ob_updates b ++ [mkUpdateEvent acc t]) b)).
Proof.
  intros Ht [Hq Hs Hp Hc Hne] Hu Hco. rewrite Forall_forall in Hp. split; cbn.
  - intros a ao. rewrite lookup_insert_Some, elem_of_app.
    intros [[<- <-]|[_ Ha]]; [right; by left|left; by apply Hq].
  - apply StronglySorted_app_2; [|done|by repeat constructor].
    intros u u' Hu1 ->%list_elem_of_singleton. apply Hp in Hu1. cbn. lia.
  - apply Forall_app. split; [|by repeat constructor].
    apply Forall_forall. intros u Hu1%Hp. lia.
  - intros a ao id o. cbn. rewrite lookup_insert_Some. intros [[<- <-]|[_ Ha]].
    + apply Hco.
    + by apply (Hc a ao).
  - intros a ao. rewrite lookup_insert_Some. intros [[<- <-]|[_ Ha]]; [done|by apply (Hne a)].
Qed.

(* ------------------------------------------------------------------ *)
(** ** The contract of the book *)

Section theorems.
Context `{JsonLib} `{!ProtoRuntime} `{!ProtoRuntimeLaws} {Node : Type} `{!SteadyClock Node}.

Lemma wp_SteadyNow {S} (Q : outcome Z -> World Node S -> Prop) w :
  (forall t n, steady_now (wnode w) = (t, n) -> Q (Ret t) (mkWorld (wst w) n (wtrace w))) ->
  wp SteadyNow Q w.
Proof. unfold wp, SteadyNow. destruct (steady_now (wnode w)). auto. Qed.

Lemma orders_complete (m : gmap Z Order) :
  forallb (fun e => order_complete e.2) (iter m) = true <->
  map_Forall (fun _ o => order_complete o = true) m.
Proof.
  rewrite forallb_forall. split.
  - intros Hf id o Ho. apply (Hf (id, o)), list_elem_of_In. by apply elem_of_iter.
  - intros Hm [id o] Ho. apply list_elem_of_In, elem_of_iter in Ho. by apply (Hm id).
Qed.

Definition accepted_update (upd : OrdersOfAccount) : Prop :=
  has (oa_account upd) = true /\ map_Forall (fun _ o => order_complete o = true) (oa_orders upd).

#[export] Instance accepted_update_dec upd : Decision (accepted_update upd).
Proof. unfold accepted_update. apply _. Defined.

Lemma wp_UpdateBook upd (w : World Node OrderBook)
    (Q : outcome unit -> World Node OrderBook -> Prop) t n now :
  steady_now (wnode w) = (t, n) -> now <= t -> book_ok now (wst w) ->
  (accepted_update upd -> forall b, ob_timeout b = ob_timeout (wst w) ->
     ob_orders b = spec_update (default "" (oa_account upd)) (oa_orders upd) t (ob_orders (wst w)) ->
     book_ok t b -> Q (Ret tt) (mkWorld b n (wtrace w))) ->
  (~ accepted_update upd -> Q Fatal w) -> wp (UpdateBook upd) Q w.
Proof.
  intros Hn Ht Hb Hok Hbad. unfold UpdateBook.
  wp_step. wp_step; [|apply Hbad; intros [? _]; congruence].
  wp_step. wp_step; [|apply Hbad; intros [_ Hu%orders_complete]; congruence].
  rewrite orders_complete in *. assert (Ha : accepted_update upd) by done.
  specialize (Hok Ha). apply wp_bind, wp_SteadyNow. rewrite Hn. intros ? ? [= <- <-]. cbn [then_post].
  unfold spec_update in Hok. cbn [oa_orders]. case_bool_decide as He.
  - wp_step. apply Hok; [done..|]. apply (book_ok_later now); [done|].
    apply (book_ok_sub now (wst w)); [done..| |apply delete_subseteq].
    cbn. intros acc ao [_ Hao]%lookup_delete_Some. by apply (bo_queued now).
  - wp_step. wp_step. wp_step. apply Hok; [done..|].
    by apply (book_ok_insert now t (wst w) _ (mkOrdersOfAccount None (oa_orders upd))).
Qed.

Lemma wp_RunTimeout (w : World Node OrderBook)
    (Q : outcome unit -> World Node OrderBook -> Prop) t n now :
  steady_now (wnode w) = (t, n) -> now <= t -> book_ok now (wst w) ->
  (forall b, ob_timeout b = ob_timeout (wst w) ->
     ob_orders b = spec_timeout (t - ob_timeout (wst w)) (ob_orders (wst w)) ->
     book_ok t b -> Q (Ret tt) (mkWorld b n (wtrace w))) ->
  wp RunTimeout Q w.
Proof.
  intros Hn Ht Hb HQ. unfold RunTimeout. apply wp_bind, wp_SteadyNow. rewrite Hn. intros ? ? [= <- <-].
  cbn [then_post]. wp_step. wp_step. 
  destruct (expire_spec (t - ob_timeout (wst w)) _ _ (bo_sorted _ _ Hb) (bo_queued _ _ Hb)) as (Ho & Hq & Hsuf).
  destruct (expire _ _ _) as [us m]. cbn in Ho, Hq, Hsuf. subst m. wp_step. apply HQ; [done..|].
  apply (book_ok_later now); [done|]. apply (book_ok_sub now (wst w)); [done..|].
  apply map_filter_subseteq.
Qed.

(** C20: the book implements its contract: an update replaces all orders of
    the account (none deletes the account) and aborts exactly when the account
    or an order's asset, type or price is missing, and a timeout run drops
    exactly the accounts whose last update is older than the timeout, although
    it only looks at the front of the update queue. *)
Theorem book_operations_exact upd now t n (w : World Node OrderBook) :
  steady_now (wnode w) = (t, n) -> now <= t -> book_ok now (wst w) ->
  (if bool_decide (accepted_update upd) then
     exists b, UpdateBook upd w = (Ret tt, mkWorld b n (wtrace w)) /\ book_ok t b /\
       ob_orders b = spec_update (default "" (oa_account upd)) (oa_orders upd) t (ob_orders (wst w))
   else UpdateBook upd w = (Fatal, w)) /\
  exists b, RunTimeout w = (Ret tt, mkWorld b n (wtrace w)) /\ book_ok t b /\
    ob_orders b = spec_timeout (t - ob_timeout (wst w)) (ob_orders (wst w)).
Proof.
  intros Hn Ht Hb. split.
  - pose proof (fun Q => wp_UpdateBook upd w Q t n now Hn Ht Hb) as Hw. case_bool_decide as Ha.
    + specialize (Hw (fun o w' => exists b, (o, w') = (Ret tt, mkWorld b n (wtrace w)) /\ book_ok t b /\
        ob_orders b = spec_update (default "" (oa_account upd)) (oa_orders upd) t (ob_orders (wst w)))).
      unfold wp in Hw. destruct (UpdateBook upd w). apply Hw; [|done]. intros _ b _ Ho Hok. by exists b.
    + by apply wp_eq, Hw.
  - pose proof (wp_RunTimeout w (fun o w' => exists b, (o, w') = (Ret tt, mkWorld b n (wtrace w)) /\
      book_ok t b /\ ob_orders b = spec_timeout (t - ob_timeout (wst w)) (ob_orders (wst w))) t n now
      Hn Ht Hb) as Hw.
    unfold wp in Hw. destruct (RunTimeout w). apply Hw. intros b _ Ho Hok. by exists b.
Qed.

Lemma wp_GetForAsset asset (w : World Node OrderBook)
    (Q : outcome OrderbookForAsset -> World Node OrderBook -> Prop) :
  book_complete (wst w) -> (forall fa, lists_exactly (wst w) asset fa -> Q (Ret fa) w) ->
  wp (GetForAsset asset) Q w.
Proof.
  intros Hc HQ. unfold GetForAsset. apply wp_bind, wp_InternalGetByAsset; [done|].
  intros res Hl Hd. cbn [then_post]. case_bool_decide as He.
  - wp_step. apply HQ. assert (Hno : forall t x, ~ in_book (wst w) asset t x).
    { intros t x Hx. assert (is_Some (ba_assets res !! asset)) as Hs by (apply Hd; eauto).
      rewrite He, lookup_empty in Hs. by destruct Hs. }
    split_and!; cbn; try constructor; try (by intros ?%elem_of_nil); by intros ?%Hno.
  - assert (Hone : forall a, is_Some (ba_assets res !! a) -> a = asset) by (by intros a [<- _]%Hd).
    destruct (map_choose (ba_assets res) He) as (a & fa & Ha).
    assert (a = asset) as -> by (by apply Hone; exists fa).
    assert (Hs : ba_assets res = {[asset := fa]}).
    { apply map_eq. intros a. destruct (decide (a = asset)) as [->|Hne].
      - by rewrite Ha, lookup_singleton_eq.
      - rewrite lookup_singleton_ne by done. apply eq_None_not_Some. intros Hi%Hone. done. }
    wp_step. wp_step; [|by rewrite Hs, map_size_singleton, bool_decide_true in * by done].
    wp_step. wp_step; [|congruence]. simplify_eq. pose proof (Hl asset _ Ha) as Hle.
    wp_step. destruct Hle as [Hfa Hle].
    wp_step; [|by rewrite Hfa in *; cbn in *; rewrite String.eqb_refl in *].
    wp_step. apply HQ. by split.
Qed.

(** C28: the view of one asset always exists and has exactly the orders of that
    asset that are in the book, each with its account and ID, the asks strictly
    ascending and the bids strictly descending by price, account and ID. *)
Theorem GetForAsset_correct asset (w : World Node OrderBook) :
  book_complete (wst w) ->
  exists fa, GetForAsset asset w = (Ret fa, w) /\ lists_exactly (wst w) asset fa.
Proof. intros Hc. by apply wp_returns, wp_GetForAsset. Qed.

(** The view by asset has an entry exactly for the assets with orders in
    the book, and each entry is the view of that asset. *)
Theorem GetByAsset_correct (w : World Node OrderBook) :
  book_complete (wst w) ->
  exists res, GetByAsset w = (Ret res, w) /\
    (forall a fa, ba_assets res !! a = Some fa -> lists_exactly (wst w) a fa) /\
    forall a, is_Some (ba_assets res !! a) <-> exists t x, in_book (wst w) a t x.
Proof.
  intros Hc. apply wp_returns. unfold GetByAsset. apply wp_InternalGetByAsset; [done|].
  intros res Hl Hd. split; [done|]. split; [done|]. intros a. rewrite Hd. tauto.
Qed.

End theorems.

(* ------------------------------------------------------------------ *)
(** ** The theorems at concrete inputs *)

Module OrderBookWitness.
Import Mock.

#[export] Instance steady_fixed : SteadyClock Fixed := fun n => (20, n).

Definition order (t : OrderType) (price : Z) : Order :=
  mkOrder None None (Some "gold") None (Some 5) (Some t) (Some price) None.

Definition update (account : string) (orders : list (Z * Order)) : OrdersOfAccount :=
  mkOrdersOfAccount (Some account) (list_to_map orders).

(** "alice" was updated at time 5, "bob" at time 15, with a timeout of 10. *)
Definition book : OrderBook :=
  mkOrderBook 10 10
    (<["alice" := mkAccountOrders (mkOrdersOfAccount None {[1 := order ASK 7]}) 5]>
    (<["bob" := mkAccountOrders (mkOrdersOfAccount None {[4 := order ASK 6]}) 15]> ∅))
    [mkUpdateEvent "alice" 5; mkUpdateEvent "bob" 15].

Lemma book_is_ok : book_ok 16 book.
Proof.
  assert (He : book_ok 15 (mkOrderBook 10 10
    (<["alice" := mkAccountOrders (mkOrdersOfAccount None {[1 := order ASK 7]}) 5]> ∅)
    [mkUpdateEvent "alice" 5])).
  { apply (book_ok_later 5); [lia|]. apply (book_ok_insert 5 5 (mkOrderBook 10 10 ∅ []) "alice" (mkOrdersOfAccount None {[1 := order ASK 7]}));
      [lia|apply (new_book_ok 5 10)|done|by apply map_Forall_singleton]. }
  unfold book. rewrite insert_insert_ne by done. apply (book_ok_later 15); [lia|].
  refine (book_ok_insert 15 15 _ "bob" (mkOrdersOfAccount None {[4 := order ASK 6]})
    (Z.le_refl _) He _ _); [done|by apply map_Forall_singleton].
Qed.

Definition w0 : World Fixed OrderBook := world_of book fixed.

Lemma book_operations_exact_witness :
  ob_orders (wst (snd (RunTimeout w0))) !! "alice" = None /\
  fst (UpdateBook (update "carol" [(1, with_type None (order BID 3))]) w0) = Fatal.
Proof.
  destruct (book_operations_exact (SteadyClock0 := steady_fixed) (update "carol" [(1, with_type None (order BID 3))]) 16 20 fixed w0
    eq_refl ltac:(lia) book_is_ok) as [Hu (b & Hr & _ & Hb)].
  rewrite bool_decide_false in Hu
    by (intros [_ Hc]; by specialize (Hc 1 (with_type None (order BID 3)) eq_refl)).
  rewrite Hr, Hu. split; [|reflexivity]. cbn [snd wst]. rewrite Hb. reflexivity.
Defined.

Lemma GetForAsset_correct_witness :
  exists fa, GetForAsset "gold" w0 = (Ret fa, w0) /\ lists_exactly book "gold" fa.
Proof. apply (GetForAsset_correct "gold" w0), (bo_complete _ _ book_is_ok). Defined.

Lemma GetByAsset_correct_witness :
  exists res, GetByAsset w0 = (Ret res, w0) /\ is_Some (ba_assets res !! "gold").
Proof.
  destruct (GetByAsset_correct w0 (bo_complete _ _ book_is_ok)) as (res & Hr & _ & Hd).
  exists res. split; [exact Hr|]. apply Hd. exists ASK, (listed "bob" 4 (order ASK 6)).
  exists "bob", (mkAccountOrders (mkOrdersOfAccount None {[4 := order ASK 6]}) 15), 4, (order ASK 6).
  split_and!; reflexivity.
Defined.

End OrderBookWitness.
