(* ===== verification/JsonCodec.v ===== *)
(** * Conversion between messages and JSON

    The templates of [src/src/json.cpp], which the JSON-RPC interface reads
    and writes orders, order books and trades with.  The specialisations of
    [ProtoToJson] are the instances of the class of the same name. *)

From Stdlib Require Import ZArith Lia String.
From stdpp Require Import base gmap strings list sorting.
From S2P Require Import Prelude Json Proto Effects Mock.

(** [template <> Json::Value ProtoToJson<P> (const P&)]. *)
Class ProtoToJson `{JsonLib} (P : Type) := proto_to_json : P -> outcome Json.

Section codec.
Context `{JsonLib} `{!ProtoRuntime}.

(** Conversion to the signed JSON integer. *)
Definition IntToJson (val : Z) : Json := jint (s64 val).

Definition OrderTypeToJson (t : OrderType) : Json :=
  match t with ASK => jstr "ask" | BID => jstr "bid" end.

(** A member that is only written if the field is there. *)
Definition jset_opt {A} (k : string) (f : A -> Json) (o : option A) (v : Json) : Json :=
  match o with Some a => jset v k (f a) | None => v end.

Definition OrderToJson (pb : Order) : outcome Json :=
  let res := jset_opt "account" jstr (o_account pb) jobject in
  let res := jset_opt "id" IntToJson (o_id pb) res in
  let res := jset_opt "asset" jstr (o_asset pb) res in
  let res := jset res "min_units"
    (match o_min_units pb with Some n => IntToJson n | None => IntToJson 1 end) in
  checked (Z.max 1 (s64 (min_units_of pb)) <=? max_units_of pb);;
  let res := jset res "max_units" (IntToJson (max_units_of pb)) in
  let res := jset res "price_sat" (IntToJson (price_sat_of pb)) in
  let res := jset_opt "type" OrderTypeToJson (o_type pb) res in
  mret (if locked_of pb then jset res "locked" (jbool true) else res).

#[export] Instance order_to_json : ProtoToJson Order := OrderToJson.

(** An optional member of the given type; the outer [None] is the return
    value false. *)
Definition read_opt {A} (val : Json) (k : string) (is_a : Json -> bool) (as_a : Json -> option A)
  : outcome (option (option A)) :=
  if is_member val k then
    v ← json_value (jget val k);
    if negb (is_a v) then mret None
    else a ← json_value (as_a v); mret (Some (Some a))
  else mret (Some None).

(** A member that must be there. *)
Definition read_uint64 (val : Json) (k : string) : outcome (option Z) :=
  v ← json_value (jget val k);
  if negb (is_uint64 v) then mret None
  else n ← json_value (as_uint64 v); mret (Some n).

Definition read_type (s : option string) : option (option OrderType) :=
  match s with
  | None => Some None
  | Some s => if String.eqb s "bid" then Some (Some BID)
              else if String.eqb s "ask" then Some (Some ASK) else None
  end.

(** [if (!...) return false] in front of the rest. *)
Definition or_false {A B} (m : outcome (option A)) (f : A -> outcome (option B))
  : outcome (option B) :=
  r ← m; match r with Some a => f a | None => mret None end.

(** [ProtoFromJson<proto::Order>]; [None] is the return value false. *)
Definition OrderFromJson (val : Json) : outcome (option Order) :=
  if negb (is_object val) then mret None
  else
    or_false (read_opt val "account" is_string as_string) (fun account =>
    or_false (read_opt val "id" is_uint64 as_uint64) (fun id =>
    or_false (read_opt val "asset" is_string as_string) (fun asset =>
    or_false (read_opt val "min_units" is_uint64 as_uint64) (fun min_units =>
    or_false (read_uint64 val "max_units") (fun max_units =>
    or_false (read_uint64 val "price_sat") (fun price_sat =>
    or_false (read_opt val "type" is_string as_string) (fun type =>
    mret (t ← read_type type;
          Some (mkOrder account id asset min_units (Some max_units) t (Some price_sat) None))))))))).

(** The orders by ID: [std::map<uint64_t, Json::Value>]. *)
Definition id_not_after (a b : Z * Order) : Prop := a.1 <= b.1.
#[export] Instance id_not_after_dec a b : Decision (id_not_after a b) := decide (a.1 <= b.1).

Fixpoint append_orders (l : list (Z * Order)) (orders : Json) : outcome Json :=
  match l with
  | [] => mret orders
  | (id, o) :: l' =>
      cur ← proto_to_json o;
      append_orders l' (jappend orders (jset (jremove cur "account") "id" (IntToJson id)))
  end.

Definition OrdersOfAccountToJson (pb : OrdersOfAccount) : outcome Json :=
  orders ← append_orders (merge_sort id_not_after (iter (oa_orders pb))) jarray;
  mret (jset (jset jobject "account" (jstr (default "" (oa_account pb)))) "orders" orders).

#[export] Instance orders_of_account_to_json : ProtoToJson OrdersOfAccount :=
  OrdersOfAccountToJson.

Fixpoint append_side (l : list Order) (res : Json) : outcome Json :=
  match l with
  | [] => mret res
  | o :: l' =>
      cur ← proto_to_json o;
      append_side l' (jappend res (jremove (jremove cur "asset") "type"))
  end.

Definition OrderbookSideToJson (orders : list Order) : outcome Json :=
  append_side orders jarray.

Definition OrderbookForAssetToJson (pb : OrderbookForAsset) : outcome Json :=
  let res := jset jobject "asset" (jstr (default "" (fa_asset pb))) in
  bids ← OrderbookSideToJson (fa_bids pb);
  let res := jset res "bids" bids in
  asks ← OrderbookSideToJson (fa_asks pb);
  mret (jset res "asks" asks).

#[export] Instance orderbook_for_asset_to_json : ProtoToJson OrderbookForAsset :=
  OrderbookForAssetToJson.

Fixpoint set_assets (l : list (string * OrderbookForAsset)) (res : Json) : outcome Json :=
  match l with
  | [] => mret res
  | (asset, fa) :: l' =>
      cur ← proto_to_json fa;
      set_assets l' (jset res asset (jset cur "asset" (jstr asset)))
  end.

Definition OrderbookByAssetToJson (pb : OrderbookByAsset) : outcome Json :=
  set_assets (iter (ba_assets pb)) jobject.

#[export] Instance orderbook_by_asset_to_json : ProtoToJson OrderbookByAsset :=
  OrderbookByAssetToJson.

Definition status_name (st : TradeStatus) : string :=
  match st with
  | INITIATED => "initiated" | PENDING => "pending" | SUCCESS => "success"
  | FAILED => "failed" | ABANDONED => "abandoned"
  end.

Definition role_name (r : Role) : string :=
  match r with MAKER => "maker" | TAKER => "taker" end.

Definition TradeToJson (pb : TradeInfo) : outcome Json :=
  let res := jset jobject "start_time" (IntToJson (default 0 (ti_start_time pb))) in
  let res := jset res "counterparty" (jstr (default "" (ti_counterparty pb))) in
  let res := jset res "type" (OrderTypeToJson (default ASK (ti_type pb))) in
  let res := jset res "asset" (jstr (default "" (ti_asset pb))) in
  let res := jset res "units" (IntToJson (default 0 (ti_units pb))) in
  let res := jset res "price_sat" (IntToJson (default 0 (ti_price_sat pb))) in
  let res := jset res "state" (jstr (status_name (default INITIATED (ti_state pb)))) in
  let res := jset res "role" (jstr (role_name (default MAKER (ti_role pb)))) in
  mret res.

#[export] Instance trade_to_json : ProtoToJson TradeInfo := TradeToJson.

End codec.

(* ------------------------------------------------------------------ *)
(** ** Reading what was written *)

Section lemmas.
Context `{JsonLib} `{!JsonLaws}.

Lemma is_object_jset_opt {A} k (f : A -> Json) o v :
  is_object v = true -> is_object (jset_opt k f o v) = true.
Proof. destruct o; cbn; auto with dem. Qed.

Lemma jget_jset_opt_eq {A} k (f : A -> Json) a v :
  is_object v = true -> jget (jset_opt k f (Some a) v) k = Some (f a).
Proof. apply jget_jset_eq. Qed.

Lemma jget_jset_opt_ne {A} k k' (f : A -> Json) o v :
  is_object v = true -> k <> k' -> jget (jset_opt k f o v) k' = jget v k'.
Proof. destruct o; [apply jget_jset_ne|done]. Qed.

Lemma is_member_jset_opt_eq {A} k (f : A -> Json) o v :
  is_object v = true -> is_member (jset_opt k f o v) k = has o || is_member v k.
Proof. destruct o; [apply is_member_jset_eq|done]. Qed.

Lemma is_member_jset_opt_ne {A} k k' (f : A -> Json) o v :
  is_object v = true -> k <> k' -> is_member (jset_opt k f o v) k' = is_member v k'.
Proof. destruct o; [apply is_member_jset_ne|done]. Qed.

(** The optional member [k] of [val] is what was written from [o]. *)
Definition written {A} (val : Json) (k : string) (f : A -> Json) (o : option A) : Prop :=
  is_member val k = has o /\ forall a, o = Some a -> jget val k = Some (f a).

Lemma read_opt_written {A} val k f (o : option A) is_a as_a :
  written val k f o -> (forall a, o = Some a -> is_a (f a) = true /\ as_a (f a) = Some a) ->
  read_opt val k is_a as_a = Ret (Some o).
Proof.
  intros [Hm Hg] Hf. unfold read_opt. rewrite Hm. destruct o as [a|]; [|done].
  destruct (Hf a eq_refl) as [Hi Ha]. rewrite (Hg a eq_refl). cbn. rewrite Hi. cbn. by rewrite Ha.
Qed.

Lemma written_jset {A} val k f (a : A) v :
  is_object v = true -> val = jset v k (f a) -> written val k f (Some a).
Proof.
  intros Hv ->. split; [by rewrite is_member_jset_eq|]. intros ? [= <-]. by rewrite jget_jset_eq.
Qed.

Lemma written_jset_opt {A} k f (o : option A) v :
  is_object v = true -> is_member v k = false -> written (jset_opt k f o v) k f o.
Proof.
  intros Hv Hm. split; [rewrite is_member_jset_opt_eq, Hm by done; apply orb_false_r|].
  intros a ->. by rewrite jget_jset_opt_eq.
Qed.

Lemma written_jset_ne {A B} val k k' (f : A -> Json) (x : B -> Json) b o :
  is_object val = true -> k' <> k -> written val k f o -> written (jset val k' (x b)) k f o.
Proof.
  intros Hv Hk [Hm Hg]. split; [by rewrite is_member_jset_ne|]. intros a Ha. rewrite jget_jset_ne; auto.
Qed.

Lemma written_jset_opt_ne {A B} val k k' (f : A -> Json) (x : B -> Json) b o :
  is_object val = true -> k' <> k -> written val k f o -> written (jset_opt k' x b val) k f o.
Proof. destruct b; [apply written_jset_ne|done]. Qed.

(** Numbers that survive the signed conversion. *)
Definition small (n : Z) : Prop := 0 <= n < two63.

Lemma small_json n : small n -> is_uint64 (IntToJson n) = true /\ as_uint64 (IntToJson n) = Some n.
Proof.
  intros Hn. unfold IntToJson. rewrite s64_small by done. unfold small in Hn. split.
  - rewrite is_uint64_jint by (unfold is_s64; lia). apply Z.leb_le. lia.
  - by apply as_uint64_jint.
Qed.

Lemma string_json s : is_string (jstr s) = true /\ as_string (jstr s) = Some s.
Proof. split; [apply is_string_jstr|apply as_string_jstr]. Qed.

Lemma read_type_written t : read_type (Some (match t with ASK => "ask" | BID => "bid" end)) = Some (Some t).
Proof. by destruct t. Qed.

End lemmas.

(** Objects built by the conversions. *)
Ltac codec_object :=
  repeat first [ done | apply is_object_jset | apply is_object_jset_opt | apply is_object_jobject ].

(** Find the member among the later ones. *)
Ltac codec_written :=
  repeat first [ apply written_jset_ne; [codec_object|done|]
               | apply written_jset_opt_ne; [codec_object|done|] ].

Ltac codec_fresh :=
  repeat first [ rewrite is_member_jset_ne by (try done; codec_object)
               | rewrite is_member_jset_opt_ne by (try done; codec_object) ];
  apply is_member_jobject.

Section theorems.
Context `{JsonLib} `{!JsonLaws}.

Definition small_opt (o : option Z) : Prop := forall n, o = Some n -> small n.

(** The numbers of the order are below 2^63. *)
Definition small_order (o : Order) : Prop :=
  small_opt (o_id o) /\ small_opt (o_min_units o) /\ small_opt (o_max_units o) /\
  small_opt (o_price_sat o).

(** What the JSON form keeps of an order. *)
Definition normalised (o : Order) : Order :=
  mkOrder (o_account o) (o_id o) (o_asset o) (Some (default 1 (o_min_units o)))
    (Some (max_units_of o)) (o_type o) (Some (price_sat_of o)) None.

Definition type_name (t : OrderType) : string := match t with ASK => "ask" | BID => "bid" end.

Lemma small_default o : small_opt o -> small (default 0 o).
Proof. intros Ho. destruct o as [n|]; [by apply Ho|]. unfold small, two63. cbn. lia. Qed.

Lemma OrderToJson_written o v :
  OrderToJson o = Ret v ->
  is_object v = true /\ written v "account" jstr (o_account o) /\
  written v "id" IntToJson (o_id o) /\ written v "asset" jstr (o_asset o) /\
  written v "min_units" IntToJson (Some (default 1 (o_min_units o))) /\
  written v "max_units" IntToJson (Some (max_units_of o)) /\
  written v "price_sat" IntToJson (Some (price_sat_of o)) /\
  written v "type" jstr (type_name <$> o_type o).
Proof.
  unfold OrderToJson. destruct (checked _); cbn [mbind outcome_bind]; [|done..]. intros [= <-].
  match goal with |- context [if locked_of o then jset ?r "locked" _ else _] =>
    replace (if locked_of o then jset r "locked" (jbool true) else r)
      with (jset_opt "locked" jbool (if locked_of o then Some true else None) r)
      by (by destruct (locked_of o)) end.
  replace (match o_min_units o with Some n => IntToJson n | None => IntToJson 1 end)
    with (IntToJson (default 1 (o_min_units o))) by (by destruct (o_min_units o)).
  split_and!; [codec_object|codec_written..].
  - apply written_jset_opt; [codec_object|codec_fresh].
  - apply written_jset_opt; [codec_object|codec_fresh].
  - apply written_jset_opt; [codec_object|codec_fresh].
  - eapply written_jset; [|done]. codec_object.
  - eapply written_jset; [|done]. codec_object.
  - eapply written_jset; [|done]. codec_object.
  - replace (jset_opt "type" OrderTypeToJson (o_type o)) with (jset_opt "type" jstr (type_name <$> o_type o))
      by (by destruct (o_type o) as [[]|]).
    apply written_jset_opt; [codec_object|codec_fresh].
Qed.

Lemma read_uint64_written val k n :
  written val k IntToJson (Some n) -> small n -> read_uint64 val k = Ret (Some n).
Proof.
  intros [_ Hg] Hn. unfold read_uint64. rewrite (Hg n eq_refl).
  destruct (small_json n Hn) as [H1 H2]. cbn. rewrite H1. cbn. by rewrite H2.
Qed.

(** C29: an order survives the conversion to JSON and back: when its numbers
    are below 2^63 and its maximum is at least one and at least its minimum,
    writing does not abort, and reading gives the same order, with an absent
    minimum read as one and without the lock. *)
Theorem order_json_roundtrip o :
  small_order o -> Z.max 1 (min_units_of o) <= max_units_of o ->
  exists v, OrderToJson o = Ret v /\ OrderFromJson v = Ret (Some (normalised o)).
Proof.
  intros (Hid & Hmin & Hmax & Hpr) Hle.
  assert (Hv : exists v, OrderToJson o = Ret v).
  { unfold OrderToJson. rewrite s64_small by (by apply small_default).
    rewrite (proj2 (Z.leb_le _ _)) by done. by eexists. }
  destruct Hv as [v Hv]. exists v. split; [done|].
  apply OrderToJson_written in Hv as (Ho & Hac & Hi & Has & Hmi & Hma & Hp & Ht).
  unfold OrderFromJson, or_false. rewrite Ho. cbn [negb].
  rewrite (read_opt_written _ _ _ _ _ _ Hac) by (intros; apply string_json). cbn [mbind outcome_bind].
  rewrite (read_opt_written _ _ _ _ _ _ Hi) by (intros n Hn; by apply small_json, Hid). cbn [mbind outcome_bind].
  rewrite (read_opt_written _ _ _ _ _ _ Has) by (intros; apply string_json). cbn [mbind outcome_bind].
  rewrite (read_opt_written _ _ _ _ _ _ Hmi).
  2: { intros n [= <-]. apply small_json. destruct (o_min_units o); [by apply Hmin|].
       unfold small, two63. cbn. lia. }
  cbn [mbind outcome_bind].
  rewrite (read_uint64_written _ _ _ Hma) by (by apply small_default). cbn [mbind outcome_bind].
  rewrite (read_uint64_written _ _ _ Hp) by (by apply small_default). cbn [mbind outcome_bind].
  rewrite (read_opt_written _ _ _ _ _ _ Ht) by (intros; apply string_json). cbn [mbind outcome_bind].
  unfold normalised. by destruct (o_type o) as [[]|].
Qed.

(** An order as it can come out of JSON. *)
Definition from_json_ok (o : Order) : Prop :=
  o_locked o = None /\ (exists n, o_max_units o = Some n /\ is_u64 n) /\
  (exists n, o_price_sat o = Some n /\ is_u64 n) /\
  (forall n, o_id o = Some n -> is_u64 n) /\ (forall n, o_min_units o = Some n -> is_u64 n).

Lemma read_opt_total {A} val k is_a (as_a : Json -> option A) :
  is_object val = true -> (forall v, is_a v = true -> is_Some (as_a v)) ->
  exists r, read_opt val k is_a as_a = Ret r /\
    forall a, r = Some (Some a) -> exists v, is_a v = true /\ as_a v = Some a.
Proof.
  intros Hv Ha. unfold read_opt. destruct (is_member val k); [|by eexists].
  destruct (jget_object val k Hv) as [x ->]. cbn. destruct (is_a x) eqn:Hx; cbn; [|by eexists].
  destruct (Ha x Hx) as [a Hax]. rewrite Hax. cbn. eexists. split; [done|].
  intros b [= <-]. by exists x.
Qed.

Lemma read_uint64_total val k :
  is_object val = true -> exists r, read_uint64 val k = Ret r /\ forall n, r = Some n -> is_u64 n.
Proof.
  intros Hv. unfold read_uint64. destruct (jget_object val k Hv) as [x ->]. cbn.
  destruct (is_uint64 x) eqn:Hx; cbn; [|by eexists].
  destruct (is_uint64_spec x Hx) as (n & -> & Hn). cbn. eexists. split; [done|]. by intros m [= <-].
Qed.

Lemma or_false_total {A B} (m : outcome (option A)) (f : A -> outcome (option B))
    (P : A -> Prop) (R : outcome (option B) -> Prop) :
  (exists r, m = Ret r /\ forall a, r = Some a -> P a) -> R (Ret None) ->
  (forall a, P a -> R (f a)) -> R (or_false m f).
Proof.
  intros (r & -> & Hp) Hn Hf. unfold or_false. cbn. destruct r; [|done]. by apply Hf, Hp.
Qed.

(** Reading an order from JSON is safe on any value: it never throws or
    aborts, and an order it accepts has a maximum and a price, all its numbers
    fit 64 bits, and it is not locked. *)
Theorem OrderFromJson_safe v :
  exists r, OrderFromJson v = Ret r /\ forall o, r = Some o -> from_json_ok o.
Proof.
  unfold OrderFromJson. destruct (is_object v) eqn:Hv; cbn [negb]; [|by exists None].
  pose proof (fun k => read_opt_total v k is_string as_string Hv (fun v => is_string_spec v)) as Hs.
  assert (Hu : forall k, exists r, read_opt v k is_uint64 as_uint64 = Ret r /\
    forall a, r = Some a -> forall n, a = Some n -> is_u64 n).
  { intros k. destruct (read_opt_total v k is_uint64 as_uint64 Hv) as (r & Hr & Hn).
    { intros x Hx. destruct (is_uint64_spec x Hx) as (n & -> & _). by eexists. }
    exists r. split; [done|]. intros a -> n ->. destruct (Hn n eq_refl) as (x & Hx & Hxn).
    destruct (is_uint64_spec x Hx) as (m & Hm & ?). by simplify_eq. }
  assert (Hs' : forall k, exists r, read_opt v k is_string as_string = Ret r /\
    forall a : option string, r = Some a -> True).
  { intros k. destruct (Hs k) as (r & Hr & _). by exists r. }
  pose proof (fun k => read_uint64_total v k Hv) as Hn.
  set (R := fun x : outcome (option Order) => exists r, x = Ret r /\ forall o, r = Some o -> from_json_ok o).
  lazymatch goal with |- exists r, ?m = Ret r /\ _ => change (R m) end.
  assert (HN : R (Ret None)) by (by exists None).
  apply (or_false_total _ _ _ R (Hs' "account") HN). intros account _.
  apply (or_false_total _ _ _ R (Hu "id") HN). intros id Hid.
  apply (or_false_total _ _ _ R (Hs' "asset") HN). intros asset _.
  apply (or_false_total _ _ _ R (Hu "min_units") HN). intros mn Hmn.
  apply (or_false_total _ _ _ R (Hn "max_units") HN). intros mx Hmx.
  apply (or_false_total _ _ _ R (Hn "price_sat") HN). intros pr Hpr.
  apply (or_false_total _ _ _ R (Hs' "type") HN). intros ty _.
  eexists. split; [done|]. destruct (read_type ty) as [t|]; cbn; [|done].
  intros o [= <-]. split_and!; cbn; eauto.
Qed.

End theorems.

(* ------------------------------------------------------------------ *)
(** ** The theorems at concrete inputs *)

Module JsonCodecWitness.
Import Mock.

Definition order : Order :=
  mkOrder (Some "alice") (Some 7) (Some "gold") None (Some 5) (Some BID) (Some 9) (Some true).

Lemma order_json_roundtrip_witness :
  exists v, OrderToJson order = Ret v /\ OrderFromJson v = Ret (Some (normalised order)).
Proof.
  apply (order_json_roundtrip order).
  - repeat split; cbn in *; simplify_eq; unfold two63; lia.
  - cbn. lia.
Defined.

Definition request : Json := obj [("max_units", jint 5); ("price_sat", jint 9); ("type", jstr "bid")].

Lemma OrderFromJson_safe_witness :
  exists r, OrderFromJson request = Ret r /\ forall o, r = Some o -> from_json_ok o.
Proof. exact (OrderFromJson_safe request). Defined.

End JsonCodecWitness.
