(* ===== verification/MucClient.v ===== *)
(** * The XMPP client

    Stanza extensions ([src/src/private/stanzas.hpp], [stanzas.tpp]) and the
    class [MucClient] of [src/src/mucclient.cpp]: the room, the map from
    nicknames in the room to JIDs, the messages sent, and the handlers that
    gloox calls from its own thread.  The connection itself is Charon's
    [XmppClient], an interface here; what the other threads do while
    [Connect] waits is one more operation of it. *)

From Stdlib Require Import ZArith Lia String.
From stdpp Require Import base gmap strings list.
From S2P Require Import Prelude Json Proto Effects Mock Authenticator.

(** ** Stanza extensions *)

(** Serialisation of a message into an XML tag, by protobuf and Charon. *)
Class TagCodec (P : Type) := {
  Tag : Type;
  EncodeXmlPayload : P -> Tag;
  DecodeXmlPayload : Tag -> option P;
  default_proto : P
}.

Record ProtoStanza (P : Type) := mkProtoStanza {
  data : P;
  valid : bool
}.
Arguments mkProtoStanza {P} _ _.
Arguments data {P} _.
Arguments valid {P} _.

Section stanzas.
Context {P : Type} `{!TagCodec P}.

Definition empty_stanza : ProtoStanza P := mkProtoStanza default_proto false.
Definition stanza_of (d : P) : ProtoStanza P := mkProtoStanza d true.
Definition newInstance (t : Tag) : ProtoStanza P :=
  match DecodeXmlPayload t with
  | Some d => mkProtoStanza d true
  | None => empty_stanza
  end.
Definition clone (s : ProtoStanza P) : ProtoStanza P := mkProtoStanza (data s) (valid s).
Definition tag (s : ProtoStanza P) : outcome Tag :=
  checked (valid s);; mret (EncodeXmlPayload (data s)).

End stanzas.

(** An extension of a message that is sent. *)
Inductive Extension :=
| AccountOrdersStanza (d : OrdersOfAccount)
| ProcessingMessageStanza (d : ProcessingMessage).

(** ** The interface of gloox and Charon *)

Class RoomJidLib `{JidLib} := {
  jid_resource : JID -> string;
  jid_bareJID : JID -> JID;
  jid_eqb : JID -> JID -> bool
}.

(** The part of a received message that is read: the sender, and the
    extension of each type, if there is one. *)
Record Stanza `{JidLib} := mkStanza {
  from : JID;
  ext_orders : option (ProtoStanza OrdersOfAccount);
  ext_processing : option (ProtoStanza ProcessingMessage)
}.

Inductive Outgoing `{JidLib} :=
| Groupchat (room : JID) (ext : list Extension)
| Direct (to : JID) (ext : list Extension).

(** [charon::XmppClient]. *)
Class XmppClient (Node : Type) := {
  XmppConnect : Node -> bool * Node;
  XmppDisconnect : Node -> Node;
  XmppIsConnected : Node -> bool * Node
}.

(** A presence of a room participant: nickname, full JID, new nickname, the
    two flags, and whether it is of type unavailable. *)
Record Participant `{JidLib} := mkParticipant {
  p_nick : JID;
  p_jid : option JID;
  p_newNick : string;
  p_self : bool;
  p_nickChanged : bool
}.

(** ** State and operations *)

(** [disconnecter]: the thread of that name has been started and has yet to
    run; what a finished one leaves to be joined makes no difference. *)
Record Muc `{JidLib} := mkMuc {
  roomName : JID;
  room : option Z;
  disconnecting : bool;
  disconnecter : bool;
  joining : bool;
  nickToJid : gmap string JID;
  outbox : list Outgoing
}.

Arguments mkStanza {_} _ _ _.
Arguments from {_} _.
Arguments ext_orders {_} _.
Arguments ext_processing {_} _.
Arguments mkParticipant {_} _ _ _ _ _.
Arguments p_nick {_} _.
Arguments p_jid {_} _.
Arguments p_newNick {_} _.
Arguments p_self {_} _.
Arguments p_nickChanged {_} _.
Arguments mkMuc {_} _ _ _ _ _ _ _.
Arguments roomName {_} _.
Arguments room {_} _.
Arguments disconnecting {_} _.
Arguments disconnecter {_} _.
Arguments joining {_} _.
Arguments nickToJid {_} _.
Arguments outbox {_} _.

Section fields.
Context `{JidLib}.
Definition with_room (r : option Z) (m : Muc) : Muc :=
  mkMuc (roomName m) r (disconnecting m) (disconnecter m) (joining m) (nickToJid m) (outbox m).
Definition with_disconnecting (b : bool) (m : Muc) : Muc :=
  mkMuc (roomName m) (room m) b (disconnecter m) (joining m) (nickToJid m) (outbox m).
Definition with_disconnecter (b : bool) (m : Muc) : Muc :=
  mkMuc (roomName m) (room m) (disconnecting m) b (joining m) (nickToJid m) (outbox m).
Definition with_joining (b : bool) (m : Muc) : Muc :=
  mkMuc (roomName m) (room m) (disconnecting m) (disconnecter m) b (nickToJid m) (outbox m).
Definition with_nicks (n : gmap string JID) (m : Muc) : Muc :=
  mkMuc (roomName m) (room m) (disconnecting m) (disconnecter m) (joining m) n (outbox m).
Definition with_outbox (l : list Outgoing) (m : Muc) : Muc :=
  mkMuc (roomName m) (room m) (disconnecting m) (disconnecter m) (joining m) (nickToJid m) l.
End fields.

(** The client as part of the state of a process. *)
Class HasMuc `{JidLib} (S : Type) := {
  muc : S -> Muc;
  set_muc : Muc -> S -> S
}.

Class HasMucLaws `{HasMuc} : Prop := {
  muc_set m s : muc (set_muc m s) = m;
  set_muc_muc s : set_muc (muc s) s = s;
  set_muc_set m m' s : set_muc m (set_muc m' s) = set_muc m s
}.

(** The virtual handlers, and what the other threads do until a join ends. *)
Class MucHooks `{JsonLib} `{JidLib} (Node S : Type) := {
  HandleMessage : JID -> Stanza -> M Node S unit;
  HandlePrivate : JID -> Stanza -> M Node S unit;
  HandleDisconnect : JID -> M Node S unit;
  until_joined : M Node S unit
}.

Section operations.
Context `{JsonLib} `{!JidLib} `{!RoomJidLib} {Node S : Type} `{!XmppClient Node} `{!HasMuc S}
  `{!MucHooks Node S}.

Definition in_muc {A} (m : M Node Muc A) : M Node S A := zoom muc set_muc m.
Definition read_muc {A} (f : Muc -> A) : M Node S A := fun w => (Ret (f (muc (wst w))), w).

(** The constructor leaves the two flags as they happen to be. *)
Definition new_Muc (disc join : bool) (rm : JID) : Muc := mkMuc rm None disc false join ∅ [].

Definition is_connected : M Node S bool := fun w =>
  let '(b, n) := XmppIsConnected (wnode w) in (Ret b, mkWorld (wst w) n (wtrace w)).
Definition xmpp_disconnect : M Node S unit := fun w =>
  (Ret tt, mkWorld (wst w) (XmppDisconnect (wnode w)) (wtrace w)).
Definition xmpp_connect : M Node S bool := fun w =>
  let '(b, n) := XmppConnect (wnode w) in (Ret b, mkWorld (wst w) n (wtrace w)).

(** [disconnecting] is read first; the connection only if it is not set. *)
Definition IsConnected : M Node S bool :=
  d ← read_muc disconnecting;
  if d : bool then mret false else is_connected.

(** What the disconnecter thread does. *)
Definition disconnect_worker : M Node S unit :=
  xmpp_disconnect;;
  in_muc (modify (with_room None));;
  in_muc (modify (with_disconnecting false)).

(** [disconnecter.join]: a thread that is still running finishes first. *)
Definition join_disconnecter : M Node S unit :=
  d ← read_muc disconnecter;
  if d : bool then disconnect_worker;; in_muc (modify (with_disconnecter false)) else mret tt.

(** Starts the disconnecter; the thread runs [disconnect_worker] later. *)
Definition DisconnectAsync : M Node S unit :=
  d ← read_muc disconnecting;
  if d : bool then mret tt
  else
    join_disconnecter;;
    in_muc (modify (with_nicks ∅));;
    in_muc (modify (with_disconnecting true));;
    in_muc (modify (with_disconnecter true)).

Definition Disconnect : M Node S unit :=
  DisconnectAsync;;
  join_disconnecter;;
  d ← read_muc disconnecting;
  check (negb d);;
  r ← read_muc room;
  check (negb (has r));;
  c ← is_connected;
  check (negb c).

(** The destructor. *)
Definition destroy_MucClient : M Node S unit :=
  Disconnect;;
  r ← read_muc room;
  check (negb (has r)).

(** [handle] is the address of the new room object. *)
Definition Connect (handle : Z) : M Node S bool :=
  join_disconnecter;;
  in_muc (modify (with_disconnecting false));;
  ok ← xmpp_connect;
  if negb ok then mret false
  else
    in_muc (modify (with_nicks ∅));;
    r ← read_muc room;
    check (negb (has r));;
    in_muc (modify (with_joining true));;
    in_muc (modify (with_room (Some handle)));;
    until_joined;;
    IsConnected.

Definition ResolveNickname (nick : string) : M Node S (option JID) :=
  read_muc (fun m => nickToJid m !! nick).

Definition send (msg : Outgoing) : M Node S unit :=
  c ← IsConnected;
  check c;;
  in_muc (modify (fun m => with_outbox (outbox m ++ [msg]) m)).

Definition PublishMessage (ext : list Extension) : M Node S unit :=
  rm ← read_muc roomName;
  send (Groupchat rm ext).

Definition SendMessage (to : JID) (ext : list Extension) : M Node S unit :=
  send (Direct to ext).

Definition room_is (r : Z) : M Node S unit :=
  h ← read_muc room;
  check (bool_decide (h = Some r)).

Definition handleMUCRoomCreation (r : Z) : M Node S bool := room_is r;; mret true.

Definition joined : M Node S unit :=
  in_muc (modify (fun m => if joining m then with_joining false m else m)).

Definition handleMUCParticipantPresence (r : Z) (p : Participant) (presence_unavailable : bool)
  : M Node S unit :=
  room_is r;;
  let unavailable := if p_nickChanged p then false else presence_unavailable in
  if p_self p then
    (if unavailable then DisconnectAsync else mret tt);;
    joined
  else if unavailable then
    in_muc (modify (fun m => with_nicks (delete (jid_resource (p_nick p)) (nickToJid m)) m));;
    match p_jid p with Some jid => HandleDisconnect jid | None => mret tt end
  else
    match p_jid p with
    | None => mret tt
    | Some jid =>
        nick ← (if p_nickChanged p then
                  in_muc (modify (fun m => with_nicks (delete (jid_resource (p_nick p)) (nickToJid m)) m));;
                  mret (p_newNick p)
                else mret (jid_resource (p_nick p)));
        check (negb (String.eqb nick ""));;
        in_muc (modify (fun m => with_nicks (<[nick := jid]> (nickToJid m)) m))
    end.

Definition handleMUCMessage (r : Z) (msg : Stanza) (priv : bool) : M Node S unit :=
  room_is r;;
  if priv then mret tt
  else
    rm ← read_muc roomName;
    check (jid_eqb (jid_bareJID (from msg)) rm);;
    real ← ResolveNickname (jid_resource (from msg));
    match real with
    | Some realJid => HandleMessage realJid msg
    | None => mret tt
    end.

Definition handleMUCError (r : Z) : M Node S unit :=
  room_is r;;
  DisconnectAsync;;
  joined.

Definition handleMessage (msg : Stanza) : M Node S unit := HandlePrivate (from msg) msg.

End operations.

(* ------------------------------------------------------------------ *)
(** ** Who a room message is from *)

(** The handler for participants that leave keeps the client as it is. *)
Class MucHooksLaws `{JsonLib} `{!JidLib} {Node S : Type} `{!HasMuc S} `{!MucHooks Node S} : Prop :=
  handle_disconnect_keeps : forall jid (w : World Node S),
    wp (HandleDisconnect jid) (fun _ w' => muc (wst w') = muc (wst w)) w.

Section attribution.
Context `{JsonLib} `{!JidLib} `{!RoomJidLib} {Node S : Type} `{!XmppClient Node} `{!HasMuc S}
  `{!HasMucLaws} `{!MucHooks Node S} `{!MucHooksLaws}.

(** The presences received in one session. *)
Fixpoint presences (r : Z) (l : list (Participant * bool)) : M Node S unit :=
  match l with
  | [] => mret tt
  | (p, unavailable) :: l' => handleMUCParticipantPresence r p unavailable;; presences r l'
  end.

(** We are removed from the room. *)
Definition ends_session (e : Participant * bool) : bool :=
  p_self e.1 && e.2 && negb (p_nickChanged e.1).

(** What a presence says about a nickname: nothing, that nobody has it any
    more, or who has it. *)
Definition says (nick : string) (e : Participant * bool) : option (option JID) :=
  let p := e.1 in
  if p_self p then None
  else if negb (p_nickChanged p) && e.2 then
    if String.eqb (jid_resource (p_nick p)) nick then Some None else None
  else
    match p_jid p with
    | None => None
    | Some jid =>
        if String.eqb (if p_nickChanged p then p_newNick p else jid_resource (p_nick p)) nick
        then Some (Some jid)
        else if p_nickChanged p && String.eqb (jid_resource (p_nick p)) nick then Some None
        else None
    end.

(** The latest word on a nickname. *)
Definition owner (nick : string) (l : list (Participant * bool)) (before : option JID) : option JID :=
  default before (last (omap (says nick) l)).

Definition read_nick (nick : string) (w : World Node S) : option JID := nickToJid (muc (wst w)) !! nick.

Lemma wp_in_muc_modify f (Q : outcome unit -> World Node S -> Prop) w :
  Q (Ret tt) (mkWorld (set_muc (f (muc (wst w))) (wst w)) (wnode w) (wtrace w)) ->
  wp (in_muc (modify f)) Q w.
Proof. done. Qed.

Lemma wp_read_muc {A} (f : Muc -> A) (Q : outcome A -> World Node S -> Prop) w :
  Q (Ret (f (muc (wst w)))) w -> wp (read_muc f) Q w.
Proof. done. Qed.

Lemma wp_room_is r (Q : outcome unit -> World Node S -> Prop) w :
  (room (muc (wst w)) = Some r -> Q (Ret tt) w) -> (room (muc (wst w)) <> Some r -> Q Fatal w) ->
  wp (room_is r) Q w.
Proof.
  intros Hyes Hno. unfold room_is. apply wp_bind, wp_read_muc. cbn [then_post].
  wp_step; [by apply Hyes; case_bool_decide|by apply Hno; case_bool_decide].
Qed.

Lemma wp_joined (Q : outcome unit -> World Node S -> Prop) w :
  (forall s', nickToJid (muc s') = nickToJid (muc (wst w)) -> room (muc s') = room (muc (wst w)) ->
     Q (Ret tt) (mkWorld s' (wnode w) (wtrace w))) -> wp joined Q w.
Proof.
  intros HQ. unfold joined. apply wp_in_muc_modify, HQ; rewrite muc_set; by destruct (joining _).
Qed.

(** One presence: nobody else's nickname changes. *)
Lemma wp_presence r e (w : World Node S) :
  ends_session e = false ->
  wp (handleMUCParticipantPresence r e.1 e.2)
    (fun o w' => o = Ret tt -> room (muc (wst w')) = room (muc (wst w)) /\
       forall nick, read_nick nick w' = default (read_nick nick w) (says nick e)) w.
Proof.
  destruct e as [p u]. unfold ends_session, says, handleMUCParticipantPresence. cbn [fst snd].
  intros He. apply wp_bind, wp_room_is; [|done]. intros Hr. cbn [then_post].
  replace (if p_nickChanged p then false else u) with (negb (p_nickChanged p) && u)
    by (by destruct (p_nickChanged p)).
  destruct (p_self p); cbn [andb] in He.
  { rewrite (andb_comm _ u), He. wp_step. wp_step. apply wp_joined. intros s' Hn Hr' _. split; [done|].
    intros nick. unfold read_nick. cbn. by rewrite Hn. }
  destruct (negb (p_nickChanged p) && u) eqn:Hu.
  { wp_step. apply wp_in_muc_modify. cbn [then_post].
    assert (Hkeep : forall o (w' : World Node S),
      muc (wst w') = with_nicks (delete (jid_resource (p_nick p)) (nickToJid (muc (wst w)))) (muc (wst w)) ->
      o = Ret tt -> room (muc (wst w')) = room (muc (wst w)) /\ forall nick, read_nick nick w' =
        default (read_nick nick w) (if String.eqb (jid_resource (p_nick p)) nick then Some None else None)).
    { intros o w' Hm _. unfold read_nick. rewrite Hm. split; [done|]. intros nick. cbn.
      rewrite lookup_delete. destruct (String.eqb_spec (jid_resource (p_nick p)) nick);
        [by rewrite decide_True|by rewrite decide_False]. }
    destruct (p_jid p) as [jid|].
    - eapply wp_conseq; [apply handle_disconnect_keeps|]. cbn [wst]. rewrite muc_set.
      intros o w' Hm. by apply Hkeep.
    - wp_step. intros Ho. refine (Hkeep (Ret tt) (mkWorld (set_muc _ _) (wnode w) (wtrace w)) _ Ho).
      apply muc_set. }
  destruct (p_jid p) as [jid|]; [|by wp_step].
  destruct (p_nickChanged p); cbn [andb] in *.
  - wp_step. wp_step. apply wp_in_muc_modify. cbn [then_post]. wp_step. wp_step. wp_step; [|done].
    apply wp_in_muc_modify. intros _. unfold read_nick. cbn. rewrite !muc_set. split; [done|].
    intros nick. cbn. rewrite lookup_insert, lookup_delete.
    destruct (String.eqb_spec (p_newNick p) nick) as [->|Hn]; [by rewrite decide_True|].
    rewrite (decide_False (P := p_newNick p = nick)) by done.
    destruct (String.eqb_spec (jid_resource (p_nick p)) nick); [by rewrite decide_True|by rewrite decide_False].
  - wp_step. wp_step. wp_step. wp_step; [|done]. apply wp_in_muc_modify. intros _. unfold read_nick. cbn.
    rewrite !muc_set. split; [done|]. intros nick. cbn. rewrite lookup_insert.
    destruct (String.eqb_spec (jid_resource (p_nick p)) nick); [by rewrite decide_True|by rewrite decide_False].
Qed.

Lemma wp_presences r l (w : World Node S) :
  Forall (fun e => ends_session e = false) l ->
  wp (presences r l)
    (fun o w' => o = Ret tt -> room (muc (wst w')) = room (muc (wst w)) /\
       forall nick, read_nick nick w' = owner nick l (read_nick nick w)) w.
Proof.
  revert w. induction l as [|[p u] l IH]; intros w Hl.
  - by apply wp_ret.
  - apply Forall_cons in Hl as [He Hl]. cbn [presences]. apply wp_bind.
    eapply wp_conseq; [apply (wp_presence r (p, u) w He)|]. intros [[]|e|] w1 Hw1; [|done..].
    cbn [then_post]. destruct (Hw1 eq_refl) as [Hr1 Hn1].
    eapply wp_conseq; [apply (IH w1 Hl)|]. intros o w2 Hw2 Ho. destruct (Hw2 Ho) as [Hr2 Hn2].
    split; [congruence|]. intros nick. rewrite Hn2, Hn1. unfold owner. cbn [omap list_omap].
    destruct (says nick (p, u)) as [x|]; cbn; [|done]. rewrite last_cons.
    by destruct (last (omap (says nick) l)).
Qed.

(** C26: a message in the room is handled as coming from the JID that, by the
    latest presence about its nickname, has that nickname, and ignored if
    nobody has it; so our own messages, whose nickname is in no presence but
    our own, are ignored. *)
Theorem room_message_sender r l msg (w w' : World Node S) :
  Forall (fun e => ends_session e = false) l -> nickToJid (muc (wst w)) = ∅ ->
  room (muc (wst w)) = Some r ->
  presences r l w = (Ret tt, w') ->
  jid_eqb (jid_bareJID (from msg)) (roomName (muc (wst w'))) = true ->
  handleMUCMessage r msg false w' =
    match owner (jid_resource (from msg)) l None with
    | Some jid => HandleMessage jid msg w'
    | None => (Ret tt, w')
    end.
Proof.
  intros Hl He Hr Hp Hb. pose proof (wp_run _ _ _ _ _ Hp (wp_presences r l w Hl) eq_refl) as [Hr' Hn].
  specialize (Hn (jid_resource (from msg))). unfold read_nick in Hn. rewrite He, lookup_empty in Hn.
  apply wp_eq. unfold handleMUCMessage. apply wp_bind, wp_room_is; [|congruence]. intros _. cbn [then_post].
  apply wp_bind, wp_read_muc. cbn [then_post]. rewrite Hb. wp_step. wp_step; [|done].
  apply wp_bind, wp_read_muc. cbn [then_post]. rewrite Hn.
  destruct (owner _ _ _); [|by wp_step]. unfold wp. by destruct (HandleMessage _ _ _).
Qed.

End attribution.

(* ------------------------------------------------------------------ *)
(** ** The theorems at concrete inputs *)

Module MucClientWitness.
Import Mock.

(** A JID as username, server and resource. *)
Inductive FullJid := full_jid (username server resource : string).
#[export] Instance FullJid_eq_dec : EqDecision FullJid.
Proof. solve_decision. Defined.

#[export] Instance jids : JidLib := {
  JID := FullJid;
  jid_server '(full_jid _ s _) := s;
  jid_username '(full_jid u _ _) := u
}.

#[export] Instance room_jids : RoomJidLib := {
  jid_resource '(full_jid _ _ r) := r;
  jid_bareJID '(full_jid u s _) := full_jid u s "";
  jid_eqb a b := bool_decide (a = b)
}.

#[export] Instance xmpp_fixed : XmppClient Fixed := {
  XmppConnect n := (true, n); XmppDisconnect n := n; XmppIsConnected n := (true, n)
}.

(** A process that keeps the senders of the room messages. *)
Definition Proc : Type := Muc * list JID.
#[local] Instance proc_muc : HasMuc Proc := {| muc := fst; set_muc m s := (m, snd s) |}.
#[local] Instance proc_muc_laws : HasMucLaws (S0 := Proc).
Proof. split; [done|by intros []|done]. Qed.
#[local] Instance proc_hooks : MucHooks Fixed Proc := {
  HandleMessage jid _ := modify (fun s => (fst s, snd s ++ [jid]));
  HandlePrivate _ _ := mret tt;
  HandleDisconnect _ := mret tt;
  until_joined := mret tt
}.
#[local] Instance proc_hooks_laws : MucHooksLaws (Node := Fixed) (S := Proc).
Proof. by intros jid w. Qed.

Definition the_room : JID := full_jid "room" "muc" "".
Definition in_room (nick : string) : JID := full_jid "room" "muc" nick.
Definition alice : JID := full_jid "alice" "chat.xaya.io" "x".
Definition msg (nick : string) : Stanza := mkStanza (in_room nick) None None.

(** "alice" joins as "a" and then changes her nickname to "b". *)
Definition history : list (Participant * bool) :=
  [(mkParticipant (in_room "me") None "" true false, false);
   (mkParticipant (in_room "a") (Some alice) "" false false, false);
   (mkParticipant (in_room "a") (Some alice) "b" false true, true)].

Definition w0 : World Fixed Proc :=
  world_of (mkMuc the_room (Some 1) false false false ∅ [], []) fixed.

Definition w1 : World Fixed Proc := snd (presences 1 history w0).

Lemma room_message_sender_witness :
  snd (wst (snd (handleMUCMessage 1 (msg "b") false w1))) = [alice] /\
  handleMUCMessage 1 (msg "a") false w1 = (Ret tt, w1).
Proof.
  assert (Hl : Forall (fun e => ends_session e = false) history) by (by repeat constructor).
  assert (Hp : presences 1 history w0 = (Ret tt, w1)) by (apply run_eq; vm_compute; reflexivity).
  assert (Ha : forall nick, jid_eqb (jid_bareJID (from (msg nick))) (roomName (muc (wst w1))) = true)
    by (intros nick; vm_compute; reflexivity).
  pose proof (fun nick => room_message_sender (HasMuc0 := proc_muc) 1 history (msg nick) w0 w1
    Hl eq_refl eq_refl Hp (Ha nick)) as Hm.
  split.
  - rewrite (Hm "b"). vm_compute. reflexivity.
  - rewrite (Hm "a"). reflexivity.
Defined.

End MucClientWitness.
