(* ===== verification/MucSession.v ===== *)
(** * The threads of an XMPP session ([src/mucclient.cpp])

    Three threads work on one [MucClient]: the one that connects and
    disconnects it (the main thread at first, then the reconnecting job of the
    daemon, and the destructor), the library's receiving thread, which calls
    the handlers, and the disconnecter, which a handler starts because it
    cannot disconnect by itself.  [MucClient.v] has each method as it runs
    alone; here they are the steps of a transition system whose threads
    interleave between the statements.

    A step is a statement on shared data, or a block under [mut] in which no
    other thread can see an intermediate state; waiting for [cvJoin] takes
    several steps, so that a notification can come before, while or after the
    thread falls asleep.  The states are finitely many,
    so the invariant and the progress of the system are decided by evaluation
    over all of them. *)

From Stdlib Require Import ZArith Lia String.
From stdpp Require Import base gmap strings list finite.
From S2P Require Import Prelude Json Proto Effects Mock Authenticator MucClient.

(* ------------------------------------------------------------------ *)
(** ** Threads and their state *)

(** Where the thread is that calls [Connect] or [Disconnect]:
    [CJoin] joins the disconnecter, [CFlag] clears [disconnecting], [CXmpp]
    calls [XmppClient::Connect], [CRoom] takes [mut] and runs the block up to
    joining the room; [CTest] is at the test of [joining], [CSleep] about to wait
    for [cvJoin], both with [mut]; [CAsleep] waits, and [CWoken] has been woken
    and needs [mut] again; [DTest] to [DStart] are [DisconnectAsync],
    [DWait] joins the disconnecter, [DCheck] is the block with the checks. *)
Inductive UserPc := Idle | CJoin | CFlag | CXmpp | CRoom | CTest | CSleep | CAsleep | CWoken
  | DTest | DJoin | DFlag | DStart | DWait | DCheck.

(** Where the handler is that the receiving thread runs: [HTest] to [HStart]
    are [DisconnectAsync], [HJoined] is the block that ends the joining. *)
Inductive HandlerPc := HIdle | HTest | HJoin | HFlag | HStart | HJoined.

(** Where the disconnecter is: there is none, or it leaves the room,
    disconnects, destroys the room, clears the flag, or has finished. *)
Inductive WorkerPc := NoThread | WLeave | WDisconnect | WReset | WFlag | Finished.

#[export] Instance UserPc_eq_dec : EqDecision UserPc.
Proof. solve_decision. Defined.
#[export] Instance HandlerPc_eq_dec : EqDecision HandlerPc.
Proof. solve_decision. Defined.
#[export] Instance WorkerPc_eq_dec : EqDecision WorkerPc.
Proof. solve_decision. Defined.

(** [xmpp]: the library's client is connected, so that its receiving thread
    can call handlers.  [room]: there is a room object.  The object
    [disconnecter] is joinable exactly if it has a thread. *)
Record Session := mkSession {
  xmpp : bool;
  room : bool;
  disconnecting : bool;
  joining : bool;
  user : UserPc;
  handler : HandlerPc;
  worker : WorkerPc
}.

#[export] Instance Session_eq_dec : EqDecision Session.
Proof. solve_decision. Defined.

(** The constructor leaves the two flags as they happen to be. *)
Definition new_Session (disc join : bool) : Session :=
  mkSession false false disc join Idle HIdle NoThread.

Definition joinable (s : Session) : bool := negb (bool_decide (worker s = NoThread)).

(** [MucClient::IsConnected] *)
Definition IsConnected (s : Session) : bool := negb (disconnecting s) && xmpp s.

(** [mut] is held between setting the flag and starting the thread, and by
    [Connect] from joining the room until it waits or returns; all other blocks
    are one step. *)
Definition mut_free (s : Session) : bool :=
  match user s with DStart | CTest | CSleep => false | _ => true end &&
  negb (bool_decide (handler s = HStart)).

Definition with_user (p : UserPc) (s : Session) : Session :=
  mkSession (xmpp s) (room s) (disconnecting s) (joining s) p (handler s) (worker s).
Definition with_handler (p : HandlerPc) (s : Session) : Session :=
  mkSession (xmpp s) (room s) (disconnecting s) (joining s) (user s) p (worker s).
Definition with_worker (p : WorkerPc) (s : Session) : Session :=
  mkSession (xmpp s) (room s) (disconnecting s) (joining s) (user s) (handler s) p.
Definition with_xmpp (b : bool) (s : Session) : Session :=
  mkSession b (room s) (disconnecting s) (joining s) (user s) (handler s) (worker s).
Definition with_room (b : bool) (s : Session) : Session :=
  mkSession (xmpp s) b (disconnecting s) (joining s) (user s) (handler s) (worker s).
Definition with_disconnecting (b : bool) (s : Session) : Session :=
  mkSession (xmpp s) (room s) b (joining s) (user s) (handler s) (worker s).
Definition with_joining (b : bool) (s : Session) : Session :=
  mkSession (xmpp s) (room s) (disconnecting s) b (user s) (handler s) (worker s).

(** ** The steps *)

(** What happens next: a call of the thread that connects, its next step (with
    the library's answer, where it asks), a spurious wake-up of [cvJoin], a
    callback for the room (an error or our removal; our own presence), the next
    step of the handler or of the disconnecter, or the loss of the connection. *)
Inductive Event := CallConnect | CallDisconnect | User (ok : bool) | Spurious
  | RoomFailed | OwnPresence | Handler | Worker | Lost.

(** The step cannot be taken now; it leads to a state; it ends the process. *)
Inductive Result := Blocked | Next (s : Session) | Crash.

Definition when (b : bool) (s : Session) : Result := if b then Next s else Blocked.

(** [if (disconnecter.joinable ()) disconnecter.join ()] *)
Definition join_then (k : Session -> Session) (s : Session) : Result :=
  match worker s with
  | NoThread => Next (k s)
  | Finished => Next (k (with_worker NoThread s))
  | _ => Blocked
  end.

(** The new thread is moved into [disconnecter]; if that has one already,
    [std::terminate] is called. *)
Definition start_worker (k : Session -> Session) (s : Session) : Result :=
  if joinable s then Crash else Next (k (with_worker WLeave s)).

Definition user_step (ok : bool) (s : Session) : Result :=
  match user s with
  | Idle => Blocked
  | CJoin => join_then (with_user CFlag) s
  | CFlag => Next (with_user CXmpp (with_disconnecting false s))
  | CXmpp => Next (if ok then with_user CRoom (with_xmpp true s) else with_user Idle s)
  | CRoom =>
      if negb (mut_free s) then Blocked
      else if room s then Crash
      else Next (with_user CTest (with_room true (with_joining true s)))
  | CTest => Next (with_user (if joining s then CSleep else Idle) s)
  | CSleep => Next (with_user CAsleep s)
  | CAsleep => Blocked
  | CWoken => when (mut_free s) (with_user CTest s)
  | DTest => Next (with_user (if disconnecting s then DWait else DJoin) s)
  | DJoin => join_then (with_user DFlag) s
  | DFlag => when (mut_free s) (with_user DStart (with_disconnecting true s))
  | DStart => start_worker (with_user DWait) s
  | DWait => join_then (with_user DCheck) s
  | DCheck =>
      if negb (mut_free s) then Blocked
      else if disconnecting s || room s || xmpp s then Crash
      else Next (with_user Idle s)
  end.

(** [cvJoin.notify_all]: it is lost unless the thread is asleep. *)
Definition notify_all (s : Session) : Session :=
  match user s with CAsleep => with_user CWoken s | _ => s end.

Definition handler_step (s : Session) : Result :=
  match handler s with
  | HIdle => Blocked
  | HTest => Next (with_handler (if disconnecting s then HJoined else HJoin) s)
  | HJoin => join_then (with_handler HFlag) s
  | HFlag => when (mut_free s) (with_handler HStart (with_disconnecting true s))
  | HStart => start_worker (with_handler HJoined) s
  | HJoined =>
      when (mut_free s)
        (with_handler HIdle (if joining s then notify_all (with_joining false s) else s))
  end.

(** [XmppClient::Disconnect] waits for a handler that is running. *)
Definition worker_step (s : Session) : Result :=
  match worker s with
  | NoThread | Finished => Blocked
  | WLeave => Next (with_worker WDisconnect s)
  | WDisconnect =>
      when (bool_decide (handler s = HIdle)) (with_worker WReset (with_xmpp false s))
  | WReset => Next (with_worker WFlag (with_room false s))
  | WFlag => Next (with_worker Finished (with_disconnecting false s))
  end.

(** The receiving thread calls one handler at a time, while the client is
    connected, for a room that exists.  The daemon calls [Connect] if
    [IsConnected] has told it to. *)
Definition receiving (s : Session) : bool := xmpp s && bool_decide (handler s = HIdle).

Definition step (e : Event) (s : Session) : Result :=
  match e with
  | CallConnect => when (bool_decide (user s = Idle) && negb (IsConnected s)) (with_user CJoin s)
  | CallDisconnect => when (bool_decide (user s = Idle)) (with_user DTest s)
  | User ok => user_step ok s
  | Spurious => when (bool_decide (user s = CAsleep)) (with_user CWoken s)
  | RoomFailed => when (receiving s && room s) (with_handler HTest s)
  | OwnPresence => when (receiving s && room s) (with_handler HJoined s)
  | Handler => handler_step s
  | Worker => worker_step s
  | Lost => when (receiving s) (with_xmpp false s)
  end.

Fixpoint run (es : list Event) (s : Session) : Result :=
  match es with
  | [] => Next s
  | e :: es' => match step e s with Next s' => run es' s' | r => r end
  end.

(** What goes well: the connection ends by [MucClient]'s own disconnecting
    only; [disconnecter] is not read between the flag and the start of the
    thread; the two threads that can disconnect do not both get past the test
    of the flag; and [Disconnect] does not find the flag as the constructor has
    left it. *)
Definition calm (e : Event) (s : Session) : bool :=
  match e with
  | Lost => false
  | CallDisconnect =>
      negb (disconnecting s && bool_decide (worker s = NoThread) && negb (bool_decide (handler s = HStart)))
  | User _ =>
      match user s, handler s with
      | (CJoin | DWait), HStart => false
      | DTest, (HJoin | HFlag) => false
      | _, _ => true
      end
  | Handler =>
      match handler s, user s with HTest, (DJoin | DFlag) => false | _, _ => true end
  | _ => true
  end.

Fixpoint calm_along (es : list Event) (s : Session) : bool :=
  match es with
  | [] => true
  | e :: es' => calm e s && match step e s with Next s' => calm_along es' s' | _ => true end
  end.

(* ------------------------------------------------------------------ *)
(** ** Deciding by evaluation over all states *)

#[export] Program Instance UserPc_finite : Finite UserPc := {|
  enum := [Idle; CJoin; CFlag; CXmpp; CRoom; CTest; CSleep; CAsleep; CWoken; DTest; DJoin; DFlag; DStart; DWait; DCheck] |}.
Next Obligation. by apply (bool_decide_unpack _). Qed.
Next Obligation. intros []; by apply (bool_decide_unpack _). Qed.

#[export] Program Instance HandlerPc_finite : Finite HandlerPc := {|
  enum := [HIdle; HTest; HJoin; HFlag; HStart; HJoined] |}.
Next Obligation. by apply (bool_decide_unpack _). Qed.
Next Obligation. intros []; by apply (bool_decide_unpack _). Qed.

#[export] Program Instance WorkerPc_finite : Finite WorkerPc := {|
  enum := [NoThread; WLeave; WDisconnect; WReset; WFlag; Finished] |}.
Next Obligation. by apply (bool_decide_unpack _). Qed.
Next Obligation. intros []; by apply (bool_decide_unpack _). Qed.

Definition bools : list bool := [true; false].
Definition events : list Event := [CallConnect; CallDisconnect; User true; User false; Spurious;
  RoomFailed; OwnPresence; Handler; Worker; Lost].

Lemma in_bools b : b ∈ bools.
Proof. destruct b; by apply (bool_decide_unpack _). Qed.

Lemma in_events e : In e events.
Proof. by destruct e as [| |[]| | | | | |]; cbn; tauto. Qed.

(** [f] holds in all states. *)
Definition everywhere (f : Session -> bool) : bool :=
  forallb (fun x => forallb (fun r => forallb (fun d => forallb (fun j =>
    forallb (fun u => forallb (fun h => forallb (fun w => f (mkSession x r d j u h w))
      (enum WorkerPc)) (enum HandlerPc)) (enum UserPc)) bools) bools) bools) bools.

Lemma everywhere_all f : everywhere f = true -> forall s, f s = true.
Proof.
  intros Hf [x r d j u h w]. unfold everywhere in Hf.
  assert (Hall : forall {A} (g : A -> bool) l a, forallb g l = true -> a ∈ l -> g a = true).
  { intros A g l a Hg Ha. rewrite forallb_forall in Hg. by apply Hg, list_elem_of_In. }
  apply (Hall _ _ _ x) in Hf; [|apply in_bools]. apply (Hall _ _ _ r) in Hf; [|apply in_bools].
  apply (Hall _ _ _ d) in Hf; [|apply in_bools]. apply (Hall _ _ _ j) in Hf; [|apply in_bools].
  apply (Hall _ _ _ u) in Hf; [|apply elem_of_enum]. apply (Hall _ _ _ h) in Hf; [|apply elem_of_enum].
  by apply (Hall _ _ _ w) in Hf; [|apply elem_of_enum].
Qed.

(** ** The invariant *)

(** After the first [Connect], the flag is set while a disconnection is under way; a room exists while
    the client is connected or its disconnecter is about to destroy it; a
    handler runs for a room of a connected client only; where the user's
    thread is determines the rest. *)
Definition session_ok (s : Session) : bool :=
  let working := match worker s with NoThread | Finished => false | _ => true end in
  let starting := bool_decide (handler s = HStart) || bool_decide (user s = DStart) in
  let down := negb (xmpp s) && negb (room s) && bool_decide (handler s = HIdle) in
  let clear := down && bool_decide (worker s = NoThread) in
  let fresh := clear && match user s with Idle | CJoin | CFlag => true | _ => false end in
  (fresh || Bool.eqb (disconnecting s) (working || starting)) &&
  implb (xmpp s) (room s || bool_decide (user s = CRoom)) &&
  implb (xmpp s) (match worker s with NoThread | WLeave | WDisconnect => true | _ => false end) &&
  implb (room s) (xmpp s || bool_decide (worker s = WReset)) &&
  match handler s with
  | HIdle => true
  | HTest | HJoined => xmpp s && room s
  | HJoin | HFlag => xmpp s && room s && bool_decide (worker s = NoThread) && negb starting
  | HStart => xmpp s && room s && bool_decide (worker s = NoThread) && negb (bool_decide (user s = DStart))
  end &&
  implb (joining s) match user s with
    | CTest | CSleep | CAsleep | CWoken => xmpp s && room s && (bool_decide (worker s = NoThread) || bool_decide (handler s = HJoined))
    | CRoom => true
    | _ => negb (xmpp s)
    end &&
  match user s with
  | Idle | CTest | CWoken | DTest => true
  | CSleep | CAsleep => joining s
  | CJoin => disconnecting s || negb (xmpp s)
  | CFlag | CXmpp => clear
  | CRoom => xmpp s && negb (room s) && bool_decide (handler s = HIdle) && bool_decide (worker s = NoThread)
  | DJoin => negb (disconnecting s) && match handler s with HJoin | HFlag => false | _ => true end
  | DFlag => negb (disconnecting s) && bool_decide (worker s = NoThread) &&
      match handler s with HJoin | HFlag => false | _ => true end
  | DStart => bool_decide (worker s = NoThread) && match handler s with HJoin | HFlag => false | _ => true end
  | DWait => negb (bool_decide (worker s = NoThread)) || bool_decide (handler s = HStart)
  | DCheck => clear
  end.

Definition result_ok (r : Result) : bool :=
  match r with Blocked => true | Next s => session_ok s | Crash => false end.

Lemma steps_ok_everywhere :
  everywhere (fun s => implb (session_ok s)
    (forallb (fun e => implb (calm e s) (result_ok (step e s))) events)) = true.
Proof. vm_compute. reflexivity. Qed.

(** ** Progress *)

(** Steps that the process takes without anything from outside. *)
Definition internal (e : Event) : bool :=
  match e with User _ | Handler | Worker => true | _ => false end.

(** The thread that connects is idle or asleep until the room answers, and the
    other threads are done. *)
Definition settled (s : Session) : bool :=
  (bool_decide (user s = Idle) || bool_decide (user s = CAsleep) && joining s) &&
  bool_decide (handler s = HIdle) &&
  (bool_decide (worker s = NoThread) || bool_decide (worker s = Finished)).

(** How many internal steps are left, at most. *)
Definition left (s : Session) : nat :=
  match user s with
  | Idle => 0 | CAsleep => 2 | CSleep => 3
  | CTest => if joining s then 4 else 1
  | CWoken => if joining s then 5 else 2
  | CRoom => 5 | CXmpp => 6 | CFlag => 7 | CJoin => 8
  | DCheck => 1 | DWait => 2 | DStart => 7 | DFlag => 8 | DJoin => 9 | DTest => 10
  end +
  match handler s with
  | HIdle => 0 | HJoined => 1 | HStart => 6 | HFlag => 7 | HJoin => 8 | HTest => 9
  end +
  match worker s with
  | NoThread | Finished => 0 | WFlag => 1 | WReset => 2 | WDisconnect => 3 | WLeave => 4
  end.

Definition advances (s : Session) (e : Event) : bool :=
  internal e && calm e s && match step e s with Next s' => (left s' <? left s)%nat | _ => false end.

Lemma progress_everywhere :
  everywhere (fun s => implb (session_ok s)
    (settled s || existsb (advances s) events)) = true.
Proof. vm_compute. reflexivity. Qed.

Lemma decrease_everywhere :
  everywhere (fun s => implb (session_ok s) (forallb (fun e =>
    implb (internal e && calm e s)
      match step e s with Next _ => advances s e | _ => true end) events)) = true.
Proof. vm_compute. reflexivity. Qed.

Lemma bound_everywhere :
  everywhere (fun s => implb (session_ok s) (left s <=? 23)%nat) = true.
Proof. vm_compute. reflexivity. Qed.

(** The room has answered: the wait is over or a handler is about to end it. *)
Definition answered (s : Session) : bool :=
  match user s with Idle | CTest | CSleep | CAsleep | CWoken => true | _ => false end &&
  implb (joining s) (negb (bool_decide (handler s = HIdle))).

Lemma answered_everywhere :
  everywhere (fun s => implb (session_ok s && answered s) (forallb (fun e =>
    implb (internal e && calm e s)
      match step e s with Next s' => answered s' | _ => true end) events)) = true.
Proof. vm_compute. reflexivity. Qed.

(** A session that has settled is up or down as a whole; while it is up, and
    so while it waits for the room, callbacks can come. *)
Definition whole (s : Session) : bool :=
  Bool.eqb (IsConnected s) (xmpp s) && Bool.eqb (room s) (xmpp s) &&
  (bool_decide (user s = Idle) || xmpp s) &&
  implb (xmpp s) (forallb (fun e => match step e s with Next s' =>
      implb (joining s) (answered s') | _ => false end) [RoomFailed; OwnPresence]).

Lemma whole_everywhere :
  everywhere (fun s => implb (session_ok s && settled s) (whole s)) = true.
Proof. vm_compute. reflexivity. Qed.

(** The calls that the reconnecting job makes once the connection is lost. *)
Definition reconnection : list Event :=
  [Lost; CallConnect; User true; User true; User true; User true].

Lemma lost_everywhere :
  everywhere (fun s => implb (session_ok s && settled s && IsConnected s && bool_decide (user s = Idle))
    match run reconnection s with Crash => true | _ => false end) = true.
Proof. vm_compute. reflexivity. Qed.

(* ------------------------------------------------------------------ *)
(** ** The theorems *)

Lemma new_session_ok d j : session_ok (new_Session d j) = true.
Proof. by destruct d, j. Qed.

(** One step, as the evaluation over all states has it. *)
Lemma for_event (P : Session -> bool) (f : Event -> Session -> bool) e s :
  everywhere (fun s => implb (P s) (forallb (fun e => f e s) events)) = true ->
  P s = true -> f e s = true.
Proof.
  intros Hf Hp. pose proof (everywhere_all _ Hf s) as Hs. cbn beta in Hs. rewrite Hp in Hs.
  cbn [implb] in Hs. rewrite forallb_forall in Hs. apply Hs, in_events.
Qed.

Lemma step_result_ok e s :
  session_ok s = true -> calm e s = true -> result_ok (step e s) = true.
Proof.
  intros Hs Hc. pose proof (for_event session_ok _ e s steps_ok_everywhere Hs) as Hf.
  cbn beta in Hf. by rewrite Hc in Hf.
Qed.

Lemma run_ok es s :
  session_ok s = true -> calm_along es s = true -> result_ok (run es s) = true.
Proof.
  revert s. induction es as [|e es IH]; intros s Hs; cbn [run calm_along]; [done|].
  intros [Hc Hr]%andb_prop. pose proof (step_result_ok e s Hs Hc) as Hok.
  destruct (step e s); [done|by apply IH|done].
Qed.

Lemma reached_ok d j es s :
  calm_along es (new_Session d j) = true -> run es (new_Session d j) = Next s -> session_ok s = true.
Proof.
  intros Hc Hr. pose proof (run_ok es _ (new_session_ok d j) Hc) as Hok. by rewrite Hr in Hok.
Qed.

(** What the invariant says where it matters. *)
Definition sound (s : Session) : bool :=
  implb (IsConnected s && bool_decide (user s = Idle)) (room s && negb (joining s)) &&
  implb (negb (IsConnected s) && bool_decide (user s = CXmpp)) (negb (room s)) &&
  implb (negb (bool_decide (handler s = HIdle))) (room s && xmpp s) &&
  implb (bool_decide (worker s = WReset)) (negb (xmpp s) && bool_decide (handler s = HIdle)).

Lemma sound_everywhere : everywhere (fun s => implb (session_ok s) (sound s)) = true.
Proof. vm_compute. reflexivity. Qed.

(** C35: the threads of an XMPP session do not get in each other's way: in
    every interleaving in which the connection ends by our own disconnecting,
    no two of them start or join the disconnecter at once, and [Disconnect] is
    not the first call on a client whose flag happens to be set, no check fails
    and the process goes on; while no [Connect] or [Disconnect] is being
    called, [IsConnected] means that there is a room and joining it is over; a
    handler always has the room object it is called for; and the room is
    destroyed when the library is disconnected and no handler runs. *)
Theorem session_safe d j es :
  calm_along es (new_Session d j) = true ->
  run es (new_Session d j) <> Crash /\
  forall s, run es (new_Session d j) = Next s ->
    (IsConnected s = true -> user s = Idle -> room s = true /\ joining s = false) /\
    (handler s <> HIdle -> room s = true /\ xmpp s = true) /\
    (worker s = WReset -> xmpp s = false /\ handler s = HIdle).
Proof.
  intros Hc. pose proof (run_ok es _ (new_session_ok d j) Hc) as Hok. split; [by intros Hr; rewrite Hr in Hok|].
  intros s Hr. rewrite Hr in Hok. pose proof (everywhere_all _ sound_everywhere s) as Hs.
  cbn in Hok, Hs. rewrite Hok in Hs. cbn [implb] in Hs. unfold sound in Hs.
  repeat rewrite andb_true_iff in Hs. destruct Hs as [[[H1 _] H2] H3]. split_and!.
  - intros Hi Hu. rewrite Hi, (bool_decide_eq_true_2 _ Hu) in H1.
    apply andb_prop in H1 as [-> Hj]. by destruct (joining s).
  - intros Hh. rewrite (bool_decide_eq_false_2 _ Hh) in H2. by apply andb_prop in H2.
  - intros Hw. rewrite (bool_decide_eq_true_2 _ Hw) in H3. apply andb_prop in H3 as [Hx Hh].
    apply bool_decide_eq_true in Hh. by destruct (xmpp s).
Qed.

Lemma advance e s s' :
  session_ok s = true -> internal e = true -> calm e s = true -> step e s = Next s' ->
  session_ok s' = true /\ (left s' < left s)%nat.
Proof.
  intros Hs Hi Hc He. split; [by pose proof (step_result_ok e s Hs Hc) as Hok; rewrite He in Hok|].
  pose proof (for_event session_ok _ e s decrease_everywhere Hs) as Hd. cbn beta in Hd.
  rewrite Hi, Hc, He in Hd. unfold advances in Hd. rewrite Hi, Hc, He in Hd. by apply Nat.ltb_lt in Hd.
Qed.

Lemma internal_run es s s' :
  session_ok s = true -> forallb internal es = true -> calm_along es s = true -> run es s = Next s' ->
  session_ok s' = true /\ (length es + left s' <= left s)%nat /\ (answered s = true -> answered s' = true).
Proof.
  revert s. induction es as [|e es IH]; intros s Hs; cbn [run calm_along forallb length].
  { by intros _ _ [= ->]. }
  intros [Hi Hes]%andb_prop [Hc Hr]%andb_prop He. destruct (step e s) as [|s1|] eqn:Hs1; [done| |done].
  destruct (advance e s s1 Hs Hi Hc Hs1) as [Hok Hlt].
  destruct (IH s1 Hok Hes Hr He) as (Hok' & Hle & Ha). split_and!; [done|lia|].
  intros Ha0. apply Ha.
  assert (Hp : session_ok s && answered s = true) by by rewrite Hs, Ha0.
  pose proof (for_event (fun s => session_ok s && answered s) _ e s answered_everywhere Hp) as Hf.
  cbn beta in Hf. by rewrite Hi, Hc, Hs1 in Hf.
Qed.

Lemma can_go_on s :
  session_ok s = true -> settled s = true \/
  exists e s', internal e = true /\ calm e s = true /\ step e s = Next s'.
Proof.
  intros Hs. pose proof (everywhere_all _ progress_everywhere s) as Hp. cbn beta in Hp.
  rewrite Hs in Hp. apply orb_prop in Hp as [Hp|Hp]; [by left|right].
  apply existsb_exists in Hp as (e & _ & Ha). unfold advances in Ha.
  apply andb_prop in Ha as [[Hi Hc]%andb_prop Ha]. exists e.
  destruct (step e s) as [|s'|]; [done|by exists s'|done].
Qed.

Lemma settled_idle s : settled s = true -> answered s = true -> user s = Idle.
Proof.
  destruct s as [x r d [] u h w]; destruct u, h; try done.
Qed.

Lemma settled_whole s :
  session_ok s = true -> settled s = true ->
  IsConnected s = xmpp s /\ room s = xmpp s /\ (user s <> Idle -> xmpp s = true) /\
  (xmpp s = true -> forall e, e = RoomFailed \/ e = OwnPresence ->
     exists s', step e s = Next s' /\ (joining s = true -> answered s' = true)).
Proof.
  intros Hs Ht. pose proof (everywhere_all _ whole_everywhere s) as Hw. cbn beta in Hw.
  rewrite Hs, Ht in Hw. cbn [implb andb] in Hw. unfold whole in Hw.
  repeat rewrite andb_true_iff in Hw. destruct Hw as [[[Hd Hr] Hj] He]. split_and!.
  - by apply eqb_prop.
  - by apply eqb_prop.
  - intros Hu. by rewrite (bool_decide_eq_false_2 _ Hu) in Hj.
  - intros Hx e Hin. rewrite Hx in He. cbn [implb] in He. rewrite forallb_forall in He.
    assert (Hi : In e [RoomFailed; OwnPresence]) by (cbn; destruct Hin as [-> | ->]; auto).
    specialize (He e Hi). cbn beta in He. destruct (step e s) as [|s'|]; [done| |done].
    exists s'. split; [done|]. intros Hjo. by rewrite Hjo in He.
Qed.

(** C36: the threads of a session never block each other and no wake-up is
    lost, as long as the interleaving is calm (the connection ends by our own
    disconnecting only, no two threads start or join the disconnecter at once,
    and [Disconnect] does not find the flag as the constructor has left it):
    from every state reached so they take at most 23 steps by themselves, and
    can take one that is calm until the handler and the disconnecter are done
    and [Connect] or [Disconnect] has returned or sleeps until the room
    answers; the session is then up or down as a whole; and if [Connect]
    sleeps, the room can answer, and with either answer [Connect] has returned
    when the threads have, calmly, come to rest, without any spurious wake-up. *)
Theorem session_settles d j es s :
  calm_along es (new_Session d j) = true -> run es (new_Session d j) = Next s ->
  (forall es' s', forallb internal es' = true -> calm_along es' s = true -> run es' s = Next s' ->
     (length es' <= 23)%nat /\
     (settled s' = true \/ exists e s'', internal e = true /\ calm e s' = true /\ step e s' = Next s'')) /\
  (settled s = true -> IsConnected s = xmpp s /\ room s = xmpp s) /\
  (settled s = true -> user s <> Idle -> forall e, e = RoomFailed \/ e = OwnPresence ->
     exists s1, step e s = Next s1 /\
       forall es' s', forallb internal es' = true -> calm_along es' s1 = true -> run es' s1 = Next s' ->
         settled s' = true -> user s' = Idle).
Proof.
  intros Hc Hr. pose proof (reached_ok d j es s Hc Hr) as Hs. split_and!.
  - intros es' s' Hi Hc' Hr'. destruct (internal_run es' s s' Hs Hi Hc' Hr') as (Hs' & Hle & _).
    split; [|by apply can_go_on]. pose proof (everywhere_all _ bound_everywhere s) as Hb.
    cbn beta in Hb. rewrite Hs in Hb. apply Nat.leb_le in Hb. lia.
  - intros Ht. by destruct (settled_whole s Hs Ht) as (? & ? & _).
  - intros Ht Hu e He. destruct (settled_whole s Hs Ht) as (_ & _ & Hj & Hcb).
    assert (Hjo : joining s = true).
    { unfold settled in Ht. rewrite (bool_decide_eq_false_2 _ Hu) in Ht. cbn [orb] in Ht.
      by apply andb_prop in Ht as [[[_ Hjo]%andb_prop _]%andb_prop _]. }
    destruct (Hcb (Hj Hu) e He) as (s1 & Hs1 & Ha). exists s1. split; [done|].
    assert (Hok1 : session_ok s1 = true).
    { assert (Hce : calm e s = true) by by destruct He as [-> | ->].
      pose proof (step_result_ok e s Hs Hce) as Hok. by rewrite Hs1 in Hok. }
    intros es' s' Hi Hc' Hr' Ht'. destruct (internal_run es' s1 s' Hok1 Hi Hc' Hr') as (_ & _ & Ha').
    apply settled_idle; auto.
Qed.

(** The room object outlives a connection that the library reports as gone
    without our own disconnecting: the reconnecting job then ends the process
    at the check that there is no room. *)
Theorem lost_connection_crashes d j es s :
  calm_along es (new_Session d j) = true -> run es (new_Session d j) = Next s ->
  settled s = true -> user s = Idle -> IsConnected s = true ->
  run reconnection s = Crash.
Proof.
  intros Hc Hr Ht Hu Hi. pose proof (reached_ok d j es s Hc Hr) as Hs.
  pose proof (everywhere_all _ lost_everywhere s) as Hl. cbn beta in Hl.
  rewrite Hs, Ht, Hi, (bool_decide_eq_true_2 _ Hu) in Hl. by destruct (run reconnection s).
Qed.

(** The other conditions are needed as well.  [Connect], called while a
    handler is about to start the disconnecter, does not wait for it and finds
    the old room; a handler and [Disconnect] that both start a disconnecter
    end the process; and so does [Disconnect] on a client that has never
    connected, if its flag happens to be set. *)
Definition opening : list Event :=
  [CallConnect; User true; User true; User true; User true; User true; User true; OwnPresence;
   Handler; User true; User true].

Example connect_overtakes_disconnecter :
  run (opening ++ [RoomFailed; Handler; Handler; Handler; CallConnect; User true; User true;
    User true; Handler; User true]) (new_Session false false) = Crash.
Proof. reflexivity. Qed.

Example two_disconnecters :
  run (opening ++ [RoomFailed; CallDisconnect; User true; Handler; User true; Handler;
    User true; User true; Handler; Handler]) (new_Session false false) = Crash.
Proof. reflexivity. Qed.

Example flag_left_uninitialised :
  run [CallDisconnect; User true; User true; User true] (new_Session true false) = Crash.
Proof. reflexivity. Qed.

(* ------------------------------------------------------------------ *)
(** ** The methods as schedules of the steps *)

(** A client that answers by a state of its own, [xmpp_up]. *)
Class SteadyXmpp {Node : Type} `{!XmppClient Node} (xmpp_up : Node -> bool) : Prop := {
  up_read n : XmppIsConnected n = (xmpp_up n, n);
  up_disconnect n : xmpp_up (XmppDisconnect n) = false;
  up_connect n : xmpp_up (snd (XmppConnect n)) = fst (XmppConnect n) || xmpp_up n
}.

Section methods.
Context `{JsonLib} `{!JidLib} `{!RoomJidLib} {Node S : Type} `{!XmppClient Node} `{!HasMuc S}
  `{!HasMucLaws} `{!MucHooks Node S} (xmpp_up : Node -> bool) `{!SteadyXmpp xmpp_up}.
Implicit Types w : World Node S.

(** The session as it is between the methods, with the connecting thread at
    [p]. *)
Definition view (p : UserPc) w : Session :=
  let m := muc (wst w) in
  mkSession (xmpp_up (wnode w)) (has (MucClient.room m)) (MucClient.disconnecting m)
    (MucClient.joining m) p HIdle (if disconnecter m then WLeave else NoThread).

(** What the other threads do while [Connect] waits ends the joining, by
    steps of theirs. *)
Definition others_join : Prop :=
  forall w, session_ok (view CTest w) = true -> exists w' es,
    until_joined w = (Ret tt, w') /\ MucClient.joining (muc (wst w')) = false /\
    run es (view CTest w) = Next (view CTest w').

Lemma wp_is_connected (Q : outcome bool -> World Node S -> Prop) w :
  Q (Ret (xmpp_up (wnode w))) w -> wp is_connected Q w.
Proof. unfold wp, is_connected. rewrite up_read. by destruct w. Qed.

Lemma wp_xmpp_disconnect (Q : outcome unit -> World Node S -> Prop) w :
  Q (Ret tt) (mkWorld (wst w) (XmppDisconnect (wnode w)) (wtrace w)) -> wp xmpp_disconnect Q w.
Proof. done. Qed.

Lemma wp_xmpp_connect (Q : outcome bool -> World Node S -> Prop) w :
  Q (Ret (fst (XmppConnect (wnode w)))) (mkWorld (wst w) (snd (XmppConnect (wnode w))) (wtrace w)) ->
  wp xmpp_connect Q w.
Proof. unfold wp, xmpp_connect. by destruct (XmppConnect (wnode w)). Qed.

(** One statement of a method. *)
Ltac muc_step :=
  first [apply wp_bind | apply wp_read_muc | apply wp_in_muc_modify | apply wp_is_connected
        | apply wp_xmpp_disconnect | apply wp_xmpp_connect | wp_step];
  cbn [then_post wst wnode wtrace]; rewrite ?muc_set, ?set_muc_set;
  cbn [MucClient.disconnecting MucClient.room MucClient.joining nickToJid disconnecter
    with_disconnecter MucClient.with_disconnecting MucClient.with_room MucClient.with_joining with_nicks has negb].

(** Joining the disconnecter: if it has yet to run, the client is disconnected
    and the room is gone afterwards. *)
Lemma join_is_schedule w :
  wp join_disconnecter (fun o w' => o = Ret tt /\ disconnecter (muc (wst w')) = false /\
    (disconnecter (muc (wst w)) = true ->
       MucClient.disconnecting (muc (wst w')) = false /\ MucClient.room (muc (wst w')) = None /\
       xmpp_up (wnode w') = false) /\
    (disconnecter (muc (wst w)) = false -> w' = w) /\
    forall p, exists es, run es (view p w) =
      Next (with_worker (if disconnecter (muc (wst w)) then Finished else NoThread) (view p w'))) w.
Proof.
  unfold join_disconnecter. muc_step. muc_step.
  destruct (disconnecter (muc (wst w))) eqn:Hd; cbn [then_post].
  - unfold disconnect_worker. do 6 muc_step.
    split_and!; [done|done| |done|].
    { intros _. split_and!; [done|done|apply up_disconnect]. }
    intros p. exists [Worker; Worker; Worker; Worker]. unfold view. cbn [wst wnode].
    rewrite Hd, !muc_set. cbn. by rewrite up_disconnect.
  - apply wp_ret. split_and!; [done..|]. intros p. exists []. unfold view. by rewrite Hd.
Qed.

(** Between the methods, a disconnecter that has yet to run has set the flag. *)
Lemma view_flag p w :
  session_ok (view p w) = true -> MucClient.disconnecting (muc (wst w)) = false ->
  disconnecter (muc (wst w)) = false.
Proof.
  unfold view. intros Hs Hd. rewrite Hd in Hs. destruct (disconnecter _); [|done].
  by destruct (xmpp_up _), (has _), (MucClient.joining _), p.
Qed.

Lemma run_app es es' s :
  run (es ++ es') s = match run es s with Next s' => run es' s' | r => r end.
Proof. revert s. induction es as [|e es IH]; intros s; cbn; [done|]. by destruct (step e s). Qed.

(** A client that is not connected, and has no disconnecter, is down. *)
Lemma view_down w :
  session_ok (view Idle w) = true -> IsConnected (view Idle w) = false ->
  disconnecter (muc (wst w)) = false -> xmpp_up (wnode w) = false.
Proof.
  unfold view, IsConnected. cbn [xmpp disconnecting]. intros Hs Hi Hd. rewrite Hd in Hs.
  by destruct (xmpp_up _), (MucClient.disconnecting _), (has _), (MucClient.joining _).
Qed.

Lemma DisconnectAsync_is_schedule w :
  session_ok (view Idle w) = true -> calm CallDisconnect (view Idle w) = true ->
  wp MucClient.DisconnectAsync (fun o w1 => o = Ret tt /\ disconnecter (muc (wst w1)) = true /\
    exists es, run es (view Idle w) = Next (view DWait w1)) w.
Proof.
  intros Hs Hc. unfold MucClient.DisconnectAsync. muc_step. muc_step.
  destruct (MucClient.disconnecting (muc (wst w))) eqn:Hd.
  - apply wp_ret. assert (Hr : disconnecter (muc (wst w)) = true).
    { unfold view in Hc. cbn in Hc. rewrite Hd in Hc. by destruct (disconnecter _). }
    split_and!; [done..|]. exists [CallDisconnect; User true]. unfold view.
    rewrite Hd, Hr. by destruct (has _), (MucClient.joining _).
  - pose proof (view_flag Idle w Hs Hd) as Hr. unfold join_disconnecter. do 3 muc_step. rewrite Hr.
    do 4 muc_step. split_and!; [done..|].
    exists [CallDisconnect; User true; User true; User true; User true]. unfold view. cbn [wst wnode].
    rewrite Hd, Hr, !muc_set. reflexivity.
Qed.

Lemma Disconnect_is_schedule w :
  session_ok (view Idle w) = true -> calm CallDisconnect (view Idle w) = true ->
  wp MucClient.Disconnect (fun o w' => o = Ret tt /\
    xmpp_up (wnode w') = false /\ MucClient.room (muc (wst w')) = None /\
    exists es, run es (view Idle w) = Next (view Idle w')) w.
Proof.
  intros Hs Hc. unfold MucClient.Disconnect. apply wp_bind.
  eapply wp_conseq; [by apply DisconnectAsync_is_schedule|].
  intros o w1 (-> & Hd & es & Hes). cbn [then_post]. apply wp_bind.
  eapply wp_conseq; [apply join_is_schedule|]. intros o w2 (-> & Hr2 & Hj & _ & Hr).
  destruct (Hj Hd) as (Hd2 & Hroom & Hup). destruct (Hr DWait) as [es' Hes']. rewrite Hd in Hes'.
  cbn [then_post]. do 2 muc_step. rewrite Hd2. do 2 muc_step. rewrite Hroom.
  do 2 muc_step. muc_step; rewrite Hup in *; [|done]. split_and!; [done..|].
  exists (es ++ es' ++ [User true; User true]). rewrite run_app, Hes, run_app, Hes'.
  unfold view. rewrite Hd2, Hr2, Hroom, Hup. reflexivity.
Qed.

(** So the checks of [Disconnect] and of the destructor hold. *)
Lemma destroy_returns w :
  session_ok (view Idle w) = true -> calm CallDisconnect (view Idle w) = true ->
  wp destroy_MucClient (fun o w' => o = Ret tt /\ xmpp_up (wnode w') = false) w.
Proof.
  intros Hs Hc. unfold destroy_MucClient. apply wp_bind.
  eapply wp_conseq; [by apply Disconnect_is_schedule|].
  intros o w' (-> & Hup & Hroom & _). cbn [then_post]. do 2 muc_step. by rewrite Hroom.
Qed.

(** The part of [Connect] from joining the room on. *)
Definition enter_room (handle : Z) : M Node S bool :=
  in_muc (modify (MucClient.with_joining true));;
  in_muc (modify (MucClient.with_room (Some handle)));;
  until_joined;;
  MucClient.IsConnected.

Lemma enter_is_schedule handle w :
  view CRoom w = mkSession true false false (MucClient.joining (muc (wst w))) CRoom HIdle NoThread ->
  others_join ->
  wp (enter_room handle) (fun o w' => exists b es, o = Ret b /\
    run es (view CRoom w) = Next (view Idle w') /\ b = IsConnected (view Idle w')) w.
Proof.
  intros Hv Ho. unfold enter_room. do 3 muc_step.
  match goal with |- wp until_joined _ ?v => set (w2 := v) end.
  assert (Hw2 : view CTest w2 = mkSession true true false true CTest HIdle NoThread).
  { unfold view in *. injection Hv as Hx _ Hd Hr. unfold w2. cbn [wst wnode].
    rewrite !muc_set. cbn. rewrite Hx, Hd. by destruct (disconnecter _). }
  destruct (Ho w2 ltac:(by rewrite Hw2)) as (w3 & es & Hu & Hjo & Hrun).
  apply wp_intro. intros o v Hrv. rewrite Hu in Hrv. injection Hrv as <- <-. cbn [then_post].
  assert (Hes : run ([User true] ++ es ++ [User true]) (view CRoom w) = Next (view Idle w3)).
  { assert (H1' : run [User true] (view CRoom w) = Next (view CTest w2)) by by rewrite Hv, Hw2.
    rewrite run_app, H1', run_app, Hrun. unfold view. cbn. by rewrite Hjo. }
  unfold MucClient.IsConnected. muc_step. muc_step.
  destruct (MucClient.disconnecting (muc (wst w3))) eqn:Hd3; [apply wp_ret|muc_step];
    (eexists _, _; split; [done|]; split; [exact Hes|]; unfold IsConnected, view; cbn; by rewrite Hd3).
Qed.

(** [Connect] as it runs between other methods is a schedule of the steps, in
    which others take theirs while it waits. *)
Lemma Connect_is_schedule handle w :
  session_ok (view Idle w) = true -> IsConnected (view Idle w) = false -> others_join ->
  wp (MucClient.Connect handle) (fun o w' => exists es,
    match o with
    | Ret b => run es (view Idle w) = Next (view Idle w') /\ b = IsConnected (view Idle w')
    | _ => run es (view Idle w) = Crash
    end) w.
Proof.
  intros Hs Hi Ho. unfold MucClient.Connect. apply wp_bind.
  eapply wp_conseq; [apply join_is_schedule|]. intros o w1 (-> & Hd1 & Hj & Hn & Hr). cbn [then_post].
  assert (Hup : xmpp_up (wnode w1) = false).
  { destruct (disconnecter (muc (wst w))) eqn:Hd; [by apply Hj|]. rewrite Hn by done.
    by apply (view_down w). }
  destruct (Hr CJoin) as [es Hes].
  assert (Hpre : forall ok, run (CallConnect :: es ++ [User true; User true; User ok]) (view Idle w) =
    user_step ok (with_user CXmpp (with_disconnecting false (view Idle w1)))).
  { intros ok. cbn [run step]. rewrite Hi. rewrite bool_decide_eq_true_2 by done. cbn [andb negb when].
    change (with_user CJoin (view Idle w)) with (view CJoin w).
    rewrite run_app, Hes. unfold view. rewrite Hd1. by destruct (disconnecter (muc (wst w))), ok. }
  do 3 muc_step. pose proof (up_connect (wnode w1)) as Huc. rewrite Hup, orb_false_r in Huc.
  destruct (fst (XmppConnect (wnode w1))) eqn:Hok; cbn [negb].
  - do 4 muc_step.
    + eapply wp_conseq; [apply (enter_is_schedule handle); [|done]|].
      { unfold view. cbn [wst wnode]. rewrite !muc_set, Huc. cbn. rewrite Hd1. by destruct (has _). }
      intros o w2 (b & es' & -> & Hes' & Hb).
      exists ((CallConnect :: es ++ [User true; User true; User true]) ++ es'). split; [|done].
      rewrite run_app, Hpre, <-Hes'. unfold view. cbn [wst wnode]. by rewrite !muc_set, Huc.
    + exists ((CallConnect :: es ++ [User true; User true; User true]) ++ [User true]).
      rewrite run_app, Hpre. unfold view. cbn. rewrite Hd1. by destruct (has _).
  - muc_step. exists (CallConnect :: es ++ [User true; User true; User false]). rewrite Hpre.
    unfold view, IsConnected. cbn [wst wnode]. rewrite !muc_set, Huc, Hup. by rewrite andb_false_r.
Qed.

End methods.

(* ------------------------------------------------------------------ *)
(** ** The theorems at concrete inputs *)

Module SessionWitness.

(** The flags happen to be set at first. *)
Definition s0 : Session := new_Session true true.

(** The session is open, and then the room reports an error. *)
Definition es_failed : list Event := opening ++ [RoomFailed; Handler; Handler; Handler; Handler; Handler].
Definition s_failed : Session := mkSession true true true false Idle HIdle WLeave.

(** [Connect] waits for the room. *)
Definition es_waiting : list Event :=
  [CallConnect; User true; User true; User true; User true; User true; User true].
Definition s_waiting : Session := mkSession true true false true CAsleep HIdle NoThread.

Lemma session_safe_witness :
  run es_failed s0 = Next s_failed /\ run es_failed s0 <> Crash /\
  run (es_failed ++ [CallConnect; Worker; Worker; Worker; Worker; User true; User true; User true;
    User true]) s0 <> Crash.
Proof.
  assert (Hr : run es_failed s0 = Next s_failed) by (vm_compute; reflexivity).
  assert (Hc : calm_along es_failed s0 = true) by (vm_compute; reflexivity).
  split; [done|]. split.
  - exact (proj1 (session_safe true true es_failed Hc)).
  - apply (session_safe true true). vm_compute. reflexivity.
Defined.

(** The handler and the disconnecter finish, and [Connect] returns. *)
Definition es_end : list Event :=
  [Handler; Handler; Handler; Handler; Handler; User true; User true; Worker; Worker; Worker; Worker].
Definition s_end : Session := mkSession false false false false Idle HIdle Finished.

Lemma session_settles_witness :
  step RoomFailed s_waiting = Next (with_handler HTest s_waiting) /\ user s_end = Idle.
Proof.
  assert (Hc : calm_along es_waiting s0 = true) by (vm_compute; reflexivity).
  assert (Hr : run es_waiting s0 = Next s_waiting) by (vm_compute; reflexivity).
  assert (He : run es_end (with_handler HTest s_waiting) = Next s_end) by (vm_compute; reflexivity).
  assert (Hce : calm_along es_end (with_handler HTest s_waiting) = true) by (vm_compute; reflexivity).
  assert (Hs : step RoomFailed s_waiting = Next (with_handler HTest s_waiting)) by (vm_compute; reflexivity).
  destruct (session_settles true true es_waiting s_waiting Hc Hr) as (_ & _ & Hcb).
  destruct (Hcb eq_refl ltac:(discriminate) RoomFailed (or_introl eq_refl)) as (s1 & Hs1 & Hend).
  split; [done|]. rewrite Hs in Hs1. injection Hs1 as <-.
  by apply (Hend es_end s_end eq_refl Hce He).
Defined.

Lemma lost_connection_crashes_witness :
  run (opening ++ reconnection) s0 = Crash.
Proof.
  assert (Hr : run opening s0 = Next (mkSession true true false false Idle HIdle NoThread))
    by (vm_compute; reflexivity).
  rewrite run_app, Hr. apply (lost_connection_crashes true true opening _ ltac:(vm_compute; reflexivity) Hr); vm_compute; reflexivity.
Defined.

End SessionWitness.
