(* ===== verification/Daemon.v ===== *)
(** * The daemon

    [src/src/daemon.cpp] puts the components together: one process has the
    shared state, the authenticator, the book of other users' orders and the
    XMPP client.  It validates orders with the game, announces the own orders
    in the room, feeds received orders and private messages to the components
    and sends their replies.  The other operations of the class are what the
    JSON-RPC interface ([src/src/rpcserver.cpp]) calls. *)

From Stdlib Require Import ZArith Lia String.
From stdpp Require Import base gmap strings list sorting fin_maps.
From S2P Require Import Prelude Json Proto Effects Mock Checker MyOrders Trades TradeSafety.
From S2P Require Import TradeManager Threads Authenticator OrderBook JsonCodec MucClient.

(** The command-line flags of the daemon, in milliseconds. *)
Class DaemonFlags := {
  FLAGS_democrit_order_timeout_ms : Z;
  FLAGS_democrit_reconnect_ms : Z;
  FLAGS_democrit_xid_servers : string
}.

Definition default_daemon_flags : DaemonFlags := {|
  FLAGS_democrit_order_timeout_ms := 10 * 60 * 1000;
  FLAGS_democrit_reconnect_ms := 10 * 1000;
  FLAGS_democrit_xid_servers := "chat.xaya.io"
|}.

(** [Daemon::Impl]; [reconnecter] says whether the reconnecting thread has
    been started. *)
Record Process `{JidLib} := mkProcess {
  d_state : State;
  d_auth : Authenticator;
  d_book : OrderBook;
  d_muc : Muc;
  d_reconnecter : bool
}.
Arguments mkProcess {_} _ _ _ _ _.
Arguments d_state {_} _.
Arguments d_auth {_} _.
Arguments d_book {_} _.
Arguments d_muc {_} _.
Arguments d_reconnecter {_} _.

Section instances.
Context `{JidLib}.

Definition set_state (x : State) (p : Process) : Process :=
  mkProcess x (d_auth p) (d_book p) (d_muc p) (d_reconnecter p).
Definition set_auth (x : Authenticator) (p : Process) : Process :=
  mkProcess (d_state p) x (d_book p) (d_muc p) (d_reconnecter p).
Definition set_book (x : OrderBook) (p : Process) : Process :=
  mkProcess (d_state p) (d_auth p) x (d_muc p) (d_reconnecter p).
Definition set_muc_of (x : Muc) (p : Process) : Process :=
  mkProcess (d_state p) (d_auth p) (d_book p) x (d_reconnecter p).
Definition set_reconnecter (x : bool) (p : Process) : Process :=
  mkProcess (d_state p) (d_auth p) (d_book p) (d_muc p) x.

#[export] Instance process_state : HasState Process := {| proj := d_state; inj := set_state |}.
#[export] Instance process_state_laws : HasStateLaws Process.
Proof. split; [done|by intros []|done]. Qed.

#[export] Instance process_muc : HasMuc Process := {| muc := d_muc; set_muc := set_muc_of |}.
#[export] Instance process_muc_laws : HasMucLaws (S0 := Process).
Proof. split; [done|by intros []|done]. Qed.

End instances.

Section daemon.
Context `{JsonLib} `{!Uint256Lib} `{!AmountLib} `{!ProtoRuntime} `{!JidLib} `{!RoomJidLib}
  {Node : Type} `{!XayaRpc Node} `{!DemGspRpc Node} `{!AssetSpec Node} `{!Clock Node}
  `{!SteadyClock Node} `{!XmppClient Node} `{!Flags} `{!DaemonFlags}.

Definition in_auth {A} (m : M Node Authenticator A) : M Node Process A := zoom d_auth set_auth m.
Definition in_book_of {A} (m : M Node OrderBook A) : M Node Process A := zoom d_book set_book m.

(** ** Validation and announcements *)

Definition ImplValidateOrder {S} (account : string) (o : Order) : M Node S bool :=
  if max_units_of o =? 0 then mret false
  else if has (o_min_units o) && (min_units_of o =? 0) then mret false
  else if has (o_min_units o) && (max_units_of o <? min_units_of o) then mret false
  else if negb (has (o_price_sat o)) then mret false
  else
    asset ← IsAsset (asset_of o);
    if negb asset then mret false
    else
      match type_of o with
      | BID => CanBuy account (asset_of o) (s64 (max_units_of o))
      | ASK => hash ← CanSell account (asset_of o) (s64 (max_units_of o)); mret (has hash)
      end.

(** [MyOrdersImpl]: the hooks of the own orders. *)
#[export] Instance my_orders_hooks : OrderHooks Node Process := {
  ValidateOrder := ImplValidateOrder;
  UpdateOrders ownOrders :=
    s ← ReadState (fun s => s);
    check (String.eqb (default "" (oa_account ownOrders)) (acct s));;
    connected ← IsConnected;
    if negb connected then mret tt
    else PublishMessage [AccountOrdersStanza ownOrders]
}.

(** ** Messages *)

Definition SendProcessingMessage (msg : ProcessingMessage) : M Node Process unit :=
  receiver ← in_auth (LookupJid (msg_counterparty msg));
  match receiver with
  | None => mret tt
  | Some receiver =>
      SendMessage receiver [ProcessingMessageStanza (with_msg_counterparty None msg)]
  end.

(** The loop over the received orders. *)
Fixpoint valid_orders (account : string) (l : list (Z * Order)) (orders : gmap Z Order)
  : M Node Process (gmap Z Order) :=
  match l with
  | [] => mret orders
  | (id, o) :: l' =>
      valid ← ImplValidateOrder account o;
      if valid : bool then valid_orders account l' (map_insert orders id o)
      else valid_orders account l' orders
  end.

Definition valid_ext {P} (e : option (ProtoStanza P)) : option P :=
  match e with
  | Some s => if valid s then Some (data s) else None
  | None => None
  end.

Definition ImplHandleMessage (sender : JID) (msg : Stanza) : M Node Process unit :=
  account ← in_auth (Authenticate sender);
  match account with
  | None => mret tt
  | Some account =>
      match valid_ext (ext_orders msg) with
      | None => mret tt
      | Some d =>
          orders ← valid_orders account (iter (oa_orders d)) ∅;
          in_book_of (UpdateBook (mkOrdersOfAccount (Some account) orders))
      end
  end.

Definition ImplHandlePrivate (sender : JID) (msg : Stanza) : M Node Process unit :=
  account ← in_auth (Authenticate sender);
  match account with
  | None => mret tt
  | Some account =>
      match valid_ext (ext_processing msg) with
      | None => mret tt
      | Some d =>
          reply ← ProcessMessage (with_msg_counterparty (Some account) d);
          match reply with
          | Some reply => SendProcessingMessage reply
          | None => mret tt
          end
      end
  end.

Definition ImplHandleDisconnect (disconnected : JID) : M Node Process unit :=
  account ← in_auth (Authenticate disconnected);
  match account with
  | None => mret tt
  | Some account => in_book_of (UpdateBook (mkOrdersOfAccount (Some account) ∅))
  end.

(** The handlers of the XMPP client; [others] is what the other threads do
    while the client joins the room. *)
Definition impl_hooks (others : M Node Process unit) : MucHooks Node Process := {|
  HandleMessage := ImplHandleMessage;
  HandlePrivate := ImplHandlePrivate;
  HandleDisconnect := ImplHandleDisconnect;
  until_joined := others
|}.

(** ** Construction and the public operations *)

Definition ticks (ms : Z) : Z := ms * 1000000.

(** [disc] and [join] are what [MucClient] finds in its uninitialised flags. *)
Definition new_Process (disc join : bool) (account : string) (mucRoom : JID) : Process :=
  mkProcess (initial_state account) (new_Authenticator FLAGS_democrit_xid_servers)
    (new_OrderBook (ticks FLAGS_democrit_order_timeout_ms)) (new_Muc disc join mucRoom) false.

(** The checks of the constructor, on the process it builds. *)
Definition start (account : string) (jid : JID) : M Node Process unit :=
  jidAccount ← in_auth (Authenticate jid);
  jidAccount ← check_some jidAccount;
  check (String.eqb jidAccount account).

Definition read_reconnecter : M Node Process bool := fun w => (Ret (d_reconnecter (wst w)), w).

Definition DaemonConnect (others : M Node Process unit) (handle : Z) : M Node Process unit :=
  r ← read_reconnecter;
  check (negb r);;
  MucClient.Connect (MucHooks0 := impl_hooks others) handle;;
  modify (set_reconnecter true).

(** One run of the reconnecting thread's job. *)
Definition reconnect (others : M Node Process unit) (handle : Z) : M Node Process unit :=
  connected ← IsConnected;
  if connected : bool then mret tt
  else MucClient.Connect (MucHooks0 := impl_hooks others) handle;; mret tt.

Definition GetOrdersForAsset (asset : string) : M Node Process OrderbookForAsset :=
  in_book_of (GetForAsset asset).
Definition GetOrdersByAsset : M Node Process OrderbookByAsset := in_book_of GetByAsset.
Definition AddOrder (o : Order) : M Node Process bool := Add o.
Definition CancelOrder (id : Z) : M Node Process unit := RemoveById id.
Definition GetOwnOrders : M Node Process OrdersOfAccount := GetOrders.
Definition DaemonGetTrades : M Node Process (list TradeInfo) := GetTrades.
Definition DaemonTakeOrder (o : Order) (units : Z) : M Node Process bool :=
  msg ← TakeOrder o units;
  match msg with
  | None => mret false
  | Some msg => SendProcessingMessage msg;; mret true
  end.
Definition GetAccount : M Node Process string := ReadState acct.
Definition GetAssetSpec : string := GetGameId.

(** ** The JSON-RPC interface *)

(** [ERROR_RPC_INVALID_PARAMS], which the RPC library reports to the caller. *)
Definition invalid_order {A} : M Node Process A := throw (JsonRpcException "invalid order").

Definition getstatus : M Node Process Json :=
  connected ← IsConnected;
  let res := jset jobject "connected" (jbool connected) in
  let res := jset res "gameid" (jstr GetAssetSpec) in
  account ← GetAccount;
  mret (jset res "account" (jstr account)).

Definition getordersforasset (asset : string) : M Node Process Json :=
  orders ← GetOrdersForAsset asset;
  lift_outcome (proto_to_json orders).

Definition getordersbyasset : M Node Process Json :=
  orders ← GetOrdersByAsset;
  lift_outcome (proto_to_json orders).

Definition getownorders : M Node Process Json :=
  orders ← GetOwnOrders;
  lift_outcome (proto_to_json orders).

Definition addorder (order : Json) : M Node Process bool :=
  o ← lift_outcome (OrderFromJson order);
  match o with
  | None => invalid_order
  | Some o => AddOrder o
  end.

(** The parameter is an [int], converted to [uint64_t]. *)
Definition cancelorder (id : Z) : M Node Process Json :=
  CancelOrder (u64 (s32 id));;
  mret jnull.

Fixpoint append_trades (l : list TradeInfo) (res : Json) : outcome Json :=
  match l with
  | [] => mret res
  | t :: l' => cur ← proto_to_json t; append_trades l' (jappend res cur)
  end.

Definition gettrades : M Node Process Json :=
  trades ← DaemonGetTrades;
  lift_outcome (append_trades trades jarray).

Definition takeorder (order : Json) (units : Z) : M Node Process bool :=
  o ← lift_outcome (OrderFromJson order);
  match o with
  | None => invalid_order
  | Some o => DaemonTakeOrder o (s32 units)
  end.

End daemon.

(* ------------------------------------------------------------------ *)
(** ** What the components' operations do to the rest of the process *)

Section frames.
Context `{JsonLib} `{!JsonLaws} `{!Uint256Lib} `{!AmountLib} `{!ProtoRuntime} `{!JidLib}
  `{!RoomJidLib} {Node : Type} `{!XayaRpc Node} `{!DemGspRpc Node} `{!AssetSpec Node}
  `{!Clock Node} `{!SteadyClock Node} `{!XmppClient Node} `{!Flags} `{!DaemonFlags}.
Implicit Types w : World Node Process.

(** Only the state and the messages sent change; the messages added are
    broadcasts of own orders. *)
Definition announcement (m : Outgoing) : Prop :=
  exists rm os, m = Groupchat rm [AccountOrdersStanza os].

Record only_announces (w w' : World Node Process) : Prop := mkOnlyAnnounces {
  oa_auth : d_auth (wst w') = d_auth (wst w);
  oa_book : d_book (wst w') = d_book (wst w);
  oa_muc : exists l, d_muc (wst w') = with_outbox (outbox (d_muc (wst w)) ++ l) (d_muc (wst w)) /\
    Forall announcement l
}.

#[export] Instance only_announces_preorder : PreOrder only_announces.
Proof.
  split.
  - intros w. split; [done..|]. exists []. rewrite app_nil_r. split; [|constructor].
    by destruct (d_muc (wst w)).
  - intros w1 w2 w3 [Ha Hb (l & Hm & Hl)] [Ha' Hb' (l' & Hm' & Hl')]. split; [congruence..|].
    exists (l ++ l'). rewrite Hm', Hm. cbn. rewrite app_assoc. split; [done|]. by apply Forall_app.
Qed.

Lemma announces_AccessState {A} (m : M Node State A) :
  steps only_announces (AccessState (S := Process) m).
Proof.
  intros w. unfold AccessState, zoom. destruct (m _) as [o [s n t]]. cbn.
  split; [done..|]. exists []. rewrite app_nil_r. split; [|constructor]. cbn. by destruct (d_muc (wst w)).
Qed.

Lemma announces_same {A} (m : M Node Process A) :
  (forall w, wst (snd (m w)) = wst w) -> steps only_announces m.
Proof.
  intros Hm w. split; [by rewrite Hm..|]. rewrite Hm. exists []. rewrite app_nil_r.
  split; [|constructor]. by destruct (d_muc (wst w)).
Qed.

Lemma announces_ReadState {A} (f : State -> A) : steps only_announces (ReadState (S := Process) f).
Proof. by apply announces_same. Qed.

Lemma announces_time : steps only_announces (GetCurrentTime (S := Process)).
Proof. apply announces_same. intros w. unfold GetCurrentTime. by destruct (clock_now _). Qed.

Lemma announces_IsConnected : steps only_announces IsConnected.
Proof.
  apply announces_same. intros w. unfold IsConnected, read_muc, is_connected, mbind, M_bind.
  destruct (disconnecting _); [done|]. by destruct (XmppIsConnected _).
Qed.

Lemma announces_Publish os : steps only_announces (PublishMessage [AccountOrdersStanza os]).
Proof.
  unfold PublishMessage, send. apply steps_bind; [typeclasses eauto|by apply announces_same|].
  intros rm. apply steps_bind; [typeclasses eauto|apply announces_IsConnected|].
  intros c. apply steps_bind; [typeclasses eauto|apply steps_check; typeclasses eauto|].
  intros _ w. split; [done..|]. eexists [_]. split; [done|]. repeat constructor. by eexists _, _.
Qed.

Lemma announces_UpdateOrders os : steps only_announces (UpdateOrders (S := Process) os).
Proof.
  cbn [UpdateOrders my_orders_hooks]. apply steps_bind; [typeclasses eauto|apply announces_ReadState|].
  intros s. apply steps_bind; [typeclasses eauto|apply steps_check; typeclasses eauto|].
  intros _. apply steps_bind; [typeclasses eauto|apply announces_IsConnected|].
  intros [|]; [apply announces_Publish|apply steps_ret; typeclasses eauto].
Qed.

Hint Resolve announces_AccessState announces_ReadState announces_time announces_UpdateOrders : dem.

(** Walk through an operation of the process. *)
Ltac announces :=
  repeat lazymatch goal with
  | |- forall _, _ => intro
  | |- steps _ (_ ≫= _) => apply steps_bind; [typeclasses eauto| |]
  | |- steps _ (mret _) => apply steps_ret; typeclasses eauto
  | |- steps _ (check _) => apply steps_check; typeclasses eauto
  | |- steps _ (let _ := _ in _) => cbv zeta
  | |- steps _ (match _ with _ => _ end) => case_match
  | |- steps _ _ => solve [eauto with dem]
  end.

Lemma announces_RunRefresh : steps only_announces (RunRefresh (S := Process)).
Proof. unfold RunRefresh. announces. Qed.
Hint Resolve announces_RunRefresh : dem.

Lemma announces_TryLock id : steps only_announces (TryLock (S := Process) id).
Proof. unfold TryLock. announces. Qed.

Lemma announces_Unlock id : steps only_announces (Unlock (S := Process) id).
Proof. unfold Unlock. announces. Qed.

Lemma announces_OrderTaken o units cp : steps only_announces (OrderTaken (S := Process) o units cp).
Proof. unfold OrderTaken. announces. Qed.
Hint Resolve announces_TryLock announces_Unlock announces_OrderTaken : dem.

Lemma announces_accept_taking_order msg : steps only_announces (accept_taking_order (S := Process) msg).
Proof. unfold accept_taking_order. announces. Qed.
Hint Resolve announces_accept_taking_order : dem.

Lemma announces_ProcessMessage msg : steps only_announces (ProcessMessage (S := Process) msg).
Proof. unfold ProcessMessage. announces. Qed.

Lemma announces_TakeOrder o units : steps only_announces (TakeOrder (S := Process) o units).
Proof. unfold TakeOrder. announces. Qed.

(** The hooks of the daemon are as the threads of a process need them, so the
    theorems of [ThreadSafety] are about [Process]. *)
Lemma unsigned_ImplValidateOrder {S} a o :
  steps (Node := Node) (S := S) (only_calls unsigned) (ImplValidateOrder a o).
Proof. unfold ImplValidateOrder. steps_auto; done. Qed.

(** Announcing changes neither the state proto nor the log of calls. *)
Definition only_sends (w w' : World Node Process) : Prop :=
  d_state (wst w') = d_state (wst w) /\ wtrace w' = wtrace w.

#[export] Instance only_sends_preorder : PreOrder only_sends.
Proof. split; [done|]. intros w1 w2 w3 [Hs Ht] [Hs' Ht']. split; congruence. Qed.

Lemma only_sends_UpdateOrders os : steps only_sends (UpdateOrders (S := Process) os).
Proof.
  assert (Hc : steps only_sends (IsConnected (S := Process))).
  { intros w. unfold IsConnected, read_muc, is_connected, mbind, M_bind.
    destruct (disconnecting _); [done|]. by destruct (XmppIsConnected _). }
  cbn [UpdateOrders my_orders_hooks]. apply steps_bind; [typeclasses eauto|done|intros s].
  apply steps_bind; [typeclasses eauto|apply steps_check; typeclasses eauto|intros _].
  apply steps_bind; [typeclasses eauto|exact Hc|intros [|]]; cbn [negb];
    [|apply steps_ret; typeclasses eauto].
  unfold PublishMessage, send. apply steps_bind; [typeclasses eauto|done|intros rm].
  apply steps_bind; [typeclasses eauto|exact Hc|intros c].
  apply steps_bind; [typeclasses eauto|apply steps_check; typeclasses eauto|]. by intros _ w.
Qed.

#[export] Instance daemon_calm : CalmHooks Node Process.
Proof.
  split; [intros; apply unsigned_ImplValidateOrder|].
  intros os w. destruct (only_sends_UpdateOrders os w) as [Hs Ht]. split; [exact Hs|].
  exists []. by rewrite app_nil_r.
Qed.

(** A reply is for the counterparty whose message was processed. *)
Lemma summary_counterparty account checker pb o pb' l r :
  reply_summary account checker pb o pb' l -> o = Ret (Some r) ->
  pm_counterparty r = Some (counterparty_of pb).
Proof.
  intros Hs Ho. destruct Hs as [o l Hs|*|o p l _ Hs|*|o pb1 la lb _ _ Hs|*|pb1 la lb [m|x]];
    try (by injection Ho as <-); try discriminate Ho; specialize (Hs _ Ho); discriminate Hs.
Qed.

Lemma wp_process_counterparty account msg t n tr :
  Matches t msg = true ->
  wp (process_for account msg (BuildTradeChecker account t))
    (fun o _ => forall r, o = Ret (Some r) -> pm_counterparty r = Some (msg_counterparty msg))
    (mkWorld t n tr).
Proof.
  intros Hm. unfold process_for. wp_step. wp_step. wp_step.
  destruct (checker_widths account t) as [Hp Hu].
  eapply wp_conseq; [apply (HasReply_summary account _ (mkWorld (HandleTradeMessage account msg t) n tr) Hp Hu)|].
  cbn [wst wtrace]. intros o w' (l & _ & Hs).
  assert (Hc : forall r, o = Ret (Some r) -> pm_counterparty r = Some (msg_counterparty msg)).
  { intros r Ho. rewrite (summary_counterparty _ _ _ _ _ _ _ Hs Ho).
    unfold Matches in Hm. apply andb_true_iff in Hm as [Hc _].
    unfold counterparty_of at 1. rewrite (ev_counterparty _ _ (message_evolves account msg t)).
    apply String.eqb_eq in Hc. unfold counterparty_of in Hc. by f_equal. }
  destruct o as [r|[]|]; [exact Hc|by wp_step|exact Hc..].
Qed.

End frames.

(* ------------------------------------------------------------------ *)
(** ** Private messages *)

Section private.
Context `{JsonLib} `{!JsonLaws} `{!Uint256Lib} `{!AmountLib} `{!ProtoRuntime} `{!JidLib}
  `{!RoomJidLib} {Node : Type} `{!XayaRpc Node} `{!DemGspRpc Node} `{!AssetSpec Node}
  `{!Clock Node} `{!SteadyClock Node} `{!XmppClient Node} `{!Flags} `{!DaemonFlags}.
Implicit Types w : World Node Process.

Lemma wp_announces {A} (m : M Node Process A) (R : outcome A -> World Node Process -> Prop)
    (Q : outcome A -> World Node Process -> Prop) w :
  steps only_announces m -> wp m R w ->
  (forall o w', only_announces w w' -> R o w' -> Q o w') -> wp m Q w.
Proof.
  intros Hs HR HQ. specialize (Hs w). unfold wp in *. destruct (m w) as [o w']. by apply HQ.
Qed.

Lemma wp_ProcessMessage_reply msg w :
  wp (ProcessMessage msg)
    (fun o _ => forall r, o = Ret (Some r) -> pm_counterparty r = Some (msg_counterparty msg)) w.
Proof.
  unfold ProcessMessage, process_locked. wp_step. wp_step; [|done]. apply wp_bind, wp_intro. intros [ok|e|] w1 _; [|done..].
  cbn [then_post]. destruct ok; cbn [negb]; [|by wp_step]. wp_step. wp_step. wp_step.
  destruct (find_match msg (st_trades (proj (wst w1))) 0) as [i|] eqn:Hf; [|by wp_step].
  apply find_match_Some in Hf as (t & _ & Hi & Hm & _). rewrite Nat.sub_0_r in Hi.
  wp_step. rewrite (trade_at_lookup _ _ _ Hi).
  eapply wp_conseq; [by apply wp_process_counterparty|]. done.
Qed.

(** A message sent to a JID that is known for its counterparty. *)
Lemma wp_SendProcessingMessage m w (Q : outcome unit -> World Node Process -> Prop) :
  (knownJids (d_auth (wst w)) !! msg_counterparty m = None -> Q (Ret tt) w) ->
  (forall jid n, knownJids (d_auth (wst w)) !! msg_counterparty m = Some jid ->
     XmppIsConnected (wnode w) = (true, n) ->
     Q (Ret tt) (mkWorld (set_muc_of (with_outbox (outbox (d_muc (wst w)) ++
       [Direct jid [ProcessingMessageStanza (with_msg_counterparty None m)]]) (d_muc (wst w))) (wst w))
       n (wtrace w))) ->
  (forall jid w', knownJids (d_auth (wst w)) !! msg_counterparty m = Some jid ->
     wst w' = wst w -> wtrace w' = wtrace w -> Q Fatal w') ->
  wp (SendProcessingMessage m) Q w.
Proof.
  intros Hnone Hsome Hoff. unfold SendProcessingMessage. wp_step. unfold in_auth. wp_step.
  unfold LookupJid. wp_step. wp_step. wp_step. cbn [wst].
  assert (Hid : mkWorld (set_auth (d_auth (wst w)) (wst w)) (wnode w) (wtrace w) = w)
    by (destruct w as [[] ? ?]; done).
  rewrite Hid. destruct (knownJids (d_auth (wst w)) !! msg_counterparty m) as [jid|] eqn:Hk;
    [|by wp_step; apply Hnone].
  unfold SendMessage, send, IsConnected. wp_step. wp_step. apply wp_read_muc. cbn [then_post].
  destruct (disconnecting (muc (wst w))).
  - wp_step. wp_step. wp_step; [done|]. by eapply Hoff.
  - unfold wp at 1, is_connected. destruct (XmppIsConnected (wnode w)) as [b n] eqn:Hx. cbn [then_post].
    wp_step. wp_step; [|by eapply Hoff]. apply wp_in_muc_modify. apply Hsome; cbn; congruence.
Qed.

(** C25: a private message is answered to its sender and nobody else: handling
    it sends, next to broadcasts of the own orders, at most one direct
    message, and that one goes to the JID the message came from, with the
    internal counterparty field removed; the book of others' orders does not
    change, and a sender that is not authenticated changes nothing at all. *)
Theorem private_reply_to_sender sender msg w o w' :
  ImplHandlePrivate sender msg w = (o, w') ->
  d_book (wst w') = d_book (wst w) /\
  exists l r, outbox (d_muc (wst w')) = outbox (d_muc (wst w)) ++ l ++ r /\ Forall announcement l /\
    (r = [] \/ exists m, r = [Direct sender [ProcessingMessageStanza m]] /\ pm_counterparty m = None) /\
    ((forall account, jid_of (xidServers (d_auth (wst w))) account sender = false) ->
       o = Ret tt /\ wst w' = wst w).
Proof.
  intros Hr. by_wp Hr. unfold ImplHandlePrivate. wp_step. unfold in_auth at 1. wp_step.
  apply wp_Authenticate; cbn [wst wnode wtrace].
  - intros account Hacc. cbn [then_post].
    assert (Hvac : forall P : Prop, (forall a, jid_of (xidServers (d_auth (wst w))) a sender = false) -> P)
      by (intros P Hn; rewrite Hn in Hacc; done).
    destruct (valid_ext _) as [d|]; [|wp_step; split; [done|]; exists [], []; rewrite app_nil_r;
      split_and!; [done|done|by left|apply Hvac]].
    wp_step. eapply wp_announces; [apply announces_ProcessMessage|apply wp_ProcessMessage_reply|].
    cbn [wst]. intros r w1 [Ha Hb (l & Hm & Hl)] Hcp. cbn in Ha, Hb, Hm.
    assert (Hout : outbox (d_muc (wst w1)) = outbox (d_muc (wst w)) ++ l) by (by rewrite Hm).
    assert (Hdone : forall (x : outcome unit) w2, wst w2 = wst w1 -> d_book (wst w2) = d_book (wst w) /\
      exists l r, outbox (d_muc (wst w2)) = outbox (d_muc (wst w)) ++ l ++ r /\ Forall announcement l /\
      (r = [] \/ exists m, r = [Direct sender [ProcessingMessageStanza m]] /\ pm_counterparty m = None) /\
      ((forall account, jid_of (xidServers (d_auth (wst w))) account sender = false) ->
         x = Ret tt /\ wst w2 = wst w)).
    { intros x w2 Hw2. rewrite Hw2. split; [done|]. exists l, []. rewrite app_nil_r.
      split_and!; [done|done|by left|apply Hvac]. }
    destruct r as [[reply|]|e|]; cbn [then_post]; [|wp_step; by apply Hdone|by apply Hdone..].
    specialize (Hcp reply eq_refl). change (msg_counterparty _) with account in Hcp.
    assert (Hk : knownJids (d_auth (wst w1)) !! msg_counterparty reply = Some sender).
    { unfold msg_counterparty. rewrite Ha, Hcp. apply lookup_insert_eq. }
    apply wp_SendProcessingMessage; rewrite Hk.
    + done.
    + intros jid n [= <-] _. split; [done|]. exists l, [Direct sender [ProcessingMessageStanza (with_msg_counterparty None reply)]].
      cbn. rewrite Hout, <-app_assoc. split; [done|]. split; [done|]. split; [|apply Hvac].
      right. by eexists.
    + intros jid w2 _ Hw2 _. by apply Hdone.
  - intros Hno. cbn [then_post]. wp_step. split; [done|]. exists [], []. rewrite app_nil_r.
    split_and!; auto. intros _. split; [done|]. cbn. by destruct (wst w).
Qed.

(** Taking an order while the XMPP connection is down aborts the process,
    if the order's account was seen before: the trade is created first, and
    sending its message demands a connection. *)
Theorem taking_order_offline_aborts o units msg jid w w1 n :
  TakeOrder o units w = (Ret (Some msg), w1) ->
  knownJids (d_auth (wst w)) !! account_of o = Some jid ->
  XmppIsConnected (wnode w1) = (false, n) ->
  exists w', DaemonTakeOrder o units w = (Fatal, w') /\
    length (st_trades (d_state (wst w'))) = Datatypes.S (length (st_trades (d_state (wst w)))).
Proof.
  intros Ht Hk Hx.
  destruct (announces_TakeOrder o units w) as [Ha _ _]. rewrite Ht in Ha. cbn [snd] in Ha.
  assert (Hs : wp (TakeOrder o units) (fun r w' => r = Ret (Some msg) ->
    msg_counterparty msg = account_of o /\
    length (st_trades (d_state (wst w'))) = Datatypes.S (length (st_trades (d_state (wst w))))) w).
  { apply wp_TakeOrder; [intros r w2 _ Hsil Hr; by specialize (Hsil _ Hr)|].
    intros now t reply w2 _ _ t0 Hreply Hp [= <-]. split.
    - by destruct Hreply as [[-> ->]|(sd & _ & _ & -> & ->)].
    - change (d_state (wst w2)) with (proj (wst w2)). rewrite Hp. cbn. rewrite length_app. cbn. lia. }
  destruct (wp_run_eq _ _ _ _ _ Hs Ht eq_refl) as [Hcp Hlen].
  assert (Hwp : wp (SendProcessingMessage msg) (fun o w' => o = Fatal /\ wst w' = wst w1) w1).
  { apply wp_SendProcessingMessage; rewrite Ha, Hcp, Hk; [done|congruence|done]. }
  unfold DaemonTakeOrder, mbind, M_bind. rewrite Ht. unfold wp in Hwp.
  destruct (SendProcessingMessage msg w1) as [r w2]. destruct Hwp as [-> Hw2].
  exists w2. split; [done|]. by rewrite Hw2.
Qed.

End private.

(* ------------------------------------------------------------------ *)
(** ** Orders, for a game and a connection that answer stably *)

Section orders.
Context `{JsonLib} `{!JsonLaws} `{!Uint256Lib} `{!AmountLib} `{!ProtoRuntime}
  `{!ProtoRuntimeLaws} `{!JidLib} `{!RoomJidLib} {Node : Type} `{!XayaRpc Node}
  `{!DemGspRpc Node} `{!AssetSpec Node} `{!Clock Node} `{!SteadyClock Node}
  `{!XmppClient Node} `{!Flags} `{!DaemonFlags}.

(** The game answers queries by fixed functions, about the assets it has. *)
Class StableGame (asset : string -> bool) (sell : string -> string -> Z -> option U256)
    (buy : string -> string -> Z -> bool) : Prop := {
  stable_asset a n : spec_is_asset a n = (Ret (asset a), n);
  stable_sell nm a k n : asset a = true -> spec_can_sell nm a k n = (Ret (sell nm a k), n);
  stable_buy nm a k n : asset a = true -> spec_can_buy nm a k n = (Ret (buy nm a k), n)
}.

Context (asset : string -> bool) (sell : string -> string -> Z -> option U256)
  (buy : string -> string -> Z -> bool) `{!StableGame asset sell buy}.

(** What makes an order of an account valid. *)
Definition valid_order (account : string) (o : Order) : bool :=
  negb (max_units_of o =? 0) &&
  match o_min_units o with
  | Some m => negb (m =? 0) && (m <=? max_units_of o)
  | None => true
  end &&
  has (o_price_sat o) && asset (asset_of o) &&
  match type_of o with
  | ASK => has (sell account (asset_of o) (s64 (max_units_of o)))
  | BID => buy account (asset_of o) (s64 (max_units_of o))
  end.

Lemma wp_ImplValidateOrder {S} account o (w : World Node S)
    (Q : outcome bool -> World Node S -> Prop) :
  (forall l, Q (Ret (valid_order account o)) (mkWorld (wst w) (wnode w) (wtrace w ++ l))) ->
  wp (ImplValidateOrder account o) Q w.
Proof.
  intros HQ. assert (HQ0 : Q (Ret (valid_order account o)) w) by (rewrite <-world_id; apply HQ).
  unfold ImplValidateOrder, valid_order in *.
  destruct (max_units_of o =? 0); cbn [negb andb] in *; [by wp_step|].
  assert (Hmin : (if has (o_min_units o) && (min_units_of o =? 0) then false
      else negb (has (o_min_units o) && (max_units_of o <? min_units_of o))) =
    match o_min_units o with
    | Some m => negb (m =? 0) && (m <=? max_units_of o) | None => true end).
  { unfold min_units_of. destruct (o_min_units o) as [m|]; [|done]. cbn.
    destruct (m =? 0); [done|]. cbn. by rewrite Z.leb_antisym. }
  rewrite <-Hmin in *. clear Hmin.
  destruct (has (o_min_units o) && (min_units_of o =? 0)); cbn [andb] in *; [by wp_step|].
  destruct (has (o_min_units o) && (max_units_of o <? min_units_of o)); cbn [negb andb] in *; [by wp_step|].
  destruct (has (o_price_sat o)); cbn [negb andb] in *; [|by wp_step].
  wp_step. apply wp_IsAsset. rewrite stable_asset. intros r n [= <- <-]. cbn [then_post].
  destruct (asset (asset_of o)) eqn:Hasset; cbn [negb andb] in *; [|by wp_step].
  destruct (type_of o).
  - wp_step. apply wp_CanSell. rewrite stable_sell by done. intros r n [= <- <-]. cbn [then_post wst wnode wtrace].
    wp_step. rewrite <-app_assoc. apply HQ.
  - apply wp_CanBuy. rewrite stable_buy by done. intros r n [= <- <-]. cbn [wst wnode wtrace].
    rewrite <-app_assoc. apply HQ.
Qed.

Lemma wp_valid_orders account l m (w : World Node Process)
    (Q : outcome (gmap Z Order) -> World Node Process -> Prop) :
  (forall tr, Q (Ret (m ∪ list_to_map (filter (fun e => valid_order account e.2 = true) l)))
     (mkWorld (wst w) (wnode w) tr)) ->
  wp (valid_orders account l m) Q w.
Proof.
  revert m w. induction l as [|[id o] l IH]; intros m w HQ; cbn [valid_orders].
  { wp_step. cbn in HQ. rewrite (right_id_L ∅ (∪)) in HQ. destruct w. apply HQ. }
  apply wp_bind, wp_ImplValidateOrder. intros tr. cbn [then_post].
  destruct (valid_order account o) eqn:Hv.
  - rewrite filter_cons_True in HQ by done. apply IH. intros tr'. rewrite map_insert_union. apply HQ.
  - rewrite filter_cons_False in HQ by (cbn; congruence). apply IH. intros tr'. apply HQ.
Qed.

(** The orders of a message that are kept. *)
Definition kept (account : string) (m : gmap Z Order) : gmap Z Order :=
  filter (fun e => valid_order account e.2 = true) m.

Lemma wp_ImplHandleMessage sender msg w t n now (Q : outcome unit -> World Node Process -> Prop) :
  steady_now (wnode w) = (t, n) -> now <= t -> book_ok now (d_book (wst w)) ->
  (forall account d w', jid_of (xidServers (d_auth (wst w))) account sender = true ->
     valid_ext (ext_orders msg) = Some d ->
     d_auth (wst w') = mkAuthenticator (xidServers (d_auth (wst w)))
       (<[account := sender]> (knownJids (d_auth (wst w)))) ->
     d_state (wst w') = d_state (wst w) -> d_muc (wst w') = d_muc (wst w) ->
     (map_Forall (fun _ x => order_complete x = true) (kept account (oa_orders d)) ->
      book_ok t (d_book (wst w')) ->
      ob_orders (d_book (wst w')) =
        spec_update account (kept account (oa_orders d)) t (ob_orders (d_book (wst w))) ->
      Q (Ret tt) w') /\
     (~ map_Forall (fun _ x => order_complete x = true) (kept account (oa_orders d)) -> Q Fatal w')) ->
  (forall w', d_state (wst w') = d_state (wst w) -> d_muc (wst w') = d_muc (wst w) ->
     d_book (wst w') = d_book (wst w) ->
     (forall account, jid_of (xidServers (d_auth (wst w))) account sender = false) \/
     valid_ext (ext_orders msg) = None -> Q (Ret tt) w') ->
  wp (ImplHandleMessage sender msg) Q w.
Proof.
  intros Hn Ht Hb Hyes Hno. unfold ImplHandleMessage. wp_step. unfold in_auth. wp_step.
  apply wp_Authenticate; cbn [wst wnode wtrace].
  - intros account Hacc. cbn [then_post]. destruct (valid_ext (ext_orders msg)) as [d|] eqn:He.
    2: { wp_step. apply Hno; auto. }
    wp_step. apply wp_valid_orders. intros tr. cbn [then_post wst wnode].
    rewrite (left_id_L ∅ (∪)), filter_iter. fold (kept account (oa_orders d)).
    unfold in_book_of. wp_step. eapply (wp_UpdateBook _ _ _ t n now); [done..| |]; cbn [wst wnode wtrace].
    + intros [_ Hc] b Hto Hbo Hok. by apply (Hyes account d).
    + intros Hna. apply (Hyes account d); [done..|]. intros Hc. by apply Hna.
  - intros Hnone. cbn [then_post]. wp_step. apply Hno; auto.
Qed.

(** C24: a broadcast of orders replaces exactly the orders of its sender: if
    the sender is authenticated as an account and the stanza parses, the book
    gets the valid ones among the orders under that account, whatever account
    the message claims, and the process aborts if one of these lacks its asset
    or type; otherwise the book stays as it is. *)
Theorem broadcast_updates_sender sender msg w t n now :
  steady_now (wnode w) = (t, n) -> now <= t -> book_ok now (d_book (wst w)) ->
  exists o w', ImplHandleMessage sender msg w = (o, w') /\
    d_state (wst w') = d_state (wst w) /\ d_muc (wst w') = d_muc (wst w) /\
    ((exists account d, jid_of (xidServers (d_auth (wst w))) account sender = true /\
        valid_ext (ext_orders msg) = Some d /\
        if bool_decide (map_Forall (fun _ x => order_complete x = true) (kept account (oa_orders d)))
        then o = Ret tt /\ book_ok t (d_book (wst w')) /\
          ob_orders (d_book (wst w')) =
            spec_update account (kept account (oa_orders d)) t (ob_orders (d_book (wst w)))
        else o = Fatal) \/
     (o = Ret tt /\ d_book (wst w') = d_book (wst w) /\
      ((forall account, jid_of (xidServers (d_auth (wst w))) account sender = false) \/
       valid_ext (ext_orders msg) = None))).
Proof.
  intros Hn Ht Hb.
  match goal with |- exists o w', _ = _ /\ @?P o w' =>
    enough (Hw : wp (ImplHandleMessage sender msg) P w);
    [unfold wp in Hw; destruct (ImplHandleMessage sender msg w) as [o w']; by exists o, w'|] end.
  apply (wp_ImplHandleMessage _ _ _ t n now); [done..| |].
  - intros account d w' Hacc Hd _ Hst Hm. split; intros Hc; [intros Hok Ho|];
      (split; [done|]); (split; [done|]); left; exists account, d.
    + rewrite bool_decide_true by done. by split_and!.
    + by rewrite bool_decide_false.
  - intros w' Hst Hm Hbk Hor. by split_and!; [..|right].
Qed.

(** A broadcast by anyone on a trusted server can abort the process: an
    order without a type counts as an ask for validation, but the book
    demands that the type is there. *)
Theorem order_without_type_aborts sender msg account d id o w t n now :
  steady_now (wnode w) = (t, n) -> now <= t -> book_ok now (d_book (wst w)) ->
  jid_of (xidServers (d_auth (wst w))) account sender = true ->
  valid_ext (ext_orders msg) = Some d -> oa_orders d !! id = Some o ->
  o_type o = None -> valid_order account o = true ->
  exists w', ImplHandleMessage sender msg w = (Fatal, w').
Proof.
  intros Hn Ht Hb Hacc Hd Ho Hty Hv.
  enough (Hw : wp (ImplHandleMessage sender msg) (fun r _ => r = Fatal) w).
  { unfold wp in Hw. destruct (ImplHandleMessage sender msg w) as [r w']. subst. by exists w'. }
  apply (wp_ImplHandleMessage _ _ _ t n now); [done..| |intros _ _ _ _ [Hno|Hno]; [by rewrite Hno in Hacc|congruence]].
  intros a d' w' Ha Hd' _ _ _. rewrite (jid_of_inj _ _ _ _ Ha Hacc). simplify_eq. split; [|done].
  intros Hall. specialize (Hall id o). unfold order_complete in Hall. rewrite Hty, andb_false_r in Hall.
  discriminate Hall. by apply map_lookup_filter_Some.
Qed.

(** ** The own orders in the room *)

(** The connection answers without changing. *)
Class StableXmpp : Prop := stable_xmpp : forall n, exists b, XmppIsConnected n = (b, n).

(** The announcements sent to the room so far. *)
Definition announced_in (m : Outgoing) : option OrdersOfAccount :=
  match m with Groupchat _ [AccountOrdersStanza os] => Some os | _ => None end.
Definition announced (p : Process) : list OrdersOfAccount := omap announced_in (outbox (d_muc p)).

Context `{!StableXmpp}.

Lemma wp_IsConnected (w : World Node Process) (Q : outcome bool -> World Node Process -> Prop) :
  (forall b, IsConnected w = (Ret b, w) -> Q (Ret b) w) -> wp IsConnected Q w.
Proof.
  unfold IsConnected, wp, read_muc, is_connected, mbind, M_bind.
  destruct (disconnecting _); [by intros HQ; apply HQ|].
  destruct (stable_xmpp (wnode w)) as [b ->]. intros HQ. destruct w. by apply HQ.
Qed.

#[export] Instance daemon_hooks_laws : HooksLaws valid_order announced.
Proof.
  split.
  - intros a o w.
    assert (Hw : wp (ImplValidateOrder a o) (fun r w' => exists n l, (r, w') =
      (Ret (valid_order a o), mkWorld (wst w) n (wtrace w ++ l))) w).
    { apply wp_ImplValidateOrder. intros l. by eexists _, _. }
    unfold wp in Hw. change (ValidateOrder a o w) with (ImplValidateOrder a o w).
    destruct (ImplValidateOrder a o w) as [r w']. done.
  - intros os w Ha.
    enough (Hw : wp (UpdateOrders os) (fun r w' => r = Ret tt /\ proj (wst w') = proj (wst w) /\
      (announced (wst w') = announced (wst w) \/ announced (wst w') = announced (wst w) ++ [os])) w).
    { unfold wp in Hw. destruct (UpdateOrders os w) as [r w']. destruct Hw as (-> & ? & ?). by exists w'. }
    cbn [UpdateOrders my_orders_hooks]. wp_step. wp_step. wp_step. rewrite Ha.
    wp_step; [|cbn in *; by rewrite String.eqb_refl in *].
    apply wp_bind, wp_IsConnected. intros b Hc. cbn [then_post].
    destruct b; cbn [negb]; [|wp_step; auto].
    unfold PublishMessage, send. wp_step. apply wp_read_muc. cbn [then_post].
    apply wp_bind, wp_IsConnected. intros b Hc'. rewrite Hc in Hc'. injection Hc' as <-. cbn [then_post].
    wp_step. wp_step; [|done]. apply wp_in_muc_modify. split; [done|]. split; [done|]. right.
    unfold announced. cbn. by rewrite omap_app.
  - done.
Qed.

(** The connection is up, and stays up. *)
Definition online (p : Process) : Prop :=
  disconnecting (d_muc p) = false /\ forall n : Node, XmppIsConnected n = (true, n).

#[export] Instance daemon_live : LiveHooks announced online.
Proof.
  split; [done|]. intros os w Ha [Hd Hx].
  enough (Hw : wp (UpdateOrders os) (fun r w' => r = Ret tt /\ proj (wst w') = proj (wst w) /\
    announced (wst w') = announced (wst w) ++ [os] /\ online (wst w')) w).
  { unfold wp in Hw. destruct (UpdateOrders os w) as [r w']. destruct Hw as (-> & ?). by exists w'. }
  assert (Hc : IsConnected w = (Ret true, w)).
  { unfold IsConnected, read_muc, is_connected, mbind, M_bind. cbn. rewrite Hd, Hx. by destruct w. }
  cbn [UpdateOrders my_orders_hooks]. wp_step. wp_step. wp_step. rewrite Ha.
  wp_step; [|cbn in *; by rewrite String.eqb_refl in *].
  apply wp_bind, wp_IsConnected. intros b Hb. rewrite Hc in Hb. injection Hb as <-. cbn [then_post negb].
  unfold PublishMessage, send. wp_step. apply wp_read_muc. cbn [then_post].
  apply wp_bind, wp_IsConnected. intros b Hb. rewrite Hc in Hb. injection Hb as <-. cbn [then_post].
  wp_step. wp_step; [|done]. apply wp_in_muc_modify. split; [done|]. split; [done|].
  split; [unfold announced; cbn; by rewrite omap_app|]. by split.
Qed.

(** C23: whatever the user does with the own orders while the services answer
    stably, every list of orders the daemon broadcasts is of its own account
    and has only orders that are not locked and that the game accepts; and while
    the connection is up the others are always told: either the last list in the
    room is exactly the free orders of the present state, or nothing was
    broadcast and the free orders are as they were. *)
Theorem room_gets_valid_orders l (w w' : World Node Process) :
  run_ops l w = (Ret tt, w') ->
  (forall os, os ∈ announced (wst w') -> os ∈ announced (wst w) \/
    oa_account os = Some (acct (d_state (wst w))) /\
    map_Forall (fun _ o => locked_of o = false /\ valid_order (acct (d_state (wst w))) o = true)
      (oa_orders os)) /\
  (online (wst w) ->
    last (announced (wst w')) = Some (Spec.announcement (d_state (wst w'))) \/
    announced (wst w') = announced (wst w) /\
    Spec.announcement (d_state (wst w')) = Spec.announcement (d_state (wst w))).
Proof.
  intros Hr. split.
  - intros os Hos. destruct (run_ops_announces valid_order announced l w _ _ Hr os Hos) as [?|[?|?]]; auto. done.
  - intros Ho. exact (proj2 (run_ops_live valid_order announced online l w w' Hr Ho)).
Qed.

(** ** The views over JSON-RPC *)

(** The units of an order fit what the JSON form demands. *)
Definition units_ok (o : Order) : Prop :=
  1 <= max_units_of o < two64 /\ 0 <= min_units_of o <= max_units_of o.

Lemma valid_units account o :
  valid_order account o = true -> is_u64 (max_units_of o) -> is_u64 (min_units_of o) -> units_ok o.
Proof.
  unfold valid_order, is_u64, units_ok. rewrite !andb_true_iff, negb_true_iff, Z.eqb_neq.
  intros [[[[Hmax Hmin] _] _] _] ? ?. unfold min_units_of in *. destruct (o_min_units o) as [m|]; cbn in *.
  - apply andb_true_iff in Hmin as [_ ?%Z.leb_le]. lia.
  - lia.
Qed.

Lemma OrderToJson_total o : units_ok o -> exists v, OrderToJson o = Ret v.
Proof.
  intros [Hmax Hmin]. unfold OrderToJson. rewrite (proj2 (Z.leb_le _ _)); [by eexists|].
  apply Z.max_lub; [lia|]. unfold s64, two64, two63 in *. Z.div_mod_to_equations. lia.
Qed.

Lemma append_side_total l res : Forall units_ok l -> exists v, append_side l res = Ret v.
Proof.
  intros Hl. revert res. induction Hl as [|o l Ho Hl IH]; intros res; [by eexists|].
  cbn [append_side]. destruct (OrderToJson_total o Ho) as [v Hv].
  change (proto_to_json o) with (OrderToJson o). rewrite Hv. apply IH.
Qed.

(** C33: the view of an asset's orders over JSON-RPC always succeeds: as long
    as the orders in the book have a type, asset and price and passed the
    validation of their units, writing them never aborts. *)
Theorem getordersforasset_total a (w : World Node Process) :
  book_complete (d_book (wst w)) ->
  (forall acc ao id o, ob_orders (d_book (wst w)) !! acc = Some ao ->
     oa_orders (ao_orders ao) !! id = Some o -> units_ok o) ->
  exists v, getordersforasset a w = (Ret v, w).
Proof.
  intros Hc Hu.
  set (wb := mkWorld (d_book (wst w)) (wnode w) (wtrace w)).
  assert (Hview : exists fa, GetForAsset a wb = (Ret fa, wb) /\ lists_exactly (wst wb) a fa)
    by (by apply wp_returns, wp_GetForAsset).
  destruct Hview as (fa & Hfa & _ & _ & _ & Hasks & Hbids).
  assert (Hside : forall t x, in_book (d_book (wst w)) a t x -> units_ok x).
  { intros t x (acc & ao & id & o & Ha & Ho & _ & _ & ->). by apply (Hu acc ao id o). }
  unfold getordersforasset, GetOrdersForAsset, in_book_of, zoom, mbind, M_bind. fold wb. rewrite Hfa. cbn.
  unfold lift_outcome, proto_to_json, orderbook_for_asset_to_json, OrderbookForAssetToJson, OrderbookSideToJson.
  destruct (append_side_total (fa_bids fa) jarray) as [vb ->].
  { apply Forall_forall. intros x Hx%Hbids. by eapply Hside. }
  cbn. destruct (append_side_total (fa_asks fa) jarray) as [va ->].
  { apply Forall_forall. intros x Hx%Hasks. by eapply Hside. }
  cbn. destruct w as [[] ? ?]. by eexists.
Qed.

End orders.

(* ------------------------------------------------------------------ *)
(** ** The theorems at concrete inputs *)

Module DaemonWitness.
Import Mock MucClientWitness.

#[local] Existing Instance default_flags.
#[local] Existing Instance default_daemon_flags.
#[local] Existing Instance OrderBookWitness.steady_fixed.
#[local] Instance gsp_fixed : DemGspRpc Fixed := fun b n => (gsp b, n).
#[local] Instance clock_fixed : Clock Fixed := fun n => (1000, n).

Definition game_asset (a : string) : bool := true.
Definition game_sell (nm a : string) (k : Z) : option U256 := if k <=? 5 then Some "b3" else None.
Definition game_buy (nm a : string) (k : Z) : bool := true.
#[local] Instance game : StableGame (AssetSpec0 := spec_fixed) game_asset game_sell game_buy.
Proof. by split. Qed.
#[local] Instance connection : StableXmpp (Node := Fixed).
Proof. intros n. by exists true. Qed.

(** The process of "alice", which knows "domob"'s JID. *)
Definition domob : JID := full_jid "domob" "chat.xaya.io" "phone".
Definition p0 : Process :=
  set_auth (mkAuthenticator {["chat.xaya.io"]} {["domob" := domob]})
    (set_muc_of (mkMuc the_room (Some 1) false false false ∅ []) (new_Process false false "alice" the_room)).
Definition w0 : World Fixed Process := world_of p0 fixed.

Definition offer (t : option OrderType) : Order :=
  mkOrder None None (Some "gold") None (Some 5) t (Some 7) None.
Definition broadcast (t : option OrderType) : Stanza :=
  mkStanza (in_room "d") (Some (mkProtoStanza (mkOrdersOfAccount None {[3 := offer t]}) true)) None.

Lemma book0_ok : book_ok 0 (d_book p0).
Proof. apply new_book_ok. Qed.

Lemma broadcast_updates_sender_witness :
  exists o w', ImplHandleMessage domob (broadcast (Some ASK)) w0 = (o, w') /\
    d_muc (wst w') = d_muc p0.
Proof.
  destruct (broadcast_updates_sender (SteadyClock0 := OrderBookWitness.steady_fixed)
    game_asset game_sell game_buy domob (broadcast (Some ASK)) w0 20 fixed 0
    eq_refl ltac:(lia) book0_ok) as (o & w' & Hr & _ & Hm & _).
  exists o, w'. exact (conj Hr Hm).
Defined.

Lemma order_without_type_aborts_witness :
  exists w', ImplHandleMessage domob (broadcast None) w0 = (Fatal, w').
Proof.
  apply (order_without_type_aborts (SteadyClock0 := OrderBookWitness.steady_fixed)
    game_asset game_sell game_buy domob (broadcast None) "domob"
    (mkOrdersOfAccount None {[3 := offer None]}) 3 (offer None) w0 20 fixed 0).
  - reflexivity.
  - lia.
  - exact book0_ok.
  - reflexivity.
  - reflexivity.
  - reflexivity.
  - reflexivity.
  - reflexivity.
Defined.

Lemma private_reply_to_sender_witness :
  d_book (wst (snd (ImplHandlePrivate domob (mkStanza domob None None) w0))) = d_book p0.
Proof.
  exact (proj1 (private_reply_to_sender domob (mkStanza domob None None) w0
    (fst (ImplHandlePrivate domob (mkStanza domob None None) w0))
    (snd (ImplHandlePrivate domob (mkStanza domob None None) w0)) (surjective_pairing _))).
Defined.

(** The connection is down. *)
Definition xmpp_off : XmppClient Fixed :=
  {| XmppConnect n := (false, n); XmppDisconnect n := n; XmppIsConnected n := (false, n) |}.

Definition ask : Order := with_id (Some 3) (with_account (Some "domob") (offer (Some ASK))).

Definition taken : outcome (option ProcessingMessage) := fst (TakeOrder ask 2 w0).
Definition taken_msg : ProcessingMessage :=
  match taken with Ret (Some m) => m | _ => empty_message end.

Lemma taking_order_offline_aborts_witness :
  exists w', DaemonTakeOrder (XmppClient0 := xmpp_off) ask 2 w0 = (Fatal, w').
Proof.
  destruct (taking_order_offline_aborts (XmppClient0 := xmpp_off) ask 2 taken_msg domob w0
    (snd (TakeOrder ask 2 w0)) fixed)
    as (w' & Hw & _).
  - apply run_eq. vm_compute. reflexivity.
  - reflexivity.
  - reflexivity.
  - exists w'. exact Hw.
Defined.

Definition ops : list Op := [OpAdd (offer (Some ASK)); OpAdd (with_type (Some BID) (offer None)); OpRefresh].

Lemma room_gets_valid_orders_witness :
  Forall (fun os => os ∈ announced p0 \/ oa_account os = Some "alice")
    (announced (wst (snd (run_ops ops w0)))) /\
  announced (wst (snd (run_ops ops w0))) <> announced p0 /\
  last (announced (wst (snd (run_ops ops w0)))) =
    Some (Spec.announcement (d_state (wst (snd (run_ops ops w0))))).
Proof.
  destruct (room_gets_valid_orders game_asset game_sell game_buy ops w0 (snd (run_ops ops w0))
    ltac:(apply run_eq; vm_compute; reflexivity)) as [Hv Hc].
  assert (Hne : announced (wst (snd (run_ops ops w0))) <> announced p0) by (vm_compute; discriminate).
  split; [|split; [exact Hne|]].
  - apply Forall_forall. intros os Hos. destruct (Hv os Hos) as [Hi|[Ha _]].
    + exact (or_introl Hi).
    + exact (or_intror Ha).
  - destruct (Hc ltac:(by split)) as [Hl|[Hs _]]; [exact Hl|]. destruct (Hne Hs).
Defined.

Definition w_book : World Fixed Process := world_of (set_book OrderBookWitness.book p0) fixed.

Lemma getordersforasset_total_witness : exists v, getordersforasset "gold" w_book = (Ret v, w_book).
Proof.
  apply (getordersforasset_total "gold" w_book).
  - exact (bo_complete _ _ OrderBookWitness.book_is_ok).
  - change (d_book (wst w_book)) with OrderBookWitness.book.
    unfold OrderBookWitness.book. cbn [ob_orders]. intros acc ao id o.
    rewrite !lookup_insert_Some, lookup_empty. intros [[_ <-]|[_ [[_ <-]|[_ [=]]]]];
      cbn [ao_orders oa_orders]; rewrite lookup_singleton_Some; intros [_ <-];
      unfold units_ok, two64; cbn; lia.
Defined.

End DaemonWitness.
