(* ===== verification/Activity.v ===== *)
(** * What a daemon does besides one trade

    A daemon has many trades at a time, the user's orders, and the messages
    of everyone in the room to handle.  Here are its operations as seen from
    one active trade with counterparty [cp]: each keeps the trade as it is,
    and the services may be called, except for the periodic update, which
    updates the trade once.  [Market] needs this to follow one negotiation in
    two busy daemons. *)

From Stdlib Require Import ZArith Lia String.
From stdpp Require Import base gmap strings list sorting fin_maps relations.
From S2P Require Import Prelude Json Proto Effects Mock Checker MyOrders Trades TradeSafety.
From S2P Require Import TradeManager Threads Protocol Authenticator OrderBook MucClient Daemon.

(** Trade [i] of [l] is [t], and messages for it are not for an earlier one. *)
Definition first_trade (l : list TradeState) (i : nat) (t : TradeState) : Prop :=
  l !! i = Some t /\
  forall j u, (j < i)%nat -> l !! j = Some u ->
    ~ (counterparty_of u = counterparty_of t /\ GetIdentifier u = GetIdentifier t).

Lemma first_trade_unique l i j t : first_trade l i t -> first_trade l j t -> i = j.
Proof.
  intros [Hi Hfi] [Hj Hfj]. destruct (Nat.lt_trichotomy i j) as [Hlt|[He|Hlt]]; [|done|].
  - by destruct (Hfj i t Hlt Hi).
  - by destruct (Hfi j t Hlt Hj).
Qed.

Lemma first_trade_insert l i t t' :
  first_trade l i t -> counterparty_of t' = counterparty_of t -> GetIdentifier t' = GetIdentifier t ->
  first_trade (<[i := t']> l) i t'.
Proof.
  intros [Hi Hf] Hc Hid. split; [apply list_lookup_insert_eq; by eapply lookup_lt_Some|].
  intros j u Hj. rewrite list_lookup_insert_ne by lia. rewrite Hc, Hid. by apply Hf.
Qed.

(** Other trades may be added, and change as long as they stay others. *)
Lemma first_trade_app l l' i t : first_trade l i t -> first_trade (l ++ l') i t.
Proof.
  intros [Hi Hf]. pose proof (lookup_lt_Some _ _ _ Hi). split; [by apply lookup_app_l_Some|].
  intros j u Hj Hu. rewrite lookup_app_l in Hu by lia. by eapply Hf.
Qed.

Lemma first_trade_other l i t j u u' :
  first_trade l i t -> l !! j = Some u -> counterparty_of u <> counterparty_of t ->
  counterparty_of u' = counterparty_of u -> first_trade (<[j := u']> l) i t.
Proof.
  intros [Hi Hf] Hj Hne Hu. split.
  - rewrite list_lookup_insert_ne; [done|]. intros ->. simplify_eq.
  - intros k x Hk. destruct (decide (k = j)) as [->|Hkj].
    + rewrite list_lookup_insert_eq by (by eapply lookup_lt_Some). intros [= <-] [Hc _]. congruence.
    + rewrite list_lookup_insert_ne by done. by apply Hf.
Qed.

Section activity.
Context `{JsonLib} `{!JsonLaws} `{!Uint256Lib} `{!AmountLib} `{!ProtoRuntime} `{!JidLib}
  `{!RoomJidLib} {Node : Type} `{!XayaRpc Node} `{!DemGspRpc Node} `{!AssetSpec Node}
  `{!Clock Node} `{!SteadyClock Node} `{!XmppClient Node} `{!Flags} `{!DaemonFlags}
  (cp : string).

#[local] Abbreviation extends := (calls (fun _ => True)).

(** The trades with [cp] stay as they are. *)
Definition keeps_trades (l l' : list TradeState) : Prop :=
  forall i t, first_trade l i t -> counterparty_of t = cp -> first_trade l' i t.

Record aside_state (w w' : World Node State) : Prop := mkAsideState {
  ss_acct : acct (wst w') = acct (wst w);
  ss_trades : keeps_trades (st_trades (wst w)) (st_trades (wst w'));
  ss_trace : extends w w'
}.

Record aside (w w' : World Node Process) : Prop := mkAside {
  as_acct : acct (d_state (wst w')) = acct (d_state (wst w));
  as_trades : keeps_trades (st_trades (d_state (wst w))) (st_trades (d_state (wst w')));
  as_servers : xidServers (d_auth (wst w')) = xidServers (d_auth (wst w));
  as_trace : extends w w'
}.

#[export] Instance aside_state_preorder : PreOrder aside_state.
Proof.
  split.
  - intros w. split; [done|by intros i t|reflexivity].
  - intros w1 w2 w3 [A B C] [A' B' C']. split; [congruence|intros i t Hi Hc; auto|by etransitivity].
Qed.

#[export] Instance aside_preorder : PreOrder aside.
Proof.
  split.
  - intros w. split; [done|by intros i t|done|reflexivity].
  - intros w1 w2 w3 [A B C D] [A' B' C' D']. split; [congruence|intros i t Hi Hc; auto|congruence|by etransitivity].
Qed.

(** *** Primitives *)

Lemma extends_same {S S'} (w : World Node S) (w' : World Node S') :
  wtrace w' = wtrace w -> exists l, wtrace w' = wtrace w ++ l /\ Forall (fun _ => True) l.
Proof. intros ->. exists []. by rewrite app_nil_r. Qed.

Lemma aside_state_modify f :
  (forall s, acct (f s) = acct s /\ st_trades (f s) = st_trades s) -> steps aside_state (modify f).
Proof.
  intros Hf w. destruct (Hf (wst w)) as [Ha Ht]. split; cbn; [done|rewrite Ht; by intros i t|by apply extends_same].
Qed.

Lemma aside_state_calls {A} P (m : M Node State A) : steps (only_calls P) m -> steps aside_state m.
Proof.
  intros Hm w. destruct (Hm w) as (Hs & l & Hl & _). split; rewrite ?Hs; [done|by intros i t|].
  exists l. split; [done|]. by apply Forall_true.
Qed.

Lemma aside_AccessState {A} (m : M Node State A) :
  steps aside_state m -> steps aside (AccessState (S := Process) m).
Proof.
  intros Hm w. specialize (Hm (mkWorld (d_state (wst w)) (wnode w) (wtrace w))).
  unfold AccessState, zoom. cbn [proj inj process_state]. destruct (m _) as [o [s n t]].
  destruct Hm as [Ha Ht Hl]. by split.
Qed.

(** The state proto, the servers and the log stay as they are, or the log grows. *)
Lemma aside_same {A} (m : M Node Process A) :
  (forall w, d_state (wst (snd (m w))) = d_state (wst w) /\
     xidServers (d_auth (wst (snd (m w)))) = xidServers (d_auth (wst w)) /\ extends w (snd (m w))) ->
  steps aside m.
Proof. intros Hm w. destruct (Hm w) as (Hs & Ha & Ht). split; rewrite ?Hs; try done. by intros i t. Qed.

Lemma aside_calls {A} P (m : M Node Process A) : steps (only_calls P) m -> steps aside m.
Proof.
  intros Hm. apply aside_same. intros w. destruct (Hm w) as (Hs & l & Hl & _). rewrite Hs.
  split; [done|]. split; [done|]. exists l. split; [done|]. by apply Forall_true.
Qed.

Lemma aside_ReadState {A} (f : State -> A) : steps aside (ReadState (S := Process) f).
Proof. by apply aside_same. Qed.

Lemma aside_UpdateOrders os : steps aside (UpdateOrders (S := Process) os).
Proof.
  apply aside_same. intros w. destruct (only_sends_UpdateOrders os w) as [Hs Ht].
  destruct (announces_UpdateOrders os w) as [Ha _ _]. rewrite Ha. split; [done|]. split; [done|].
  by apply extends_same.
Qed.

Lemma aside_time : steps aside (GetCurrentTime (S := Process)).
Proof. apply (aside_calls (fun _ => True)), only_calls_time. Qed.

Hint Resolve aside_AccessState aside_ReadState aside_UpdateOrders aside_time : dem.

(** Walk through an operation. *)
Ltac aside_auto :=
  repeat lazymatch goal with
  | |- forall _, _ => intro
  | |- steps _ (_ ≫= _) => apply steps_bind; [typeclasses eauto| |]
  | |- steps _ (mret _) => apply steps_ret; typeclasses eauto
  | |- steps _ get => apply steps_get; typeclasses eauto
  | |- steps _ (check _) => apply steps_check; typeclasses eauto
  | |- steps _ (check_some _) => apply steps_check_some; typeclasses eauto
  | |- steps _ (lift_outcome _) => apply steps_lift_outcome; typeclasses eauto
  | |- steps _ (catch_rpc _ _) => apply steps_catch; [typeclasses eauto| |]
  | |- steps _ (modify _) => first [by apply aside_state_modify | solve [eauto with dem]]
  | |- steps _ (let _ := _ in _) => cbv zeta
  | |- steps _ (match _ with _ => _ end) => case_match
  | |- steps _ _ => solve [eauto with dem]
  end.

(** *** The own orders *)

Lemma aside_refresh_orders a l upd :
  steps aside_state (refresh_orders (S := Process) a l upd).
Proof.
  revert upd. induction l as [|[id o] l IH]; intros upd; cbn [refresh_orders];
    [apply steps_ret; typeclasses eauto|].
  apply steps_bind; [typeclasses eauto|by apply (aside_state_calls unsigned), unsigned_ImplValidateOrder|].
  aside_auto; apply IH.
Qed.

Lemma aside_trylock_locked id : steps aside_state (trylock_locked (Node := Node) id).
Proof.
  intros w. unfold trylock_locked, mbind, M_bind, modify, get, put. cbn [wst wnode wtrace].
  destruct (own_map _ !! id) as [o|]; [destruct (locked_of o)|];
    (split; cbn; [done|by intros i t|by apply extends_same]).
Qed.

Lemma aside_unlock_locked id : steps aside_state (unlock_locked (Node := Node) id).
Proof.
  intros w. unfold unlock_locked, mbind, M_bind, modify, get, put. cbn [wst wnode wtrace].
  destruct (own_map _ !! id) as [o|]; cbn; [destruct (locked_of o); cbn|];
    (split; cbn; [done|by intros i t|by apply extends_same]).
Qed.

Lemma aside_remove_locked id : steps aside_state (remove_locked (Node := Node) id).
Proof. by apply aside_state_modify. Qed.
Hint Resolve aside_remove_locked aside_refresh_orders aside_trylock_locked aside_unlock_locked : dem.

Lemma aside_RunRefresh : steps aside (RunRefresh (S := Process)).
Proof. unfold RunRefresh, refresh_locked. aside_auto. apply aside_AccessState. aside_auto. Qed.
Hint Resolve aside_RunRefresh : dem.

Lemma aside_add_locked o : steps aside_state (add_locked (S := Process) o).
Proof. unfold add_locked. aside_auto. by apply (aside_state_calls unsigned), unsigned_ImplValidateOrder. Qed.

Lemma aside_TryLock id : steps aside (TryLock (S := Process) id).
Proof. unfold TryLock. aside_auto. Qed.

Lemma aside_Unlock id : steps aside (Unlock (S := Process) id).
Proof. unfold Unlock. aside_auto. Qed.
Hint Resolve aside_add_locked aside_TryLock aside_Unlock : dem.

Lemma aside_run_op op : steps aside (run_op (S := Process) op).
Proof.
  destruct op; cbn [run_op]; unfold Add, RemoveById; aside_auto.
Qed.

Lemma aside_run_ops l : steps aside (run_ops (S := Process) l).
Proof.
  induction l as [|op l IH]; cbn [run_ops]; [apply steps_ret; typeclasses eauto|].
  apply steps_bind; [typeclasses eauto|apply aside_run_op|by intros _].
Qed.

(** *** Taking orders *)

Lemma aside_state_append t :
  steps aside_state (modify (fun s => with_trades (st_trades s ++ [t]) s) : M Node State unit).
Proof.
  intros w. split; cbn; [done| |by apply extends_same]. intros i u Hi _. by apply first_trade_app.
Qed.

Lemma aside_state_local {T A} (t : T) (m : M Node T A) :
  steps extends m -> steps aside_state (local t m).
Proof.
  intros Hm w. unfold local. specialize (Hm (mkWorld t (wnode w) (wtrace w))).
  destruct (m _) as [[a|e|] w']; (split; cbn; [done|by intros i u|exact Hm]).
Qed.

Lemma extends_HasReply account t : steps extends (HasReply (Node := Node) account (BuildTradeChecker account t)).
Proof.
  apply wp_steps. intros w. destruct (checker_widths account t) as [Hp Hu].
  eapply wp_conseq; [apply (HasReply_summary account _ w Hp Hu)|]. intros o w' (l & Hl & _).
  exists l. split; [done|]. by apply Forall_true.
Qed.
Hint Resolve aside_state_append aside_state_local extends_HasReply : dem.

Lemma aside_take_locked t : steps aside_state (take_locked (Node := Node) t).
Proof. unfold take_locked. aside_auto. Qed.

Lemma aside_taken_locked t : steps aside_state (taken_locked (Node := Node) t).
Proof. unfold taken_locked. aside_auto. Qed.
Hint Resolve aside_take_locked aside_taken_locked : dem.

Lemma aside_TakeOrder o units : steps aside (TakeOrder (S := Process) o units).
Proof. unfold TakeOrder. aside_auto. Qed.

Lemma aside_accept msg : steps aside (accept_taking_order (S := Process) msg).
Proof. unfold accept_taking_order, OrderTaken. aside_auto. Qed.

Lemma aside_send msg : steps aside (SendProcessingMessage msg).
Proof.
  apply aside_same, (wp_steps (fun w w' => d_state (wst w') = d_state (wst w) /\
    xidServers (d_auth (wst w')) = xidServers (d_auth (wst w)) /\ extends w w')). intros w.
  apply wp_SendProcessingMessage.
  - intros _. split_and!; [done..|by apply extends_same].
  - intros jid n _ _. split_and!; [done..|by apply extends_same].
  - intros jid w' _ Hw Ht. rewrite Hw. split_and!; [done..|by apply extends_same].
Qed.
Hint Resolve aside_TakeOrder aside_send : dem.

Lemma aside_DaemonTakeOrder o units : steps aside (DaemonTakeOrder o units).
Proof. unfold DaemonTakeOrder. aside_auto. Qed.

(** *** Messages *)

Lemma aside_process_locked msg :
  msg_counterparty msg <> cp -> steps aside_state (process_locked (Node := Node) msg).
Proof.
  intros Hne. apply wp_steps. intros w. unfold process_locked. wp_step. wp_step.
  destruct (find_match msg (st_trades (wst w)) 0) as [j|] eqn:Hf; [|by wp_step].
  apply find_match_Some in Hf as (u & _ & Hj & Hm & _). rewrite Nat.sub_0_r in Hj.
  wp_step. rewrite (trade_at_lookup _ _ _ Hj). apply wp_process_for. intros o u' n' l _ _ He _ _.
  split; cbn; [done| |by exists l; split; [|apply Forall_true]].
  intros i t Hi Hc. eapply first_trade_other; [exact Hi|exact Hj| |].
  - apply andb_true_iff in Hm as [Hm%String.eqb_eq _]. congruence.
  - unfold counterparty_of at 1. by rewrite (ev_counterparty _ _ He).
Qed.

(** The message is from someone else: no account that [jid] can stand for is
    [cp]. *)
Definition not_cp (jid : JID) : Prop := forall servers, jid_of servers cp jid = false.

Lemma aside_authenticate {A} jid (k : option string -> M Node Process A) :
  (forall account, (exists servers, jid_of servers account jid = true) -> steps aside (k (Some account))) ->
  steps aside (k None) -> steps aside (account ← in_auth (Authenticate jid); k account).
Proof.
  intros Hsome Hnone. apply wp_steps. intros w. unfold in_auth. wp_step. wp_step.
  apply wp_Authenticate; cbn [then_post wst wnode wtrace].
  - intros account Ha. eapply wp_conseq; [by apply steps_wp, Hsome; eexists|].
    intros ? w' Hs. cbn beta in Hs. etransitivity; [|exact Hs].
    split; [done|by intros i t|done|by apply extends_same].
  - intros _. eapply wp_conseq; [by apply steps_wp|]. intros ? w' Hs. cbn beta in Hs. etransitivity; [|exact Hs].
    split; [done|by intros i t|done|by apply extends_same].
Qed.

Lemma aside_ImplHandlePrivate jid msg : not_cp jid -> steps aside (ImplHandlePrivate jid msg).
Proof.
  intros Hne. apply aside_authenticate; [|apply steps_ret; typeclasses eauto].
  intros account [servers Ha]. assert (account <> cp) by (intros ->; by rewrite Hne in Ha).
  case_match; [|apply steps_ret; typeclasses eauto].
  apply steps_bind; [typeclasses eauto| |intros [r|]; [apply aside_send|apply steps_ret; typeclasses eauto]].
  unfold ProcessMessage. apply steps_bind; [typeclasses eauto|apply steps_check; typeclasses eauto|intros _].
  apply steps_bind; [typeclasses eauto|apply aside_accept|intros [|]]; cbn [negb];
    [|apply steps_ret; typeclasses eauto].
  by apply aside_AccessState, aside_process_locked.
Qed.

(** *** The room *)

Lemma aside_in_book {A} (m : M Node OrderBook A) : steps extends m -> steps aside (in_book_of m).
Proof.
  intros Hm. apply aside_same. intros w. unfold in_book_of, zoom.
  specialize (Hm (mkWorld (d_book (wst w)) (wnode w) (wtrace w))). destruct (m _). done.
Qed.

Lemma extends_SteadyNow {S} : steps (S := S) extends SteadyNow.
Proof. intros w. unfold SteadyNow. destruct (steady_now _). by apply extends_same. Qed.

Lemma extends_UpdateBook upd : steps extends (UpdateBook (Node := Node) upd).
Proof.
  unfold UpdateBook.
  apply steps_bind; [typeclasses eauto|apply steps_check; typeclasses eauto|intros _].
  apply steps_bind; [typeclasses eauto|apply steps_check; typeclasses eauto|intros _]. cbv zeta.
  apply steps_bind; [typeclasses eauto|apply extends_SteadyNow|intros t].
  case_bool_decide; [apply calls_modify|].
  apply steps_bind; [typeclasses eauto|apply calls_modify|intros _; apply calls_modify].
Qed.
Hint Resolve aside_in_book extends_UpdateBook : dem.

Lemma aside_valid_orders account l m : steps aside (valid_orders (Node := Node) account l m).
Proof.
  revert m. induction l as [|[id o] l IH]; intros m; cbn [valid_orders];
    [apply steps_ret; typeclasses eauto|].
  apply steps_bind; [typeclasses eauto|by apply (aside_calls unsigned), unsigned_ImplValidateOrder|].
  intros [|]; apply IH.
Qed.
Hint Resolve aside_valid_orders : dem.

Lemma aside_ImplHandleMessage jid msg : steps aside (ImplHandleMessage jid msg).
Proof.
  apply aside_authenticate; [|apply steps_ret; typeclasses eauto]. intros account _. aside_auto.
Qed.

Lemma aside_ImplHandleDisconnect jid : steps aside (ImplHandleDisconnect jid).
Proof.
  apply aside_authenticate; [|apply steps_ret; typeclasses eauto]. intros account _. aside_auto.
Qed.

(** *** The XMPP session *)

Lemma aside_in_muc f : steps aside (in_muc (modify f)).
Proof. apply aside_same. intros w. split_and!; [done..|by apply extends_same]. Qed.

Lemma aside_read_muc {A} (f : Muc -> A) : steps aside (read_muc f).
Proof. apply aside_same. intros w. split_and!; [done..|by apply extends_same]. Qed.

Lemma aside_xmpp_connect : steps aside xmpp_connect.
Proof.
  apply aside_same. intros w. unfold xmpp_connect. destruct (XmppConnect _).
  split_and!; [done..|by apply extends_same].
Qed.

Lemma aside_xmpp_disconnect : steps aside xmpp_disconnect.
Proof. apply aside_same. intros w. split_and!; [done..|by apply extends_same]. Qed.

Lemma aside_is_connected : steps aside is_connected.
Proof.
  apply aside_same. intros w. unfold is_connected. destruct (XmppIsConnected _).
  split_and!; [done..|by apply extends_same].
Qed.
Hint Resolve aside_in_muc aside_read_muc aside_xmpp_connect aside_xmpp_disconnect aside_is_connected : dem.

Lemma aside_IsConnected : steps aside IsConnected.
Proof. unfold IsConnected. aside_auto. Qed.

Lemma aside_join_disconnecter : steps aside join_disconnecter.
Proof. unfold join_disconnecter, disconnect_worker. aside_auto. Qed.
Hint Resolve aside_IsConnected aside_join_disconnecter : dem.

Lemma aside_DisconnectAsync : steps aside DisconnectAsync.
Proof. unfold DisconnectAsync. aside_auto. Qed.
Hint Resolve aside_DisconnectAsync aside_ImplHandleMessage aside_ImplHandleDisconnect : dem.

Lemma aside_joined : steps aside joined.
Proof. unfold joined. aside_auto. Qed.

Lemma aside_room_is r : steps aside (room_is r).
Proof. unfold room_is. aside_auto. Qed.
Hint Resolve aside_joined aside_room_is : dem.

Section handlers.
Context (others : M Node Process unit).

Lemma aside_Connect handle :
  steps aside others -> steps aside (MucClient.Connect (MucHooks0 := impl_hooks others) handle).
Proof. intros Ho. unfold MucClient.Connect. cbn [until_joined impl_hooks]. aside_auto. Qed.

Lemma aside_presence r p u :
  steps aside (handleMUCParticipantPresence (MucHooks0 := impl_hooks others) r p u).
Proof. unfold handleMUCParticipantPresence. cbn [HandleDisconnect impl_hooks]. aside_auto. Qed.

Lemma aside_room_message r msg priv :
  steps aside (handleMUCMessage (MucHooks0 := impl_hooks others) r msg priv).
Proof. unfold handleMUCMessage, ResolveNickname. cbn [HandleMessage impl_hooks]. aside_auto. Qed.

Lemma aside_room_error r : steps aside (handleMUCError r).
Proof. unfold handleMUCError. aside_auto. Qed.
End handlers.

(** What a daemon does while it negotiates with [cp]: the user manages own
    orders and takes others', the room tells of messages, participants and
    errors, the connection is made again, and private messages of other accounts
    arrive. *)
Inductive activity : M Node Process unit -> Prop :=
| act_own_orders l : activity (run_ops l)
| act_take o units : activity (DaemonTakeOrder o units;; mret tt)
| act_room_message others r msg priv :
    activity (handleMUCMessage (MucHooks0 := impl_hooks others) r msg priv)
| act_presence others r p u :
    activity (handleMUCParticipantPresence (MucHooks0 := impl_hooks others) r p u)
| act_room_error r : activity (handleMUCError r)
| act_reconnect others handle : activity others -> activity (reconnect others handle)
| act_private jid msg : not_cp jid -> activity (ImplHandlePrivate jid msg)
| act_then m m' : activity m -> activity m' -> activity (m;; m').

Lemma activity_aside m : activity m -> steps aside m.
Proof.
  intros Ha. induction Ha as [l|o units|others r msg priv|others r p u|r|others handle _ IH|jid msg Hne|m m' _ IH _ IH'].
  - apply aside_run_ops.
  - apply steps_bind; [typeclasses eauto|apply aside_DaemonTakeOrder|intros _; apply steps_ret; typeclasses eauto].
  - apply aside_room_message.
  - apply aside_presence.
  - apply aside_room_error.
  - unfold reconnect. apply steps_bind; [typeclasses eauto|apply aside_IsConnected|intros [|]];
      [apply steps_ret; typeclasses eauto|].
    apply steps_bind; [typeclasses eauto|by apply aside_Connect|intros _; apply steps_ret; typeclasses eauto].
  - by apply aside_ImplHandlePrivate.
  - by apply steps_bind; [typeclasses eauto| |intros _].
Qed.

(** *** The periodic update *)

Lemma updated_all_trace l e ts e' :
  updated_all (Node := Node) l e ts e' -> exists l', e'.2 = e.2 ++ l'.
Proof.
  induction 1 as [e|u rest e v ts e' Hu _ (l' & Hl')]; [exists []; by rewrite app_nil_r|].
  destruct (calls_Update (mkWorld u e.1 e.2)) as (l0 & Hl0 & _). rewrite Hu in Hl0. cbn in Hl0, Hl'.
  exists (l0 ++ l'). by rewrite Hl', Hl0, app_assoc.
Qed.

(** The update of a list updates the trade at an index once, with whatever the
    updates before it have left. *)
Lemma updated_all_at l e ts e' i t :
  updated_all (Node := Node) l e ts e' -> l !! i = Some t ->
  exists n l1 v l2, Update (mkWorld t n (e.2 ++ l1)) = (Ret tt, v) /\ ts !! i = Some (wst v) /\
    e'.2 = wtrace v ++ l2.
Proof.
  intros Hall. revert i. induction Hall as [e|u rest e v ts e' Hu Hall IH]; intros i Hi; [done|].
  destruct i as [|i]; cbn in Hi.
  - injection Hi as ->. destruct (updated_all_trace _ _ _ _ Hall) as (l2 & Hl2).
    exists e.1, [], v, l2. by rewrite app_nil_r.
  - destruct (IH i Hi) as (n & l1 & v' & l2 & Hv' & Hts & Hl2).
    destruct (calls_Update (mkWorld u e.1 e.2)) as (l0 & Hl0 & _). rewrite Hu in Hl0. cbn in Hl0, Hv'.
    exists n, (l0 ++ l1), v', l2. rewrite Hl0 in Hv'. by rewrite app_assoc.
Qed.

Lemma updated_key t t' :
  updated t t' -> counterparty_of t' = counterparty_of t /\ GetIdentifier t' = GetIdentifier t.
Proof.
  intros [Ho _ Hc _ _ _ _ _ _]%updated_evolves. unfold counterparty_of, GetIdentifier, order_of.
  by rewrite Ho, Hc.
Qed.

Lemma first_trade_updated l ts i t t' :
  Forall2 updated l ts -> first_trade l i t -> ts !! i = Some t' -> first_trade ts i t'.
Proof.
  intros Hts [Hi Hf] Ht'. split; [done|]. intros j u' Hj Hu'.
  destruct (Forall2_lookup_r _ _ _ _ _ Hts Hu') as (u & Hu & [Hc Hid]%updated_key).
  pose proof (Forall2_lookup_lr _ _ _ _ _ _ Hts Hi Ht') as [Hct Hidt]%updated_key.
  rewrite Hc, Hid, Hct, Hidt. by eapply Hf.
Qed.

Lemma first_trade_filter (P : TradeState -> Prop) `{!forall t, Decision (P t)} l i t :
  first_trade l i t -> P t -> exists i', first_trade (filter P l) i' t.
Proof.
  intros [Hi Hf] Ht. pose proof (take_drop_middle _ _ _ Hi) as Hl.
  assert (Hfl : filter P l = filter P (take i l) ++ t :: filter P (drop (S i) l))
    by (rewrite <-Hl at 1; by rewrite filter_app, filter_cons_True).
  exists (length (filter P (take i l))). rewrite Hfl. split; [by apply list_lookup_middle|].
  intros j u Hj Hu. rewrite lookup_app_l in Hu by done.
  apply list_elem_of_lookup_2, list_elem_of_filter in Hu as [_ (k & Hk)%list_elem_of_lookup].
  apply lookup_take_Some in Hk as [Hk Hlt]. by eapply Hf.
Qed.

Lemma aside_handle_finalised account l : steps aside (handle_finalised (S := Process) account l).
Proof.
  induction l as [|t l IH]; cbn [handle_finalised]; [apply steps_ret; typeclasses eauto|].
  assert (Hadd : forall o, steps aside (Add (S := Process) o)) by (intros o; unfold Add; aside_auto).
  assert (Hrem : forall id, steps aside (RemoveById (S := Process) id)) by (intros id; unfold RemoveById; aside_auto).
  assert (Hlock : forall b out, steps aside (LockUnspent (S := Process) b out))
    by (intros; by apply (aside_calls harmless), quiet_LockUnspent).
  assert (Hps : forall p, steps aside (UnlockPsbtInputs (S := Process) p))
    by (intros; by apply (aside_calls harmless), quiet_UnlockPsbtInputs).
  apply steps_bind; [typeclasses eauto| |by intros _].
  unfold HandleFailure, HandleSuccess. case_match; aside_auto; apply steps_fatal; typeclasses eauto.
Qed.

(** The periodic update runs, and does not finalise a trade with [cp] that is
    called [ident]. *)
Definition updates (ident : string) (w w' : World Node Process) : Prop :=
  UpdateAndArchiveTrades w = (Ret tt, w') /\
  exists account fin w1, AccessState archive_finalised w = (Ret (account, fin), w1) /\
    Forall (fun t => ~ (counterparty_of t = cp /\ GetIdentifier t = ident)) fin.

(** It updates the trade once, and keeps it. *)
Lemma updates_once ident w w' i t :
  updates ident w w' -> first_trade (st_trades (d_state (wst w))) i t ->
  counterparty_of t = cp -> GetIdentifier t = ident ->
  exists n l1 v l2, Update (mkWorld t n (wtrace w ++ l1)) = (Ret tt, v) /\ wtrace w' = wtrace v ++ l2 /\
    acct (d_state (wst w')) = acct (d_state (wst w)) /\
    xidServers (d_auth (wst w')) = xidServers (d_auth (wst w)) /\
    exists i', first_trade (st_trades (d_state (wst w'))) i' (wst v).
Proof.
  intros [Hr (account & fin & w1 & Ha & Hfin)] Hi Hc Hid.
  unfold UpdateAndArchiveTrades, mbind, M_bind in Hr. rewrite Ha in Hr.
  pose proof (aside_handle_finalised account fin w1) as [As At Asv (l2' & Hl2' & _)]. rewrite Hr in As, At, Asv, Hl2'.
  unfold AccessState, zoom in Ha. destruct (archive_finalised _) as [o s1] eqn:Har. simplify_eq.
  cbn [snd wst wnode wtrace d_state inj process_state proj] in *.
  pose proof (wp_run_eq _ _ _ _ _ (wp_archive_finalised _) Har) as Hw.
  destruct (Hw _ eq_refl) as (ts & Hall & Heq & Hs1). cbn [wst wnode wtrace] in *. injection Heq as -> ->.
  destruct (updated_all_at _ _ _ _ i t Hall (proj1 Hi)) as (n & l1 & v & l2 & Hu & Hv & Hl2). cbn in Hu, Hl2.
  pose proof (run_updated (mkWorld t n (wtrace w ++ l1))) as [Hcv Hidv]%updated_key.
  rewrite Hu in Hcv, Hidv. cbn [snd wst] in Hcv, Hidv.
  exists n, l1, v, (l2 ++ l2'). split; [done|]. rewrite Hl2', Hl2, app_assoc. split; [done|].
  rewrite As, Asv, Hs1. split; [done|]. split; [done|].
  pose proof (first_trade_updated _ _ _ _ _ (updated_all_updated _ _ _ _ Hall) Hi Hv) as Hft.
  destruct (first_trade_filter (fun t => IsFinalised t = false) _ _ _ Hft) as (i' & Hi').
  - destruct (IsFinalised (wst v)) eqn:Hf; [|done]. exfalso.
    refine (proj1 (Forall_forall _ _) Hfin (wst v) _ _); [|split; congruence].
    apply list_elem_of_filter. split; [done|by eapply list_elem_of_lookup_2].
  - exists i'. apply At; [by rewrite Hs1|congruence].
Qed.

End activity.
