(* ===== verification/Market.v ===== *)
(** * Two daemons trade with each other

    The composition of the components across two processes: a maker announces
    an order in the room, a taker's daemon puts it into its book and takes it,
    and the private messages that follow are handled by both.  The files
    before describe each of these steps in one process; [Protocol] describes
    the negotiation on two copies of one trade.  Here the two fit together: the
    daemons reach the start that [Protocol] assumes, and go on as it says. *)

From Stdlib Require Import ZArith Lia String.
From stdpp Require Import base gmap strings list sorting fin_maps relations pretty.
From S2P Require Import Prelude Json Proto Effects Mock Checker MyOrders Trades TradeSafety.
From S2P Require Import TradeManager Protocol Authenticator OrderBook MucClient Daemon Activity.

(** protobuf and Charon read back what they have written. *)
Class TagCodecLaws (P : Type) `{!TagCodec P} : Prop :=
  decode_encode : forall d : P, DecodeXmlPayload (EncodeXmlPayload d) = Some d.

(** What a receiver finds in a stanza that was sent with the message [d]. *)
Definition transported {P} `{!TagCodec P} (d : P) : option (ProtoStanza P) :=
  match tag (stanza_of d) with Ret t => Some (newInstance t) | _ => None end.

Lemma transported_valid {P} `{!TagCodec P} `{!TagCodecLaws P} (d : P) :
  valid_ext (transported d) = Some d.
Proof. unfold transported. cbn. unfold newInstance. by rewrite decode_encode. Qed.

Section market.
Context `{JsonLib} `{!JsonLaws} `{!Uint256Lib} `{!AmountLib} `{!ProtoRuntime}
  `{!ProtoRuntimeLaws} `{!JidLib} `{!RoomJidLib} {Node : Type} `{!XayaRpc Node}
  `{!DemGspRpc Node} `{!AssetSpec Node} `{!Clock Node} `{!SteadyClock Node}
  `{!XmppClient Node} `{!StableXmpp} `{!Flags} `{!DaemonFlags}
  `{!TagCodec OrdersOfAccount} `{!TagCodecLaws OrdersOfAccount}
  `{!TagCodec ProcessingMessage} `{!TagCodecLaws ProcessingMessage}.
Implicit Types (w : World Node Process) (v : World Node TradeState) (m : ProcessingMessage).

(* ------------------------------------------------------------------ *)
(** ** One daemon and one of its trades *)

(** A private message as it is received. *)
Definition private (jid : JID) (m : ProcessingMessage) : Stanza :=
  mkStanza jid None (transported m).

(** The process [w] of [account] has the trade of [v] with [cp], and the rest
    of its world is as [v] has it. *)
Record follows (account cp : string) w v : Prop := mkFollows {
  fo_account : acct (d_state (wst w)) = account;
  fo_node : wnode v = wnode w;
  fo_trace : wtrace v = wtrace w;
  fo_counterparty : counterparty_of (wst v) = cp;
  fo_trade : exists i, first_trade (st_trades (d_state (wst w))) i (wst v)
}.

Lemma find_match_first msg l i t :
  first_trade l i t -> Matches t msg = true -> find_match msg l 0 = Some i.
Proof.
  intros [Hi Hf] Hm.
  assert (Hgen : forall k l', (forall j u, l' !! j = Some u -> (j < i - k)%nat -> Matches u msg = false) ->
    (k <= i)%nat -> l' !! (i - k)%nat = Some t -> find_match msg l' k = Some i).
  { intros k l'. revert k. induction l' as [|u l' IH]; intros k Hno Hk Ht; [done|]. cbn [find_match].
    destruct (decide (k = i)) as [->|Hne].
    - rewrite Nat.sub_diag in Ht. injection Ht as ->. by rewrite Hm.
    - rewrite (Hno 0%nat u eq_refl) by lia. replace (i - k)%nat with (Datatypes.S (i - (k + 1))) in * by lia.
      apply IH; [|lia|done]. intros j x Hx Hj. apply (Hno (Datatypes.S j)); [done|lia]. }
  apply Hgen; [|lia|by rewrite Nat.sub_0_r]. intros j u Hu Hj. unfold Matches in *.
  apply andb_true_iff in Hm as [Hc%String.eqb_eq Hid%String.eqb_eq].
  apply not_true_is_false. rewrite andb_true_iff, !String.eqb_eq. intros [Hc' Hid'].
  apply (Hf j u); [lia|done|]. split; congruence.
Qed.

(** Giving a message to the trade it is for is [receive] on that trade. *)
Lemma process_is_receive account cp w v m :
  follows account cp w v -> msg_identifier m = GetIdentifier (wst v) ->
  exists i, first_trade (st_trades (d_state (wst w))) i (wst v) /\
    AccessState (process_locked (with_msg_counterparty (Some cp) m)) w =
      let '(o, v') := receive account cp m v in
      (o, mkWorld (set_state (set_trade i (wst v') (d_state (wst w))) (wst w)) (wnode v') (wtrace v')).
Proof.
  intros [Ha Hn Ht Hc [i Hi]] Hid. exists i. split; [done|].
  assert (Hm : Matches (wst v) (with_msg_counterparty (Some cp) m) = true).
  { unfold Matches. change (msg_counterparty _) with cp. change (msg_identifier _) with (msg_identifier m).
    by rewrite Hc, Hid, !String.eqb_refl. }
  unfold AccessState, zoom, process_locked, receive, get, mbind, M_bind.
  cbn [wst wnode wtrace proj inj process_state]. rewrite (find_match_first _ _ _ _ Hi Hm), Hm.
  unfold zoom. cbn [wst wnode wtrace]. rewrite (trade_at_lookup _ _ _ (proj1 Hi)), Ha, <-Hn, <-Ht.
  destruct v as [t n tr]. cbn [wst wnode wtrace]. by destruct (process_for _ _ _ _).
Qed.

(** What [receive] leaves: the trade keeps its identity, and the messages it
    sends are for it and take no order. *)
Definition for_trade (ident : string) (m : ProcessingMessage) : Prop :=
  msg_identifier m = ident /\ pm_taking_order m = None.

Lemma evolves_key t t' :
  evolves t t' -> counterparty_of t' = counterparty_of t /\ GetIdentifier t' = GetIdentifier t.
Proof.
  intros [Ho _ Hc _ _ _ _ _ _]. unfold counterparty_of, GetIdentifier, order_of. by rewrite Ho, Hc.
Qed.

Lemma local_step_messages account t l t' tr :
  local_step account t l t' tr -> Forall (for_trade (GetIdentifier t)) l.
Proof. intros Hs. destruct Hs; repeat constructor. Qed.

Lemma receive_keeps account cp m v o v' :
  receive account cp m v = (o, v') ->
  counterparty_of (wst v') = counterparty_of (wst v) /\ GetIdentifier (wst v') = GetIdentifier (wst v) /\
  Forall (for_trade (GetIdentifier (wst v))) (Protocol.sent o).
Proof.
  intros Hr. destruct (receive_local _ _ _ _ _ _ Hr) as [[-> ->]|(l & _ & He & Hs)]; [by split_and!|].
  destruct (evolves_key _ _ He) as [Hc Hid]. split_and!; [done..|].
  apply local_step_messages in Hs. eapply Forall_impl; [exact Hs|]. intros x [Hx ?]. split; [|done].
  rewrite Hx. apply (evolves_key _ _ (message_evolves account _ _)).
Qed.

(** The messages a handler has sent: announcements, and direct ones to
    [jid]. *)
Definition sends (jid : JID) w w' (out : list ProcessingMessage) : Prop :=
  exists l, Forall announcement l /\ outbox (d_muc (wst w')) =
    outbox (d_muc (wst w)) ++ l ++ ((fun m => Direct jid [ProcessingMessageStanza m]) <$> out).

Lemma sends_after jid w w1 w2 l out :
  d_muc (wst w1) = with_outbox (outbox (d_muc (wst w)) ++ l) (d_muc (wst w)) -> Forall announcement l ->
  sends jid w1 w2 out -> sends jid w w2 out.
Proof.
  intros Hm Hl (l' & Hl' & Ho). exists (l ++ l'). split; [by apply Forall_app|].
  rewrite Ho, Hm. cbn. by rewrite <-!app_assoc.
Qed.

(** The reply, if there is one, goes to the sender, whose JID is known. *)
Lemma wp_send_reply cp jid (r : option ProcessingMessage) w :
  knownJids (d_auth (wst w)) !! cp = Some jid ->
  (forall x, r = Some x -> msg_counterparty x = cp) ->
  wp (match r with Some reply => SendProcessingMessage reply | None => mret tt end)
    (fun o w' => d_state (wst w') = d_state (wst w) /\ d_auth (wst w') = d_auth (wst w) /\
       (o = Ret tt -> sends jid w w' (Protocol.sent (Ret r)) /\ wnode w' = wnode w /\ wtrace w' = wtrace w)) w.
Proof.
  intros Hk Hc. destruct r as [x|].
  - specialize (Hc x eq_refl). apply wp_SendProcessingMessage; rewrite Hc, Hk; [done| |].
    + intros j n [= <-] Hx. split; [done|]. split; [done|]. intros _.
      destruct (stable_xmpp (wnode w)) as [b Hb]. rewrite Hb in Hx.
      injection Hx as -> <-. split_and!; try done. by exists [].
    + intros j w' _ Hw _. by rewrite Hw.
  - wp_step. split; [done|]. split; [done|]. intros _. split_and!; try done. exists []. by rewrite !app_nil_r.
Qed.

Lemma receive_reply account cp m v x v' :
  receive account cp m v = (Ret (Some x), v') -> msg_counterparty x = cp.
Proof.
  unfold receive, get, mbind, M_bind. destruct (Matches _ _) eqn:Hm; [|done]. intros Hr.
  pose proof (wp_process_counterparty account _ (wst v) (wnode v) (wtrace v) Hm) as Hw.
  destruct v as [t n tr]. cbn [wst wnode wtrace] in *. unfold wp in Hw. rewrite Hr in Hw.
  unfold msg_counterparty at 1. by rewrite (Hw x eq_refl).
Qed.

(** The process once a message of [jid], which is [cp], has arrived. *)
Definition hears_from (cp : string) (jid : JID) w : World Node Process :=
  mkWorld (set_auth (mkAuthenticator (xidServers (d_auth (wst w)))
    (<[cp := jid]> (knownJids (d_auth (wst w))))) (wst w)) (wnode w) (wtrace w).

(** The second half of [ProcessMessage], and the reply. *)
Definition process_and_reply (cp : string) (m : ProcessingMessage) : M Node Process unit :=
  reply ← AccessState (process_locked (with_msg_counterparty (Some cp) m));
  match reply with Some reply => SendProcessingMessage reply | None => mret tt end.

Lemma wp_process_and_reply account cp jid w v m :
  follows account cp w v -> knownJids (d_auth (wst w)) !! cp = Some jid ->
  msg_identifier m = GetIdentifier (wst v) ->
  wp (process_and_reply cp m) (fun r w' => exists o v' i, receive account cp m v = (o, v') /\
    first_trade (st_trades (d_state (wst w))) i (wst v) /\ d_state (wst w') = set_trade i (wst v') (d_state (wst w)) /\
    (r = Ret tt -> follows account cp w' v' /\ d_auth (wst w') = d_auth (wst w) /\
      sends jid w w' (Protocol.sent o))) w.
Proof.
  intros Hf Hk Hid. destruct (process_is_receive _ _ _ _ _ Hf Hid) as (i & Hi & Hp).
  unfold process_and_reply. apply wp_bind, wp_intro. intros o w1 Hw. rewrite Hp in Hw.
  destruct (receive account cp m v) as [o1 v'] eqn:Hr. injection Hw as <- <-.
  destruct (receive_keeps _ _ _ _ _ _ Hr) as (Hc & Hidn & _).
  destruct Hf as [Ha Hn Ht Hcp _].
  destruct o1 as [r|e|]; cbn [then_post];
    [|by eexists _, v', i; split_and!..].
  eapply wp_conseq; [apply (wp_send_reply cp jid r)|].
  { exact Hk. }
  { intros x ->. by apply receive_reply in Hr. }
  intros ro w2 (Hst & Hau & Hs). exists (Ret r), v', i. split; [done|]. split; [done|].
  split; [exact Hst|]. intros Hro.
  destruct (Hs Hro) as (Hsend & Hn2 & Ht2). cbn in Hn2, Ht2, Hst, Hau.
  split_and!; [|done|exact Hsend]. split; rewrite ?Hst, ?Hn2, ?Ht2; cbn; [done..|congruence|].
  exists i. by apply (first_trade_insert _ _ (wst v)).
Qed.

Lemma wp_ImplHandlePrivate cp jid w m (Q : outcome unit -> World Node Process -> Prop) :
  jid_of (xidServers (d_auth (wst w))) cp jid = true ->
  wp (accepted ← accept_taking_order (with_msg_counterparty (Some cp) m);
      if accepted : bool then process_and_reply cp m else mret tt) Q (hears_from cp jid w) ->
  wp (ImplHandlePrivate jid (private jid m)) Q w.
Proof.
  intros Hj Hq. unfold ImplHandlePrivate. wp_step. unfold in_auth at 1. wp_step.
  apply wp_Authenticate; [|intros Hno; by rewrite Hno in Hj].
  cbn [wst wnode wtrace]. intros a Ha. rewrite (jid_of_inj _ _ _ _ Ha Hj). cbn [then_post].
  cbn [private ext_processing]. rewrite transported_valid.
  fold (hears_from cp jid w). unfold ProcessMessage. wp_step. wp_step. wp_step; [|done].
  unfold wp, process_and_reply, mbind, M_bind in Hq |- *.
  destruct (accept_taking_order _ _) as [[[|]|e|] w1]; cbn [negb] in *; [|exact Hq..].
  destruct (AccessState _ w1) as [[r|e|] w2]; exact Hq.
Qed.

Lemma follows_hears account cp w v c jid :
  follows account cp w v -> follows account cp (hears_from c jid w) v.
Proof. intros [? ? ? ? ?]. by split. Qed.

(** Handling a message for the trade is [receive] on it. *)
Lemma private_is_receive account cp jid w v m w' :
  follows account cp w v -> jid_of (xidServers (d_auth (wst w))) cp jid = true -> for_trade (GetIdentifier (wst v)) m ->
  ImplHandlePrivate jid (private jid m) w = (Ret tt, w') ->
  exists o v', receive account cp m v = (o, v') /\ follows account cp w' v' /\
    xidServers (d_auth (wst w')) = xidServers (d_auth (wst w)) /\ sends jid w w' (Protocol.sent o).
Proof.
  intros Hf Hj [Hid Hto] Hr.
  refine (wp_run_eq _ (fun r w' => r = Ret tt -> exists o v', receive account cp m v = (o, v') /\
    follows account cp w' v' /\ xidServers (d_auth (wst w')) = xidServers (d_auth (wst w)) /\
    sends jid w w' (Protocol.sent o)) _ _ _ _ Hr eq_refl).
  apply (wp_ImplHandlePrivate cp); [done|]. unfold accept_taking_order.
  change (pm_taking_order (with_msg_counterparty _ m)) with (pm_taking_order m). rewrite Hto. wp_step. wp_step.
  eapply wp_conseq; [apply (wp_process_and_reply account cp jid _ v)|].
  - by apply follows_hears.
  - apply lookup_insert_eq.
  - done.
  - intros r w2 (o & v' & i & Ho & _ & _ & Hrest) Hret. destruct (Hrest Hret) as (Hf' & Hau & Hs).
    exists o, v'. split_and!; [done..|by rewrite Hau|exact Hs].
Qed.

(* ------------------------------------------------------------------ *)
(** ** What else a daemon does *)

(** Anything that is not about the trade leaves its world, but for the
    services, which have been used. *)
Lemma follows_aside account cp w v w' :
  follows account cp w v -> aside cp w w' ->
  exists l, follows account cp w' (mkWorld (wst v) (wnode w') (wtrace v ++ l)) /\
    xidServers (d_auth (wst w')) = xidServers (d_auth (wst w)).
Proof.
  intros [Ha Hn Ht Hc [i Hi]] [As At Asv (l & Hl & _)]. exists l. split; [|done].
  split; cbn [wst wnode wtrace]; [by rewrite As|done|by rewrite Hl, Ht|done|].
  exists i. by apply At.
Qed.

(** The periodic update is [Update] on the trade, in between others. *)
Lemma follows_updates account cp w v w' :
  follows account cp w v -> updates cp (GetIdentifier (wst v)) w w' ->
  exists n l1 l2, let v1 := mkWorld (wst v) n (wtrace v ++ l1) in
    let v2 := snd (Update v1) in
    follows account cp w' (mkWorld (wst v2) (wnode w') (wtrace v2 ++ l2)) /\
    GetIdentifier (wst v2) = GetIdentifier (wst v) /\
    xidServers (d_auth (wst w')) = xidServers (d_auth (wst w)).
Proof.
  intros [Ha Hn Ht Hc [i Hi]] Hup.
  destruct (updates_once cp _ _ _ i (wst v) Hup Hi Hc eq_refl) as (n & l1 & v2 & l2 & Hu & Hl2 & As & Asv & Hi').
  rewrite <-Ht in Hu. exists n, l1, l2. cbv zeta.
  pose proof (run_updated (mkWorld (wst v) n (wtrace v ++ l1))) as [Hcv Hidv]%updated_key.
  rewrite Hu in *. cbn [snd wst wnode wtrace] in *. split; [|by split].
  split; cbn [wst wnode wtrace]; [by rewrite As|done|done|congruence|done].
Qed.

(* ------------------------------------------------------------------ *)
(** ** Two daemons *)

(** The processes of the maker and the taker, and the private messages
    between the two that are on their way. *)
Record Pair := mkPair {
  p_maker : World Node Process;
  p_taker : World Node Process;
  q_maker : list ProcessingMessage;
  q_taker : list ProcessingMessage
}.

(** The accounts, the JIDs they are logged in with, and the identifier of the
    trade. *)
Context (maker taker : string) (jm jt : JID) (ident : string).

(** A message is delivered, and the handler returns, or it is lost; and each
    daemon does other things.  Messages go to the JID of the other daemon; the
    sender of a message is who sent it.  The flag says whether a message was
    taken from the network. *)
Inductive pair_step : bool -> Pair -> Pair -> Prop :=
| pair_to_maker p pre m post w' out :
    q_maker p = pre ++ m :: post ->
    ImplHandlePrivate jt (private jt m) (p_maker p) = (Ret tt, w') -> sends jt (p_maker p) w' out ->
    pair_step true p (mkPair w' (p_taker p) (pre ++ post) (q_taker p ++ out))
| pair_to_taker p pre m post w' out :
    q_taker p = pre ++ m :: post ->
    ImplHandlePrivate jm (private jm m) (p_taker p) = (Ret tt, w') -> sends jm (p_taker p) w' out ->
    pair_step true p (mkPair (p_maker p) w' (q_maker p ++ out) (pre ++ post))
| pair_lose_to_maker p pre m post :
    q_maker p = pre ++ m :: post ->
    pair_step true p (mkPair (p_maker p) (p_taker p) (pre ++ post) (q_taker p))
| pair_lose_to_taker p pre m post :
    q_taker p = pre ++ m :: post ->
    pair_step true p (mkPair (p_maker p) (p_taker p) (q_maker p) (pre ++ post))
| pair_maker_does p act w' :
    activity taker act -> act (p_maker p) = (Ret tt, w') ->
    pair_step false p (mkPair w' (p_taker p) (q_maker p) (q_taker p))
| pair_taker_does p act w' :
    activity maker act -> act (p_taker p) = (Ret tt, w') ->
    pair_step false p (mkPair (p_maker p) w' (q_maker p) (q_taker p))
| pair_maker_updates p w' :
    updates taker ident (p_maker p) w' ->
    pair_step false p (mkPair w' (p_taker p) (q_maker p) (q_taker p))
| pair_taker_updates p w' :
    updates maker ident (p_taker p) w' ->
    pair_step false p (mkPair (p_maker p) w' (q_maker p) (q_taker p)).

(** Runs, with the number of messages taken from the network. *)
Inductive pair_run : nat -> Pair -> Pair -> Prop :=
| pair_run_refl p : pair_run 0 p p
| pair_run_step b n p p' p'' :
    pair_step b p p' -> pair_run n p' p'' -> pair_run (if b then Datatypes.S n else n) p p''.

(** The outgoing messages are determined by the step. *)
Lemma sends_inj jid w w' out out' : sends jid w w' out -> sends jid w w' out' -> out = out'.
Proof.
  intros (l & Hl & Ho) (l' & Hl' & Ho'). rewrite Ho in Ho'. apply app_inv_head in Ho'. clear Ho.
  revert l' Hl' Ho'. induction Hl as [|x l Hx Hl IH]; intros l' Hl' He.
  - destruct Hl' as [|y l' (rm & os & ->) _].
    + cbn in He. revert out' He. induction out as [|a out IHo]; intros [|b out'] He; try done.
      injection He as -> He. f_equal. by apply IHo.
    + by destruct out.
  - destruct Hl' as [|y l' Hy Hl'].
    + destruct Hx as (rm & os & ->). by destruct out'.
    + injection He as _ He. by apply (IH l').
Qed.

(** Two daemons and the negotiation they are in. *)
Record projects (p : Pair) (s : Sys) : Prop := mkProjects {
  pr_maker : follows maker taker (p_maker p) (s_maker s);
  pr_taker : follows taker maker (p_taker p) (s_taker s);
  pr_maker_knows : jid_of (xidServers (d_auth (wst (p_maker p)))) taker jt = true;
  pr_taker_knows : jid_of (xidServers (d_auth (wst (p_taker p)))) maker jm = true;
  pr_maker_id : GetIdentifier (wst (s_maker s)) = ident;
  pr_taker_id : GetIdentifier (wst (s_taker s)) = ident;
  pr_to_maker : q_maker p = to_maker s;
  pr_to_taker : q_taker p = to_taker s;
  pr_for_maker : Forall (for_trade ident) (to_maker s);
  pr_for_taker : Forall (for_trade ident) (to_taker s)
}.

(** Taking one message from a queue. *)
Lemma Forall_middle {A} (P : A -> Prop) pre x post :
  Forall P (pre ++ x :: post) <-> P x /\ Forall P (pre ++ post).
Proof. rewrite !Forall_app, Forall_cons. tauto. Qed.

Lemma one_step b s s' : sys_step maker taker b s s' -> sys_run maker taker (if b then 1 else 0) s s'.
Proof. intros Hs. exact (run_step maker taker b 0 s s s' (run_refl _ _ s) Hs). Qed.

(** Private messages of the negotiation. *)
Lemma pair_message_projects p p' s :
  projects p s -> pair_step true p p' -> exists s', sys_step maker taker true s s' /\ projects p' s'.
Proof.
  intros [Hm Ht Hkm Hkt Him Hit Hqm Hqt Hfm Hft] Hs.
  inversion Hs as [p0 pre m post w' out Hq Hr Hout|p0 pre m post w' out Hq Hr Hout|p0 pre m post Hq|p0 pre m post Hq| | | |];
    subst; rewrite ?Hqm, ?Hqt in Hq.
  - rewrite Hq in Hfm. apply Forall_middle in Hfm as [Hfor Hfm].
    destruct (private_is_receive _ _ _ _ _ _ _ Hm Hkm ltac:(by rewrite Him) Hr) as (o & v' & Ho & Hm' & Hau & Hsend).
    rewrite (sends_inj _ _ _ _ _ Hout Hsend). destruct (receive_keeps _ _ _ _ _ _ Ho) as (_ & Hid & Hall).
    eexists. split; [by eapply deliver_to_maker|]. rewrite Him in *.
    split; cbn; rewrite ?Hau, ?Hqt; try done. by apply Forall_app.
  - rewrite Hq in Hft. apply Forall_middle in Hft as [Hfor Hft].
    destruct (private_is_receive _ _ _ _ _ _ _ Ht Hkt ltac:(by rewrite Hit) Hr) as (o & v' & Ho & Ht' & Hau & Hsend).
    rewrite (sends_inj _ _ _ _ _ Hout Hsend). destruct (receive_keeps _ _ _ _ _ _ Ho) as (_ & Hid & Hall).
    eexists. split; [by eapply deliver_to_taker|]. rewrite Hit in *.
    split; cbn; rewrite ?Hau, ?Hqm; try done. by apply Forall_app.
  - eexists. split; [by eapply lose_to_maker|]. rewrite Hq in Hfm. apply Forall_middle in Hfm as [_ Hfm].
    by split.
  - eexists. split; [by eapply lose_to_taker|]. rewrite Hq in Hft. apply Forall_middle in Hft as [_ Hft].
    by split.
Qed.

(** The update of the trade, with what happens before and after it. *)
Lemma update_maker_run s n l1 n' l2 :
  let v2 := snd (Update (mkWorld (wst (s_maker s)) n (wtrace (s_maker s) ++ l1))) in
  sys_run maker taker 0 s
    (mkSys (mkWorld (wst v2) n' (wtrace v2 ++ l2)) (s_taker s) (to_maker s) (to_taker s)).
Proof.
  intros v2.
  apply (sys_run_trans maker taker 0 0 s (mkSys v2 (s_taker s) (to_maker s) (to_taker s)));
    [|exact (one_step false _ _ (others_maker maker taker (mkSys v2 _ _ _) n' l2))].
  set (s1 := mkSys (mkWorld (wst (s_maker s)) n (wtrace (s_maker s) ++ l1)) (s_taker s) (to_maker s) (to_taker s)).
  apply (sys_run_trans maker taker 0 0 s s1);
    [exact (one_step false _ _ (others_maker maker taker s n l1))|exact (one_step false _ _ (update_maker maker taker s1))].
Qed.

Lemma update_taker_run s n l1 n' l2 :
  let v2 := snd (Update (mkWorld (wst (s_taker s)) n (wtrace (s_taker s) ++ l1))) in
  sys_run maker taker 0 s
    (mkSys (s_maker s) (mkWorld (wst v2) n' (wtrace v2 ++ l2)) (to_maker s) (to_taker s)).
Proof.
  intros v2.
  apply (sys_run_trans maker taker 0 0 s (mkSys (s_maker s) v2 (to_maker s) (to_taker s)));
    [|exact (one_step false _ _ (others_taker maker taker (mkSys _ v2 _ _) n' l2))].
  set (s1 := mkSys (s_maker s) (mkWorld (wst (s_taker s)) n (wtrace (s_taker s) ++ l1)) (to_maker s) (to_taker s)).
  apply (sys_run_trans maker taker 0 0 s s1);
    [exact (one_step false _ _ (others_taker maker taker s n l1))|exact (one_step false _ _ (update_taker maker taker s1))].
Qed.

Lemma pair_step_projects b p p' s :
  projects p s -> pair_step b p p' ->
  exists s', sys_run maker taker (if b then 1 else 0) s s' /\ projects p' s'.
Proof.
  intros Hp Hs. destruct b.
  { destruct (pair_message_projects _ _ _ Hp Hs) as (s' & Hs' & Hp'). exists s'. split; [by apply (one_step true)|done]. }
  destruct Hp as [Hm Ht Hkm Hkt Him Hit Hqm Hqt Hfm Hft].
  inversion Hs as [| | | |p0 act w' Hact Hr|p0 act w' Hact Hr|p0 w' Hup|p0 w' Hup]; subst.
  - pose proof (activity_aside taker act Hact (p_maker p)) as Has. rewrite Hr in Has. cbn [snd] in Has.
    destruct (follows_aside _ _ _ _ _ Hm Has) as (l & Hm' & Hau).
    eexists. split; [exact (one_step false _ _ (others_maker maker taker s (wnode w') l))|].
    split; cbn; rewrite ?Hau; done.
  - pose proof (activity_aside maker act Hact (p_taker p)) as Has. rewrite Hr in Has. cbn [snd] in Has.
    destruct (follows_aside _ _ _ _ _ Ht Has) as (l & Ht' & Hau).
    eexists. split; [exact (one_step false _ _ (others_taker maker taker s (wnode w') l))|].
    split; cbn; rewrite ?Hau; done.
  - rewrite <-Him in Hup. destruct (follows_updates _ _ _ _ _ Hm Hup) as (n & l1 & l2 & Hm' & Hid & Hau).
    eexists. split; [apply (update_maker_run s n l1 (wnode w') l2)|].
    split; cbn [p_maker p_taker q_maker q_taker s_maker s_taker to_maker to_taker wst]; rewrite ?Hau; try done. congruence.
  - rewrite <-Hit in Hup. destruct (follows_updates _ _ _ _ _ Ht Hup) as (n & l1 & l2 & Ht' & Hid & Hau).
    eexists. split; [apply (update_taker_run s n l1 (wnode w') l2)|].
    split; cbn [p_maker p_taker q_maker q_taker s_maker s_taker to_maker to_taker wst]; rewrite ?Hau; try done. congruence.
Qed.

Lemma pair_run_projects n p p' s :
  pair_run n p p' -> projects p s -> exists s', sys_run maker taker n s s' /\ projects p' s'.
Proof.
  intros Hn. revert s. induction Hn as [p|b n p p1 p' Hs _ IH]; intros s Hp; [by exists s; split; [constructor|]|].
  destruct (pair_step_projects _ _ _ _ Hp Hs) as (s1 & Hr1 & Hp1). destruct (IH s1 Hp1) as (s' & Hr' & Hp').
  exists s'. split; [|done]. pose proof (sys_run_trans maker taker _ _ _ _ _ Hr1 Hr') as Hr.
  destruct b; [by rewrite Nat.add_1_r in Hr|by rewrite Nat.add_0_r in Hr].
Qed.

(* ------------------------------------------------------------------ *)
(** ** The taking of an order *)

(** The units of a trade fit an [int64_t]. *)
Lemma taken_units o units : CheckOrder o units = true -> s64 (u64 units) = units.
Proof.
  unfold CheckOrder. destruct (_ || _) eqn:Hb; [done|]. intros _.
  apply orb_false_iff in Hb as [?%Z.ltb_ge ?%Z.ltb_ge].
  unfold s64, u64, two64, two63 in *. Z.div_mod_to_equations. lia.
Qed.

(** What both sides call the trade about [o]. *)
Definition identifier (o : Order) : string := account_of o +:+ newline +:+ pretty (id_of o).

(** The message takes [o]. *)
Definition takes (o : Order) (units : Z) (m : ProcessingMessage) : Prop :=
  pm_taking_order m = Some (mkTakingOrder (Some (id_of o)) (Some (u64 units))) /\
  msg_identifier m = identifier o.

(** What a successful [TakeOrder] has done: the trade is the new one after the
    first [HasReply]. *)
Lemma wp_TakeOrder_start o units w :
  wp (TakeOrder o units) (fun r w' => forall msg, r = Ret (Some msg) ->
    CheckOrder o units = true /\ account_of o <> acct (d_state (wst w)) /\
    exists now wt0 wt x, wst wt0 = new_trade o now units (account_of o) /\
      HasReply (acct (d_state (wst w))) (BuildTradeChecker (acct (d_state (wst w))) (wst wt0)) wt0 = (Ret x, wt) /\
      msg = SetTakingOrder (wst wt) (default (InitProcessingMessage (wst wt)) x) /\
      msg_counterparty msg = account_of o /\ takes o units msg /\ evolves (wst wt0) (wst wt) /\
      d_state (wst w') = with_trades (st_trades (d_state (wst w)) ++ [wst wt]) (d_state (wst w)) /\
      wnode w' = wnode wt /\ wtrace w' = wtrace wt) w.
Proof.
  unfold TakeOrder, take_locked. destruct (CheckOrder o units) eqn:Hc; cbn [negb]; [|by wp_step].
  do 5 wp_step. cbn [proj process_state]. rename t into now. set (t0 := new_trade o now units (account_of o)).
  destruct (String.eqb_spec (counterparty_of t0) (acct (d_state (wst w)))) as [|Hne]; [by wp_step|].
  do 4 wp_step. set (account := acct (d_state (wst w))) in *.
  apply wp_intro. intros x wt Hx.
  destruct (checker_widths account t0) as [Hp Hu].
  match type of Hx with HasReply _ _ ?w0 = _ =>
    pose proof (wp_run_eq _ _ _ _ _ (HasReply_summary account _ w0 Hp Hu) Hx) as (l & _ & Hs) end.
  cbn [wst] in Hs. pose proof (summary_evolves _ _ _ _ _ _ Hs) as He.
  apply fresh_summary in Hs; [|done..].
  destruct x as [x|[]|]; cbn [then_post]; [|by repeat wp_step..].
  do 4 wp_step. cbn [wst]. intros msg [= <-]. split; [done|]. split; [exact Hne|].
  exists now, (mkWorld t0 n (wtrace w)), wt, x. cbn [wst]. split; [reflexivity|]. split; [exact Hx|].
  split; [reflexivity|]. apply and_assoc. split; [|split; [exact He|by split_and!]].
  destruct Hs as [[-> Hsil]|(sd & _ & _ & -> & [= ->])]; [by rewrite (Hsil _ eq_refl)|by split].
Qed.

(** No active trade of the process is about [o] with [cp]. *)
Definition no_trade_about (o : Order) (cp : string) (s : State) : Prop :=
  Forall (fun u => ~ (counterparty_of u = cp /\ GetIdentifier u = identifier o)) (st_trades s).

Lemma first_trade_new o cp s t :
  no_trade_about o cp s -> counterparty_of t = cp -> GetIdentifier t = identifier o ->
  first_trade (st_trades s ++ [t]) (length (st_trades s)) t.
Proof.
  intros Hno Hc Hid. split; [by apply list_lookup_middle|].
  intros j u Hj Hu. rewrite lookup_app_l in Hu by done. rewrite Hc, Hid.
  exact (proj1 (Forall_lookup _ _) Hno _ _ Hu).
Qed.

(** The taker's daemon has a new trade, and its message is on the way. *)
Lemma wp_DaemonTakeOrder_start o units jid w :
  knownJids (d_auth (wst w)) !! account_of o = Some jid ->
  no_trade_about o (account_of o) (d_state (wst w)) ->
  wp (DaemonTakeOrder o units) (fun r w' => r = Ret true ->
    CheckOrder o units = true /\ account_of o <> acct (d_state (wst w)) /\
    exists now wt0 wt x, wst wt0 = new_trade o now units (account_of o) /\
      HasReply (acct (d_state (wst w))) (BuildTradeChecker (acct (d_state (wst w))) (wst wt0)) wt0 = (Ret x, wt) /\
      evolves (wst wt0) (wst wt) /\ follows (acct (d_state (wst w))) (account_of o) w' wt /\
      d_auth (wst w') = d_auth (wst w) /\
      let msg := wire (SetTakingOrder (wst wt) (default (InitProcessingMessage (wst wt)) x)) in
      takes o units msg /\ sends jid w w' [msg]) w.
Proof.
  intros Hk Hno. unfold DaemonTakeOrder. apply wp_bind.
  eapply wp_announces; [apply announces_TakeOrder|apply wp_TakeOrder_start|].
  intros r w1 [Hau _ (l & Hm & Hl)] Hr. destruct r as [[msg|]|e|]; cbn [then_post]; [|by wp_step|done..].
  destruct (Hr msg eq_refl) as (Hc & Hne & now & wt0 & wt & x & Ht0 & Hx & -> & Hcp & Htk & He & Hst & Hn & Htr).
  apply wp_bind. eapply wp_conseq; [apply (wp_send_reply (account_of o) jid (Some (SetTakingOrder _ _)))|].
  { by rewrite Hau. }
  { by intros ? [= <-]. }
  intros r2 w2 (Hst2 & Hau2 & Hs). destruct r2 as [[]|e|]; cbn [then_post]; [|done..].
  destruct (Hs eq_refl) as (Hsend & Hn2 & Ht2). wp_step. intros _. split; [done|]. split; [done|].
  destruct (evolves_key _ _ He) as [Hcw Hidw]. rewrite Ht0 in Hcw, Hidw.
  exists now, wt0, wt, x. split; [done|]. split; [done|]. split; [done|].
  split; [|split; [by rewrite Hau2|split; [exact Htk|]]].
  - split; rewrite ?Hst2, ?Hn2, ?Ht2, ?Hst; [done|done|done|exact Hcw|].
    exists (length (st_trades (d_state (wst w)))). by apply (first_trade_new o (account_of o)).
  - eapply sends_after; [exact Hm|exact Hl|exact Hsend].
Qed.

(** The game of the two daemons answers stably. *)
Context (asset : string -> bool) (sell : string -> string -> Z -> option U256)
  (buy : string -> string -> Z -> bool) `{!StableGame asset sell buy}.

#[local] Abbreviation valid := (valid_order asset sell buy).

(** The trade the maker starts with once the message is accepted. *)
Definition makers_trade (id : Z) (o : Order) (now units : Z) (s : State) : TradeState :=
  new_trade (taken_order id o s) now units taker.

Lemma wp_first_message id o units m w :
  acct (d_state (wst w)) = maker -> jid_of (xidServers (d_auth (wst w))) taker jt = true ->
  takes (taken_order id o (d_state (wst w))) units m -> s64 (u64 units) = units ->
  Spec.lockable id (d_state (wst w)) = Some o ->
  acceptable id units taker o (d_state (wst w)) = true ->
  no_trade_about (taken_order id o (d_state (wst w))) taker (d_state (wst w)) ->
  wp (ImplHandlePrivate jt (private jt m)) (fun r w' => exists now v o1 v',
    wst v = makers_trade id o now units (d_state (wst w)) /\ receive maker taker m v = (o1, v') /\
    d_state (wst w') = with_trades (st_trades (d_state (wst w)) ++ [wst v'])
      (Spec.try_lock valid id (d_state (wst w))).2 /\
    (r = Ret tt -> follows maker taker w' v' /\
      xidServers (d_auth (wst w')) = xidServers (d_auth (wst w)) /\ sends jt w w' (Protocol.sent o1))) w.
Proof.
  intros Ha Hj [Hto Hmid] Hun Hl Hacc Hno. apply (wp_ImplHandlePrivate taker); [done|].
  set (w1 := hears_from taker jt w). set (s := d_state (wst w)) in *. apply wp_bind.
  eapply (wp_announces (accept_taking_order _) (fun r w' => r = Ret true /\ exists now,
    d_state (wst w') = with_trades (st_trades s ++ [makers_trade id o now units s])
      (Spec.try_lock valid id s).2)).
  { apply announces_accept_taking_order. }
  { apply (wp_accept_taking_order valid announced (mkTakingOrder (Some id) (Some (u64 units)))); [done|].
    change (proj (wst w1)) with s. change (to_id_of _) with id. change (to_units_of _) with (u64 units).
    cbv zeta. rewrite Hun, Hl.
    change (msg_counterparty (with_msg_counterparty (Some taker) m)) with taker. rewrite Hacc.
    intros now w' Hw. split; [done|]. by exists now. }
  intros r w2 [Hau _ (l & Hm & Hal)] [-> [now Hs2]]. cbn [then_post].
  set (t := makers_trade id o now units s) in *. set (v := mkWorld t (wnode w2) (wtrace w2)).
  assert (Hs1 : acct (Spec.try_lock valid id s).2 = acct s) by (unfold Spec.try_lock; by rewrite Hl).
  assert (Htid : GetIdentifier t = identifier (taken_order id o s)) by done.
  assert (Hft : first_trade (st_trades (d_state (wst w2))) (length (st_trades s)) t)
    by (rewrite Hs2; by apply (first_trade_new (taken_order id o s) taker s t)).
  assert (Hf : follows maker taker w2 v)
    by (split; [rewrite Hs2; etransitivity; [exact Hs1|exact Ha]|done..|by eexists]).
  eapply wp_conseq; [apply (wp_process_and_reply maker taker jt w2 v m Hf)|].
  { rewrite Hau. apply lookup_insert_eq. }
  { by rewrite Hmid. }
  intros r w3 (o1 & v' & i & Ho & Hi & Hs3 & Hrest). exists now, v, o1, v'.
  split; [done|]. split; [done|]. split.
  - rewrite (first_trade_unique _ _ _ _ Hi Hft) in Hs3. rewrite Hs3, Hs2. unfold set_trade. cbn.
    by rewrite insert_app_r_alt, Nat.sub_diag by done.
  - intros Hr. destruct (Hrest Hr) as (Hf' & Hau3 & Hsend). split; [done|]. split; [by rewrite Hau3, Hau|].
    eapply (sends_after jt w w2); [exact Hm|done|exact Hsend].
Qed.

(** The maker has the order, in [wm], when the message arrives that the taker
    has sent from [w] on; neither has had a trade about it with the other. *)
Record opening (o x : Order) (id units : Z) (wm w : World Node Process) : Prop := mkOpening {
  op_maker : acct (d_state (wst wm)) = maker;
  op_taker : acct (d_state (wst w)) = taker;
  op_free : Spec.lockable id (d_state (wst wm)) = Some o;
  op_terms : same_order (taken_order id o (d_state (wst wm))) x;
  op_ident : identifier x = ident;
  op_acceptable : acceptable id units taker o (d_state (wst wm)) = true;
  op_maker_new : no_trade_about x taker (d_state (wst wm));
  op_taker_new : no_trade_about x maker (d_state (wst w));
  op_maker_trusts : jid_of (xidServers (d_auth (wst wm))) taker jt = true;
  op_taker_trusts : jid_of (xidServers (d_auth (wst w))) maker jm = true;
  op_taker_knows : knownJids (d_auth (wst w)) !! maker = Some jm
}.

Lemma opening_delivered o x id units wm wm1 w w1 m out :
  opening o x id units wm w -> DaemonTakeOrder x units w = (Ret true, w1) -> sends jm w w1 [m] ->
  ImplHandlePrivate jt (private jt m) wm = (Ret tt, wm1) -> sends jt wm wm1 out ->
  exists s0 s, started maker taker s0 /\ sys_run maker taker 1 s0 s /\ projects (mkPair wm1 w1 [] out) s.
Proof.
  intros [Ha Hat Hl Hso Hident Hacc Hnm Hnt Hjm Hjt Hk] Hr Hout Hrun Hout1.
  assert (Hax : account_of x = maker) by (rewrite <-(so_account _ _ Hso); exact Ha).
  assert (Hidx : identifier (taken_order id o (d_state (wst wm))) = identifier x).
  { unfold identifier. by rewrite (so_account _ _ Hso), (so_id _ _ Hso). }
  rewrite <-Hax in Hk, Hnt.
  destruct (wp_run_eq _ _ _ _ _ (wp_DaemonTakeOrder_start x units jm w Hk Hnt) Hr eq_refl)
    as (Hc & Hne & now' & wt0 & wt & r & Ht0 & Hx & He & Hf & Hau & [Htk Hmid] & Hsend).
  rewrite Hat, Hax in *. set (msg := wire _) in *.
  pose proof (sends_inj _ _ _ _ _ Hout Hsend) as [= ->].
  assert (Htm : takes (taken_order id o (d_state (wst wm))) units msg)
    by (split; [by rewrite (so_id _ _ Hso)|by rewrite Hidx]).
  assert (Hno : no_trade_about (taken_order id o (d_state (wst wm))) taker (d_state (wst wm)))
    by (unfold no_trade_about; by rewrite Hidx).
  destruct (wp_run_eq _ _ _ _ _ (wp_first_message id o units msg wm Ha Hjm Htm (taken_units _ _ Hc) Hl Hacc Hno)
    Hrun) as (now & v & o1 & v' & Hv & Hrec & _ & Hrest).
  destruct (Hrest eq_refl) as (Hfm & Haum & Hsm). rewrite (sends_inj _ _ _ _ _ Hout1 Hsm).
  set (s0 := mkSys v wt [msg] []). exists s0. eexists. split; [|split].
  - by apply (started_intro maker taker (taken_order id o (d_state (wst wm))) x units now now' v wt0 wt r);
      rewrite ?Hax.
  - apply (one_step true). by apply (deliver_to_maker maker taker s0 [] msg [] o1 v').
  - destruct (receive_keeps _ _ _ _ _ _ Hrec) as (_ & Hidv & Hall).
    destruct (evolves_key _ _ He) as [_ Hidt].
    assert (Hidm : GetIdentifier (wst v) = ident) by (rewrite Hv, <-Hident; exact Hidx).
    assert (Hidw : GetIdentifier (wst wt) = ident) by (by rewrite Hidt, Ht0, <-Hident).
    rewrite Hidm in *. by split; cbn; rewrite ?Haum, ?Hau.
Qed.

(** C8: two busy daemons negotiate as the protocol describes: let neither daemon
    have an active trade about the order with the other, as maker or as taker,
    both log in from servers the other trusts, and the taker's daemon know the
    maker's JID.  When the taker's daemon has taken the order for units it
    allows, and the maker's daemon, which has it free, handles the taking
    message, and these two calls return, then whatever the two daemons do from
    there on by calls that return (an exception or a failed check ends the
    run), private messages between them arriving in any order or getting lost,
    the users managing orders and taking others, broadcasts, departures and
    private messages of everyone else, and the periodic updates as long as they
    do not archive this very trade, is on the two copies of the trade a run of
    the two-party protocol from its start; so at most seven messages between
    the two are taken from the network, the taking message included. *)
Theorem daemons_follow_protocol o x id units wm wm1 w w1 m out n p :
  opening o x id units wm w ->
  DaemonTakeOrder x units w = (Ret true, w1) -> sends jm w w1 [m] ->
  ImplHandlePrivate jt (private jt m) wm = (Ret tt, wm1) -> sends jt wm wm1 out ->
  pair_run n (mkPair wm1 w1 [] out) p ->
  (n < 7)%nat /\
  exists s0 s, started maker taker s0 /\ sys_run maker taker (Datatypes.S n) s0 s /\ projects p s.
Proof.
  intros Ho Hr Hout Hm Hout1 Hn.
  destruct (opening_delivered _ _ _ _ _ _ _ _ _ _ Ho Hr Hout Hm Hout1) as (s0 & s1 & Hst & Hr1 & Hp1).
  destruct (pair_run_projects _ _ _ _ Hn Hp1) as (s & Hr2 & Hp).
  pose proof (sys_run_trans _ _ _ _ _ _ _ Hr1 Hr2) as Hrun. rewrite Nat.add_1_r in Hrun.
  split; [|by exists s0, s].
  pose proof (started_left _ _ _ Hst). pose proof (sys_run_left _ _ _ _ _ Hrun). lia.
Qed.

(* ------------------------------------------------------------------ *)
(** ** From an announcement to a trade *)

(** The process [w] is in room [r], where the sender of [msg] is the maker. *)
Record sees_maker (r : Z) (msg : Stanza) (w : World Node Process) : Prop := mkSeesMaker {
  sm_room : room (d_muc (wst w)) = Some r;
  sm_in_room : jid_eqb (jid_bareJID (from msg)) (roomName (d_muc (wst w))) = true;
  sm_nick : nickToJid (d_muc (wst w)) !! jid_resource (from msg) = Some jm;
  sm_trusts : jid_of (xidServers (d_auth (wst w))) maker jm = true
}.

(** What others keep of the announcement of [s] has what the book needs. *)
Definition announces_complete (s : State) : Prop :=
  map_Forall (fun _ y => order_complete y = true)
    (kept asset sell buy maker (oa_orders (Spec.announcement s))).

Lemma wp_hear_announcement others r msg s w t n now :
  sees_maker r msg w -> ext_orders msg = transported (Spec.announcement s) -> announces_complete s ->
  steady_now (wnode w) = (t, n) -> now <= t -> book_ok now (d_book (wst w)) ->
  wp (handleMUCMessage (MucHooks0 := impl_hooks others) r msg false) (fun o w' => o = Ret tt /\
    d_state (wst w') = d_state (wst w) /\ d_muc (wst w') = d_muc (wst w) /\
    d_auth (wst w') = d_auth (wst (hears_from maker jm w)) /\ book_ok t (d_book (wst w')) /\
    ob_orders (d_book (wst w')) =
      spec_update maker (kept asset sell buy maker (oa_orders (Spec.announcement s))) t
        (ob_orders (d_book (wst w)))) w.
Proof.
  intros [Hr Hroom Hnick Htr] Hext Hcomp Hn Ht Hb. unfold handleMUCMessage.
  apply wp_bind, wp_room_is; [intros _|done]. cbn [then_post].
  apply wp_bind, wp_read_muc. cbn [then_post]. wp_step. wp_step; [|cbn in *; congruence].
  unfold ResolveNickname. apply wp_bind, wp_read_muc. cbn [then_post muc process_muc]. rewrite Hnick.
  change (HandleMessage jm msg) with (ImplHandleMessage jm msg).
  assert (Hval : valid_ext (ext_orders msg) = Some (Spec.announcement s)) by (by rewrite Hext, transported_valid).
  apply (wp_ImplHandleMessage asset sell buy _ _ _ t n now); [done..| |].
  - intros account d w' Ha Hd Hau Hst Hm. rewrite Hval in Hd. injection Hd as <-.
    rewrite (jid_of_inj _ _ _ _ Ha Htr) in *. split; [|by intros []]. by intros _ Hok Ho.
  - intros w' _ _ _ [Hno|Hno]; [by rewrite Hno in Htr|congruence].
Qed.

(** Which list of the view an order of the type is in. *)
Definition side_of (t : OrderType) (fa : OrderbookForAsset) : list Order :=
  match t with ASK => fa_asks fa | BID => fa_bids fa end.

Lemma announced_in_book id o s b t bk :
  Spec.lockable id s = Some o -> valid maker o = true ->
  ob_orders b = spec_update maker (kept asset sell buy maker (oa_orders (Spec.announcement s))) t bk ->
  in_book b (asset_of o) (type_of o) (listed maker id o).
Proof.
  intros Hl Hv Hb.
  assert (Ho : kept asset sell buy maker (oa_orders (Spec.announcement s)) !! id = Some o).
  { unfold Spec.lockable in Hl. destruct (own_map s !! id) as [y|] eqn:Hy; [|done].
    destruct (locked_of y) eqn:Hly; [done|]. injection Hl as ->.
    apply map_lookup_filter_Some. split; [|done]. by apply map_lookup_filter_Some. }
  exists maker, (mkAccountOrders (mkOrdersOfAccount None
    (kept asset sell buy maker (oa_orders (Spec.announcement s)))) t), id, o.
  split; [|split; [exact Ho|done]].
  rewrite Hb. unfold spec_update. rewrite bool_decide_false, lookup_insert_eq; [reflexivity|].
  intros He. by rewrite He in Ho.
Qed.

Lemma wp_view_lists t x a w :
  book_complete (d_book (wst w)) -> in_book (d_book (wst w)) a t x ->
  exists fa, GetOrdersForAsset a w = (Ret fa, w) /\ x ∈ side_of t fa.
Proof.
  intros Hc Hin. apply wp_returns. unfold GetOrdersForAsset, in_book_of. wp_step.
  apply wp_GetForAsset; [done|]. intros fa (_ & _ & _ & Ha & Hbids). cbn [wst wnode wtrace].
  split; [by destruct w as [[] ? ?]|]. destruct t; [by apply Ha|by apply Hbids].
Qed.

Lemma try_lock_locks id s : Spec.lockable id (Spec.try_lock valid id s).2 = None.
Proof.
  unfold Spec.try_lock. destruct (Spec.lockable id s) as [o|] eqn:Hl; [|exact Hl]. cbn [snd].
  unfold Spec.lockable. destruct (own_map _ !! id) as [y|] eqn:Hy; [|done].
  apply lookup_refresh in Hy as [Hy _]. rewrite own_map_with_own_map, lookup_insert_eq in Hy. by simplify_eq.
Qed.

Lemma receive_evolves account cp m v o v' : receive account cp m v = (o, v') -> evolves (wst v) (wst v').
Proof. intros [[-> _]|(l & _ & He & _)]%receive_local; [reflexivity|exact He]. Qed.

(** The order of the maker as a taker finds it in the view: the asset and the
    type are those of the list it is in. *)
Definition from_view (id : Z) (o : Order) : Order :=
  with_type (o_type o) (with_asset (o_asset o) (listed maker id o)).

Lemma from_view_taken id o s : acct s = maker -> taken_order id o s = from_view id o.
Proof. intros Ha. unfold taken_order. rewrite Ha. by destruct o. Qed.

(** C9: an announced order can be taken, provided that every order of the
    announcement that passes the receiver's checks says its asset, side and
    price (the receiver aborts at one that does not): when the maker's
    announcement of a valid, free order reaches another daemon, which is in the
    room, resolves the sender's nickname to the maker's JID on a trusted server
    and has a sound order book, that daemon lists the order under the maker's
    name on its side of the view of its asset; if it has no active trade about
    the order with the maker and a call that takes the order as listed returns
    true, one message goes to the maker, and when this arrives at the maker's
    daemon, which trusts the taker's server, while the order is still free and
    is not yet in an active trade with this taker, the maker's daemon has,
    whatever its wallet answers and however its handler ends, a new trade on
    exactly the same order, units and counterparty, and the order is locked for
    everyone else. *)
Theorem announced_order_can_be_taken others r msg id o s w t n now :
  sees_maker r msg w -> ext_orders msg = transported (Spec.announcement s) -> announces_complete s ->
  Spec.lockable id s = Some o -> valid maker o = true ->
  acct (d_state (wst w)) = taker -> no_trade_about (from_view id o) maker (d_state (wst w)) ->
  steady_now (wnode w) = (t, n) -> now <= t -> book_ok now (d_book (wst w)) ->
  exists w1 fa, handleMUCMessage (MucHooks0 := impl_hooks others) r msg false w = (Ret tt, w1) /\
    GetOrdersForAsset (asset_of o) w1 = (Ret fa, w1) /\ listed maker id o ∈ side_of (type_of o) fa /\
    forall units w2, DaemonTakeOrder (from_view id o) units w1 = (Ret true, w2) ->
      exists m, sends jm w1 w2 [m] /\
        forall wm res wm', acct (d_state (wst wm)) = maker ->
          Spec.lockable id (d_state (wst wm)) = Some o ->
          no_trade_about (from_view id o) taker (d_state (wst wm)) ->
          jid_of (xidServers (d_auth (wst wm))) taker jt = true ->
          ImplHandlePrivate jt (private jt m) wm = (res, wm') ->
          exists time trade, st_trades (d_state (wst wm')) = st_trades (d_state (wst wm)) ++ [trade] /\
            evolves (new_trade (from_view id o) time units taker) trade /\
            Spec.lockable id (d_state (wst wm')) = None.
Proof.
  intros Hsees Hext Hcomp Hl Hv Ha Hno Hn Ht Hb.
  pose proof (wp_hear_announcement others r msg s w t n now Hsees Hext Hcomp Hn Ht Hb) as Hw.
  unfold wp in Hw. destruct (handleMUCMessage r msg false w) as [o1 w1].
  destruct Hw as (-> & Hst & _ & Hau & Hok & Hbk).
  pose proof (announced_in_book id o s (d_book (wst w1)) t _ Hl Hv Hbk) as Hin.
  destruct (wp_view_lists _ _ _ w1 (bo_complete _ _ Hok) Hin) as (fa & Hfa & Hlist).
  exists w1, fa. split; [done|]. split; [done|]. split; [done|]. intros units w2 Htake.
  assert (Hk : knownJids (d_auth (wst w1)) !! account_of (from_view id o) = Some jm)
    by (rewrite Hau; apply lookup_insert_eq).
  rewrite <-Hst in Ha, Hno.
  destruct (wp_run_eq _ _ _ _ _ (wp_DaemonTakeOrder_start (from_view id o) units jm w1 Hk Hno) Htake eq_refl)
    as (Hc & Hne & now' & wt0 & wt & y & _ & _ & _ & _ & _ & Htk & Hsend).
  eexists. split; [exact Hsend|]. rewrite Ha in Hne. intros wm res wm' Ham Hlm Hnm Hjm Hrun.
  pose proof (from_view_taken id o _ Ham) as Heq. rewrite <-Heq in Htk, Hc, Hnm.
  assert (Hacc : acceptable id units taker o (d_state (wst wm)) = true).
  { unfold acceptable. rewrite Hc, Ham. apply negb_true_iff, String.eqb_neq. intros He. by apply Hne. }
  destruct (wp_run_eq _ _ _ _ _ (wp_first_message id o units _ wm Ham Hjm Htk (taken_units _ _ Hc) Hlm Hacc Hnm)
    Hrun) as (time & v & o1 & v' & Hvs & Hrec & Hs & _).
  exists time, (wst v'). rewrite Hs. split; [done|]. split; [|apply try_lock_locks].
  rewrite <-Heq. change (evolves (makers_trade id o time units (d_state (wst wm))) (wst v')).
  rewrite <-Hvs. by eapply receive_evolves.
Qed.

End market.

(* ------------------------------------------------------------------ *)
(** ** The theorems at concrete inputs *)

Module MarketWitness.
Import Mock MucClientWitness DaemonWitness.

#[local] Existing Instance default_flags.
#[local] Existing Instance default_daemon_flags.
#[local] Existing Instance OrderBookWitness.steady_fixed.
#[local] Existing Instance DaemonWitness.gsp_fixed.
#[local] Existing Instance DaemonWitness.clock_fixed.
#[local] Existing Instance DaemonWitness.game.
#[local] Existing Instance DaemonWitness.connection.

(** A codec whose tags are the messages. *)
#[local] Instance orders_codec : TagCodec OrdersOfAccount := {|
  Tag := OrdersOfAccount; EncodeXmlPayload d := d; DecodeXmlPayload := Some;
  default_proto := mkOrdersOfAccount None ∅ |}.
#[local] Instance orders_codec_laws : TagCodecLaws OrdersOfAccount.
Proof. by intros d. Qed.
#[local] Instance messages_codec : TagCodec ProcessingMessage := {|
  Tag := ProcessingMessage; EncodeXmlPayload d := d; DecodeXmlPayload := Some;
  default_proto := empty_message |}.
#[local] Instance messages_codec_laws : TagCodecLaws ProcessingMessage.
Proof. by intros d. Qed.

(** "domob" sells; "alice" is in the room, where "domob" is "d". *)
Definition alice_jid : JID := full_jid "alice" "chat.xaya.io" "pc".
Definition maker0 : World Fixed Process :=
  world_of (set_muc_of (mkMuc the_room (Some 1) false false false ∅ [])
    (new_Process false false "domob" the_room)) fixed.
Definition maker1 : World Fixed Process := snd (AddOrder (offer (Some ASK)) maker0).
Definition taker0 : World Fixed Process :=
  world_of (set_muc_of (mkMuc the_room (Some 1) false false false {["d" := domob]} [])
    (new_Process false false "alice" the_room)) fixed.
Definition the_announcement : OrdersOfAccount := Spec.announcement (d_state (wst maker1)).
Definition announced_stanza : Stanza := mkStanza (in_room "d") (transported the_announcement) None.
Definition the_id : Z := default 0 (fst <$> head (map_to_list (own_map (d_state (wst maker1))))).
Definition the_order : Order := default empty_order (Spec.lockable the_id (d_state (wst maker1))).

Definition heard : outcome unit * World Fixed Process :=
  handleMUCMessage (MucHooks0 := impl_hooks (mret tt)) 1 announced_stanza false taker0.

(** The announcement is what the maker's daemon has sent. *)
Lemma announced_order_can_be_taken_witness :
  announced (wst maker1) = [the_announcement] /\ the_order <> empty_order /\
  exists w1 fa, heard = (Ret tt, w1) /\ GetOrdersForAsset "gold" w1 = (Ret fa, w1) /\
    listed "domob" the_id the_order ∈ fa_asks fa.
Proof.
  split; [vm_compute; reflexivity|]. split; [by vm_compute|].
  destruct (announced_order_can_be_taken "domob" "alice" domob alice_jid game_asset game_sell game_buy
    (mret tt) 1 announced_stanza the_id the_order (d_state (wst maker1)) taker0 20 fixed 0)
    as (w1 & fa & Hr & Hv & Hl & _).
  - split; vm_compute; reflexivity.
  - reflexivity.
  - apply map_Forall_to_list. vm_compute. repeat constructor.
  - vm_compute. reflexivity.
  - vm_compute. reflexivity.
  - reflexivity.
  - constructor.
  - reflexivity.
  - lia.
  - apply new_book_ok.
  - exists w1, fa. split; [exact Hr|]. split; [exact Hv|exact Hl].
Defined.

(** "alice" takes two units of it, and the message is delivered. *)
Definition the_view : Order := from_view "domob" the_id the_order.
Definition taker1 : World Fixed Process := snd heard.
Definition taker2 : World Fixed Process := snd (DaemonTakeOrder the_view 2 taker1).
Definition sent_directly (w w' : World Fixed Process) : list ProcessingMessage :=
  omap (fun m => match m with Direct _ [ProcessingMessageStanza d] => Some d | _ => None end)
    (drop (length (outbox (d_muc (wst w)))) (outbox (d_muc (wst w')))).
Definition first_message : list ProcessingMessage := sent_directly taker1 taker2.
Definition the_message : ProcessingMessage := default empty_message (head first_message).
Definition maker2 : World Fixed Process :=
  snd (ImplHandlePrivate alice_jid (private alice_jid the_message) maker1).
Definition replies : list ProcessingMessage := sent_directly maker1 maker2.
Definition the_reply : ProcessingMessage := default empty_message (head replies).

(** Then the maker's user cancels another order, the maker's trades are
    updated, and its reply arrives. *)
Definition maker3 : World Fixed Process := snd (run_ops [OpRemove 17; OpRefresh] maker2).
Definition maker4 : World Fixed Process := snd (UpdateAndArchiveTrades maker3).
Definition taker3 : World Fixed Process :=
  snd (ImplHandlePrivate domob (private domob the_reply) taker2).
Definition replies' : list ProcessingMessage := sent_directly taker2 taker3.

Definition the_ident : string := identifier the_view.

Lemma opened : opening "domob" "alice" domob alice_jid the_ident the_order the_view the_id 2 maker1 taker1.
Proof.
  split; [| | | | | | | | | |]; try (vm_compute; reflexivity);
    [split; vm_compute; reflexivity|by apply Forall_nil..].
Qed.

Definition pair2 : Pair := mkPair maker2 taker2 [] replies.
Definition pair3 : Pair := mkPair maker3 (p_taker pair2) (q_maker pair2) (q_taker pair2).
Definition pair4 : Pair := mkPair maker4 (p_taker pair3) (q_maker pair3) (q_taker pair3).
Definition pair5 : Pair := mkPair (p_maker pair4) taker3 (q_maker pair4 ++ replies') ([] ++ []).

#[local] Abbreviation step := (pair_step "domob" "alice" domob alice_jid the_ident).

Lemma cancels : step false pair2 pair3.
Proof.
  refine (pair_maker_does _ _ _ _ _ pair2 (run_ops [OpRemove 17; OpRefresh]) maker3 (act_own_orders _ _) _).
  refine (run_eq (run_ops [OpRemove 17; OpRefresh]) (Ret tt) maker2 _). vm_compute. reflexivity.
Qed.

Lemma updates_trades : step false pair3 pair4.
Proof.
  refine (pair_maker_updates _ _ _ _ _ pair3 maker4 (conj _ _)).
  - refine (run_eq UpdateAndArchiveTrades (Ret tt) maker3 _). vm_compute. reflexivity.
  - exists "domob", [], (snd (AccessState archive_finalised maker3)). split; [|constructor].
    refine (run_eq (AccessState archive_finalised) (Ret ("domob", [])) maker3 _). vm_compute. reflexivity.
Qed.

Lemma reply_arrives : step true pair4 pair5.
Proof.
  refine (pair_to_taker _ _ _ _ _ pair4 [] the_reply [] taker3 replies' _ _ _).
  - vm_compute. reflexivity.
  - refine (run_eq (ImplHandlePrivate domob (private domob the_reply)) (Ret tt) taker2 _). vm_compute. reflexivity.
  - exists []. split; [constructor|vm_compute; reflexivity].
Qed.

Lemma continued : pair_run "domob" "alice" domob alice_jid the_ident 1 pair2 pair5.
Proof.
  exact (pair_run_step _ _ _ _ _ false 1 pair2 pair3 pair5 cancels
    (pair_run_step _ _ _ _ _ false 1 pair3 pair4 pair5 updates_trades
      (pair_run_step _ _ _ _ _ true 0 pair4 pair5 pair5 reply_arrives (pair_run_refl _ _ _ _ _ pair5)))).
Qed.

Lemma daemons_follow_protocol_witness :
  length replies = 1%nat /\ (1 < 7)%nat /\
  exists s0 s, started "domob" "alice" s0 /\ sys_run "domob" "alice" 2 s0 s /\
    projects "domob" "alice" domob alice_jid the_ident pair5 s.
Proof.
  split; [vm_compute; reflexivity|].
  apply (daemons_follow_protocol "domob" "alice" domob alice_jid the_ident game_asset game_sell game_buy
    the_order the_view the_id 2 maker1 maker2 taker1 taker2 the_message replies 1 pair5).
  - exact opened.
  - refine (run_eq (DaemonTakeOrder the_view 2) (Ret true) taker1 _). vm_compute. reflexivity.
  - exists []. split; [constructor|vm_compute; reflexivity].
  - refine (run_eq (ImplHandlePrivate alice_jid (private alice_jid the_message)) (Ret tt) maker1 _).
    vm_compute. reflexivity.
  - eexists [_]. split; [|vm_compute; reflexivity]. repeat constructor. by eexists _, _.
  - exact continued.
Defined.

End MarketWitness.
