(* ===== verification/Nonfungible.v ===== *)
(** * The nonfungible game

    The asset specification of [src/nonfungible/main.cpp]: an asset is the
    text [minter], a line feed, [name], and every question is put to the
    JSON-RPC interface of the nonfungible GSP.  [NfAssetSpec] is an instance
    of the interface [AssetSpec] that the rest of the development is written
    against. *)

From Stdlib Require Import ZArith Lia String Ascii.
From stdpp Require Import base gmap strings list.
From S2P Require Import Prelude Json Proto Effects Mock Checker Authenticator Daemon.

(** [NfRpcClient], the stub of [rpc-stubs/nf.json]. *)
Class NfGsp `{JsonLib} (Node : Type) := {
  getassetdetails : Json -> Node -> (string + Json) * Node;
  getbalance : Json -> string -> Node -> (string + Json) * Node
}.

(** [std::string::find] *)
Fixpoint find_char (c : ascii) (s : string) : option nat :=
  match s with
  | EmptyString => None
  | String c' s' => if Ascii.eqb c' c then Some 0%nat else Datatypes.S <$> find_char c s'
  end.

Definition line_feed : ascii := "010".

Section nonfungible.
Context `{JsonLib} `{!Uint256Lib} {Node : Type} `{!NfGsp Node}.

Definition GetNfAsset (str : string) : Json :=
  match find_char line_feed str with
  | None => jnull
  | Some sep =>
      let res := jset jobject "m" (jstr (substring 0 sep str)) in
      jset res "a" (jstr (substring (sep + 1) (String.length str - (sep + 1)) str))
  end.

(** [v.isMember (k)], which throws unless [v] is an object or null. *)
Definition isMember (v : Json) (k : string) : M Node unit bool :=
  if is_null v || is_object v then mret (is_member v k) else throw JsonLogicError.

Definition gsp_getassetdetails (asset : Json) : M Node unit Json := fun w =>
  let '(r, n) := getassetdetails asset (wnode w) in
  (rpc_reply r, mkWorld (wst w) n (wtrace w)).

Definition gsp_getbalance (asset : Json) (name : string) : M Node unit Json := fun w =>
  let '(r, n) := getbalance asset name (wnode w) in
  (rpc_reply r, mkWorld (wst w) n (wtrace w)).

Definition NfIsAsset (asset : string) : M Node unit bool :=
  let jsonAsset := GetNfAsset asset in
  if is_null jsonAsset then mret false
  else
    response ← gsp_getassetdetails jsonAsset;
    m ← isMember response "data";
    check m;;
    data ← field response "data";
    mret (negb (is_null data)).

(** [Some hash] is the return value true with the block hash set. *)
Definition NfCanSell (name asset : string) (n : Z) : M Node unit (option U256) :=
  let jsonAsset := GetNfAsset asset in
  check (is_object jsonAsset);;
  response ← gsp_getbalance jsonAsset name;
  check (is_object response);;
  balance ← field response "data";
  check (is_int64 balance);;
  hashVal ← field response "blockhash";
  check (is_string hashVal);;
  s ← json (as_string hashVal);
  hash ← check_some (from_hex s);
  b ← json (as_int64 balance);
  mret (if n <=? b then Some hash else None).

Definition NfCanBuy (name asset : string) (n : Z) : M Node unit bool := mret true.

Definition NfGetTransferMove (sender receiver asset : string) (n : Z) : outcome Json :=
  let jsonAsset := GetNfAsset asset in
  checked (is_object jsonAsset);;
  let transfer := jset jobject "a" jsonAsset in
  let transfer := jset transfer "n" (jint (s64 n)) in
  let transfer := jset transfer "r" (jstr receiver) in
  mret (jset jobject "t" transfer).

(** A method has no state of its own. *)
Definition run_method {A} (m : M Node unit A) (n : Node) : outcome A * Node :=
  let '(o, w) := m (mkWorld tt n []) in (o, wnode w).

Definition NfAssetSpec : AssetSpec Node := {|
  GetGameId := "nf";
  spec_is_asset a := run_method (NfIsAsset a);
  spec_can_sell name a n := run_method (NfCanSell name a n);
  spec_can_buy name a n := run_method (NfCanBuy name a n);
  GetTransferMove := NfGetTransferMove
|}.

End nonfungible.

(* ------------------------------------------------------------------ *)
(** ** Assets as text and as JSON *)

(** The text of an asset: the minter has no line feed. *)
Definition asset_text (m a : string) : string := m +:+ String line_feed a.

Definition one_line (m : string) : Prop := find_char line_feed m = None.

Lemma find_char_split s sep :
  find_char line_feed s = Some sep ->
  one_line (substring 0 sep s) /\
  s = asset_text (substring 0 sep s) (substring (sep + 1) (String.length s - (sep + 1)) s).
Proof.
  unfold one_line, asset_text. revert sep. induction s as [|c s IH]; intros sep; cbn; [done|].
  destruct (Ascii.eqb_spec c line_feed) as [->|Hc].
  - intros [= <-]. cbn. by rewrite Nat.sub_0_r, substring_all.
  - destruct (find_char line_feed s) as [k|]; [|done]. intros [= <-].
    destruct (IH k eq_refl) as [Hk Hs]. cbn. destruct (Ascii.eqb_spec c line_feed); [done|].
    rewrite Hk. split; [done|]. rewrite string_app_cons. f_equal. exact Hs.
Qed.

Lemma find_char_app m a : one_line m -> find_char line_feed (asset_text m a) = Some (String.length m).
Proof.
  unfold one_line, asset_text. induction m as [|c m IH]; [done|].
  rewrite string_app_cons. cbn [find_char String.length].
  destruct (Ascii.eqb_spec c line_feed); [done|]. destruct (find_char line_feed m); [done|].
  intros _. by rewrite IH.
Qed.

Lemma asset_text_length m a : String.length (asset_text m a) = (String.length m + S (String.length a))%nat.
Proof. induction m as [|c m IH]; [done|]. unfold asset_text in *. rewrite string_app_cons. cbn. by rewrite IH. Qed.

Lemma substring_prefix m s : substring 0 (String.length m) (m +:+ s) = m.
Proof. induction m as [|c m IH]; [by destruct s|]. rewrite string_app_cons. cbn. by rewrite IH. Qed.

Lemma substring_suffix m c s n :
  n = String.length s -> substring (String.length m + 1) n (m +:+ String c s) = s.
Proof.
  intros ->. induction m as [|d m IH]; [exact (substring_all s)|]. rewrite string_app_cons. exact IH.
Qed.

Section assets.
Context `{JsonLib} `{!JsonLaws}.

(** The JSON form of an asset. *)
Definition asset_json (m a : string) : Json :=
  jset (jset jobject "m" (jstr m)) "a" (jstr a).

Lemma GetNfAsset_text m a : one_line m -> GetNfAsset (asset_text m a) = asset_json m a.
Proof.
  intros Hm. unfold GetNfAsset, asset_json. rewrite find_char_app by done.
  rewrite asset_text_length. unfold asset_text. rewrite substring_prefix, substring_suffix by lia. done.
Qed.

Lemma is_object_asset m a : is_object (asset_json m a) = true.
Proof. unfold asset_json. by json_obj. Qed.

Lemma asset_json_inj m a m' a' : asset_json m a = asset_json m' a' -> m = m' /\ a = a'.
Proof.
  intros He.
  assert (Hm : jget (asset_json m a) "m" = jget (asset_json m' a') "m") by (by rewrite He).
  assert (Ha : jget (asset_json m a) "a" = jget (asset_json m' a') "a") by (by rewrite He).
  unfold asset_json in Hm, Ha. revert Hm Ha. json_obj. intros [= Hm] [= Ha].
  split; apply (base.inj Some); by rewrite <-!as_string_jstr, ?Hm, ?Ha.
Qed.

Lemma asset_cases s :
  find_char line_feed s = None /\ GetNfAsset s = jnull \/
  exists m a, one_line m /\ s = asset_text m a /\ GetNfAsset s = asset_json m a.
Proof.
  destruct (find_char line_feed s) as [sep|] eqn:Hs.
  - right. destruct (find_char_split s sep Hs) as [Hm He]. eexists _, _.
    split; [exact Hm|]. split; [exact He|]. rewrite He at 1. by apply GetNfAsset_text.
  - left. split; [done|]. unfold GetNfAsset. by rewrite Hs.
Qed.

End assets.

(* ------------------------------------------------------------------ *)
(** ** What the GSP documents about its replies *)

Section gsp.
Context `{JsonLib} `{!JsonLaws} `{!Uint256Lib} `{!Uint256Laws} {Node : Type} `{!NfGsp Node}.

(** The game state of the GSP as seen through its interface: which assets
    exist, the balances, and the block it is at. *)
Class NfGspLaws (exists_asset : string -> string -> bool) (balance_of : string -> string -> string -> Z)
    (tip : U256) : Prop := {
  getassetdetails_reply m a n : exists r d,
    getassetdetails (asset_json m a) n = (inr r, n) /\ is_object r = true /\
    is_member r "data" = true /\ jget r "data" = Some d /\ is_null d = negb (exists_asset m a);
  getbalance_reply m a name n : exists r b h,
    getbalance (asset_json m a) name n = (inr r, n) /\ is_object r = true /\
    jget r "data" = Some b /\ is_int64 b = true /\ as_int64 b = Some (balance_of name m a) /\
    jget r "blockhash" = Some h /\ is_string h = true /\ as_string h = Some (to_hex tip)
}.

Context (exists_asset : string -> string -> bool) (balance_of : string -> string -> string -> Z)
  (tip : U256) `{!NfGspLaws exists_asset balance_of tip}.

Lemma run_method_wp {A} (m : M Node unit A) n (r : outcome A * Node) :
  wp m (fun o w => (o, wnode w) = r) (mkWorld tt n []) -> run_method m n = r.
Proof. unfold wp, run_method. by destruct (m _). Qed.

Lemma wp_gsp_getassetdetails a r n' (Q : outcome Json -> World Node unit -> Prop) w :
  getassetdetails a (wnode w) = (inr r, n') -> Q (Ret r) (mkWorld (wst w) n' (wtrace w)) ->
  wp (gsp_getassetdetails a) Q w.
Proof. unfold wp, gsp_getassetdetails. by intros ->. Qed.

Lemma wp_gsp_getbalance a name r n' (Q : outcome Json -> World Node unit -> Prop) w :
  getbalance a name (wnode w) = (inr r, n') -> Q (Ret r) (mkWorld (wst w) n' (wtrace w)) ->
  wp (gsp_getbalance a name) Q w.
Proof. unfold wp, gsp_getbalance. by intros ->. Qed.

Lemma NfIsAsset_text m a n :
  one_line m ->
  run_method (NfIsAsset (asset_text m a)) n = (Ret (exists_asset m a), n).
Proof.
  intros Hm. destruct (getassetdetails_reply m a n) as (r & d & Hr & Ho & Hd & Hdata & Hnull).
  apply run_method_wp. unfold NfIsAsset, isMember, field. rewrite GetNfAsset_text by done.
  rewrite (is_null_object _ (is_object_asset m a)).
  wp_step. eapply wp_gsp_getassetdetails; [exact Hr|]. cbn [then_post]. rewrite Ho, orb_true_r.
  wp_step. wp_step. wp_step. wp_step; [|congruence]. wp_step. wp_step; [|congruence]. simplify_eq.
  wp_step. by rewrite Hnull, negb_involutive.
Qed.

Lemma NfCanSell_text name m a k n :
  one_line m ->
  run_method (NfCanSell name (asset_text m a) k) n =
  (Ret (if k <=? balance_of name m a then Some tip else None), n).
Proof.
  intros Hm. destruct (getbalance_reply m a name n) as (r & b & h & Hr & Ho & Hb & Hi & Hv & Hh & Hs & Ht).
  apply run_method_wp. unfold NfCanSell, field. rewrite GetNfAsset_text by done.
  rewrite is_object_asset. wp_step. wp_step; [|done]. wp_step.
  eapply wp_gsp_getbalance; [exact Hr|]. cbn [then_post].
  wp_step. wp_step; [|congruence]. wp_step. wp_step; [|congruence]. simplify_eq.
  wp_step. wp_step; [|congruence]. wp_step. wp_step; [|congruence]. simplify_eq.
  wp_step. wp_step; [|congruence]. wp_step. wp_step; [|congruence]. simplify_eq.
  wp_step. wp_step; [|by rewrite from_to_hex in *]. rewrite from_to_hex in *. simplify_eq.
  wp_step. wp_step; [|congruence]. simplify_eq. by wp_step.
Qed.

(** A text that is no asset never reaches the GSP. *)
Lemma NfIsAsset_other s n :
  find_char line_feed s = None -> run_method (NfIsAsset s) n = (Ret false, n).
Proof. intros Hs. unfold run_method, NfIsAsset, GetNfAsset. rewrite Hs. by rewrite is_null_jnull. Qed.

Lemma NfCanSell_other name s k n :
  find_char line_feed s = None -> run_method (NfCanSell name s k) n = (Fatal, n).
Proof. intros Hs. unfold run_method, NfCanSell, GetNfAsset. rewrite Hs. by rewrite is_object_jnull. Qed.

(** The answers as functions of the text. *)
Definition asset_exists (s : string) : bool :=
  match find_char line_feed s with
  | None => false
  | Some sep => exists_asset (substring 0 sep s)
      (substring (sep + 1) (String.length s - (sep + 1)) s)
  end.

Definition sellable (name s : string) (k : Z) : option U256 :=
  match find_char line_feed s with
  | None => None
  | Some sep =>
      if k <=? balance_of name (substring 0 sep s)
        (substring (sep + 1) (String.length s - (sep + 1)) s)
      then Some tip else None
  end.

Lemma NfAssetSpec_stable :
  StableGame (AssetSpec0 := NfAssetSpec) asset_exists sellable (fun _ _ _ => true).
Proof.
  split; [intros s n|intros name s k n|done];
    cbn [spec_is_asset spec_can_sell NfAssetSpec]; unfold asset_exists, sellable;
    destruct (find_char line_feed s) as [sep|] eqn:Hs; try done.
  - destruct (find_char_split s sep Hs) as [Hm He]. rewrite He at 1. by apply NfIsAsset_text.
  - by apply NfIsAsset_other.
  - intros _. destruct (find_char_split s sep Hs) as [Hm He]. rewrite He at 1. by apply NfCanSell_text.
Qed.

(** C30: for a GSP that replies as documented, the specification answers from
    the game state: a text is an asset exactly if it is a minter and a name of
    an asset that exists, separated by the first line feed; an account can
    sell what its balance covers, as of the GSP's block; anybody can buy.  Of
    a text without a line feed only the first question may be asked, which is
    answered no without the GSP, and asking whether it can be sold or moved
    aborts. *)
Theorem NfAssetSpec_correct s n :
  (exists m a, s = asset_text m a /\ one_line m /\
    spec_is_asset (AssetSpec := NfAssetSpec) s n = (Ret (exists_asset m a), n) /\
    (forall name k, spec_can_sell (AssetSpec := NfAssetSpec) name s k n =
      (Ret (if k <=? balance_of name m a then Some tip else None), n)) /\
    (forall name k, spec_can_buy (AssetSpec := NfAssetSpec) name s k n = (Ret true, n)) /\
    forall from to k, exists mv, GetTransferMove (AssetSpec := NfAssetSpec) from to s k = Ret mv) \/
  (find_char line_feed s = None /\
    spec_is_asset (AssetSpec := NfAssetSpec) s n = (Ret false, n) /\
    (forall name k, spec_can_sell (AssetSpec := NfAssetSpec) name s k n = (Fatal, n)) /\
    forall from to k, GetTransferMove (AssetSpec := NfAssetSpec) from to s k = Fatal).
Proof.
  destruct (asset_cases s) as [[Hs Hj]|(m & a & Hm & -> & Hj)].
  - right. split; [done|]. split; [by apply NfIsAsset_other|].
    split; [intros; by apply NfCanSell_other|]. intros from to k. cbn. unfold NfGetTransferMove.
    by rewrite Hj, is_object_jnull.
  - left. exists m, a. split; [done|]. split; [done|]. split; [by apply NfIsAsset_text|].
    split; [intros; by apply NfCanSell_text|]. split; [done|]. intros from to k. cbn.
    unfold NfGetTransferMove. rewrite Hj, is_object_asset. by eexists.
Qed.

(** The move of a trade says what is transferred: two transfers with the
    same move are of the same asset, in the same number, to the same receiver,
    so the name update that the buyer composes and the seller checks cannot be
    that of another trade. *)
Theorem transfer_move_injective from to asset k from' to' asset' k' mv :
  is_s64 k -> is_s64 k' ->
  NfGetTransferMove from to asset k = Ret mv -> NfGetTransferMove from' to' asset' k' = Ret mv ->
  asset = asset' /\ to = to' /\ k = k'.
Proof.
  intros Hk Hk'. unfold NfGetTransferMove. rewrite (s64_id k Hk), (s64_id k' Hk').
  destruct (asset_cases asset) as [[_ ->]|(m & a & Hm & -> & ->)]; [by rewrite is_object_jnull|].
  destruct (asset_cases asset') as [[_ ->]|(m' & a' & Hm' & -> & ->)]; [by rewrite is_object_jnull|].
  rewrite !is_object_asset. cbn. intros [= <-] [= He].
  apply (f_equal (fun v => jget v "t")) in He. revert He. json_obj. intros [= He].
  pose proof (f_equal (fun v => jget v "a") He) as Ha.
  pose proof (f_equal (fun v => jget v "n") He) as Hn.
  pose proof (f_equal (fun v => jget v "r") He) as Hr.
  cbn beta in Ha, Hn, Hr. revert Ha Hn Hr. json_obj. intros [= Ha] [= Hn] [= Hr].
  apply asset_json_inj in Ha as [-> ->]. split; [done|]. split; apply (base.inj Some).
  - by rewrite <-!as_string_jstr, Hr.
  - by rewrite <-(as_int64_jint k), <-(as_int64_jint k'), Hn.
Qed.

End gsp.

(* ------------------------------------------------------------------ *)
(** ** The theorems at concrete inputs *)

Module NonfungibleWitness.
Import Mock.

(** A GSP where domob has minted foo and alice has five of it. *)
Definition minted (m a : string) : bool := String.eqb m "domob" && String.eqb a "foo".
Definition balance (name m a : string) : Z :=
  if minted m a && String.eqb name "alice" then 5 else 0.

Definition read_asset (v : Json) : string * string :=
  match jget v "m", jget v "a" with
  | Some x, Some y => (default "" (as_string x), default "" (as_string y))
  | _, _ => ("", "")
  end.

#[export] Instance nf_fixed : NfGsp Fixed := {
  getassetdetails v n :=
    let '(m, a) := read_asset v in
    (inr (obj [("data", if minted m a then obj [("supply", jint 5)] else jnull)]), n);
  getbalance v name n :=
    let '(m, a) := read_asset v in
    (inr (obj [("blockhash", jstr "b3"); ("data", jint (balance name m a))]), n)
}.

Lemma balance_is_int64 name m a : is_int64 (jint (balance name m a)) = true.
Proof. unfold balance. destruct (minted m a && String.eqb name "alice"); reflexivity. Qed.

#[export] Instance nf_laws : NfGspLaws (Node := Fixed) minted balance (blk "b3").
Proof.
  split.
  - intros m a n. set (d := if minted m a then obj [("supply", jint 5)] else jnull).
    exists (obj [("data", d)]), d. split; [reflexivity|]. split; [done|]. split; [done|].
    split; [reflexivity|]. subst d. destruct (minted m a); reflexivity.
  - intros m a name n. eexists _, _, _. split; [reflexivity|]. split; [done|].
    split; [reflexivity|]. split; [apply balance_is_int64|]. done.
Qed.

Lemma NfAssetSpec_correct_witness :
  spec_is_asset (AssetSpec := NfAssetSpec) (asset_text "domob" "foo") fixed = (Ret true, fixed) /\
  exists m a, asset_text "domob" "foo" = asset_text m a.
Proof.
  split; [reflexivity|].
  destruct (NfAssetSpec_correct minted balance (blk "b3") (asset_text "domob" "foo") fixed)
    as [(m & a & Hs & _)|[Hs _]]; [by exists m, a|discriminate Hs].
Defined.

Definition move : Json :=
  match NfGetTransferMove "alice" "bob" (asset_text "domob" "foo") 2 with Ret v => v | _ => jnull end.

Lemma transfer_move_injective_witness : asset_text "domob" "foo" = asset_text "domob" "foo" /\ "bob" = "bob" /\ 2 = 2.
Proof.
  apply (transfer_move_injective "alice" "bob" (asset_text "domob" "foo") 2 "carol" "bob"
    (asset_text "domob" "foo") 2 move); unfold is_s64, two63; try lia; reflexivity.
Defined.

End NonfungibleWitness.
