(* ===== verification/Server.v ===== *)
(** * Starting and stopping a daemon

    [RpcServer::Run] and [RpcServer::stop] of [src/rpcserver.cpp], which the
    main thread and the threads of the JSON-RPC library run at the same time,
    as the steps of a transition system with the mutex and the condition
    variable they share; and the program of
    [src/nonfungible/main.cpp], which builds a daemon from its flags, connects
    it and runs the server. *)

From Stdlib Require Import ZArith Lia String.
From stdpp Require Import base gmap strings list relations.
From S2P Require Import Prelude Json Proto Effects Mock Checker MyOrders Trades Authenticator OrderBook MucClient Daemon Nonfungible.

(* ------------------------------------------------------------------ *)
(** ** The server *)

(** Where [Run] is: before it has [mutStop], with it in front of each
    statement, at the test of [shouldStop], about to wait for [cvStop], asleep
    in [wait], woken and in need of the mutex, and after the loop. *)
Inductive RunPc :=
  Outside | Entered | Starting | Checking | Waiting | Sleeping | Woken | Closing | Leaving | Returned.

(** Where the handler of a request to stop is: before the lock, with it in
    front of each statement, and done. *)
Inductive StopPc := Arrived | Locked | FlagSet | Notified | Handled.

(** Who has [mutStop]. *)
Inductive Holder := ByRun | ByStop (i : nat).

#[export] Instance RunPc_eq_dec : EqDecision RunPc.
Proof. solve_decision. Defined.
#[export] Instance StopPc_eq_dec : EqDecision StopPc.
Proof. solve_decision. Defined.

(** [stops] has the handlers of all requests to stop that have come, each run
    by a thread of the library. *)
Record RpcServer := mkRpcServer {
  shouldStop : bool;
  mutStop : option Holder;
  run_pc : RunPc;
  stops : list StopPc
}.

Definition asked (s : RpcServer) : nat := length (stops s).

(** The requests that are being handled. *)
Definition pending (l : list StopPc) : nat := length (filter (fun k => k <> Handled) l).

Section server.
(** Whether the library's [StopListening] can return while [n] requests are
    being handled. *)
Context (StopListening_returns : nat -> Prop).

(** Requests arrive while the server listens. *)
Definition listening (p : RunPc) : bool :=
  match p with Checking | Waiting | Sleeping | Woken => true | _ => false end.

(** The steps of [Run].  To wait is to give the mutex up and to fall asleep in
    one step; nothing here wakes it up. *)
Inductive run_step : RpcServer -> RpcServer -> Prop :=
| run_lock f l :
    run_step (mkRpcServer f None Outside l) (mkRpcServer f (Some ByRun) Entered l)
| run_reset f m l : run_step (mkRpcServer f m Entered l) (mkRpcServer false m Starting l)
| run_listen f m l : run_step (mkRpcServer f m Starting l) (mkRpcServer f m Checking l)
| run_stays m l : run_step (mkRpcServer false m Checking l) (mkRpcServer false m Waiting l)
| run_wait f m l : run_step (mkRpcServer f m Waiting l) (mkRpcServer f None Sleeping l)
| run_relock f l :
    run_step (mkRpcServer f None Woken l) (mkRpcServer f (Some ByRun) Checking l)
| run_leaves m l : run_step (mkRpcServer true m Checking l) (mkRpcServer true m Closing l)
| run_closed f m l :
    StopListening_returns (pending l) ->
    run_step (mkRpcServer f m Closing l) (mkRpcServer f m Leaving l)
| run_unlock f m l : run_step (mkRpcServer f m Leaving l) (mkRpcServer f None Returned l).

(** A condition variable may also wake up for no reason. *)
Inductive spurious_wake : RpcServer -> RpcServer -> Prop :=
| run_wakes f m l : spurious_wake (mkRpcServer f m Sleeping l) (mkRpcServer f m Woken l).

(** [cvStop.notify_all]: who is asleep wakes up; it is lost on everybody else. *)
Definition notify_all (p : RunPc) : RunPc := match p with Sleeping => Woken | _ => p end.

(** The steps of the handler of request [i]. *)
Inductive stop_step : RpcServer -> RpcServer -> Prop :=
| stop_locks f p l i :
    l !! i = Some Arrived ->
    stop_step (mkRpcServer f None p l) (mkRpcServer f (Some (ByStop i)) p (<[i:=Locked]> l))
| stop_sets f m p l i :
    l !! i = Some Locked ->
    stop_step (mkRpcServer f m p l) (mkRpcServer true m p (<[i:=FlagSet]> l))
| stop_notifies f m p l i :
    l !! i = Some FlagSet ->
    stop_step (mkRpcServer f m p l) (mkRpcServer f m (notify_all p) (<[i:=Notified]> l))
| stop_unlocks f m p l i :
    l !! i = Some Notified ->
    stop_step (mkRpcServer f m p l) (mkRpcServer f None p (<[i:=Handled]> l)).

Inductive request_step : RpcServer -> RpcServer -> Prop :=
| stop_arrives f m p l :
    listening p = true -> request_step (mkRpcServer f m p l) (mkRpcServer f m p (l ++ [Arrived])).

(** What the threads of the process do by themselves. *)
Definition own_step (s s' : RpcServer) : Prop := run_step s s' \/ stop_step s s'.

Definition server_step (s s' : RpcServer) : Prop :=
  own_step s s' \/ spurious_wake s s' \/ request_step s s'.

(** The constructor leaves the flag as it happens to be. *)
Definition new_RpcServer (f : bool) : RpcServer := mkRpcServer f None Outside [].

(** *** What holds at any time *)

Definition run_holds (p : RunPc) : bool :=
  match p with Outside | Sleeping | Woken | Returned => false | _ => true end.

Definition stop_holds (k : StopPc) : bool :=
  match k with Locked | FlagSet | Notified => true | _ => false end.

Definition has_set (k : StopPc) : bool :=
  match k with FlagSet | Notified | Handled => true | _ => false end.

(** The mutex excludes; the flag is set by a handler that has got there; who
    sleeps with the flag set is about to be notified. *)
Record server_ok (s : RpcServer) : Prop := mkServerOk {
  sok_run : mutStop s = Some ByRun <-> run_holds (run_pc s) = true;
  sok_stop : forall i k, stops s !! i = Some k ->
    mutStop s = Some (ByStop i) <-> stop_holds k = true;
  sok_holder : forall i, mutStop s = Some (ByStop i) -> (i < asked s)%nat;
  sok_flag : run_pc s <> Outside -> run_pc s <> Entered -> shouldStop s = true ->
    exists i k, stops s !! i = Some k /\ has_set k = true;
  sok_set : forall i k, stops s !! i = Some k -> has_set k = true -> shouldStop s = true;
  sok_waiting : run_pc s = Waiting -> shouldStop s = false;
  sok_closing : run_pc s = Closing \/ run_pc s = Leaving \/ run_pc s = Returned -> shouldStop s = true;
  sok_sleeping : run_pc s = Sleeping -> shouldStop s = true -> exists i, stops s !! i = Some FlagSet;
  sok_early : run_pc s = Outside \/ run_pc s = Entered \/ run_pc s = Starting -> stops s = []
}.

Lemma new_server_ok f : server_ok (new_RpcServer f).
Proof. split; cbn; try done; naive_solver. Qed.

Lemma run_step_ok s s' : run_step s s' -> server_ok s -> server_ok s'.
Proof.
  intros Hs [Hr Hk Hh Hf Hset Hw Hc Hsl He].
  destruct Hs; cbn [shouldStop mutStop run_pc stops] in *;
    split; cbn [shouldStop mutStop run_pc stops] in *; unfold asked in *;
    try first [done|by auto|by intros [|[]]|by intros ? [= <-]|by intros ? ? ->%He].
  - intros i k Hi. rewrite <- (Hk i k Hi). naive_solver.
  - intros i k Hi. rewrite He in Hi by auto. done.
  - intros i k Hi. rewrite <- (Hk i k Hi). naive_solver.
  - intros _ Hx. by rewrite Hw in Hx.
  - intros i k Hi. rewrite <- (Hk i k Hi). naive_solver.
  - intros i k Hi. rewrite <- (Hk i k Hi). naive_solver.
Qed.

Lemma spurious_ok s s' : spurious_wake s s' -> server_ok s -> server_ok s'.
Proof. intros [] [Hr Hk Hh Hf Hset Hw Hc Hsl He]; split; cbn in *; naive_solver. Qed.

Lemma request_ok s s' : request_step s s' -> server_ok s -> server_ok s'.
Proof.
  intros [f m p l Hp] [Hr Hk Hh Hf Hset Hw Hc Hsl He]. cbn in *.
  assert (Hl : forall i k, (l ++ [Arrived]) !! i = Some k ->
    l !! i = Some k \/ (i = length l /\ k = Arrived)).
  { intros i k [Hi|[Hi Hx]]%lookup_app_Some; [by left|].
    apply list_lookup_singleton_Some in Hx as [Hx <-]. right. split; [lia|done]. }
  split; cbn.
  - done.
  - intros i k [Hi|[-> ->]]%Hl; [by apply Hk|]. split; [|done]. intros Hm%Hh. unfold asked in Hm. cbn in Hm. lia.
  - intros i Hm%Hh. unfold asked in *. cbn in *. rewrite length_app. cbn. lia.
  - intros Ho Hn Hx. destruct (Hf Ho Hn Hx) as (i & k & Hi & Hb). exists i, k.
    split; [by apply lookup_app_l_Some|done].
  - intros i k [Hi|[-> ->]]%Hl; [by eapply Hset|done].
  - done.
  - done.
  - intros Hx Hy. destruct (Hsl Hx Hy) as [i Hi]. exists i. by apply lookup_app_l_Some.
  - intros Hx. by destruct Hx as [->|[-> | ->]].
Qed.

Lemma moved_Some (l : list StopPc) i k' j x :
  <[i:=k']> l !! j = Some x -> (j = i /\ x = k') \/ (j <> i /\ l !! j = Some x).
Proof. intros [(-> & -> & _)|[? ?]]%list_lookup_insert_Some; [by left|by right]. Qed.

(** The handler of a request has moved on: who has set the flag has still set it. *)
Lemma moved_set (l : list StopPc) i k k' :
  l !! i = Some k -> (has_set k = true -> has_set k' = true) ->
  (exists j x, l !! j = Some x /\ has_set x = true) ->
  exists j x, <[i:=k']> l !! j = Some x /\ has_set x = true.
Proof.
  intros Hi Hk (j & x & Hj & Hx). destruct (decide (j = i)) as [->|Hn].
  - exists i, k'. split; [apply list_lookup_insert_eq; by eapply lookup_lt_Some|]. simplify_eq. auto.
  - exists j, x. by rewrite list_lookup_insert_ne.
Qed.

Lemma moved_sleeping (l : list StopPc) i k k' :
  l !! i = Some k -> k <> FlagSet -> (exists j, l !! j = Some FlagSet) ->
  exists j, <[i:=k']> l !! j = Some FlagSet.
Proof.
  intros Hi Hk [j Hj]. exists j. rewrite list_lookup_insert_ne; [done|]. intros ->. congruence.
Qed.

Lemma stop_step_ok s s' : stop_step s s' -> server_ok s -> server_ok s'.
Proof.
  intros Hs [Hr Hk Hh Hf Hset Hw Hc Hsl He].
  destruct Hs as [f p l i Hi|f m p l i Hi|f m p l i Hi|f m p l i Hi];
    unfold asked in *; cbn [shouldStop mutStop run_pc stops] in *;
    pose proof (proj2 (Hk i _ Hi)) as Hm; cbn [stop_holds] in Hm;
    pose proof (lookup_lt_Some _ _ _ Hi) as Hlt;
    assert (Hne : ~ (p = Outside \/ p = Entered \/ p = Starting)) by (intros G%He; by rewrite G in Hi);
    try (specialize (Hm eq_refl); subst m);
    (assert (Hp : run_holds p = false) by (apply not_true_iff_false; by rewrite <- Hr));
    split; unfold asked; cbn [shouldStop mutStop run_pc stops]; rewrite ?length_insert.
  - by rewrite Hp.
  - intros j x [[-> ->]|[Hj Hx]]%moved_Some; [done|]. rewrite <- (Hk _ _ Hx). split; intros [=]; congruence.
  - by intros j [= <-].
  - intros G1 G2 G3. by eapply moved_set; [..|apply Hf].
  - intros j x [[-> ->]|[Hj Hx]]%moved_Some; [done|]. by eapply Hset.
  - done.
  - done.
  - intros G1 G2. by eapply moved_sleeping; [..|apply Hsl].
  - tauto.
  - by rewrite Hp.
  - intros j x [[-> ->]|[Hj Hx]]%moved_Some; [done|]. by apply Hk.
  - by intros j [= <-].
  - intros _ _ _. exists i, FlagSet. split; [by apply list_lookup_insert_eq|done].
  - done.
  - by intros ->.
  - done.
  - intros _ _. exists i. by apply list_lookup_insert_eq.
  - tauto.
  - destruct p; done.
  - intros j x [[-> ->]|[Hj Hx]]%moved_Some; [done|]. by apply Hk.
  - by intros j [= <-].
  - intros G1 G2 G3. eapply moved_set; [done|done|apply Hf; [by intros ->|by intros ->|done]].
  - intros j x [[-> ->]|[Hj Hx]]%moved_Some; [intros _|]; by eapply Hset.
  - by destruct p.
  - destruct p; first [done|by intros [|[]]|by intros _; apply Hc; auto].
  - by destruct p.
  - destruct p; first [done|by intros [|[]]|by destruct Hne; auto].
  - by rewrite Hp.
  - intros j x [[-> ->]|[Hj Hx]]%moved_Some; [done|]. rewrite <- (Hk _ _ Hx). split; intros [=]; congruence.
  - done.
  - intros G1 G2 G3. by eapply moved_set; [..|apply Hf].
  - intros j x [[-> ->]|[Hj Hx]]%moved_Some; [intros _|]; by eapply Hset.
  - done.
  - done.
  - intros G1 G2. by eapply moved_sleeping; [..|apply Hsl].
  - tauto.
Qed.

Lemma server_step_ok s s' : server_step s s' -> server_ok s -> server_ok s'.
Proof.
  intros [[Hs|Hs]|[Hs|Hs]];
    [by apply run_step_ok|by apply stop_step_ok|by apply spurious_ok|by apply request_ok].
Qed.

Lemma reachable_ok f s : rtc server_step (new_RpcServer f) s -> server_ok s.
Proof.
  intros Hr. pose proof (new_server_ok f) as Hok.
  induction Hr as [|x y z Hxy _ IH]; [done|]. apply IH. by eapply server_step_ok.
Qed.

(** *** One request *)

(** The steps that are left: of [Run] before and after the flag is set, and of
    the handler. *)
Definition run_left (f : bool) (p : RunPc) : nat :=
  match p with
  | Outside | Entered | Starting => 0
  | Woken => if f then 4 else 7
  | Checking => if f then 3 else 6
  | Waiting => 5
  | Sleeping => 4
  | Closing => 2
  | Leaving => 1
  | Returned => 0
  end.

Definition stop_left (k : StopPc) : nat :=
  match k with Arrived => 4 | Locked => 3 | FlagSet => 2 | Notified => 1 | Handled => 0 end.

Definition server_left (s : RpcServer) : nat :=
  (run_left (shouldStop s) (run_pc s) + sum_list_with stop_left (stops s))%nat.

Lemma moved_left (l : list StopPc) i k k' :
  l !! i = Some k -> stop_left k = S (stop_left k') ->
  sum_list_with stop_left l = S (sum_list_with stop_left (<[i:=k']> l)).
Proof.
  revert i. induction l as [|x l IH]; intros [|i] Hi Hk; cbn [sum_list_with lookup list_lookup insert list_insert] in *; [done|done| |].
  { injection Hi as ->. rewrite Hk. done. }
  rewrite (IH i Hi Hk). apply Nat.add_succ_r.
Qed.

(** Once a request has come, every step brings the end nearer. *)
Lemma own_step_left s s' :
  server_ok s -> stops s <> [] -> own_step s s' ->
  (server_left s' < server_left s)%nat /\ stops s' <> [] /\ asked s' = asked s.
Proof.
  intros Hok Hn [Hs|Hs].
  - destruct Hs; unfold server_left, asked; cbn in *;
      try (by destruct Hn; apply (sok_early _ Hok); auto); (split; [|done]); try lia.
    all: pose proof (sok_waiting _ Hok) as Hw; cbn in Hw; destruct f; simplify_eq; try lia.
  - pose proof (sok_run _ Hok) as Hr. pose proof (sok_stop _ Hok) as Hk.
    destruct Hs as [f p l i Hi|f m p l i Hi|f m p l i Hi|f m p l i Hi]; unfold server_left, asked; cbn in *;
      rewrite length_insert; (split; [|split; [by intros G%(f_equal length); rewrite length_insert in G; destruct l|done]]).
    + pose proof (moved_left l i Arrived Locked Hi eq_refl). lia.
    + pose proof (moved_left l i Locked FlagSet Hi eq_refl). pose proof (proj2 (Hk i _ Hi) eq_refl).
      destruct f, p; cbn in *; simplify_eq; try lia; try naive_solver.
    + pose proof (moved_left l i FlagSet Notified Hi eq_refl). destruct f, p; cbn in *; try lia.
      all: pose proof (sok_set _ Hok i FlagSet Hi eq_refl); done.
    + pose proof (moved_left l i Notified Handled Hi eq_refl). lia.
Qed.

(** With one request whose block is over when [Run] leaves the loop, the
    threads can go on until both are done. *)
Lemma own_progress s :
  StopListening_returns 0 -> server_ok s -> asked s = 1%nat ->
  (exists s', own_step s s') \/ (run_pc s = Returned /\ stops s = [Handled]).
Proof.
  destruct s as [f m p l]. intros Hret [Hr Hk Hh Hf Hset Hw Hc Hsl He]. unfold asked in *. cbn in *.
  destruct l as [|k [|]]; [done| |done]. intros _. specialize (Hk 0%nat k eq_refl). specialize (Hset 0%nat k eq_refl).
  assert (Hlook : forall i x, [k] !! i = Some x -> i = 0%nat /\ x = k).
  { intros i x Hi. by apply list_lookup_singleton_Some in Hi as [-> <-]. }
  assert (Hfree : run_holds p = false -> stop_holds k = false -> m = None).
  { intros Hp Hs. destruct m as [[|i]|]; [|specialize (Hh i eq_refl); cbn in Hh; assert (i = 0%nat) as -> by lia|done].
    - by rewrite (proj1 Hr) in Hp.
    - by rewrite (proj1 Hk) in Hs. }
  clear Hr Hk Hh. destruct k.
  2: left; eexists; right; by apply stop_sets with (i := 0%nat).
  2: left; eexists; right; by apply stop_notifies with (i := 0%nat).
  2: left; eexists; right; by apply stop_unlocks with (i := 0%nat).
  - assert (Hff : f = false).
    { destruct f; [|done]. destruct p; try (by discriminate He; auto).
      all: destruct Hf as (i & k & [-> ->]%Hlook & Hx); done. }
    subst f. destruct p; try (by discriminate He; auto); try (by discriminate Hc; auto).
    + left. eexists. left. constructor.
    + left. eexists. left. constructor.
    + rewrite (Hfree eq_refl eq_refl). left. eexists. right. by apply stop_locks with (i := 0%nat).
    + rewrite (Hfree eq_refl eq_refl). left. eexists. left. constructor.
  - rewrite (Hset eq_refl) in *. destruct p; try (by discriminate He; auto).
    + left. eexists. left. constructor.
    + by discriminate Hw.
    + destruct Hsl as [i [_ Hx]%Hlook]; done.
    + rewrite (Hfree eq_refl eq_refl). left. eexists. left. constructor.
    + left. eexists. left. by constructor.
    + left. eexists. left. constructor.
    + by right.
Qed.

(** C34: one request to stop is enough, and is not lost: whenever it has arrived
    and whatever the threads have done by then, [Run] and its handler take at
    most eleven more steps, and can always take one until [Run] has returned
    and the request has been handled, without any spurious wake-up of the
    condition variable, provided that the library stops listening when no
    request is being handled. *)
Theorem stop_ends_run f s :
  StopListening_returns 0 -> rtc server_step (new_RpcServer f) s -> asked s = 1%nat ->
  forall n s', nsteps own_step n s s' ->
    (n <= 11)%nat /\
    ((exists s'', own_step s' s'') \/ (run_pc s' = Returned /\ stops s' = [Handled])).
Proof.
  intros Hret Hr Ha n s' Hn. pose proof (reachable_ok f s Hr) as Hok.
  assert (Hgo : server_ok s' /\ asked s' = 1%nat /\ (n + server_left s' <= server_left s)%nat).
  { clear Hr. induction Hn as [s|n s s1 s' H1 _ IH]; [done|].
    assert (Hne : stops s <> []) by (by intros G; unfold asked in Ha; rewrite G in Ha).
    destruct (own_step_left s s1 Hok Hne H1) as (Hl & _ & Ha').
    destruct IH as (? & ? & ?); [congruence|by eapply server_step_ok; [left|]|]. by split_and!; [..|lia]. }
  destruct Hgo as (Hok' & Ha' & Hle). split; [|by apply own_progress].
  assert (server_left s <= 11)%nat; [|lia]. unfold server_left, asked in *.
  destruct (stops s) as [|k [|]]; [done| |done]. cbn.
  destruct k, (shouldStop s), (run_pc s); cbn; lia.
Qed.

(** C39: two requests to stop at about the same time can hang the server for
    ever: [Run] holds the mutex while it stops listening, so if the library
    waits for the requests that are being handled, as it does when it joins its
    threads, and the second request waits for the mutex, nobody can go on. *)
Theorem concurrent_stops_deadlock f :
  (forall n, StopListening_returns n -> n = 0%nat) ->
  exists s, rtc server_step (new_RpcServer f) s /\ asked s = 2%nat /\ run_pc s = Closing /\
    forall s', ~ server_step s s'.
Proof.
  intros Hret. exists (mkRpcServer true (Some ByRun) Closing [Handled; Arrived]). split_and!; try done.
  - apply (rtc_l _ _ (mkRpcServer f (Some ByRun) Entered [])); [do 2 left; constructor|].
    apply (rtc_l _ _ (mkRpcServer false (Some ByRun) Starting [])); [do 2 left; constructor|].
    apply (rtc_l _ _ (mkRpcServer false (Some ByRun) Checking [])); [do 2 left; constructor|].
    apply (rtc_l _ _ (mkRpcServer false (Some ByRun) Waiting [])); [do 2 left; constructor|].
    apply (rtc_l _ _ (mkRpcServer false None Sleeping [])); [do 2 left; constructor|].
    apply (rtc_l _ _ (mkRpcServer false None Sleeping [Arrived])); [do 2 right; by constructor|].
    apply (rtc_l _ _ (mkRpcServer false None Sleeping [Arrived; Arrived])); [do 2 right; by constructor|].
    apply (rtc_l _ _ (mkRpcServer false (Some (ByStop 0)) Sleeping [Locked; Arrived]));
      [left; right; by apply (stop_locks false Sleeping [Arrived; Arrived] 0)|].
    apply (rtc_l _ _ (mkRpcServer true (Some (ByStop 0)) Sleeping [FlagSet; Arrived]));
      [left; right; by apply (stop_sets false _ Sleeping [Locked; Arrived] 0)|].
    apply (rtc_l _ _ (mkRpcServer true (Some (ByStop 0)) Woken [Notified; Arrived]));
      [left; right; by apply (stop_notifies true _ Sleeping [FlagSet; Arrived] 0)|].
    apply (rtc_l _ _ (mkRpcServer true None Woken [Handled; Arrived]));
      [left; right; by apply (stop_unlocks true (Some (ByStop 0)) Woken [Notified; Arrived] 0)|].
    apply (rtc_l _ _ (mkRpcServer true (Some ByRun) Checking [Handled; Arrived])); [do 2 left; constructor|].
    apply rtc_once. do 2 left. constructor.
  - intros s' [[Hs|Hs]|[Hs|Hs]]; inversion Hs; subst; try done.
    + by specialize (Hret _ ltac:(eassumption)).
    + destruct i as [|[|i]]; done.
    + destruct i as [|[|i]]; done.
    + destruct i as [|[|i]]; done.
Qed.

End server.

(* ------------------------------------------------------------------ *)
(** ** The nonfungible daemon *)

(** The command-line flags of the program. *)
Record NfFlags := mkNfFlags {
  gsp_rpc_url : string;
  xaya_rpc_url : string;
  dem_rpc_url : string;
  rpc_port : Z;
  flag_account : string;
  flag_jid : string;
  flag_password : string;
  cafile : string;
  flag_room : string
}.

Definition default_nf_flags : NfFlags :=
  mkNfFlags "" "" "" 0 "" "" "" "" "democrit-nf@muc.chat.xaya.io".

(** The [UsageError] that is thrown. *)
Definition usage_error (f : NfFlags) : option string :=
  if String.eqb (gsp_rpc_url f) "" then Some "--gsp_rpc_url must be set"
  else if String.eqb (xaya_rpc_url f) "" then Some "--xaya_rpc_url must be set"
  else if String.eqb (dem_rpc_url f) "" then Some "--dem_rpc_url must be set"
  else if rpc_port f =? 0 then Some "--rpc_port must be set"
  else if String.eqb (flag_account f) "" then Some "--account must be set"
  else if String.eqb (flag_jid f) "" then Some "--jid must be set"
  else None.

Inductive ExitCode := EXIT_SUCCESS | EXIT_FAILURE.

Section main.
Context `{JsonLib} `{!JsonLaws} `{!Uint256Lib} `{!AmountLib} `{!ProtoRuntime} `{!JidLib}
  `{!RoomJidLib} {Node : Type} `{!XayaRpc Node} `{!DemGspRpc Node} `{!NfGsp Node} `{!Clock Node}
  `{!SteadyClock Node} `{!XmppClient Node} `{!Flags} `{!DaemonFlags}.
#[local] Existing Instance NfAssetSpec.

(** gloox reads the JID flags; [others] is what the other threads do while
    the client joins the room, [handle] the address of the room object, and
    [serve] what happens until the server's [Run] returns or the server cannot
    be started. *)
Context (parse_jid : string -> JID) (others : M Node Process unit) (handle : Z)
  (serve : M Node Process unit) (disc join : bool).

Definition SetRootCA : M Node Process unit :=
  r ← read_reconnecter;
  check (negb r).

(** The daemon, from its construction to the end of [server.Run ()]. *)
Definition run_daemon (f : NfFlags) : M Node Process unit :=
  start (flag_account f) (parse_jid (flag_jid f));;
  (if String.eqb (cafile f) "" then mret tt else SetRootCA);;
  DaemonConnect others handle;;
  serve.

(** What the process returns, and its state then. *)
Definition main (f : NfFlags) (n : Node) : outcome ExitCode * World Node Process :=
  let w := mkWorld (new_Process disc join (flag_account f) (parse_jid (flag_room f))) n [] in
  match usage_error f with
  | Some _ => (Ret EXIT_FAILURE, w)
  | None =>
      match run_daemon f w with
      | (Ret _, w') => (Ret EXIT_SUCCESS, w')
      | (Throw _, w') => (Ret EXIT_FAILURE, w')
      | (Fatal, w') => (Fatal, w')
      end
  end.

Lemma usage_error_none f :
  usage_error f = None -> flag_account f <> "" /\ flag_jid f <> "" /\ rpc_port f <> 0.
Proof.
  unfold usage_error. intros Hu.
  repeat match type of Hu with
  | (if String.eqb ?a ?b then _ else _) = _ => destruct (String.eqb_spec a b)
  | (if ?a =? ?b then _ else _) = _ => destruct (Z.eqb_spec a b)
  end; done.
Qed.

(** The constructor lets only a JID of the account through. *)
Lemma wp_start account jid (Q : outcome unit -> World Node Process -> Prop) w :
  (jid_of (xidServers (d_auth (wst w))) account jid = true ->
   forall w', d_state (wst w') = d_state (wst w) -> d_reconnecter (wst w') = d_reconnecter (wst w) ->
     Q (Ret tt) w') ->
  (forall w', Q Fatal w') -> wp (start account jid) Q w.
Proof.
  intros HQ HE. unfold start. wp_step. unfold in_auth. wp_step. apply wp_Authenticate; cbn [wst wnode wtrace].
  - intros a Ha. cbn [then_post]. wp_step. wp_step; [|done]. simplify_eq.
    wp_step; [|apply HE]. match goal with E : String.eqb _ _ = true |- _ => apply String.eqb_eq in E as -> end.
    by apply HQ.
  - intros _. cbn [then_post]. wp_step. wp_step; [done|]. apply HE.
Qed.

(** A daemon serves requests only in the name it logs in with: unless the
    JID is one of the account on a trusted server, the process is gone before
    it connects; with a flag missing it reports failure; and it reports success
    only after serving an account by a JID of its own. *)
Theorem main_serves_own_account f n o w' :
  let own := jid_of (ParseCommaSeparated FLAGS_democrit_xid_servers) (flag_account f)
               (parse_jid (flag_jid f)) in
  main f n = (o, w') ->
  (usage_error f <> None -> o = Ret EXIT_FAILURE) /\
  (usage_error f = None -> own = false -> o = Fatal) /\
  (o = Ret EXIT_SUCCESS ->
   own = true /\ flag_account f <> "" /\ flag_jid f <> "" /\ rpc_port f <> 0).
Proof.
  unfold main. cbv zeta. destruct (usage_error f) eqn:Hu; [by intros [= <- <-]|]. intros Hm.
  split; [done|]. set (w := mkWorld _ n []) in Hm.
  assert (Hw : wp (run_daemon f) (fun o _ =>
    jid_of (ParseCommaSeparated FLAGS_democrit_xid_servers) (flag_account f)
      (parse_jid (flag_jid f)) = true \/ o = Fatal) w).
  { unfold run_daemon. wp_use wp_start; [|by right]. intros Hyes w1 _ _. cbn in Hyes.
    apply wp_intro. by left. }
  unfold wp in Hw. destruct (run_daemon f w) as [r w1].
  destruct Hw as [Hw| ->]; [rewrite Hw|by injection Hm as <- <-]. split; [done|]. intros _.
  split; [done|]. by apply usage_error_none.
Qed.

End main.

(* ------------------------------------------------------------------ *)
(** ** The theorems at concrete inputs *)

Module ServerWitness.

(** A library that waits for the requests it is handling. *)
Definition waits (n : nat) : Prop := n = 0%nat.

(** A request comes when [Run] has found the flag unset and has yet to wait. *)
Definition one_stop : RpcServer := mkRpcServer false (Some ByRun) Waiting [Arrived].

Lemma one_stop_reachable : rtc (server_step waits) (new_RpcServer true) one_stop.
Proof.
  apply (rtc_l _ _ (mkRpcServer true (Some ByRun) Entered [])); [do 2 left; constructor|].
  apply (rtc_l _ _ (mkRpcServer false (Some ByRun) Starting [])); [do 2 left; constructor|].
  apply (rtc_l _ _ (mkRpcServer false (Some ByRun) Checking [])); [do 2 left; constructor|].
  apply (rtc_l _ _ (mkRpcServer false (Some ByRun) Waiting [])); [do 2 left; constructor|].
  apply rtc_once. do 2 right. by constructor.
Qed.

Lemma stop_ends_run_witness :
  asked one_stop = 1%nat /\
  forall n s', nsteps (own_step waits) n one_stop s' ->
    (n <= 11)%nat /\
    ((exists s'', own_step waits s' s'') \/ (run_pc s' = Returned /\ stops s' = [Handled])).
Proof.
  split; [reflexivity|].
  exact (stop_ends_run waits true one_stop eq_refl one_stop_reachable eq_refl).
Defined.

Lemma concurrent_stops_deadlock_witness :
  exists s, rtc (server_step waits) (new_RpcServer false) s /\ asked s = 2%nat /\ run_pc s = Closing /\
    forall s', ~ server_step waits s s'.
Proof. apply (concurrent_stops_deadlock waits false). intros n Hn. exact Hn. Defined.

End ServerWitness.
