(* ===== verification/Gsp.v ===== *)
(** * The g/dem GSP

    The game state processor that watches for the transactions of trades
    ([src/gsp/game.cpp], [pending.cpp], the [checktrade] method of
    [rpcserver.cpp]).  Its database is one table from transaction IDs to the
    height of their block.  libxayagame, which calls the processor for every
    block and pending move, and SQLite are interfaces.  The daemon asks the
    GSP through [checktrade]; the last theorems show that the replies are what
    [Trades.check_trade] expects. *)

From Stdlib Require Import ZArith Lia String.
From stdpp Require Import base gmap strings list sorting fin_maps.
From S2P Require Import Prelude Json Proto Effects Mock Checker MyOrders Trades TradeSafety.

Module DemGame.

(** [xaya::Chain] *)
Inductive Chain := MAIN | TEST | REGTEST | OtherChain.

(** libxayagame and its SQLite wrapper: the JSON that wraps the pending state;
    the JSON about the game state at a height with one field computed by a
    callback (given by its outcome); what happens when a statement violates
    the primary key; and reading an [int] column. *)
Class GameLib `{JsonLib} := {
  GetPendingJsonState : Json -> Json;
  GetCustomStateData : Z -> string -> outcome Json -> outcome Json;
  constraint_violation : outcome unit;
  column_int : Z -> outcome Z
}.

(** [DemGame::TradeState], [DemGame::TradeData]; the height is only set for a
    confirmed trade. *)
Inductive TradeState := UNKNOWN | PENDING | CONFIRMED.

Record TradeData `{JsonLib} := mkTradeData {
  td_state : TradeState;
  td_confirmationHeight : option Z;
  td_gspState : Json
}.
Arguments mkTradeData {_} _ _ _.
Arguments td_state {_} _.
Arguments td_confirmationHeight {_} _.
Arguments td_gspState {_} _.

(** The table [trades], the pending moves, and the height libxayagame has
    processed. *)
Record Gsp `{JsonLib} := mkGsp {
  g_trades : gmap string Z;
  g_pending : Json;
  g_height : Z
}.
Arguments mkGsp {_} _ _ _.
Arguments g_trades {_} _.
Arguments g_pending {_} _.
Arguments g_height {_} _.

Section game.
Context `{JsonLib} `{!GameLib} {Node : Type}.

Definition with_trades (t : gmap string Z) (s : Gsp) : Gsp := mkGsp t (g_pending s) (g_height s).
Definition with_pending (p : Json) (s : Gsp) : Gsp := mkGsp (g_trades s) p (g_height s).

Definition GetInitialStateBlock (chain : Chain) : outcome (Z * string) :=
  match chain with
  | MAIN => Ret (2350000, "c66f30db579e0aad429648f4cb7dd67648d007ae4313f265a406b88f043b3d93")
  | TEST => Ret (109000, "ebc9c179a6a9700777851d2b5452fa1c4b14aaa194a646e2a37cec8ca410e62a")
  | REGTEST => Ret (0, "6f750b36d22f1dc3d0a6e483af45301022646dfc3b3ba2187865f5a7d6d83ab1")
  | OtherChain => Fatal
  end.

(** The state at the initial block: an empty table. *)
Definition initial_gsp (height : Z) : Gsp := mkGsp ∅ jobject height.

Definition ParseMove (mv : Json) : M Node Gsp string :=
  v ← field mv "btxid";
  json (as_string v).

(** The prepared [INSERT]. *)
Definition insert_trade (btxid : string) (height : Z) : M Node Gsp unit :=
  s ← get;
  match g_trades s !! btxid with
  | Some _ => lift_outcome constraint_violation
  | None => put (with_trades (<[btxid := height]> (g_trades s)) s)
  end.

Fixpoint insert_moves (moves : list Json) (height : Z) : M Node Gsp unit :=
  match moves with
  | [] => mret tt
  | entry :: moves' =>
      btxid ← ParseMove entry;
      insert_trade btxid height;;
      insert_moves moves' height
  end.

Definition UpdateState (blockData : Json) : M Node Gsp unit :=
  block ← field blockData "block";
  heightVal ← field block "height";
  height ← json (as_uint heightVal);
  moves ← field blockData "moves";
  insert_moves (jelems moves) height.

(** Rows in the order of their keys. *)
Definition row_le (a b : string * Z) : Prop := str_ltb b.1 a.1 = false.
#[export] Instance row_le_dec a b : Decision (row_le a b) := decide (str_ltb b.1 a.1 = false).
Definition rows (t : gmap string Z) : list (string * Z) := merge_sort row_le (map_to_list t).

Definition GetStateAsJson : M Node Gsp Json :=
  s ← get;
  mret (fold_left (fun res row => jset res row.1 (jint (s32 row.2))) (rows (g_trades s)) jobject).

(** ** Pending moves *)

Definition Clear : M Node Gsp unit := modify (with_pending jobject).

Definition ToJson : M Node Gsp Json := s ← get; mret (g_pending s).

Definition AddPendingMove (mv : Json) : M Node Gsp unit :=
  btxid ← ParseMove mv;
  modify (fun s => with_pending (jset (g_pending s) btxid jobject) s).

(** ** Looking up a trade *)

(** The callback that reads the database. *)
Definition confirmed_height (btxid : string) (s : Gsp) : outcome Json :=
  match g_trades s !! btxid with
  | None => Ret jnull
  | Some h => height ← column_int h; mret (jint height)
  end.

(** The two lookups each lock the game, but not together: [others] is what
    other threads do to the state between them. *)
Definition CheckTrade (others : M Node Gsp unit) (btxid : string) : M Node Gsp TradeData :=
  p ← ToJson;
  pending ← field (GetPendingJsonState p) "pending";
  others;;
  s ← get;
  confirmed ← lift_outcome (GetCustomStateData (g_height s) "data" (confirmed_height btxid s));
  check (is_object pending);;
  check (is_object confirmed);;
  check (is_member confirmed "data");;
  data ← field confirmed "data";
  let confirmed := jremove confirmed "data" in
  check (is_null data || is_uint data);;
  if is_int data then
    height ← json (as_uint data);
    mret (mkTradeData CONFIRMED (Some height) confirmed)
  else if is_member pending btxid then mret (mkTradeData PENDING None confirmed)
  else mret (mkTradeData UNKNOWN None confirmed).

(** [RpcServer::checktrade] *)
Definition checktrade (others : M Node Gsp unit) (btxid : string) : M Node Gsp Json :=
  data ← CheckTrade others btxid;
  let state :=
    match td_state data with
    | UNKNOWN => jset jobject "state" (jstr "unknown")
    | PENDING => jset jobject "state" (jstr "pending")
    | CONFIRMED =>
        jset (jset jobject "state" (jstr "confirmed")) "height"
          (jint (s32 (default 0 (td_confirmationHeight data))))
    end in
  mret (jset (td_gspState data) "data" state).

End game.

(* ------------------------------------------------------------------ *)
(** ** What a block does *)

Section updates.
Context `{JsonLib} `{!GameLib} {Node : Type}.
Implicit Types w : World Node Gsp.

(** The block's height. *)
Definition block_height (blk : Json) (h : Z) : Prop :=
  exists b hv, jget blk "block" = Some b /\ jget b "height" = Some hv /\ as_uint hv = Some h.

(** The transactions of the block's moves, in order. *)
Definition block_moves (blk : Json) (ids : list string) : Prop :=
  exists ms, jget blk "moves" = Some ms /\
    Forall2 (fun m id => reads_string m "btxid" id) (jelems ms) ids.

Definition record_all (ids : list string) (h : Z) (t : gmap string Z) : gmap string Z :=
  foldl (fun t id => <[id := h]> t) t ids.

Lemma lookup_record_all ids h t b :
  record_all ids h t !! b = if decide (b ∈ ids) then Some h else t !! b.
Proof.
  unfold record_all. revert t. induction ids as [|id ids IH]; intros t; cbn [foldl].
  { by rewrite decide_False by (by intros ?%elem_of_nil). }
  rewrite IH. destruct (decide (b ∈ ids)) as [Hb|Hb].
  - by rewrite decide_True by (by right).
  - destruct (decide (b = id)) as [->|Hne].
    + rewrite lookup_insert_eq, decide_True; [done|left].
    + rewrite lookup_insert_ne by done. rewrite decide_False; [done|].
      intros [?|?]%elem_of_cons; done.
Qed.

(** The transactions are new and different. *)
Definition fresh (ids : list string) (t : gmap string Z) : Prop :=
  NoDup ids /\ Forall (fun id => t !! id = None) ids.

#[export] Instance fresh_dec ids t : Decision (fresh ids t).
Proof. unfold fresh. apply _. Defined.

Lemma fresh_cons id ids h (t : gmap string Z) :
  t !! id = None -> fresh (id :: ids) t <-> fresh ids (<[id := h]> t).
Proof.
  intros Ht. unfold fresh. rewrite NoDup_cons, Forall_cons, !Forall_forall.
  setoid_rewrite lookup_insert_None. split.
  - intros [[Hni Hnd] [_ Hf]]. split; [done|]. intros y Hy. split; [by apply Hf|]. by intros ->.
  - intros [Hnd Hf]. split; [split; [|done]|split; [done|]].
    + intros Hin. by apply (proj2 (Hf id Hin)).
    + intros y Hy. by apply Hf.
Qed.

Lemma wp_ParseMove mv id w (Q : outcome string -> World Node Gsp -> Prop) :
  reads_string mv "btxid" id -> Q (Ret id) w -> wp (ParseMove mv) Q w.
Proof.
  intros (x & Hx & Hs) HQ. unfold ParseMove, field. wp_step. wp_step; [|congruence].
  simplify_eq. wp_step; [|congruence]. by simplify_eq.
Qed.

Lemma wp_insert_moves ms ids h w (Q : outcome unit -> World Node Gsp -> Prop) :
  Forall2 (fun m id => reads_string m "btxid" id) ms ids ->
  (fresh ids (g_trades (wst w)) ->
    Q (Ret tt) (mkWorld (with_trades (record_all ids h (g_trades (wst w))) (wst w)) (wnode w) (wtrace w))) ->
  (~ fresh ids (g_trades (wst w)) -> is_err constraint_violation ->
    forall w', Q constraint_violation w') ->
  (~ fresh ids (g_trades (wst w)) -> ~ is_err constraint_violation -> forall o w', Q o w') ->
  wp (insert_moves ms h) Q w.
Proof.
  intros Hm. revert w Q. induction Hm as [|m id ms ids Hid Hm IH]; intros w Q Hok Herr Hun;
    cbn [insert_moves].
  { wp_step. destruct w as [[t p k] n tr]. apply Hok. split; constructor. }
  wp_step. eapply wp_ParseMove; [exact Hid|]. cbn [then_post]. wp_step. unfold insert_trade.
  wp_step. wp_step. destruct (g_trades (wst w) !! id) as [x|] eqn:Ht.
  - assert (Hn : ~ fresh (id :: ids) (g_trades (wst w))).
    { intros [_ Hf]. apply Forall_cons in Hf as [Hf _]. congruence. }
    wp_step. destruct constraint_violation as [[]|e|] eqn:Hc; cbn [then_post].
    + apply wp_intro. intros o w' _. by apply Hun; auto.
    + apply Herr; done.
    + apply Herr; done.
  - wp_step. apply IH; cbn [wst wnode wtrace g_trades with_trades];
      rewrite <-(fresh_cons id ids h) by done; [apply Hok|apply Herr|apply Hun].
Qed.

End updates.

(** Documented behaviour of libxayagame: the pending state is wrapped under
    one key; the state JSON has the height and the requested field if the
    callback returns; a violated key constraint is an error; and [int] columns
    hold 32-bit numbers. *)
Class GameLaws `{JsonLib} `{!GameLib} : Prop := {
  pending_state p : jget (GetPendingJsonState p) "pending" = Some p;
  custom_state h k v : exists r, GetCustomStateData h k (Ret v) = Ret r /\ is_object r = true /\
    is_member r k = true /\ jget r k = Some v /\
    (k <> "height" -> jget r "height" = Some (jint h));
  violation_fails : is_err constraint_violation;
  column_int_id h : is_s32 h -> column_int h = Ret h
}.

Section theorems.
Context `{JsonLib} `{!JsonLaws} `{!GameLib} `{!GameLaws} {Node : Type}.
Implicit Types w : World Node Gsp.

Lemma wp_UpdateState blk h ids w (Q : outcome unit -> World Node Gsp -> Prop) :
  block_height blk h -> block_moves blk ids ->
  (fresh ids (g_trades (wst w)) ->
    Q (Ret tt) (mkWorld (with_trades (record_all ids h (g_trades (wst w))) (wst w)) (wnode w) (wtrace w))) ->
  (~ fresh ids (g_trades (wst w)) -> forall w', Q constraint_violation w') ->
  wp (UpdateState blk) Q w.
Proof.
  intros (b & hv & Hb & Hh & Hv) (ms & Hms & Hids) Hok Herr. unfold UpdateState, field.
  wp_step. wp_step; [|congruence]. simplify_eq. wp_step. wp_step; [|congruence]. simplify_eq.
  wp_step. wp_step; [|congruence]. simplify_eq. wp_step. wp_step; [|congruence]. simplify_eq.
  eapply wp_insert_moves; [exact Hids|done|auto|]. intros _ Hn. destruct (Hn violation_fails).
Qed.

(** C31: processing a block records exactly its moves: if its transactions are
    new and different, each is recorded at the block's height, and every other
    record, the pending moves and the rest stay as they are; otherwise the
    block fails with the error of the violated key, it is never half of a
    success. *)
Theorem UpdateState_exact blk h ids w :
  block_height blk h -> block_moves blk ids ->
  (fresh ids (g_trades (wst w)) ->
    exists t, UpdateState blk w = (Ret tt, mkWorld (with_trades t (wst w)) (wnode w) (wtrace w)) /\
      forall b, t !! b = if decide (b ∈ ids) then Some h else g_trades (wst w) !! b) /\
  (~ fresh ids (g_trades (wst w)) ->
    exists w', UpdateState blk w = (constraint_violation, w') /\ is_err (A := unit) constraint_violation).
Proof.
  intros Hb Hm. split; intros Hf.
  - exists (record_all ids h (g_trades (wst w))). split; [|intros b; apply lookup_record_all].
    apply wp_eq. by eapply wp_UpdateState.
  - eexists. split; [|apply violation_fails]. apply run_eq.
    pose proof (wp_UpdateState blk h ids w (fun o _ => o = constraint_violation) Hb Hm
      (fun Hn => False_ind _ (Hf Hn)) (fun _ _ => eq_refl)) as Hw.
    unfold wp in Hw. by destruct (UpdateState blk w).
Qed.

(** ** Looking up a trade while the game goes on *)

(** What a table of trades and a set of pending moves say about a trade. *)
Definition answer (t : gmap string Z) (p : Json) (btxid : string) : TradeState * option Z :=
  match t !! btxid with
  | Some h => (CONFIRMED, Some h)
  | None => if is_member p btxid then (PENDING, None) else (UNKNOWN, None)
  end.

(** The answer of one state. *)
Definition verdict (s : Gsp) (btxid : string) : TradeState * option Z :=
  answer (g_trades s) (g_pending s) btxid.

(** The data of the reply are what the state says, with the GSP's height. *)
Record data_of (d : TradeData) (a : TradeState * option Z) (height : Z) : Prop := mkDataOf {
  do_state : td_state d = a.1;
  do_height : td_confirmationHeight d = a.2;
  do_object : is_object (td_gspState d) = true;
  do_gsp : jget (td_gspState d) "height" = Some (jint height)
}.

(** Heights fit the [int] column. *)
Definition small_heights (t : gmap string Z) : Prop := map_Forall (fun _ h => 0 <= h < two31) t.

Lemma confirmed_height_ok s b :
  small_heights (g_trades s) ->
  confirmed_height b s = Ret (match g_trades s !! b with Some h => jint h | None => jnull end).
Proof.
  intros Hs. unfold confirmed_height. destruct (g_trades s !! b) as [h|] eqn:Hb; [|done].
  apply Hs in Hb. rewrite column_int_id by width. done.
Qed.

Lemma wp_CheckTrade others b w w1 (Q : outcome TradeData -> World Node Gsp -> Prop) :
  others w = (Ret tt, w1) -> is_object (g_pending (wst w)) = true ->
  small_heights (g_trades (wst w1)) ->
  (forall d, data_of d (answer (g_trades (wst w1)) (g_pending (wst w)) b) (g_height (wst w1)) ->
    Q (Ret d) w1) ->
  wp (CheckTrade others b) Q w.
Proof.
  intros Ho Hp Hs HQ. unfold CheckTrade, ToJson, field.
  wp_step. wp_step. wp_step. wp_step. wp_step. wp_step; [|by rewrite pending_state in *].
  rewrite pending_state in *. simplify_eq. wp_step. unfold wp at 1. rewrite Ho. cbn [then_post].
  wp_step. wp_step. rewrite confirmed_height_ok by done.
  destruct (custom_state (g_height (wst w1)) "data"
    (match g_trades (wst w1) !! b with Some h => jint h | None => jnull end))
    as (r & -> & Hr & Hm & Hd & Hh).
  wp_step. wp_step. wp_step. wp_step; [|congruence]. wp_step. wp_step; [|congruence].
  wp_step. wp_step; [|congruence]. wp_step. wp_step; [|congruence]. simplify_eq.
  assert (Hi : is_object (jremove r "data") = true /\ jget (jremove r "data") "height" =
    Some (jint (g_height (wst w1)))).
  { split; [by apply is_object_jremove|]. rewrite jget_jremove_ne by done. by apply Hh. }
  destruct Hi as [Hi1 Hi2]. unfold answer in HQ.
  destruct (g_trades (wst w1) !! b) as [h|] eqn:Hb.
  - apply Hs in Hb. assert (Hu : is_uint (jint h) = true).
    { rewrite is_uint_jint by width. apply andb_true_iff. rewrite Z.leb_le, Z.ltb_lt. width. }
    wp_step. wp_step; [|by rewrite Hu, orb_true_r in *].
    assert (is_int (jint h) = true) as ->.
    { rewrite is_int_jint. apply andb_true_iff. rewrite Z.leb_le, Z.ltb_lt. width. }
    wp_step. wp_step; rewrite as_uint_jint in * by width; [simplify_eq|done]. wp_step.
    by apply HQ.
  - wp_step. wp_step; [|by rewrite is_null_jnull in *]. rewrite is_int_jnull.
    destruct (is_member (g_pending (wst w)) b); wp_step; by apply HQ.
Qed.

(** C22: the two lookups of a trade are as good as one: whatever other threads
    do in between, the answer is the one of the state before or of the state
    after, unless the trade's block was detached meanwhile; it carries the
    height of the later state. *)
Theorem CheckTrade_linearizable others b w w1 :
  others w = (Ret tt, w1) -> is_object (g_pending (wst w)) = true ->
  small_heights (g_trades (wst w1)) ->
  exists d a, CheckTrade others b w = (Ret d, w1) /\ data_of d a (g_height (wst w1)) /\
    (a = verdict (wst w) b \/ a = verdict (wst w1) b \/
     (is_Some (g_trades (wst w) !! b) /\ g_trades (wst w1) !! b = None)).
Proof.
  intros Ho Hp Hs. enough (Hw : wp (CheckTrade others b) (fun o w' => match o with
    | Ret d => w' = w1 /\ data_of d (answer (g_trades (wst w1)) (g_pending (wst w)) b) (g_height (wst w1))
    | _ => False end) w).
  { apply wp_returns in Hw as (d & Hd & Ha). eexists d, _. split; [exact Hd|]. split; [exact Ha|].
    unfold verdict, answer. destruct (g_trades (wst w1) !! b); [auto|].
    destruct (g_trades (wst w) !! b); [|auto]. right. right. by split. }
  by apply (wp_CheckTrade others b w w1).
Qed.

(** The outcome the comment of the source describes: the trade was confirmed
    before, its block is detached, and nobody sees it. *)
Lemma detach_race others b h w w1 :
  others w = (Ret tt, w1) -> is_object (g_pending (wst w)) = true ->
  small_heights (g_trades (wst w1)) ->
  g_trades (wst w) !! b = Some h -> is_member (g_pending (wst w)) b = false ->
  g_trades (wst w1) !! b = None ->
  exists d, CheckTrade others b w = (Ret d, w1) /\ td_state d = UNKNOWN.
Proof.
  intros Ho Hp Hs Hb Hnp Hb1. apply wp_returns. apply (wp_CheckTrade others b w w1); [done..|].
  intros d [Hd _ _ _]. split; [done|]. unfold answer in Hd. by rewrite Hb1, Hnp in Hd.
Qed.

(** ** The states of a GSP *)

Definition with_height (h : Z) (s : Gsp) : Gsp := mkGsp (g_trades s) (g_pending s) h.

(** What libxayagame does with the processor, as the stack of states that
    attached blocks can be undone to: it starts at the initial block, attaches
    blocks one by one, detaches them, and reports pending moves. *)
Inductive history : list Gsp -> Prop :=
| history_start chain h hash :
    GetInitialStateBlock chain = Ret (h, hash) -> history [initial_gsp h]
| history_attach s past blk w w' :
    history (s :: past) -> wst w = s -> block_height blk (g_height s + 1) ->
    UpdateState blk w = (Ret tt, w') ->
    history (with_height (g_height s + 1) (wst w') :: s :: past)
| history_detach s s' past :
    history (s :: s' :: past) -> history (with_pending (g_pending s) s' :: past)
| history_pending s past mv w w' :
    history (s :: past) -> wst w = s -> AddPendingMove mv w = (Ret tt, w') ->
    history (wst w' :: past)
| history_clear s past w w' :
    history (s :: past) -> wst w = s -> Clear w = (Ret tt, w') -> history (wst w' :: past).

(** No trade is recorded above the height the GSP is at. *)
Record gsp_ok (s : Gsp) : Prop := mkGspOk {
  gok_height : 0 <= g_height s;
  gok_trades : map_Forall (fun _ h => 0 <= h <= g_height s) (g_trades s);
  gok_pending : is_object (g_pending s) = true
}.

Lemma wp_insert_moves_inv ms h w :
  wp (insert_moves ms h) (fun _ w' => g_height (wst w') = g_height (wst w) /\
    g_pending (wst w') = g_pending (wst w) /\
    map_Forall (fun b x => x = h \/ g_trades (wst w) !! b = Some x) (g_trades (wst w'))) w.
Proof.
  revert w. induction ms as [|m ms IH]; intros w; cbn [insert_moves].
  { wp_step. split; [done|]. split; [done|]. intros b x. auto. }
  assert (Hid : g_height (wst w) = g_height (wst w) /\ g_pending (wst w) = g_pending (wst w) /\
    map_Forall (fun b x => x = h \/ g_trades (wst w) !! b = Some x) (g_trades (wst w))).
  { split; [done|]. split; [done|]. intros b x. auto. }
  unfold ParseMove, field. wp_step. wp_step. wp_step; [|exact Hid]. wp_step; [|exact Hid].
  wp_step. unfold insert_trade. wp_step. wp_step. destruct (g_trades (wst w) !! _) as [x|] eqn:Hx.
  - wp_step. destruct constraint_violation as [[]|e|]; cbn [then_post]; [apply IH|exact Hid..].
  - wp_step. eapply wp_conseq; [apply IH|]. cbn [wst g_height g_pending g_trades with_trades].
    intros _ w' (Hh & Hp & Ht). split; [done|]. split; [done|]. intros b y Hy.
    apply Ht in Hy as [->|[[_ ->]|[_ Hy]]%lookup_insert_Some]; auto.
Qed.

Lemma UpdateState_keeps_ok blk w o w' :
  gsp_ok (wst w) -> block_height blk (g_height (wst w) + 1) -> UpdateState blk w = (o, w') ->
  gsp_ok (with_height (g_height (wst w) + 1) (wst w')).
Proof.
  intros [Hh Ht Hp] (b & hv & Hb & Hhv & Hv) Hr.
  assert (Hid : gsp_ok (with_height (g_height (wst w) + 1) (wst w))).
  { split; cbn; [lia| |done]. intros k x Hx. apply Ht in Hx. cbn in *. lia. }
  refine (wp_run _ (fun _ v => gsp_ok (with_height (g_height (wst w) + 1) (wst v))) _ _ _ Hr _).
  unfold UpdateState, field.
  wp_step. wp_step; [|exact Hid]. wp_step. wp_step; [|exact Hid]. simplify_eq.
  wp_step. wp_step; [|exact Hid]. simplify_eq. wp_step. wp_step; [|exact Hid].
  eapply wp_conseq; [apply wp_insert_moves_inv|]. intros _ v (Hh' & Hp' & Ht').
  split; cbn; [lia| |by rewrite Hp']. intros k x Hx. apply Ht' in Hx as [->|Hx]; [cbn; lia|].
  apply Ht in Hx. cbn in *. lia.
Qed.

Lemma history_ok l : history l -> Forall gsp_ok l.
Proof.
  induction 1 as [chain h hash Hs|s past blk w w' _ IH <- Hb Hr|s s' past _ IH|
    s past mv w w' _ IH <- Hr|s past w w' _ IH <- Hr].
  - constructor; [|done]. split; cbn; [|done|apply is_object_jobject].
    destruct chain; cbn in Hs; simplify_eq; lia.
  - constructor; [|done]. apply Forall_cons in IH as [IH _]. by eapply UpdateState_keeps_ok.
  - apply Forall_cons in IH as [[_ _ Hp] [[Hh Ht _] IH]%Forall_cons]. constructor; [by split|done].
  - apply Forall_cons in IH as [[Hh Ht Hp] IH]. constructor; [|done].
    refine (wp_run _ (fun _ v => gsp_ok (wst v)) _ _ _ Hr _).
    unfold AddPendingMove, ParseMove, field.
    wp_step. wp_step. wp_step; [|by split]. wp_step; [|by split]. wp_step.
    split; cbn; [done|done|by apply is_object_jset].
  - apply Forall_cons in IH as [[Hh Ht Hp] IH]. constructor; [|done].
    unfold Clear, modify in Hr. simplify_eq. split; cbn; [done|done|apply is_object_jobject].
Qed.

End theorems.

(* ------------------------------------------------------------------ *)
(** ** The daemon reads the replies *)

Definition state_name (st : TradeState) : string :=
  match st with UNKNOWN => "unknown" | PENDING => "pending" | CONFIRMED => "confirmed" end.

Section replies.
Context `{JsonLib} `{!JsonLaws} `{!GameLib} `{!GameLaws} {Node : Type} {DNode : Type}
  `{!XayaRpc DNode} `{!DemGspRpc DNode} `{!Flags}.
Implicit Types w : World Node Gsp.

(** The member ["data"] of a reply. *)
Definition reply_data (a : TradeState * option Z) : Json :=
  match a with
  | (CONFIRMED, Some h) => jset (jset jobject "state" (jstr "confirmed")) "height" (jint (s32 h))
  | (st, _) => jset jobject "state" (jstr (state_name st))
  end.

Lemma wp_checktrade_reply others b w w1 (Q : outcome Json -> World Node Gsp -> Prop) :
  others w = (Ret tt, w1) -> gsp_ok (wst w) -> gsp_ok (wst w1) -> g_height (wst w1) < two31 ->
  (forall r, is_object r = true -> jget r "height" = Some (jint (g_height (wst w1))) ->
    jget r "data" = Some (reply_data (answer (g_trades (wst w1)) (g_pending (wst w)) b)) ->
    Q (Ret r) w1) ->
  wp (checktrade others b) Q w.
Proof.
  intros Ho [_ _ Hp] [_ Ht _] Hlt HQ. unfold checktrade. wp_step.
  apply (wp_CheckTrade others b w w1); [done|done| |].
  { intros k x Hx. apply Ht in Hx. cbn in Hx. lia. }
  intros [st h v] [Hst Hh Hv Hg]. cbn [then_post td_state td_confirmationHeight td_gspState] in *. wp_step.
  apply HQ; [by apply is_object_jset|by rewrite jget_jset_ne|]. rewrite jget_jset_eq by done.
  f_equal. subst st h. unfold answer. destruct (g_trades (wst w1) !! b); [done|].
  by destruct (is_member (g_pending (wst w)) b).
Qed.

(** [check_trade] on a reply of the right shape. *)
Lemma check_trade_reads b (wd : World DNode Proto.TradeState) r n cur data st :
  gsp_rpc b (wnode wd) = (inr r, n) -> is_object r = true -> 0 <= cur < two31 ->
  jget r "height" = Some (jint cur) -> jget r "data" = Some data -> is_object data = true ->
  jget data "state" = Some (jstr st) ->
  exists wd', check_trade b wd = (Ret (cur, data, st), wd').
Proof.
  intros Hr Ho Hcur Hh Hd Hdo Hs.
  assert (Hu : is_uint (jint cur) = true).
  { rewrite is_uint_jint by width. apply andb_true_iff. rewrite Z.leb_le, Z.ltb_lt. width. }
  assert (Hv : as_uint (jint cur) = Some cur) by (apply as_uint_jint; width).
  enough (Hw : wp (check_trade b) (fun o _ => o = Ret (cur, data, st)) wd).
  { unfold wp in Hw. destruct (check_trade b wd) as [o wd']. subst o. by exists wd'. }
  unfold check_trade, field. wp_step. apply wp_checktrade. rewrite Hr. intros r' n' [= <- <-].
  cbn [rpc_reply then_post]. wp_step. wp_step; [|congruence]. wp_step. wp_step; [|congruence]. simplify_eq.
  wp_step. wp_step; [|congruence]. wp_step. wp_step; [|congruence]. simplify_eq.
  wp_step. wp_step; [|congruence]. simplify_eq. wp_step. wp_step; [|congruence].
  wp_step. wp_step; [|congruence]. simplify_eq. wp_step. wp_step; [|by rewrite is_string_jstr in *].
  wp_step. wp_step; [|by rewrite as_string_jstr in *]. rewrite as_string_jstr in *. simplify_eq.
  by wp_step.
Qed.

Lemma is_final_reads (wd : World DNode Proto.TradeState) data h cur :
  jget data "height" = Some (jint h) -> 0 <= h <= cur -> cur < two31 ->
  is_final cur data wd = (Ret (confirmed_since h cur), wd).
Proof.
  intros Hd Hh Hcur. apply wp_eq. unfold is_final, field.
  assert (Hu : is_uint (jint h) = true).
  { rewrite is_uint_jint by width. apply andb_true_iff. rewrite Z.leb_le, Z.ltb_lt. width. }
  assert (Hv : as_uint (jint h) = Some h) by (apply as_uint_jint; width).
  wp_step. wp_step; [|congruence]. simplify_eq. wp_step. wp_step; [|congruence].
  wp_step. wp_step; [|congruence]. simplify_eq. wp_step. wp_step; [|lia]. by wp_step.
Qed.

(** C21: the daemon understands its GSP: whatever history of blocks and pending
    moves led to the state, and whatever happens between the two lookups, the
    reply of [checktrade] passes every check of [Trade::Update]: it is read as
    the GSP's height and the trade's state, and for a confirmed trade the
    depth is computed from the recorded height, which never lies above the
    GSP's, instead of aborting. *)
Theorem daemon_understands_gsp others b w w1 past past1 :
  others w = (Ret tt, w1) -> history (Node := Node) (wst w :: past) ->
  history (Node := Node) (wst w1 :: past1) ->
  g_height (wst w1) < two31 ->
  exists r, checktrade others b w = (Ret r, w1) /\
    forall (wd : World DNode Proto.TradeState) n, gsp_rpc b (wnode wd) = (inr r, n) ->
    let a := answer (g_trades (wst w1)) (g_pending (wst w)) b in
    exists data wd', check_trade b wd = (Ret (g_height (wst w1), data, state_name a.1), wd') /\
      (a.1 = CONFIRMED -> exists h, g_trades (wst w1) !! b = Some h /\
        is_final (g_height (wst w1)) data wd' =
          (Ret (confirmed_since h (g_height (wst w1))), wd')).
Proof.
  intros Ho [Hw _]%history_ok%Forall_cons [Hw1 _]%history_ok%Forall_cons Hlt.
  apply wp_returns. apply (wp_checktrade_reply others b w w1); [done..|].
  intros r Hr Hh Hd. split; [done|]. intros wd n Hn a. subst a.
  destruct Hw1 as [Hpos Ht _]. unfold answer in *.
  destruct (g_trades (wst w1) !! b) as [h|] eqn:Hb; [|destruct (is_member (g_pending (wst w)) b)].
  - apply Ht in Hb. cbn in Hb. cbn [reply_data] in Hd.
    rewrite (s32_small h) in Hd by lia. eexists.
    edestruct (check_trade_reads b wd r n) as [wd' Hc];
      [exact Hn|done|by split|exact Hh|exact Hd|json_is_object|by json_obj|].
    exists wd'. split; [exact Hc|]. intros _. exists h. split; [done|].
    apply is_final_reads; [by json_obj|lia|lia].
  - edestruct (check_trade_reads b wd r n) as [wd' Hc];
      [exact Hn|done|by split|exact Hh|exact Hd|json_is_object|cbn [reply_data]; by json_obj|].
    eexists _, wd'. split; [exact Hc|done].
  - edestruct (check_trade_reads b wd r n) as [wd' Hc];
      [exact Hn|done|by split|exact Hh|exact Hd|json_is_object|cbn [reply_data]; by json_obj|].
    eexists _, wd'. split; [exact Hc|done].
Qed.

End replies.

End DemGame.

(* ------------------------------------------------------------------ *)
(** ** The theorems at concrete inputs *)

Module GspWitness.
Import Mock DemGame.

#[export] Instance game_lib : GameLib := {
  GetPendingJsonState p := obj [("pending", p)];
  GetCustomStateData h k o :=
    match o with
    | Ret v => Ret (jset (obj [("height", jint h)]) k v)
    | Throw e => Throw e
    | Fatal => Fatal
    end;
  constraint_violation := Fatal;
  column_int h := Ret h
}.

#[export] Instance game_laws : GameLaws.
Proof.
  split; [done| |done|done]. intros h k v. eexists. split; [reflexivity|].
  split; [done|]. split; [by apply is_member_jset_eq|]. split; [by apply jget_jset_eq|].
  intros Hk. by rewrite jget_jset_ne.
Qed.

Definition block1 : Json :=
  obj [("block", obj [("height", jint 1)]); ("moves", arr [obj [("btxid", jstr "btx")]])].

Definition s0 : Gsp := initial_gsp 0.
Definition s0' : Gsp := with_trades {[ "btx" := 1 ]} s0.
Definition s1 : Gsp := with_height (g_height s0 + 1) s0'.
Definition w0 : World Fixed Gsp := world_of s0 fixed.
Definition w1 : World Fixed Gsp := world_of s1 fixed.

Lemma block1_height : block_height block1 1.
Proof. by eexists _, _. Qed.

Lemma block1_moves : block_moves block1 ["btx"].
Proof. eexists. split; [reflexivity|]. constructor; [by eexists|constructor]. Qed.

Lemma UpdateState_exact_witness : exists t, UpdateState block1 w0 = (Ret tt, world_of (with_trades t s0) fixed).
Proof.
  destruct (proj1 (UpdateState_exact block1 1 ["btx"] w0 block1_height block1_moves)) as (t & Ht & _).
  - split; [apply NoDup_singleton|]. constructor; [reflexivity|constructor].
  - exists t. exact Ht.
Defined.

(** Between the lookups the block is attached. *)
Definition attach : M Fixed Gsp unit := fun _ => (Ret tt, w1).

Lemma s1_small : small_heights (g_trades s1).
Proof. apply map_Forall_singleton. unfold two31. lia. Qed.

Lemma CheckTrade_linearizable_witness : exists d, CheckTrade attach "btx" w0 = (Ret d, w1).
Proof.
  destruct (CheckTrade_linearizable attach "btx" w0 w1 eq_refl eq_refl s1_small) as (d & _ & Hd & _).
  exists d. exact Hd.
Defined.

Lemma history0 : history (Node := Fixed) [s0].
Proof. by apply (history_start REGTEST 0 "6f750b36d22f1dc3d0a6e483af45301022646dfc3b3ba2187865f5a7d6d83ab1"). Qed.

Lemma history1 : history (Node := Fixed) [s1; s0].
Proof.
  apply (history_attach s0 [] block1 w0 (world_of s0' fixed));
    [exact history0|reflexivity|exact block1_height|reflexivity].
Qed.

#[local] Existing Instance default_flags.
#[local] Instance gsp_fixed : DemGspRpc Fixed := fun b n => (match fst (checktrade attach b w0) with
  | Ret r => inr r | _ => inl "error" end, n).

Lemma daemon_understands_gsp_witness :
  exists data wd', check_trade (Node := Fixed) "btx" (world_of empty_trade fixed) =
    (Ret (1, data, "confirmed"), wd').
Proof.
  destruct (daemon_understands_gsp (DNode := Fixed) attach "btx" w0 w1 [] [s0] eq_refl history0 history1
    ltac:(unfold two31; cbn; lia)) as (r & Hr & Hd).
  destruct (Hd (world_of empty_trade fixed) fixed) as (data & wd' & Hc & _).
  - unfold gsp_rpc, gsp_fixed. rewrite Hr. reflexivity.
  - exists data, wd'. exact Hc.
Defined.

End GspWitness.
