(* ===== verification/GspServer.v ===== *)
(** * The g/dem GSP as a process ([src/gsp/rpcserver.cpp], [src/gsp/main.cpp])

    The RPC methods of the GSP besides [checktrade], which [Gsp] has, and the
    main function, which checks the flags and hands a configuration to
    libxayagame. *)

From Stdlib Require Import ZArith Lia String.
From stdpp Require Import base gmap strings list sorting fin_maps.
From S2P Require Import Prelude Json Proto Effects Mock Checker Gsp.

Module GspServer.
Import DemGame.

(* ------------------------------------------------------------------ *)
(** ** The RPC methods *)

(** What the methods call of [xaya::Game]: asking it to stop; the JSON without
    a game state, and the JSON around the state that [GetStateAsJson] gives, at
    a height. *)
Class GameServer `{JsonLib} (Node : Type) := {
  RequestStop : Node -> Node;
  GetNullJsonState : Z -> Node -> outcome Json;
  GetCurrentJsonState : Z -> Json -> Node -> outcome Json
}.

Section rpc.
Context `{JsonLib} `{!GameLib} {Node : Type} `{!GameServer Node}.

Definition stop : M Node Gsp unit :=
  fun w => (Ret tt, mkWorld (wst w) (RequestStop (wnode w)) (wtrace w)).

Definition getnullstate : M Node Gsp Json :=
  fun w => (GetNullJsonState (g_height (wst w)) (wnode w), w).

Definition current_json (state : Json) : M Node Gsp Json :=
  fun w => (GetCurrentJsonState (g_height (wst w)) state (wnode w), w).

Definition getcurrentstate : M Node Gsp Json :=
  state ← GetStateAsJson;
  current_json state.

Definition getpendingstate : M Node Gsp Json :=
  p ← ToJson;
  mret (GetPendingJsonState p).

End rpc.

(** *** The state as JSON lists the trades *)

Section state_json.
Context `{JsonLib} `{!JsonLaws} {Node : Type}.

Definition add_row (v : Json) (row : string * Z) : Json := jset v row.1 (jint (s32 row.2)).

Lemma add_rows l v b :
  is_object v = true -> NoDup l.*1 ->
  is_object (fold_left add_row l v) = true /\
  (forall h, (b, h) ∈ l -> jget (fold_left add_row l v) b = Some (jint (s32 h)) /\
     is_member (fold_left add_row l v) b = true) /\
  (b ∉ l.*1 -> jget (fold_left add_row l v) b = jget v b /\
     is_member (fold_left add_row l v) b = is_member v b).
Proof.
  revert v. induction l as [|[k x] l IH]; intros v Hv Hn; cbn [fold_left fmap list_fmap] in *.
  { split; [done|]. split; [by intros h ?%elem_of_nil|done]. }
  apply NoDup_cons in Hn as [Hk Hn]. cbn [fst] in *.
  assert (Hv' : is_object (add_row v (k, x)) = true) by by apply is_object_jset.
  destruct (IH _ Hv' Hn) as (Ho & Hin & Hout). split; [done|]. split.
  - intros h [[= -> ->]|Hh]%elem_of_cons; [|by apply Hin].
    destruct (Hout Hk) as [-> ->]. unfold add_row. cbn [fst snd].
    by rewrite jget_jset_eq, is_member_jset_eq.
  - rewrite not_elem_of_cons. intros [Hne Hb]. destruct (Hout Hb) as [-> ->].
    unfold add_row. cbn [fst snd]. by rewrite jget_jset_ne, is_member_jset_ne.
Qed.

(** The JSON of the game state has a member for every recorded transaction,
    its height, and no others. *)
Theorem state_json_lists_trades (w : World Node Gsp) :
  exists v, GetStateAsJson w = (Ret v, w) /\ is_object v = true /\
    forall b, match g_trades (wst w) !! b with
              | Some h => jget v b = Some (jint (s32 h))
              | None => is_member v b = false
              end.
Proof.
  exists (fold_left add_row (rows (g_trades (wst w))) jobject). split; [by apply wp_eq; repeat wp_step|].
  assert (Hp : rows (g_trades (wst w)) ≡ₚ map_to_list (g_trades (wst w))) by apply merge_sort_Permutation.
  assert (Hn : NoDup (rows (g_trades (wst w))).*1) by (rewrite Hp; apply NoDup_fst_map_to_list).
  split; [by apply (add_rows _ _ ""); [apply is_object_jobject|]|]. intros b.
  destruct (add_rows (rows (g_trades (wst w))) jobject b is_object_jobject Hn) as (_ & Hin & Hout).
  destruct (g_trades (wst w) !! b) as [h|] eqn:Hb.
  - apply Hin. rewrite Hp. by apply elem_of_map_to_list.
  - destruct Hout as [_ ->]; [|apply is_member_jobject].
    intros (x & -> & Hx)%list_elem_of_fmap. rewrite Hp in Hx. destruct x as [k h].
    apply elem_of_map_to_list in Hx. cbn in Hb. congruence.
Qed.

End state_json.

(* ------------------------------------------------------------------ *)
(** ** The main function *)

(** The command-line flags of the program, and their default values. *)
Record GspFlags := mkGspFlags {
  gf_xaya_rpc_url : string;
  gf_game_rpc_port : Z;
  gf_enable_pruning : Z;
  gf_datadir : string
}.

Definition default_gsp_flags : GspFlags := mkGspFlags "" 0 (-1) "".

(** [xaya::GameDaemonConfiguration], as far as it is filled in; [None] is the
    library's default.  The two last fields say whether the factory of
    [dem::RpcServer] and the processor of pending moves are set. *)
Inductive RpcServerType := HTTP.

Record GameDaemonConfiguration := mkGameDaemonConfiguration {
  XayaRpcUrl : string;
  GameRpcServer : option RpcServerType;
  GameRpcPort : option Z;
  EnablePruning : Z;
  DataDirectory : string;
  MinXayaVersion : Z;
  InstanceFactory : bool;
  PendingMoves : bool
}.

(** [xaya::SQLiteMain] with the game logic, and its return value. *)
Class SQLiteMain (Node : Type) := sqlite_main : GameDaemonConfiguration -> string -> Node -> Z * Node.

Section main.
Context {Node : Type} `{!SQLiteMain Node}.

Definition config_of (f : GspFlags) : GameDaemonConfiguration :=
  let http := negb (gf_game_rpc_port f =? 0) in
  mkGameDaemonConfiguration (gf_xaya_rpc_url f)
    (if http then Some HTTP else None) (if http then Some (gf_game_rpc_port f) else None)
    (gf_enable_pruning f) (gf_datadir f) 1050000 true true.

Definition EXIT_FAILURE : Z := 1.

Definition main (f : GspFlags) (n : Node) : Z * Node :=
  if String.eqb (gf_xaya_rpc_url f) "" then (EXIT_FAILURE, n)
  else if String.eqb (gf_datadir f) "" then (EXIT_FAILURE, n)
  else sqlite_main (config_of f) "dem" n.

(** The GSP runs only with the wallet's address and a data directory, and
    serves RPC exactly if a port is given. *)
Lemma main_runs f n :
  (gf_xaya_rpc_url f <> "" /\ gf_datadir f <> "" /\ main f n = sqlite_main (config_of f) "dem" n) \/
  ((gf_xaya_rpc_url f = "" \/ gf_datadir f = "") /\ main f n = (EXIT_FAILURE, n)).
Proof.
  unfold main. destruct (String.eqb_spec (gf_xaya_rpc_url f) ""); [auto|].
  destruct (String.eqb_spec (gf_datadir f) ""); auto.
Qed.

Lemma config_serves f :
  GameRpcServer (config_of f) = Some HTTP <-> gf_game_rpc_port f <> 0.
Proof. cbn. destruct (Z.eqb_spec (gf_game_rpc_port f) 0); cbn; split; congruence. Qed.

End main.

End GspServer.
