(* ===== verification/RpcClient.v ===== *)
(** * RPC clients per thread ([src/src/private/rpcclient.hpp], [rpcclient.tpp])

    The clients of libjson-rpc-cpp are not thread safe, so [RpcClient] creates
    one for each thread that uses it, on first use.  The class is generic in
    the type of the generated stub; an HTTP connection and a stub are objects
    of that library, identified here by their address. *)

From Stdlib Require Import ZArith Lia String.
From stdpp Require Import base gmap strings list fin_maps.
From S2P Require Import Prelude Json Proto Effects Mock.

(** The JSON-RPC protocol versions. *)
Inductive clientVersion_t := JSONRPC_CLIENT_V1 | JSONRPC_CLIENT_V2.

(** [jsonrpc::HttpClient], and a stub on such a connection. *)
Record HttpClient := mkHttpClient { http_address : nat; http_endpoint : string }.
Record Stub := mkStub { stub_address : nat; stub_http : HttpClient; stub_version : clientVersion_t }.

(** [next] is the next free address. *)
Record RpcClient := mkRpcClient {
  endpoint : string;
  clientVersion : clientVersion_t;
  httpClients : gmap nat HttpClient;
  rpcClients : gmap nat Stub;
  next : nat
}.

Definition new_RpcClient (ep : string) (l : bool) : RpcClient :=
  mkRpcClient ep (if l then JSONRPC_CLIENT_V1 else JSONRPC_CLIENT_V2) ∅ ∅ 0.

Section operations.
Context `{JsonLib} {Node : Type}.
Implicit Types w : World Node RpcClient.

(** [std::map::emplace] keeps an entry that exists and gives the one there is. *)
Definition emplace_http (id : nat) : M Node RpcClient HttpClient :=
  s ← get;
  match httpClients s !! id with
  | Some h => mret h
  | None =>
      let h := mkHttpClient (next s) (endpoint s) in
      put (mkRpcClient (endpoint s) (clientVersion s) (<[id := h]> (httpClients s)) (rpcClients s)
        (next s + 1));;
      mret h
  end.

Definition emplace_stub (id : nat) (http : HttpClient) : M Node RpcClient Stub :=
  s ← get;
  match rpcClients s !! id with
  | Some r => mret r
  | None =>
      let r := mkStub (next s) http (clientVersion s) in
      put (mkRpcClient (endpoint s) (clientVersion s) (httpClients s) (<[id := r]> (rpcClients s))
        (next s + 1));;
      mret r
  end.

(** [operator*], called by thread [id]. *)
Definition deref (id : nat) : M Node RpcClient Stub :=
  s ← get;
  match rpcClients s !! id with
  | Some r => mret r
  | None =>
      http ← emplace_http id;
      emplace_stub id http
  end.

(** The calls of the threads, in the order of the mutex, with their results. *)
Fixpoint derefs (ids : list nat) : M Node RpcClient (list (nat * Stub)) :=
  match ids with
  | [] => mret []
  | id :: ids' =>
      r ← deref id;
      rs ← derefs ids';
      mret ((id, r) :: rs)
  end.

(** ** One client per thread *)

(** The two maps belong together, addresses are not shared, and connections
    go to the endpoint. *)
Record clients_ok (s : RpcClient) : Prop := mkClientsOk {
  co_http : forall id r, rpcClients s !! id = Some r -> httpClients s !! id = Some (stub_http r);
  co_stub : forall id h, httpClients s !! id = Some h -> is_Some (rpcClients s !! id);
  co_config : forall id r, rpcClients s !! id = Some r ->
    http_endpoint (stub_http r) = endpoint s /\ stub_version r = clientVersion s;
  co_fresh : forall id r, rpcClients s !! id = Some r ->
    (stub_address r < next s)%nat /\ (http_address (stub_http r) < next s)%nat;
  co_inj : forall id id' r r', rpcClients s !! id = Some r -> rpcClients s !! id' = Some r' ->
    id <> id' -> stub_address r <> stub_address r' /\
      http_address (stub_http r) <> http_address (stub_http r')
}.

Lemma new_RpcClient_ok ep l : clients_ok (new_RpcClient ep l).
Proof. split; intros *; cbn; by rewrite lookup_empty. Qed.

Lemma wp_deref id w (Q : outcome Stub -> World Node RpcClient -> Prop) :
  clients_ok (wst w) ->
  (forall r s', clients_ok s' -> rpcClients s' !! id = Some r ->
    (forall id', id' <> id -> rpcClients s' !! id' = rpcClients (wst w) !! id') ->
    (forall id' r', rpcClients (wst w) !! id' = Some r' -> rpcClients s' !! id' = Some r') ->
    endpoint s' = endpoint (wst w) -> clientVersion s' = clientVersion (wst w) ->
    Q (Ret r) (mkWorld s' (wnode w) (wtrace w))) ->
  wp (deref id) Q w.
Proof.
  intros [C1 C2 C3 C4 C5] HQ. unfold deref. wp_step. wp_step.
  destruct (rpcClients (wst w) !! id) as [r|] eqn:Hr.
  { wp_step. destruct w as [s n tr]. by apply HQ. }
  destruct (httpClients (wst w) !! id) as [h|] eqn:Hh.
  { destruct (C2 id h Hh) as [r Hr']. congruence. }
  wp_step. unfold emplace_http. wp_step. wp_step. rewrite Hh. wp_step. wp_step. wp_step.
  unfold emplace_stub. wp_step. wp_step. cbn [rpcClients endpoint clientVersion httpClients next]. rewrite Hr.
  wp_step. wp_step. wp_step. apply HQ; cbn; [|by rewrite lookup_insert_eq| | |done|done].
  - split; cbn; intros id' x.
    + rewrite !lookup_insert_Some.
      intros [[<- <-]|[Hne Hx]]; [by left|right]. split; [done|by apply C1].
    + rewrite lookup_insert_Some. intros [[<- <-]|[Hne Hx]]; [rewrite lookup_insert_eq; by eexists|].
      rewrite lookup_insert_ne by done. by eapply C2.
    + rewrite lookup_insert_Some. intros [[<- <-]|[Hne Hx]]; [done|]. by eapply C3.
    + rewrite lookup_insert_Some. intros [[<- <-]|[Hne Hx]]; cbn; [lia|]. apply C4 in Hx. lia.
    + intros r r'. rewrite !lookup_insert_Some.
      intros [[<- <-]|[Hne Hx]] [[<- <-]|[Hne' Hx']] Hd; cbn; [done| | |by eapply C5].
      * apply C4 in Hx'. lia.
      * apply C4 in Hx. lia.
  - intros id' Hne. by rewrite lookup_insert_ne.
  - intros id' r' Hr'. rewrite lookup_insert_ne; [done|]. intros ->. congruence.
Qed.

Lemma wp_derefs ids w (Q : outcome (list (nat * Stub)) -> World Node RpcClient -> Prop) :
  clients_ok (wst w) ->
  (forall rs s', clients_ok s' -> map fst rs = ids ->
    Forall (fun e => rpcClients s' !! e.1 = Some e.2) rs ->
    (forall id' r', rpcClients (wst w) !! id' = Some r' -> rpcClients s' !! id' = Some r') ->
    endpoint s' = endpoint (wst w) -> clientVersion s' = clientVersion (wst w) ->
    Q (Ret rs) (mkWorld s' (wnode w) (wtrace w))) ->
  wp (derefs ids) Q w.
Proof.
  revert w Q. induction ids as [|id ids IH]; intros w Q Hok HQ; cbn [derefs].
  { wp_step. destruct w. by apply HQ. }
  wp_step. apply wp_deref; [done|]. intros r s' Hok' Hr _ Hold He Hv. cbn [then_post]. wp_step.
  apply IH; [done|]. cbn [wst wnode wtrace]. intros rs s2 Hok2 Hids Hrs Hold2 He2 Hv2. cbn [then_post].
  wp_step. apply HQ; [done|by cbn; f_equal| |eauto|congruence|congruence].
  constructor; [by apply Hold2|done].
Qed.

(** Threads never share an RPC client: in any sequence of uses by any
    threads, the same thread always gets the same client and different threads
    get clients, and connections, of their own, all for the configured
    endpoint and protocol. *)
Theorem clients_per_thread ep l ids n tr :
  exists rs w', derefs ids (mkWorld (new_RpcClient ep l) n tr) = (Ret rs, w') /\ map fst rs = ids /\
    forall i j id id' r r', rs !! i = Some (id, r) -> rs !! j = Some (id', r') ->
      (id = id' -> r = r') /\
      (id <> id' -> stub_address r <> stub_address r' /\
        http_address (stub_http r) <> http_address (stub_http r')) /\
      http_endpoint (stub_http r) = ep /\
      stub_version r = (if l then JSONRPC_CLIENT_V1 else JSONRPC_CLIENT_V2).
Proof.
  enough (Hw : wp (derefs ids) (fun o _ => exists rs, o = Ret rs /\ map fst rs = ids /\
    forall i j id id' r r', rs !! i = Some (id, r) -> rs !! j = Some (id', r') ->
      (id = id' -> r = r') /\ (id <> id' -> stub_address r <> stub_address r' /\
        http_address (stub_http r) <> http_address (stub_http r')) /\
      http_endpoint (stub_http r) = ep /\
      stub_version r = (if l then JSONRPC_CLIENT_V1 else JSONRPC_CLIENT_V2))
    (mkWorld (new_RpcClient ep l) n tr)).
  { unfold wp in Hw. destruct (derefs _ _) as [o w']. destruct Hw as (rs & -> & ?). by exists rs, w'. }
  apply wp_derefs; [apply new_RpcClient_ok|]. cbn [wst]. intros rs s' [C1 C2 C3 C4 C5] Hids Hrs _ He Hv.
  exists rs. split; [done|]. split; [done|]. intros i j id id' r r' Hi Hj.
  apply (Forall_lookup_1 _ _ _ _ Hrs) in Hi, Hj. cbn in Hi, Hj.
  destruct (C3 id r Hi) as [Hep Hver]. split; [intros ->; congruence|].
  split; [by eapply C5|]. cbn in He, Hv. split; congruence.
Qed.

End operations.
