(* ===== verification/TestUtils.v ===== *)
(** * Test support ([src/testutils.cpp], [src/testutils.hpp])

    What the unit tests share: the game [TestAssets], whose balances a test
    sets as it likes, and the accounts of the XMPP server the tests run
    against.  [TestAssets] is one more implementation of the interface
    [AssetSpec] that [Checker] and [Trades] call. *)

From Stdlib Require Import ZArith Lia String.
From stdpp Require Import base gmap strings list.
From S2P Require Import Prelude Json Proto Effects Mock Checker Authenticator.

(* ------------------------------------------------------------------ *)
(** ** The test server *)

Record TestAccount := mkTestAccount { acc_name : string; acc_password : string }.

Record ServerConfiguration := mkServerConfiguration {
  server : string;
  muc : string;
  accounts : list TestAccount
}.

Definition LOCAL_SERVER : ServerConfiguration :=
  mkServerConfiguration "localhost" "muc.localhost"
    [mkTestAccount "xmpptest1" "password";
     mkTestAccount "xmpptest2" "password";
     mkTestAccount "xmpptest3" "password"].

Definition GetServerConfig : ServerConfiguration := LOCAL_SERVER.

(** The setters of [gloox::JID]. *)
Class JidSetters `{JidLib} := {
  jid_empty : JID;
  setUsername : string -> JID -> JID;
  setServer : string -> JID -> JID;
  setResource : string -> JID -> JID
}.

Class JidSetterLaws `{JidSetters} : Prop := {
  username_set s j : jid_username (setUsername s j) = s;
  username_server s j : jid_username (setServer s j) = jid_username j;
  username_resource s j : jid_username (setResource s j) = jid_username j;
  server_set s j : jid_server (setServer s j) = s;
  server_resource s j : jid_server (setResource s j) = jid_server j
}.

Section jids.
Context `{JidSetters}.

(** [None] is an index beyond the array of accounts, which C++ leaves
    undefined. *)
Definition GetTestJid (n : nat) (res : string) : option JID :=
  let cfg := GetServerConfig in
  a ← accounts cfg !! n;
  let jid := setUsername (acc_name a) jid_empty in
  let jid := setServer (server cfg) jid in
  Some (setResource res jid).

Definition GetPassword (n : nat) : option string :=
  acc_password <$> accounts GetServerConfig !! n.

Definition GetRoom (nm : string) : JID :=
  let res := setUsername nm jid_empty in
  setServer (muc GetServerConfig) res.

End jids.

(* ------------------------------------------------------------------ *)
(** ** The game of the tests *)

Module TestAssets.

(** Balances per account and asset, and the block the game is at. *)
Record TestAssets `{Uint256Lib} := mkTestAssets {
  balances : gmap string (gmap string Z);
  currentHash : U256
}.
Arguments mkTestAssets {_} _ _.
Arguments balances {_} _.
Arguments currentHash {_} _.

Definition GAME_ID : string := "test".

Section assets.
Context `{JsonLib} `{!Uint256Lib}.
Implicit Types a : TestAssets.

Definition SetBlock (hash : U256) a : TestAssets := mkTestAssets (balances a) hash.

Definition SetBalance (name asset : string) (n : Z) a : TestAssets :=
  mkTestAssets (<[name := <[asset := n]> (default ∅ (balances a !! name))]> (balances a))
    (currentHash a).

(** [balances[name]] adds an empty account. *)
Definition InitialiseAccount (name : string) a : TestAssets :=
  mkTestAssets (map_insert (balances a) name ∅) (currentHash a).

Definition IsAsset (asset : string) : bool :=
  String.eqb asset "gold" || String.eqb asset "silver" || String.eqb asset "bronze".

(** The result, and the output argument [hash], which is written as soon as
    the account holds the asset at all. *)
Definition CanSell a (name asset : string) (n : Z) (hash : U256) : bool * U256 :=
  match balances a !! name with
  | None => (false, hash)
  | Some account =>
      match account !! asset with
      | None => (false, hash)
      | Some b => (n <=? b, currentHash a)
      end
  end.

Definition CanBuy a (name asset : string) (n : Z) : bool := has (balances a !! name).

Definition GetTransferMove (sender receiver asset : string) (n : Z) : Json :=
  jset (jset (jset jobject "to" (jstr receiver)) "asset" (jstr asset)) "amount" (jint n).

End assets.

(** The environment of a test holds a [TestAssets]. *)
Class HasAssets `{Uint256Lib} (Node : Type) := test_assets : Node -> TestAssets.

#[export] Instance spec `{JsonLib} `{!Uint256Lib} {Node} `{!HasAssets Node} : AssetSpec Node := {
  GetGameId := GAME_ID;
  spec_is_asset asset n := (Ret (IsAsset asset), n);
  spec_can_sell name asset k n :=
    let a := test_assets n in
    let '(ok, hash) := CanSell a name asset k (currentHash a) in
    (Ret (if ok then Some hash else None), n);
  spec_can_buy name asset k n := (Ret (CanBuy (test_assets n) name asset k), n);
  GetTransferMove sender receiver asset n := Ret (GetTransferMove sender receiver asset n)
}.

Section theorems.
Context `{JsonLib} `{!Uint256Lib}.
Implicit Types a : TestAssets.

Definition balance a (name asset : string) : option Z :=
  account ← balances a !! name; account !! asset.

Lemma balance_set name asset n a name' asset' :
  balance (SetBalance name asset n a) name' asset' =
  if bool_decide (name' = name /\ asset' = asset) then Some n else balance a name' asset'.
Proof.
  unfold balance, SetBalance. cbn. case_bool_decide as Hd.
  - destruct Hd as [-> ->]. rewrite lookup_insert_eq. cbn. by rewrite lookup_insert_eq.
  - destruct (decide (name' = name)) as [->|]; [|by rewrite lookup_insert_ne].
    rewrite lookup_insert_eq. cbn. rewrite lookup_insert_ne by naive_solver.
    by destruct (balances a !! name).
Qed.

(** The methods in terms of the balances; the answer of [CanSell] is
    independent of what the output argument held. *)
Lemma CanSell_spec a name asset n hash :
  (CanSell a name asset n hash).1 = true <->
  exists b, balance a name asset = Some b /\ n <= b.
Proof.
  unfold CanSell, balance. destruct (balances a !! name) as [acc|]; cbn; [|naive_solver].
  destruct (acc !! asset) as [b|]; cbn; [|naive_solver].
  rewrite Z.leb_le. naive_solver.
Qed.

Lemma CanSell_hash a name asset n hash :
  (CanSell a name asset n hash).1 = true -> (CanSell a name asset n hash).2 = currentHash a.
Proof. unfold CanSell. destruct (balances a !! name) as [acc|]; [destruct (acc !! asset)|]; done. Qed.

Lemma CanBuy_set name asset n a name' asset' k :
  CanBuy (SetBalance name asset n a) name' asset' k = true <->
  name' = name \/ CanBuy a name' asset' k = true.
Proof.
  unfold CanBuy, SetBalance. cbn. destruct (decide (name' = name)) as [->|].
  - rewrite lookup_insert_eq. naive_solver.
  - rewrite lookup_insert_ne by done. naive_solver.
Qed.

Lemma CanBuy_initialise name a name' asset k :
  CanBuy (InitialiseAccount name a) name' asset k = true <->
  name' = name \/ CanBuy a name' asset k = true.
Proof.
  unfold CanBuy, InitialiseAccount, map_insert. cbn.
  destruct (balances a !! name) eqn:He; destruct (decide (name' = name)) as [->|];
    rewrite ?He, ?lookup_insert_eq; try (rewrite lookup_insert_ne by done); naive_solver.
Qed.

Lemma initialise_keeps_balances name a name' asset :
  balance (InitialiseAccount name a) name' asset = balance a name' asset.
Proof.
  unfold balance, InitialiseAccount, map_insert. cbn. destruct (balances a !! name) eqn:He; [done|].
  destruct (decide (name' = name)) as [->|]; [by rewrite lookup_insert_eq, He|by rewrite lookup_insert_ne].
Qed.

End theorems.

End TestAssets.
