(* ===== verification/MockXaya.v ===== *)
(** * The mock servers of the unit tests ([src/mockxaya.cpp], [src/mockxaya.hpp], [src/mockxaya.tpp])

    The tests run the daemon's code against a wallet and a g/dem GSP that are
    implemented here: a PSBT is a key into a table of decoded JSON values, the
    signatures are marks ["signed"] in them, and the calls that build a
    transaction answer what the test announced beforehand (through gmock).
    [MockTheorems] shows that these servers behave towards the daemon's code
    as the real ones are expected to. *)

From Stdlib Require Import ZArith Lia String.
From stdpp Require Import base gmap strings list pretty sorting.
From S2P Require Import Prelude Json Proto Effects Mock Checker Trades TestUtils.

(* ------------------------------------------------------------------ *)
(** ** Libraries *)

(** Decimal literals: [jdec m e] is the value of [m * 10^-e]. *)
Class JsonDecimals `{JsonLib} := jdec : Z -> Z -> Json.

(** [xaya::SHA256::Hash] and the null value of [xaya::uint256]. *)
Class HashLib `{Uint256Lib} := {
  SHA256_Hash : string -> U256;
  u256_null : U256
}.

(** A method mocked by gmock, with arguments [A] and result [R]: its call
    expectations.  [times_zero] is [EXPECT_CALL (...).Times (0)] with the
    wildcard for all arguments, [will_return a r m] adds
    [EXPECT_CALL (a).WillRepeatedly (Return (r))] to [m].  A call gives [None]
    if it is not expected; gmock then records a failure of the test and
    returns the default value. *)
Class GMock := {
  Mocked : Type -> Type -> Type;
  times_zero : forall {A R}, Mocked A R;
  will_return : forall {A R}, A -> R -> Mocked A R -> Mocked A R;
  expected : forall {A R}, (A -> A -> bool) -> Mocked A R -> A -> option R
}.

(** Newer expectations are tried first. *)
Class GMockLaws `{GMock} : Prop := {
  expected_zero {A R} (eqb : A -> A -> bool) (a : A) :
    expected eqb (times_zero (R := R)) a = None;
  expected_return {A R} (eqb : A -> A -> bool) (a a' : A) (r : R) m :
    expected eqb (will_return a' r m) a = if eqb a a' then Some r else expected eqb m a
}.

(** Equality of arguments, as [operator==] of their types. *)
Class ArgEq (A : Type) := arg_eqb : A -> A -> bool.
#[export] Instance arg_json `{JsonLib} : ArgEq Json := jeqb.
#[export] Instance arg_string : ArgEq string := String.eqb.
#[export] Instance arg_int : ArgEq Z := Z.eqb.
#[export] Instance arg_pair {A B} `{ArgEq A} `{ArgEq B} : ArgEq (A * B) :=
  fun x y => arg_eqb x.1 y.1 && arg_eqb x.2 y.2.

(* ------------------------------------------------------------------ *)
(** ** JSON values that the code changes in place *)

Section json.
Context `{JsonLib}.

(** Literals. *)
Definition jobj (l : list (string * Json)) : Json :=
  fold_left (fun o kv => jset o kv.1 kv.2) l jobject.
Definition jarr (l : list Json) : Json := fold_left jappend l jarray.

(** [v[k]] on a const value, as [Checker.field] but without effects. *)
Definition member (v : Json) (k : string) : outcome Json := json_value (jget v k).

(** [map::at] *)
Definition map_at {A} (m : gmap string A) (k : string) : outcome A :=
  match m !! k with Some x => Ret x | None => Throw OutOfRange end.

(** The non-const [operator[]] gives a reference into the value.  A missing
    member or element is created as null, and null becomes an object or array;
    other types throw.  [at_path p f v] applies [f] to the value at the path
    [p] of [v], which [f] may change; the result comes with the changed [v]. *)
Inductive jstep := Key (k : string) | Index (i : nat).

Definition jset_nth (v : Json) (i : nat) (x : Json) : Json :=
  let l := jelems v in
  jarr (if decide (i < length l)%nat then <[i := x]> l
        else l ++ replicate (i - length l) jnull ++ [x]).

Fixpoint at_path {A} (p : list jstep) (f : Json -> outcome (A * Json)) (v : Json)
  : outcome (A * Json) :=
  match p with
  | [] => f v
  | Key k :: p' =>
      if is_object v || is_null v then
        x ← member v k;
        '(a, y) ← at_path p' f x;
        Ret (a, jset v k y)
      else Throw JsonLogicError
  | Index i :: p' =>
      if is_array v || is_null v then
        '(a, y) ← at_path p' f (jnth v i);
        Ret (a, jset_nth v i y)
      else Throw JsonLogicError
  end.

(** A statement that changes the value at [p]; an assignment; a read, which
    can create members on its way. *)
Definition change (p : list jstep) (f : Json -> outcome Json) (v : Json) : outcome Json :=
  '(_, v') ← at_path p (fun x => y ← f x; Ret (tt, y)) v; Ret v'.
Definition assign (p : list jstep) (y : Json) : Json -> outcome Json :=
  change p (fun _ => Ret y).
Definition read (p : list jstep) (v : Json) : outcome (Json * Json) :=
  at_path p (fun x => Ret (x, x)) v.

(** [inp.isMember ("signed") && inp["signed"].asBool ()] *)
Definition is_signed (inp : Json) : outcome bool :=
  if is_object inp || is_null inp then
    if is_member inp "signed" then
      x ← member inp "signed"; json_value (as_bool x)
    else Ret false
  else Throw JsonLogicError.

Definition ExtendJson (out inp : Json) : outcome Json :=
  checked (is_array out);;
  checked (is_array inp);;
  Ret (fold_left jappend (jelems inp) out).

End json.

(* ------------------------------------------------------------------ *)
(** ** The wallet *)

(** The methods that are mocked, with their expectations. *)
Record Mocks `{JsonLib} `{GMock} := mkMocks {
  m_CreateFundedPsbt : Mocked (Json * Json * Json) string;
  m_createpsbt : Mocked (Json * Json) string;
  m_NamePsbt : Mocked (string * Z * string * string) string;
  m_joinpsbts : Mocked Json string;
  m_walletprocesspsbt : Mocked string Json;
  m_sendrawtransaction : Mocked string string
}.
Arguments mkMocks {_ _}.
Arguments m_CreateFundedPsbt {_ _} _.
Arguments m_createpsbt {_ _} _.
Arguments m_NamePsbt {_ _} _.
Arguments m_joinpsbts {_ _} _.
Arguments m_walletprocesspsbt {_ _} _.
Arguments m_sendrawtransaction {_ _} _.

(** The data members, and what a test changes outside the class: the flags
    and the number of failures gmock has recorded. *)
Record MockXayaRpcServer `{JsonLib} `{Uint256Lib} `{GMock} := mkMockXaya {
  addrCount : Z;
  utxos : gset (string * Z);
  psbts : gmap string Json;
  locked : gset (string * Z);
  bestBlock : U256;
  mocks : Mocks;
  flags : Flags;
  failures : nat
}.
Arguments mkMockXaya {_ _ _}.
Arguments addrCount {_ _ _} _.
Arguments utxos {_ _ _} _.
Arguments psbts {_ _ _} _.
Arguments locked {_ _ _} _.
Arguments bestBlock {_ _ _} _.
Arguments mocks {_ _ _} _.
Arguments flags {_ _ _} _.
Arguments failures {_ _ _} _.

Section setters.
Context `{JsonLib} `{!Uint256Lib} `{!GMock}.
Implicit Types s : MockXayaRpcServer.

Definition with_addrCount x s :=
  mkMockXaya x (utxos s) (psbts s) (locked s) (bestBlock s) (mocks s) (flags s) (failures s).
Definition with_utxos x s :=
  mkMockXaya (addrCount s) x (psbts s) (locked s) (bestBlock s) (mocks s) (flags s) (failures s).
Definition with_psbts x s :=
  mkMockXaya (addrCount s) (utxos s) x (locked s) (bestBlock s) (mocks s) (flags s) (failures s).
Definition with_locked x s :=
  mkMockXaya (addrCount s) (utxos s) (psbts s) x (bestBlock s) (mocks s) (flags s) (failures s).
Definition with_bestBlock x s :=
  mkMockXaya (addrCount s) (utxos s) (psbts s) (locked s) x (mocks s) (flags s) (failures s).
Definition with_mocks x s :=
  mkMockXaya (addrCount s) (utxos s) (psbts s) (locked s) (bestBlock s) x (flags s) (failures s).
Definition with_flags x s :=
  mkMockXaya (addrCount s) (utxos s) (psbts s) (locked s) (bestBlock s) (mocks s) x (failures s).
Definition with_failures x s :=
  mkMockXaya (addrCount s) (utxos s) (psbts s) (locked s) (bestBlock s) (mocks s) (flags s) x.

(** Adding an expectation to one of the mocks. *)
Definition expect_CreateFundedPsbt a r (m : Mocks) :=
  mkMocks (will_return a r (m_CreateFundedPsbt m)) (m_createpsbt m) (m_NamePsbt m)
    (m_joinpsbts m) (m_walletprocesspsbt m) (m_sendrawtransaction m).
Definition expect_createpsbt a r (m : Mocks) :=
  mkMocks (m_CreateFundedPsbt m) (will_return a r (m_createpsbt m)) (m_NamePsbt m)
    (m_joinpsbts m) (m_walletprocesspsbt m) (m_sendrawtransaction m).
Definition expect_NamePsbt a r (m : Mocks) :=
  mkMocks (m_CreateFundedPsbt m) (m_createpsbt m) (will_return a r (m_NamePsbt m))
    (m_joinpsbts m) (m_walletprocesspsbt m) (m_sendrawtransaction m).
Definition expect_joinpsbts a r (m : Mocks) :=
  mkMocks (m_CreateFundedPsbt m) (m_createpsbt m) (m_NamePsbt m)
    (will_return a r (m_joinpsbts m)) (m_walletprocesspsbt m) (m_sendrawtransaction m).
Definition expect_walletprocesspsbt a r (m : Mocks) :=
  mkMocks (m_CreateFundedPsbt m) (m_createpsbt m) (m_NamePsbt m)
    (m_joinpsbts m) (will_return a r (m_walletprocesspsbt m)) (m_sendrawtransaction m).

End setters.

(** A step of symbolic execution that keeps the state in normal form. *)
Ltac server_simpl :=
  cbv beta iota zeta delta [with_addrCount with_utxos with_psbts with_locked with_bestBlock
    with_mocks with_flags with_failures addrCount utxos psbts locked bestBlock mocks flags failures].
Ltac server_step := wp_step; server_simpl.

Section server.
Context `{JsonLib} `{!JsonDecimals} `{!Uint256Lib} `{!HashLib} `{!AmountLib} `{!GMock}
  {Node : Type}.
Implicit Types s : MockXayaRpcServer.

(** The constructor, in a process with the flags [f]. *)
Definition new_MockXayaRpcServer (f : Flags) : MockXayaRpcServer :=
  mkMockXaya 0 ∅ ∅ ∅ u256_null
    (mkMocks times_zero times_zero times_zero times_zero times_zero times_zero) f 0.

(** Calling a mocked method; [dflt] is the default value of its type. *)
Definition call_mock {A R} `{!ArgEq A} (m : Mocks -> Mocked A R) (dflt : R) (a : A) : M Node MockXayaRpcServer R :=
  s ← get;
  match expected arg_eqb (m (mocks s)) a with
  | Some r => mret r
  | None => modify (fun s => with_failures (S (failures s)) s);; mret dflt
  end.

(** *** What the tests set up *)

Definition SetBestBlock (b : U256) : M Node MockXayaRpcServer unit := modify (with_bestBlock b).

Definition AddUtxo (txid : string) (vout : Z) : M Node MockXayaRpcServer unit :=
  modify (fun s => with_utxos ({[ (txid, vout) ]} ∪ utxos s) s).

Definition SetPsbt (psbt : string) (decoded : Json) : M Node MockXayaRpcServer unit :=
  modify (fun s => with_psbts (<[psbt := decoded]> (psbts s)) s).

(** One iteration of the loop in [SetJoinedPsbt]. *)
Definition join_part (known : gmap string Json) (part : string) (res : Json) : outcome Json :=
  decodedPart ← map_at known part;
  tx ← member decodedPart "tx";
  vin ← member tx "vin";
  res ← change [Key "tx"; Key "vin"] (fun out => ExtendJson out vin) res;
  vout ← member tx "vout";
  res ← change [Key "tx"; Key "vout"] (fun out => ExtendJson out vout) res;
  inputs ← member decodedPart "inputs";
  res ← change [Key "inputs"] (fun out => ExtendJson out inputs) res;
  outputs ← member decodedPart "outputs";
  change [Key "outputs"] (fun out => ExtendJson out outputs) res.

Fixpoint join_parts (known : gmap string Json) (psbtsIn : list string) (psbtArr res : Json)
  : outcome (Json * Json) :=
  match psbtsIn with
  | [] => Ret (psbtArr, res)
  | part :: psbtsIn' =>
      let psbtArr := jappend psbtArr (jstr part) in
      res ← join_part known part res;
      join_parts known psbtsIn' psbtArr res
  end.

Definition SetJoinedPsbt (psbtsIn : list string) (combined : string) : M Node MockXayaRpcServer unit :=
  s ← get;
  let res := jobj [("tx", jobj [("vin", jarr []); ("vout", jarr [])]);
                   ("inputs", jarr []); ("outputs", jarr [])] in
  '(psbtArr, res) ← lift_outcome (join_parts (psbts s) psbtsIn jarray res);
  SetPsbt combined res;;
  modify (fun s => with_mocks (expect_joinpsbts psbtArr combined (mocks s)) s).

(** The decoded form of the part of the transaction that the buyer funds. *)
Definition chi_part (addr : string) (jsonTotal : Json) : outcome Json :=
  let decoded :=
    jobj [("tx",
            jobj [("vin", jarr [jobj [("txid", jstr "buyer txid"); ("vout", jint 1)];
                                jobj [("txid", jstr "buyer txid"); ("vout", jint 2)]]);
                  ("vout", jarr [jobj [("scriptPubKey", jobj [("addresses", jarr [jstr "dummy"])])];
                                 jobj [("value", jdec 15 1);
                                       ("scriptPubKey", jobj [("addresses", jarr [jstr "change addr"])])]])]);
          ("inputs", jarr [jobject; jobject]); ("outputs", jarr [jobject; jobject])] in
  let chiOut := [Key "tx"; Key "vout"; Index 0] in
  decoded ← assign (chiOut ++ [Key "value"]) jsonTotal decoded;
  assign (chiOut ++ [Key "scriptPubKey"; Key "addresses"; Index 0]) (jstr addr) decoded.

(** The decoded form of the part with the name update. *)
Definition name_part (seller addr move : string) : outcome Json :=
  let decoded :=
    jobj [("tx",
            jobj [("vin", jarr [jobj [("txid", jstr "dummy"); ("vout", jint 12)]]);
                  ("vout", jarr [jobj [("value", jdec 1 2);
                     ("scriptPubKey",
                       jobj [("nameOp", jobj [("op", jstr "name_update");
                                              ("name_encoding", jstr "utf8");
                                              ("value_encoding", jstr "utf8")]);
                             ("addresses", jarr [jstr "dummy"])])]])]);
          ("inputs", jarr [jobject]); ("outputs", jarr [jobject])] in
  decoded ← assign [Key "tx"; Key "vin"; Index 0; Key "txid"] (jstr (seller +:+ " txid")) decoded;
  let nameScript := [Key "tx"; Key "vout"; Index 0; Key "scriptPubKey"] in
  decoded ← assign (nameScript ++ [Key "nameOp"; Key "name"]) (jstr ("p/" +:+ seller)) decoded;
  decoded ← assign (nameScript ++ [Key "nameOp"; Key "value"]) (jstr move) decoded;
  assign (nameScript ++ [Key "addresses"; Index 0]) (jstr addr) decoded.

(** [outputs[0][addr] = value] on [[{}]]. *)
Definition one_output (addr : string) (value : Json) : outcome Json :=
  assign [Index 0; Key addr] value (jarr [jobject]).

(** The name as the only input. *)
Definition name_inputs (seller : string) (vout : Z) : outcome Json :=
  inputs ← assign [Index 0; Key "vout"] (jint vout) (jarr [jobj [("txid", jstr "dummy")]]);
  assign [Index 0; Key "txid"] (jstr (seller +:+ " txid")) inputs.

(** [FLAGS_democrit_feerate_wo_names = 100] *)
Definition test_flags (f : Flags) : Flags := {|
  FLAGS_democrit_confirmations := @FLAGS_democrit_confirmations f;
  FLAGS_democrit_feerate_wo_names := 100;
  FLAGS_democrit_trade_timeout_ms := @FLAGS_democrit_trade_timeout_ms f |}.

Definition PrepareConstructTransaction (psbt seller : string) (vout : Z) (sd : SellerData)
    (total : Z) (move : string) : M Node MockXayaRpcServer unit :=
  modify (fun s => with_flags (test_flags (flags s)) s);;
  let jsonTotal := ChiAmountToJson total in
  outputs ← lift_outcome (one_output (chi_address_of sd) jsonTotal);
  let options := jobj [("fee_rate", jint 100); ("lockUnspents", jbool true)] in
  modify (fun s => with_mocks
    (expect_CreateFundedPsbt (jarr [], outputs, options) "chi part" (mocks s)) s);;
  decoded ← lift_outcome (chi_part (chi_address_of sd) jsonTotal);
  SetPsbt "chi part" decoded;;
  modify (fun s => with_locked ({[ ("buyer txid", 1) ]} ∪ locked s) s);;
  modify (fun s => with_locked ({[ ("buyer txid", 2) ]} ∪ locked s) s);;
  inputs ← lift_outcome (name_inputs seller vout);
  outputs ← lift_outcome (one_output (name_address_of sd) (jdec 1 2));
  modify (fun s => with_mocks (expect_createpsbt (inputs, outputs) "raw name part" (mocks s)) s);;
  modify (fun s => with_mocks
    (expect_NamePsbt ("raw name part", 0, "p/" +:+ seller, move) "name part" (mocks s)) s);;
  decoded ← lift_outcome (name_part seller (name_address_of sd) move);
  SetPsbt "name part" decoded;;
  SetJoinedPsbt ["chi part"; "name part"] psbt.

(** The loop of [SetSignedPsbt] over the inputs [idxs]. *)
Fixpoint sign_inputs (signTxids : gset string) (idxs : list nat) (decoded : Json)
    (complete : bool) : outcome (Json * bool) :=
  match idxs with
  | [] => Ret (decoded, complete)
  | i :: idxs' =>
      '(_, decoded) ← read [Key "inputs"; Index i] decoded;
      '(txid, decoded) ← at_path [Key "tx"; Key "vin"; Index i; Key "txid"]
        (fun x => t ← json_value (as_string x); Ret (t, x)) decoded;
      '(sgn, decoded) ← at_path [Key "inputs"; Index i] (fun inp =>
        inp ← (if bool_decide (txid ∈ signTxids) then assign [Key "signed"] (jbool true) inp
               else Ret inp);
        b ← is_signed inp;
        Ret (b, inp)) decoded;
      sign_inputs signTxids idxs' decoded (complete && sgn)
  end.

Definition SetSignedPsbt (signedPsbt psbt : string) (signTxids : gset string)
  : M Node MockXayaRpcServer unit :=
  s ← get;
  decoded ← lift_outcome (map_at (psbts s) psbt);
  '(vin, decoded) ← lift_outcome (read [Key "tx"; Key "vin"] decoded);
  '(inputs, decoded) ← lift_outcome (read [Key "inputs"] decoded);
  check (length (jelems vin) =? length (jelems inputs))%nat;;
  '(decoded, complete) ←
    lift_outcome (sign_inputs signTxids (seq 0 (length (jelems vin))) decoded true);
  let result := jset (jset jobject "psbt" (jstr signedPsbt)) "complete" (jbool complete) in
  SetPsbt signedPsbt decoded;;
  modify (fun s => with_mocks (expect_walletprocesspsbt psbt result (mocks s)) s).

Definition GetBlockHash (height : Z) : U256 := SHA256_Hash ("block " +:+ pretty height).

(** *** The RPC methods *)

Definition do_getnewaddress : M Node MockXayaRpcServer string :=
  modify (fun s => with_addrCount (u32 (addrCount s + 1)) s);;
  s ← get;
  mret ("addr " +:+ pretty (addrCount s)).

Definition do_name_show (name : string) : M Node MockXayaRpcServer Json :=
  if String.eqb name "p/invalid" || negb (String.eqb (substring 0 2 name) "p/")
  then throw (JsonRpcException "name not found")
  else
    let suffix := substring 2 (String.length name - 2) name in
    let res := jset jobject "name" (jstr suffix) in
    let res := jset res "txid" (jstr (suffix +:+ " txid")) in
    mret (jset res "vout" (jint 12)).

Definition do_gettxout (txid : string) (vout : Z) : M Node MockXayaRpcServer Json :=
  s ← get;
  if bool_decide ((txid, vout) ∉ utxos s) then mret jnull
  else mret (jset jobject "bestblock" (jstr (to_hex (bestBlock s)))).

(** The reply for the block of height [h]. *)
Definition header_json (hash : U256) (h : Z) : Json :=
  let res := jset jobject "hash" (jstr (to_hex hash)) in
  let res := jset res "height" (jint h) in
  let res := jset res "nextblockhash" (jstr (to_hex (GetBlockHash (h + 1)))) in
  if 0 <? h then jset res "previousblockhash" (jstr (to_hex (GetBlockHash (h - 1)))) else res.

(** The loop over the heights from [h] on. *)
Fixpoint find_header (hash : U256) (h : Z) (n : nat) : M Node MockXayaRpcServer Json :=
  match n with
  | O => throw (JsonRpcException "unknown block hash")
  | S n' =>
      if u256_eqb hash (GetBlockHash h) then mret (header_json hash h)
      else find_header hash (h + 1) n'
  end.

Definition do_getblockheader (hashStr : string) : M Node MockXayaRpcServer Json :=
  match from_hex hashStr with
  | None => throw (JsonRpcException "block hash is not uint256")
  | Some hash => find_header hash 0 1000
  end.

Definition do_decodepsbt (psbt : string) : M Node MockXayaRpcServer Json :=
  s ← get;
  match psbts s !! psbt with
  | None => throw (JsonRpcException ("unknown psbt: " +:+ psbt))
  | Some decoded => mret decoded
  end.

Definition do_walletcreatefundedpsbt (inputs outputs : Json) (lockTime : Z) (options : Json)
  : M Node MockXayaRpcServer Json :=
  check (lockTime =? 0);;
  r ← call_mock m_CreateFundedPsbt "" (inputs, outputs, options);
  mret (jset jobject "psbt" (jstr r)).

Definition do_namepsbt (psbt : string) (vout : Z) (nameOp : Json)
  : M Node MockXayaRpcServer Json :=
  check (is_object nameOp);;
  check (length (jelems nameOp) =? 3)%nat;;
  opVal ← field nameOp "op";
  check (is_string opVal);;
  op ← json (as_string opVal);
  check (String.eqb op "name_update");;
  nameVal ← field nameOp "name";
  check (is_string nameVal);;
  valueVal ← field nameOp "value";
  check (is_string valueVal);;
  name ← json (as_string nameVal);
  value ← json (as_string valueVal);
  r ← call_mock m_NamePsbt "" (psbt, vout, name, value);
  mret (jset jobject "psbt" (jstr r)).

(** The loop over the outputs: the ones before an error stay changed. *)
Fixpoint lock_outputs (unlock : bool) (outputs : list Json) : M Node MockXayaRpcServer bool :=
  match outputs with
  | [] => mret true
  | o :: outputs' =>
      check (is_object o);;
      txidVal ← field o "txid";
      txid ← json (as_string txidVal);
      voutVal ← field o "vout";
      vout ← json (as_uint voutVal);
      let entry := (txid, vout) in
      s ← get;
      (if unlock then
         if bool_decide (entry ∉ locked s) then throw (JsonRpcException "not locked")
         else modify (fun s => with_locked (locked s ∖ {[ entry ]}) s)
       else
         if bool_decide (entry ∈ locked s) then throw (JsonRpcException "already locked")
         else modify (fun s => with_locked ({[ entry ]} ∪ locked s) s));;
      lock_outputs unlock outputs'
  end.

Definition do_lockunspent (unlock : bool) (outputs : Json) : M Node MockXayaRpcServer bool :=
  check (is_array outputs);;
  lock_outputs unlock (jelems outputs).

(** [std::set] iterates in the order of the pairs. *)
Definition entry_le (a b : string * Z) : Prop :=
  str_ltb a.1 b.1 = true \/ a.1 = b.1 /\ a.2 <= b.2.
#[export] Instance entry_le_dec : RelDecision entry_le.
Proof. intros a b. unfold entry_le. apply _. Defined.

Definition entry_json (entry : string * Z) : Json :=
  jset (jset jobject "txid" (jstr entry.1)) "vout" (jint (s32 entry.2)).

Definition do_listlockunspent : M Node MockXayaRpcServer Json :=
  s ← get;
  mret (fold_left (fun res entry => jappend res (entry_json entry))
          (merge_sort entry_le (elements (locked s))) jarray).

(** The inner loop of [combinepsbt]: the inputs [curInputs] that are signed
    replace those of [outputInputs]. *)
Fixpoint combine_inputs (idxs : list nat) (curInputs outputInputs : Json) : outcome Json :=
  match idxs with
  | [] => Ret outputInputs
  | j :: idxs' =>
      inp ← (if is_array curInputs then Ret (jnth curInputs j) else Throw JsonLogicError);
      b ← is_signed inp;
      outputInputs ← (if b : bool then assign [Index j] inp outputInputs else Ret outputInputs);
      combine_inputs idxs' curInputs outputInputs
  end.

(** One iteration of its outer loop. *)
Definition combine_one (known : gmap string Json) (curName : string) (decoded : Json)
  : outcome Json :=
  cur ← map_at known curName;
  '(tx, decoded) ← read [Key "tx"] decoded;
  curTx ← member cur "tx";
  checked (jeqb tx curTx);;
  '(outs, decoded) ← read [Key "outputs"] decoded;
  curOuts ← member cur "outputs";
  checked (jeqb outs curOuts);;
  '(outputInputs, decoded) ← read [Key "inputs"] decoded;
  checked (is_array outputInputs);;
  curInputs ← member cur "inputs";
  checked (is_array curInputs);;
  checked (length (jelems outputInputs) =? length (jelems curInputs))%nat;;
  change [Key "inputs"]
    (combine_inputs (seq 0 (length (jelems outputInputs))) curInputs) decoded.

Fixpoint combine_all (known : gmap string Json) (names : list Json) (decoded : Json)
    (outputName : string) : outcome (Json * string) :=
  match names with
  | [] => Ret (decoded, outputName)
  | v :: names' =>
      curName ← json_value (as_string v);
      let outputName := outputName +:+ " + " +:+ curName in
      decoded ← combine_one known curName decoded;
      combine_all known names' decoded outputName
  end.

Definition do_combinepsbt (inputPsbts : Json) : M Node MockXayaRpcServer string :=
  check (is_array inputPsbts);;
  check (0 <? length (jelems inputPsbts))%nat;;
  s ← get;
  first ← json (as_string (jnth inputPsbts 0));
  decoded ← lift_outcome (map_at (psbts s) first);
  '(decoded, outputName) ←
    lift_outcome (combine_all (psbts s) (tail (jelems inputPsbts)) decoded first);
  SetPsbt outputName decoded;;
  mret outputName.

(** The loop of [finalizepsbt], which stops at the first unsigned input. *)
Fixpoint all_signed (inputs : list Json) : outcome bool :=
  match inputs with
  | [] => Ret true
  | inp :: inputs' =>
      b ← is_signed inp;
      if negb b then Ret false else all_signed inputs'
  end.

Definition do_finalizepsbt (psbt : string) : M Node MockXayaRpcServer Json :=
  s ← get;
  decoded ← lift_outcome (map_at (psbts s) psbt);
  inputs ← field decoded "inputs";
  check (is_array inputs);;
  complete ← lift_outcome (all_signed (jelems inputs));
  let res := jset jobject "complete" (jbool complete) in
  mret (if complete : bool then jset res "hex" (jstr ("rawtx " +:+ psbt))
        else jset res "psbt" (jstr psbt)).

(** The methods as the server offers them. *)
Definition dispatch (c : XayaCall) : M Node MockXayaRpcServer (XayaResp c) :=
  match c with
  | getnewaddress => do_getnewaddress
  | name_show name => do_name_show name
  | gettxout txid n => do_gettxout txid n
  | getblockheader hash => do_getblockheader hash
  | decodepsbt psbt => do_decodepsbt psbt
  | walletcreatefundedpsbt inputs outputs locktime options =>
      do_walletcreatefundedpsbt inputs outputs locktime options
  | createpsbt inputs outputs => call_mock m_createpsbt "" (inputs, outputs)
  | namepsbt psbt vout nameOp => do_namepsbt psbt vout nameOp
  | joinpsbts psbts => call_mock m_joinpsbts "" psbts
  | walletprocesspsbt psbt => call_mock m_walletprocesspsbt jnull psbt
  | lockunspent unlock outputs => do_lockunspent unlock outputs
  | combinepsbt psbts => do_combinepsbt psbts
  | finalizepsbt psbt => do_finalizepsbt psbt
  | sendrawtransaction hex => call_mock m_sendrawtransaction "" hex
  end.

End server.

(* ------------------------------------------------------------------ *)
(** ** The g/dem GSP *)

Module MockDemGsp.

Record MockDemGsp `{JsonLib} := mkMockDemGsp {
  currentHeight : Z;
  btxids : gmap string Json
}.
Arguments mkMockDemGsp {_} _ _.
Arguments currentHeight {_} _.
Arguments btxids {_} _.

Section gsp.
Context `{JsonLib}.
Implicit Types g : MockDemGsp.

Definition new_MockDemGsp : MockDemGsp := mkMockDemGsp 0 ∅.

Definition SetCurrentHeight (h : Z) g : MockDemGsp := mkMockDemGsp h (btxids g).

Definition SetPending (btxid : string) g : MockDemGsp :=
  mkMockDemGsp (currentHeight g) (<[btxid := jobj [("state", jstr "pending")]]> (btxids g)).

Definition SetConfirmed (btxid : string) (h : Z) g : MockDemGsp :=
  let data := jset (jobj [("state", jstr "confirmed")]) "height" (jint (s32 h)) in
  mkMockDemGsp (currentHeight g) (<[btxid := data]> (btxids g)).

Definition checktrade (btxid : string) g : Json :=
  let res := jset jobject "height" (jint (s32 (currentHeight g))) in
  match btxids g !! btxid with
  | Some data => jset res "data" data
  | None => jset res "data" (jobj [("state", jstr "unknown")])
  end.

End gsp.

End MockDemGsp.

(* ------------------------------------------------------------------ *)
(** ** The environment of a test *)

(** [GetPortForMockServer]: the counter of calls is an [unsigned] static. *)
Definition GetPortForMockServer (cnt : Z) : Z * Z :=
  let cnt := u32 (cnt + 1) in
  (2000 + cnt mod 1000, cnt).

Definition GetEndpoint (port : Z) : string := "http://localhost:" +:+ pretty port.

Record TestEnvironment `{JsonLib} `{Uint256Lib} `{GMock} := mkTestEnvironment {
  assets : TestAssets.TestAssets;
  xayaPort : Z;
  gspPort : Z;
  xayaRpcServer : MockXayaRpcServer;
  gspRpcServer : MockDemGsp.MockDemGsp
}.
Arguments mkTestEnvironment {_ _ _}.
Arguments assets {_ _ _} _.
Arguments xayaPort {_ _ _} _.
Arguments gspPort {_ _ _} _.
Arguments xayaRpcServer {_ _ _} _.
Arguments gspRpcServer {_ _ _} _.

Section environment.
Context `{JsonLib} `{!JsonDecimals} `{!Uint256Lib} `{!HashLib} `{!AmountLib} `{!GMock}.

(** The constructor, with the counter of ports; [TestAssets] leaves its block
    hash [h] uninitialised. *)
Definition new_TestEnvironment (f : Flags) (h : U256) (cnt : Z) : TestEnvironment * Z :=
  let '(xp, cnt) := GetPortForMockServer cnt in
  let '(gp, cnt) := GetPortForMockServer cnt in
  (mkTestEnvironment (TestAssets.mkTestAssets ∅ h) xp gp
     (new_MockXayaRpcServer f) MockDemGsp.new_MockDemGsp, cnt).

Definition GetXayaEndpoint (env : TestEnvironment) : string := GetEndpoint (xayaPort env).
Definition GetGspEndpoint (env : TestEnvironment) : string := GetEndpoint (gspPort env).

Definition with_xayaRpcServer (s : MockXayaRpcServer) (env : TestEnvironment)
  : TestEnvironment :=
  mkTestEnvironment (assets env) (xayaPort env) (gspPort env) s (gspRpcServer env).

(** A JSON-RPC client of the environment: an exception of the server's method
    becomes an error reply; if the method ends the process, there is none,
    and the connection is lost. *)
#[export] Instance env_xaya : XayaRpc TestEnvironment := fun c env =>
  match dispatch (Node := unit) c (mkWorld (xayaRpcServer env) tt []) with
  | (Ret r, w) => (inr r, with_xayaRpcServer (wst w) env)
  | (Throw (JsonRpcException msg), w) => (inl msg, with_xayaRpcServer (wst w) env)
  | (_, w) => (inl "connection lost", with_xayaRpcServer (wst w) env)
  end.

#[export] Instance env_gsp : DemGspRpc TestEnvironment := fun btxid env =>
  (inr (MockDemGsp.checktrade btxid (gspRpcServer env)), env).

#[export] Instance env_assets : TestAssets.HasAssets TestEnvironment := assets.
#[export] Existing Instance TestAssets.spec.

End environment.
