(* ===== verification/MockTheorems.v ===== *)
(** * What the tests' servers promise

    The theorems about [MockXaya]: the buyer's code constructs a transaction
    against it that the seller's code accepts, the buyer's check decides by
    what the test has set up, signatures can be collected and finalised, and
    the g/dem GSP of the tests answers as the real one. *)

From Stdlib Require Import ZArith Lia String.
From stdpp Require Import base gmap strings list pretty sorting.
From S2P Require Import Prelude Json Proto Effects Mock Checker Trades Gsp TestUtils MockXaya.

(* ------------------------------------------------------------------ *)
(** ** What the theorems rely on *)

(** jsoncpp on the values used here: documents hold no NaN, the only value
    that differs from itself; an object is a map, so the order of insertions
    does not matter, and its size counts the members.  The literal 0.01 is the
    amount of a name output. *)
Class TestJsonLaws `{JsonLib} `{!JsonDecimals} `{!AmountLib} : Prop := {
  jeqb_refl v : jeqb v v = true;
  is_null_jstr x : is_null (jstr x) = false;
  jset_jset v k x y : is_object v = true -> jset (jset v k x) k y = jset v k y;
  jset_comm v k k' x y : is_object v = true -> k <> k' ->
    jset (jset v k x) k' y = jset (jset v k' y) k x;
  jset_same v k x : is_object v = true -> is_member v k = true -> jget v k = Some x ->
    jset v k x = v;
  size_jobject : jelems jobject = [];
  size_jset v k x : is_object v = true -> is_member v k = false ->
    length (jelems (jset v k x)) = S (length (jelems v));
  name_value_json : ChiAmountToJson NAME_VALUE = jdec 1 2;
  change_amount : is_Some (ChiAmountFromJson (jdec 15 1))
}.

(** A decoded PSBT by its four arrays. *)
Definition psbt_json `{JsonLib} (vin vout ins outs : Json) : Json :=
  jobj [("tx", jobj [("vin", vin); ("vout", vout)]); ("inputs", ins); ("outputs", outs)].

#[global] Arguments psbt_json : simpl never.
#[global] Arguments jobj : simpl never.
#[global] Arguments jarr : simpl never.

(** Literals as sequences of insertions. *)
Ltac jlit := unfold psbt_json, jobj; cbn [fold_left fst snd].

Section json_lemmas.
Context `{JsonLib} `{!JsonLaws} `{!JsonDecimals} `{!AmountLib} `{!TestJsonLaws}.

Lemma jarr_snoc l x : jarr (l ++ [x]) = jappend (jarr l) x.
Proof. unfold jarr. by rewrite fold_left_app. Qed.

Lemma is_array_jarr l : is_array (jarr l) = true.
Proof.
  induction l as [|x l IH] using rev_ind; [apply is_array_jarray|].
  rewrite jarr_snoc. by apply is_array_jappend.
Qed.

Lemma jelems_jarr l : jelems (jarr l) = l.
Proof.
  induction l as [|x l IH] using rev_ind; [apply jelems_jarray|].
  rewrite jarr_snoc, jelems_jappend by apply is_array_jarr. by rewrite IH.
Qed.

Lemma jset_nth_jarr l i x :
  (i < length l)%nat -> jset_nth (jarr l) i x = jarr (<[i := x]> l).
Proof. intros Hi. unfold jset_nth. by rewrite jelems_jarr, decide_True. Qed.

Lemma extend_jarr l l' : ExtendJson (jarr l) (jarr l') = Ret (jarr (l ++ l')).
Proof.
  unfold ExtendJson. rewrite !is_array_jarr, jelems_jarr. cbn. f_equal.
  unfold jarr. by rewrite fold_left_app.
Qed.

(** The end of a path, and one step along it. *)
Lemma at_nil {A} (f : Json -> outcome (A * Json)) v : at_path [] f v = f v.
Proof. done. Qed.

Lemma at_key {A} k p (f : Json -> outcome (A * Json)) v x :
  is_object v = true -> jget v k = Some x ->
  at_path (Key k :: p) f v = ('(a, y) ← at_path p f x; Ret (a, jset v k y)).
Proof. intros Ho Hx. cbn. unfold member. by rewrite Ho, Hx. Qed.

Lemma at_index {A} i p (f : Json -> outcome (A * Json)) l x :
  l !! i = Some x ->
  at_path (Index i :: p) f (jarr l) = ('(a, y) ← at_path p f x; Ret (a, jarr (<[i := y]> l))).
Proof.
  intros Hx. cbn. rewrite is_array_jarr. cbn. unfold jnth. rewrite jelems_jarr.
  rewrite (nth_lookup_Some l i jnull x Hx).
  destruct (at_path p f x) as [[a y]|e|]; cbn; [|done..].
  by rewrite jset_nth_jarr by by eapply lookup_lt_Some.
Qed.


#[global] Arguments at_path : simpl never.

Lemma is_object_jobj l : is_object (jobj l) = true.
Proof.
  unfold jobj. assert (Hl : is_object jobject = true) by apply is_object_jobject.
  revert Hl. generalize jobject. induction l as [|[k x] l IH]; intros v Hv; [done|].
  cbn. by apply IH, is_object_jset.
Qed.

(** One step along a path into a literal. *)
Ltac jkey := erewrite at_key; [|json_is_object|by json_obj].

Lemma jset_under v k k' x y z : is_object v = true -> k <> k' ->
  jset (jset (jset v k x) k' y) k z = jset (jset v k z) k' y.
Proof.
  intros Ho Hne. rewrite (jset_comm (jset v k x)) by (try apply is_object_jset; done).
  by rewrite jset_jset.
Qed.

Section paths.
Context {A : Type} (p : list jstep) (f : Json -> outcome (A * Json)) (vin vout ins outs : Json).

Lemma at_vin :
  at_path (Key "tx" :: Key "vin" :: p) f (psbt_json vin vout ins outs) =
  ('(a, v) ← at_path p f vin; Ret (a, psbt_json v vout ins outs)).
Proof.
  jlit. jkey. jkey. destruct (at_path p f vin) as [[a y]|e|]; cbn; [|done..]. do 2 f_equal.
  rewrite jset_under by (json_is_object; done).
  rewrite (jset_comm _ "outputs" "tx") by (json_is_object; done).
  rewrite (jset_under _ "tx" "inputs") by (json_is_object; done). done.
Qed.

Lemma at_vout :
  at_path (Key "tx" :: Key "vout" :: p) f (psbt_json vin vout ins outs) =
  ('(a, v) ← at_path p f vout; Ret (a, psbt_json vin v ins outs)).
Proof.
  jlit. jkey. jkey. destruct (at_path p f vout) as [[a y]|e|]; cbn; [|done..]. do 2 f_equal.
  rewrite jset_jset by json_is_object.
  rewrite (jset_comm _ "outputs" "tx") by (json_is_object; done).
  rewrite (jset_under _ "tx" "inputs") by (json_is_object; done). done.
Qed.

Lemma at_inputs :
  at_path (Key "inputs" :: p) f (psbt_json vin vout ins outs) =
  ('(a, v) ← at_path p f ins; Ret (a, psbt_json vin vout v outs)).
Proof.
  jlit. jkey. destruct (at_path p f ins) as [[a y]|e|]; cbn; [|done..]. do 2 f_equal.
  by rewrite jset_under by (json_is_object; done).
Qed.

Lemma at_outputs :
  at_path (Key "outputs" :: p) f (psbt_json vin vout ins outs) =
  ('(a, v) ← at_path p f outs; Ret (a, psbt_json vin vout ins v)).
Proof.
  jlit. jkey. destruct (at_path p f outs) as [[a y]|e|]; cbn; [|done..]. do 2 f_equal.
  by rewrite jset_jset by json_is_object.
Qed.

End paths.

(** The members of a decoded PSBT. *)
Lemma psbt_json_object vin vout ins outs : is_object (psbt_json vin vout ins outs) = true.
Proof. apply is_object_jobj. Qed.

Lemma psbt_json_tx vin vout ins outs :
  jget (psbt_json vin vout ins outs) "tx" = Some (jobj [("vin", vin); ("vout", vout)]).
Proof. jlit. by json_obj. Qed.

Lemma psbt_json_inputs vin vout ins outs :
  jget (psbt_json vin vout ins outs) "inputs" = Some ins.
Proof. jlit. by json_obj. Qed.

Lemma psbt_json_outputs vin vout ins outs :
  jget (psbt_json vin vout ins outs) "outputs" = Some outs.
Proof. jlit. by json_obj. Qed.

Lemma tx_vin vin vout : jget (jobj [("vin", vin); ("vout", vout)]) "vin" = Some vin.
Proof. jlit. by json_obj. Qed.

Lemma tx_vout vin vout : jget (jobj [("vin", vin); ("vout", vout)]) "vout" = Some vout.
Proof. jlit. by json_obj. Qed.

(** Joining: the arrays of the part are appended. *)
Lemma join_part_ok known part vin vout ins outs vin' vout' ins' outs' :
  known !! part = Some (psbt_json (jarr vin') (jarr vout') (jarr ins') (jarr outs')) ->
  join_part known part (psbt_json (jarr vin) (jarr vout) (jarr ins) (jarr outs)) =
  Ret (psbt_json (jarr (vin ++ vin')) (jarr (vout ++ vout')) (jarr (ins ++ ins'))
         (jarr (outs ++ outs'))).
Proof.
  intros Hp. unfold join_part, map_at, member, change. rewrite Hp. cbn.
  rewrite psbt_json_tx. cbn. rewrite tx_vin. cbn. rewrite at_vin, at_nil, extend_jarr. cbn.
  rewrite tx_vout. cbn. rewrite at_vout, at_nil, extend_jarr. cbn.
  rewrite psbt_json_inputs. cbn. rewrite at_inputs, at_nil, extend_jarr. cbn.
  rewrite psbt_json_outputs. cbn. by rewrite at_outputs, at_nil, extend_jarr.
Qed.

(** *** The parts of the transaction *)

(** What the mock's transaction consists of. *)
Definition buyer_inputs : list Json :=
  [jobj [("txid", jstr "buyer txid"); ("vout", jint 1)];
   jobj [("txid", jstr "buyer txid"); ("vout", jint 2)]].
Definition coin_script (addr : string) : Json := jobj [("addresses", jarr [jstr addr])].
Definition coin_output (addr : string) (value : Json) : Json :=
  jobj [("scriptPubKey", coin_script addr); ("value", value)].
Definition change_output : Json :=
  jobj [("value", jdec 15 1); ("scriptPubKey", coin_script "change addr")].
Definition seller_input (seller : string) : Json :=
  jobj [("txid", jstr (seller +:+ " txid")); ("vout", jint 12)].
Definition name_op (seller move : string) : Json :=
  jobj [("op", jstr "name_update"); ("name_encoding", jstr "utf8");
        ("value_encoding", jstr "utf8"); ("name", jstr ("p/" +:+ seller)); ("value", jstr move)].
Definition name_script (seller addr move : string) : Json :=
  jobj [("nameOp", name_op seller move); ("addresses", jarr [jstr addr])].
Definition name_output (seller addr move : string) : Json :=
  jobj [("value", jdec 1 2); ("scriptPubKey", name_script seller addr move)].

#[local] Arguments buyer_inputs : simpl never.
#[local] Arguments change_output : simpl never.

(** Assignments. *)
Lemma assign_eq p y v : assign p y v = ('(_, v') ← at_path p (fun _ => Ret (tt, y)) v; Ret v').
Proof. done. Qed.

Lemma at_key_assign k v y :
  is_object v = true ->
  at_path [Key k] (fun _ => Ret (tt, y)) v = Ret (tt, jset v k y).
Proof. intros Ho. destruct (jget_object v k Ho) as [x Hx]. by erewrite at_key. Qed.

Lemma at_script {A} p (f : Json -> outcome (A * Json)) v s :
  at_path (Key "scriptPubKey" :: p) f (jobj [("value", v); ("scriptPubKey", s)]) =
  ('(a, s') ← at_path p f s; Ret (a, jobj [("value", v); ("scriptPubKey", s')])).
Proof.
  jlit. jkey. destruct (at_path p f s) as [[a y]|e|]; cbn; [|done..]. do 2 f_equal. jlit.
  by rewrite jset_jset by json_is_object.
Qed.

Lemma at_name_op {A} p (f : Json -> outcome (A * Json)) op l :
  at_path (Key "nameOp" :: p) f (jobj [("nameOp", op); ("addresses", l)]) =
  ('(a, op') ← at_path p f op; Ret (a, jobj [("nameOp", op'); ("addresses", l)])).
Proof.
  jlit. jkey. destruct (at_path p f op) as [[a y]|e|]; cbn; [|done..]. do 2 f_equal. jlit.
  by rewrite jset_under by (json_is_object; done).
Qed.

Lemma at_addresses {A} p (f : Json -> outcome (A * Json)) op l :
  at_path (Key "addresses" :: p) f (jobj [("nameOp", op); ("addresses", l)]) =
  ('(a, l') ← at_path p f l; Ret (a, jobj [("nameOp", op); ("addresses", l')])).
Proof.
  jlit. jkey. destruct (at_path p f l) as [[a y]|e|]; cbn; [|done..]. do 2 f_equal. jlit.
  by rewrite jset_jset by json_is_object.
Qed.

Lemma chi_part_ok addr total :
  chi_part addr total =
  Ret (psbt_json (jarr buyer_inputs) (jarr [coin_output addr total; change_output])
         (jarr [jobject; jobject]) (jarr [jobject; jobject])).
Proof.
  unfold chi_part. rewrite assign_eq. cbn [app]. fold buyer_inputs.
  set (o := jobj [("scriptPubKey", _)]).
  change (jobj _) with (psbt_json (jarr buyer_inputs) (jarr [o; change_output])
    (jarr [jobject; jobject]) (jarr [jobject; jobject])).
  rewrite at_vout. rewrite (at_index 0 _ _ _ o) by done.
  rewrite at_key_assign by apply is_object_jobj. cbn.
  rewrite assign_eq, at_vout. erewrite (at_index 0) by done. unfold o. jlit.
  jkey. jkey. erewrite (at_index 0) by done. rewrite at_nil. cbn.
  unfold coin_output, coin_script. jlit. do 3 f_equal.
  by rewrite jset_jset, jset_under by (json_is_object; done).
Qed.

Lemma name_part_ok seller addr move :
  name_part seller addr move =
  Ret (psbt_json (jarr [seller_input seller]) (jarr [name_output seller addr move])
         (jarr [jobject]) (jarr [jobject])).
Proof.
  unfold name_part. rewrite assign_eq. cbn [app].
  set (i := jobj [("txid", _); _]). set (o := jobj [("value", _); _]).
  change (jobj [("tx", _); _; _]) with (psbt_json (jarr [i]) (jarr [o]) (jarr [jobject]) (jarr [jobject])).
  rewrite at_vin, (at_index 0 _ _ _ i) by done.
  rewrite at_key_assign by apply is_object_jobj. cbn.
  rewrite assign_eq, at_vout, (at_index 0 _ _ _ o) by done. unfold o.
  rewrite at_script, at_name_op, at_key_assign by apply is_object_jobj. cbn.
  rewrite assign_eq, at_vout. erewrite (at_index 0) by done. rewrite at_script, at_name_op.
  rewrite at_key_assign by (apply is_object_jset, is_object_jobj). cbn.
  rewrite assign_eq, at_vout. erewrite (at_index 0) by done. rewrite at_script, at_addresses.
  erewrite (at_index 0) by done. rewrite at_nil. cbn. unfold i, seller_input. do 4 f_equal. jlit.
  by rewrite jset_under by (json_is_object; done).
Qed.

Lemma one_output_ok addr v : one_output addr v = Ret (jarr [jset jobject addr v]).
Proof.
  unfold one_output. rewrite assign_eq. erewrite (at_index 0) by done.
  by rewrite at_key_assign by apply is_object_jobject.
Qed.

(** The outpoint given for the name, as the input of [createpsbt]. *)
Lemma name_inputs_ok seller vout :
  name_inputs seller vout =
  Ret (jarr [jset (jset jobject "txid" (jstr (seller +:+ " txid"))) "vout" (jint vout)]).
Proof.
  unfold name_inputs. rewrite assign_eq. erewrite (at_index 0) by done.
  rewrite at_key_assign by apply is_object_jobj.
  cbn. rewrite assign_eq. erewrite (at_index 0) by done.
  rewrite at_key_assign by apply is_object_jset, is_object_jobj. cbn. do 3 f_equal. jlit.
  by rewrite jset_under by (json_is_object; done).
Qed.

End json_lemmas.

(* ------------------------------------------------------------------ *)
(** ** Steps whose outcome is known *)

Section steps.
Context `{JsonLib} `{!JsonLaws}.

(** A known member, and the string in a value that was made from one. *)
Lemma wp_member {Node S} v k x (Q : outcome Json -> World Node S -> Prop) w :
  jget v k = Some x -> Q (Ret x) w -> wp (field v k) Q w.
Proof. intros Hx HQ. unfold field. rewrite Hx. exact HQ. Qed.

Lemma wp_jstr {Node S} x (Q : outcome string -> World Node S -> Prop) w :
  Q (Ret x) w -> wp (json (as_string (jstr x))) Q w.
Proof. intros HQ. rewrite as_string_jstr. exact HQ. Qed.

Lemma wp_checked {Node S} b (Q : outcome unit -> World Node S -> Prop) w :
  b = true -> Q (Ret tt) w -> wp (check b) Q w.
Proof. by intros ->. Qed.

End steps.

Ltac known :=
  apply wp_bind;
  first [ apply wp_checked;
          [first [done | apply is_string_jstr | by json_obj | solve [json_is_object]
                 | apply is_array_jarr | apply String.eqb_refl]|]
        | eapply wp_member; [by json_obj|] | apply wp_jstr ];
  cbn [then_post].

(* ------------------------------------------------------------------ *)
(** ** The mock lets a trade be constructed *)

Section construct.
Context `{JsonLib} `{!JsonLaws} `{!JsonDecimals} `{!Uint256Lib} `{!HashLib} `{!AmountLib}
  `{!TestJsonLaws} `{!GMock} `{!GMockLaws}.
Implicit Types (s : MockXayaRpcServer) (env : TestEnvironment).

(** The transaction that [PrepareConstructTransaction] announces. *)
Definition mock_transaction (seller : string) (sd : SellerData) (total : Z) (move : string) : Json :=
  psbt_json (jarr (buyer_inputs ++ [seller_input seller]))
    (jarr [coin_output (chi_address_of sd) (ChiAmountToJson total); change_output;
           name_output seller (name_address_of sd) move])
    (jarr [jobject; jobject; jobject]) (jarr [jobject; jobject; jobject]).

Definition prepared_mocks (psbt seller : string) (vout : Z) (sd : SellerData) (total : Z)
    (move : string) (m : Mocks) : Mocks :=
  expect_joinpsbts (jarr [jstr "chi part"; jstr "name part"]) psbt
    (expect_NamePsbt ("raw name part", 0, "p/" +:+ seller, move) "name part"
      (expect_createpsbt
         (jarr [jset (jset jobject "txid" (jstr (seller +:+ " txid"))) "vout" (jint vout)],
          jarr [jset jobject (name_address_of sd) (jdec 1 2)]) "raw name part"
        (expect_CreateFundedPsbt
          (jarr [], jarr [jset jobject (chi_address_of sd) (ChiAmountToJson total)],
           jobj [("fee_rate", jint 100); ("lockUnspents", jbool true)]) "chi part" m))).

Definition prepared (psbt seller : string) (vout : Z) (sd : SellerData) (total : Z)
    (move : string) (s : MockXayaRpcServer) : MockXayaRpcServer :=
  mkMockXaya (addrCount s) (utxos s)
    (<[psbt := mock_transaction seller sd total move]>
      (<["name part" := psbt_json (jarr [seller_input seller])
          (jarr [name_output seller (name_address_of sd) move]) (jarr [jobject]) (jarr [jobject])]>
        (<["chi part" := psbt_json (jarr buyer_inputs)
            (jarr [coin_output (chi_address_of sd) (ChiAmountToJson total); change_output])
            (jarr [jobject; jobject]) (jarr [jobject; jobject])]> (psbts s))))
    ({[ ("buyer txid", 2) ]} ∪ ({[ ("buyer txid", 1) ]} ∪ locked s))
    (bestBlock s) (prepared_mocks psbt seller vout sd total move (mocks s))
    (test_flags (flags s)) (failures s).

(** A PSBT of the mock by its four arrays. *)
Record Arrays := mkArrays { a_vin : list Json; a_vout : list Json; a_ins : list Json; a_outs : list Json }.
Definition arrays_json (a : Arrays) : Json :=
  psbt_json (jarr (a_vin a)) (jarr (a_vout a)) (jarr (a_ins a)) (jarr (a_outs a)).
Definition append (a b : Arrays) : Arrays :=
  mkArrays (a_vin a ++ a_vin b) (a_vout a ++ a_vout b) (a_ins a ++ a_ins b) (a_outs a ++ a_outs b).

Lemma join_parts_ok known parts l arr acc :
  Forall2 (fun q a => known !! q = Some (arrays_json a)) parts l ->
  join_parts known parts (jarr arr) (arrays_json acc) =
  Ret (jarr (arr ++ (jstr <$> parts)), arrays_json (fold_left append l acc)).
Proof.
  intros Hl. revert arr acc. induction Hl as [|q a parts l Hq Hl IH]; intros arr acc; cbn [join_parts].
  - by rewrite app_nil_r.
  - destruct a as [vin vout ins outs], acc as [vin0 vout0 ins0 outs0].
    unfold arrays_json at 1. cbn [a_vin a_vout a_ins a_outs].
    rewrite (join_part_ok _ _ _ _ _ _ vin vout ins outs) by done. cbn [mbind outcome_bind].
    rewrite <-jarr_snoc.
    refine (eq_trans (IH _ (append (mkArrays vin0 vout0 ins0 outs0) (mkArrays vin vout ins outs))) _).
    by rewrite <-app_assoc.
Qed.

Lemma wp_SetJoinedPsbt {Node} parts combined l (w : World Node MockXayaRpcServer)
    (Q : outcome unit -> World Node MockXayaRpcServer -> Prop) :
  Forall2 (fun q a => psbts (wst w) !! q = Some (arrays_json a)) parts l ->
  (let s := wst w in
   Q (Ret tt) (mkWorld (with_mocks (expect_joinpsbts (jarr (jstr <$> parts)) combined (mocks s))
       (with_psbts (<[combined := arrays_json (fold_left append l (mkArrays [] [] [] []))]> (psbts s)) s))
     (wnode w) (wtrace w))) ->
  wp (SetJoinedPsbt parts combined) Q w.
Proof.
  intros Hl HQ. unfold SetJoinedPsbt, SetPsbt. wp_step. wp_step. cbv zeta.
  assert (Hj := join_parts_ok _ parts l [] (mkArrays [] [] [] []) Hl).
  unfold arrays_json at 1, psbt_json at 1 in Hj. cbn [a_vin a_vout a_ins a_outs] in Hj.
  change (jarr []) with jarray in Hj at 1. rewrite Hj.
  repeat (wp_step; cbv zeta). exact HQ.
Qed.

(** The name input of the announced transaction is output 12, whatever [vout]
    was asked for. *)
Lemma announced_name_input psbt seller vout sd total move s :
  exists vin, psbts (prepared psbt seller vout sd total move s) !! psbt =
      Some (mock_transaction seller sd total move) /\
    tx_array (mock_transaction seller sd total move) "vin" vin /\
    vin !! 2%nat = Some (jobj [("txid", jstr (seller +:+ " txid")); ("vout", jint 12)]).
Proof.
  exists (buyer_inputs ++ [seller_input seller]). split; [apply lookup_insert_eq|].
  split; [|reflexivity]. eexists _, _. split; [apply psbt_json_tx|]. split; [apply is_object_jobj|].
  split; [apply tx_vin|]. split; [apply is_array_jarr|apply jelems_jarr].
Qed.

Lemma Prepare_ok {Node} psbt seller vout sd total move (w : World Node MockXayaRpcServer) :
  PrepareConstructTransaction psbt seller vout sd total move w =
  (Ret tt, mkWorld (prepared psbt seller vout sd total move (wst w)) (wnode w) (wtrace w)).
Proof.
  destruct w as [[ac ut ps lk bb m f fl] n t].
  apply wp_eq. unfold PrepareConstructTransaction, SetPsbt. cbv zeta.
  rewrite !one_output_ok, chi_part_ok, name_inputs_ok, name_part_ok.
  repeat server_step.
  apply (wp_SetJoinedPsbt _ _
    [mkArrays buyer_inputs [coin_output (chi_address_of sd) (ChiAmountToJson total); change_output]
       [jobject; jobject] [jobject; jobject];
     mkArrays [seller_input seller] [name_output seller (name_address_of sd) move] [jobject] [jobject]]).
  - cbn [wst psbts].
    constructor; [by rewrite lookup_insert_ne, lookup_insert_eq|].
    constructor; [by rewrite lookup_insert_eq|constructor].
  - reflexivity.
Qed.

(** *** The replies *)

Lemma env_reply c env r s' t' :
  dispatch c (mkWorld (xayaRpcServer env) tt []) = (Ret r, mkWorld s' tt t') ->
  xaya_rpc c env = (inr r, with_xayaRpcServer s' env).
Proof. intros Hd. unfold xaya_rpc, env_xaya. by rewrite Hd. Qed.

Lemma with_same_server env : with_xayaRpcServer (xayaRpcServer env) env = env.
Proof. by destruct env. Qed.

(** A run that ends with the value [a] in the state [st] and environment [n]. *)
Lemma wp_ex {Node S A} (m : M Node S A) (a : A) st n w :
  wp m (fun o w' => exists tr, o = Ret a /\ w' = mkWorld st n tr) w ->
  exists tr, m w = (Ret a, mkWorld st n tr).
Proof. unfold wp. destruct (m w) as [o w']. intros (tr & -> & ->). by exists tr. Qed.

(** A call that leaves the server as it is. *)
Lemma env_reads c env r :
  wp (dispatch c) (fun o w => o = Ret r /\ wst w = xayaRpcServer env)
    (mkWorld (xayaRpcServer env) tt []) ->
  xaya_rpc c env = (inr r, env).
Proof.
  unfold wp. destruct (dispatch c _) as [o [s n t]] eqn:Hd. cbn. intros [-> ->]. destruct n.
  rewrite (env_reply _ _ _ _ _ Hd). by rewrite with_same_server.
Qed.

Lemma wp_call_mock {Node A R} `{!ArgEq A} (m : Mocks -> Mocked A R) d a r
    (Q : outcome R -> World Node MockXayaRpcServer -> Prop) w :
  expected arg_eqb (m (mocks (wst w))) a = Some r -> Q (Ret r) w -> wp (call_mock m d a) Q w.
Proof. intros He HQ. unfold call_mock. wp_step. wp_step. rewrite He. by wp_step. Qed.

Lemma expected_newest {A R} `{!ArgEq A} (a : A) (r : R) m :
  arg_eqb a a = true -> expected arg_eqb (will_return a r m) a = Some r.
Proof. intros Ha. by rewrite expected_return, Ha. Qed.

Section ready.
Context (psbt seller : string) (vout : Z) (sd : SellerData) (total : Z) (move : string)
  (m : Mocks) (env : TestEnvironment).
Hypothesis ready : mocks (xayaRpcServer env) = prepared_mocks psbt seller vout sd total move m.

Lemma expected_refl_json (v : Json) : arg_eqb v v = true.
Proof. apply jeqb_refl. Qed.

Ltac expected_call :=
  cbn [wst]; rewrite ready;
  cbn [prepared_mocks expect_joinpsbts expect_NamePsbt expect_createpsbt expect_CreateFundedPsbt
       m_CreateFundedPsbt m_createpsbt m_NamePsbt m_joinpsbts];
  apply expected_newest; unfold arg_eqb, arg_pair; cbn [fst snd];
  unfold arg_eqb, arg_pair, arg_json, arg_string, arg_int; cbn [fst snd];
  rewrite ?jeqb_refl, ?String.eqb_refl, ?Z.eqb_refl; reflexivity.

Lemma funded_reply :
  xaya_rpc (walletcreatefundedpsbt jarray (jarr [jset jobject (chi_address_of sd) (ChiAmountToJson total)])
              0 (jobj [("fee_rate", jint 100); ("lockUnspents", jbool true)])) env =
  (inr (jset jobject "psbt" (jstr "chi part")), env).
Proof.
  apply env_reads. unfold dispatch, do_walletcreatefundedpsbt. wp_step. wp_step; [|done].
  apply wp_bind. eapply wp_call_mock; [expected_call|]. cbn [then_post]. by wp_step.
Qed.

Lemma created_reply :
  xaya_rpc (createpsbt
      (jarr [jset (jset jobject "txid" (jstr (seller +:+ " txid"))) "vout" (jint vout)])
      (jarr [jset jobject (name_address_of sd) (jdec 1 2)])) env =
  (inr "raw name part", env).
Proof. apply env_reads. unfold dispatch. eapply wp_call_mock; [expected_call|done]. Qed.

Lemma joined_reply :
  xaya_rpc (joinpsbts (jarr [jstr "chi part"; jstr "name part"])) env = (inr psbt, env).
Proof. apply env_reads. unfold dispatch. eapply wp_call_mock; [expected_call|done]. Qed.

Lemma named_reply :
  xaya_rpc (namepsbt "raw name part" 0
      (jset (jset (jset jobject "op" (jstr "name_update")) "name" (jstr ("p/" +:+ seller)))
         "value" (jstr move))) env =
  (inr (jset jobject "psbt" (jstr "name part")), env).
Proof.
  apply env_reads. unfold dispatch, do_namepsbt. set (op := jset _ "value" _).
  assert (Hn : length (jelems op) = 3%nat).
  { unfold op. rewrite !size_jset, size_jobject; [done|..]; try json_is_object; by json_obj. }
  apply wp_bind, wp_checked; [unfold op; json_is_object|]. cbn [then_post].
  apply wp_bind, wp_checked; [by rewrite Hn|]. cbn [then_post]. unfold op. clear Hn op.
  do 10 known. apply wp_bind. eapply wp_call_mock; [expected_call|]. cbn [then_post]. by wp_step.
Qed.

End ready.

(** [decodepsbt] of a known PSBT. *)
Lemma decoded_reply q (d : Json) env :
  psbts (xayaRpcServer env) !! q = Some d -> xaya_rpc (decodepsbt q) env = (inr d, env).
Proof.
  intros Hd. apply env_reads. unfold dispatch, do_decodepsbt. wp_step. wp_step. cbn [wst].
  rewrite Hd. by wp_step.
Qed.

(** The environment after [PrepareConstructTransaction]. *)
Definition prepare (psbt seller : string) (vout : Z) (sd : SellerData) (total : Z) (move : string)
    (env : TestEnvironment) : TestEnvironment :=
  with_xayaRpcServer (prepared psbt seller vout sd total move (xayaRpcServer env)) env.

Lemma wp_mock_ConstructTransaction {S} psbt vout account pb tc nameIn move env (w : World _ S)
    (Q : outcome string -> World TestEnvironment S -> Prop) :
  let sd := seller_data_of pb in
  let env' := prepare psbt (counterparty_of pb) vout sd (tc_price tc * tc_units tc) move env in
  GetOrderType account pb = BID ->
  has (sd_chi_address sd) = true -> has (sd_name_address sd) = true ->
  is_s64 (tc_price tc) -> is_s64 (tc_units tc) -> 0 < tc_units tc ->
  is_s64 (tc_price tc * tc_units tc) -> GetNameUpdateValue (Node := TestEnvironment) tc = Ret move ->
  hash_of nameIn = counterparty_of pb +:+ " txid" -> s32 (n_of nameIn) = vout ->
  wnode w = env' ->
  (forall tr, Q (Ret psbt) (mkWorld (wst w) env' tr)) ->
  wp (ConstructTransaction (H2 := flags (xayaRpcServer env')) account pb tc nameIn) Q w.
Proof.
  cbv zeta. set (sd := seller_data_of pb). set (total := tc_price tc * tc_units tc).
  set (env' := prepare psbt _ vout sd total move env).
  intros Ht Hc Hn Hp Hu Hpos Htot Hmove Hhash Hvout Hw HQ. destruct w as [st n tr].
  cbn [wst wnode] in *. subst n.
  assert (ready : mocks (xayaRpcServer env') = prepared_mocks psbt (counterparty_of pb) vout
    sd total move (mocks (xayaRpcServer env))) by done.
  pose proof (funded_reply _ _ _ _ _ _ _ _ ready) as Hfund.
  pose proof (created_reply _ _ _ _ _ _ _ _ ready) as Hcreate.
  pose proof (named_reply _ _ _ _ _ _ _ _ ready) as Hnamed.
  pose proof (joined_reply _ _ _ _ _ _ _ _ ready) as Hjoin.
  unfold ConstructTransaction, fund_chi_part, build_name_part, reply_psbt. cbv zeta.
  apply wp_bind, wp_checked; [by rewrite Ht|]. cbn [then_post].
  apply wp_bind, wp_checked; [by apply andb_true_intro|]. cbn [then_post].
  wp_use wp_GetTotalSat; [lia|intros _ _|done]. fold total.
  apply wp_bind. cbn [check_some]. apply wp_ret. cbn [then_post].
  apply wp_bind. wp_call Hfund. do 3 known. apply wp_jstr. cbn [then_post].
  rewrite Hhash, Hvout, name_value_json, Hmove.
  apply wp_bind. wp_call Hcreate. apply wp_bind, wp_lift_outcome. cbn [then_post].
  wp_call Hnamed. do 3 known. apply wp_jstr. cbn [then_post]. wp_call Hjoin. apply HQ.
Qed.

(** *** The transaction is the one the seller demands *)

Lemma pays_script addr : pays_address (coin_script addr) addr.
Proof.
  left. exists (jarr [jstr addr]), (jstr addr). unfold coin_script. jlit. json_obj.
  by rewrite is_array_jarr, jelems_jarr.
Qed.

Lemma pays_name_script seller addr move : pays_address (name_script seller addr move) addr.
Proof.
  left. exists (jarr [jstr addr]), (jstr addr). unfold name_script. jlit. json_obj.
  by rewrite is_array_jarr, jelems_jarr.
Qed.

Lemma coin_wf out addr v :
  is_object out = true -> jget out "scriptPubKey" = Some (coin_script addr) ->
  jget out "value" = Some v -> is_Some (ChiAmountFromJson v) -> wf_output out.
Proof.
  intros Ho Hs Hv [pay Hpay]. split; [done|]. exists (coin_script addr), jnull.
  split_and!; [done|apply is_object_jobj|unfold coin_script; jlit; by json_obj|].
  right. split_and!; [apply is_object_jnull|apply is_null_jnull|]. by exists v, pay.
Qed.

Lemma coin_output_wf addr v : is_Some (ChiAmountFromJson v) -> wf_output (coin_output addr v).
Proof.
  intros Hv. apply (coin_wf _ addr v); [apply is_object_jobj|..|done];
    unfold coin_output; jlit; by json_obj.
Qed.

Lemma change_output_wf : wf_output change_output.
Proof.
  apply (coin_wf _ "change addr" (jdec 15 1)); [apply is_object_jobj|..|apply change_amount];
    unfold change_output; jlit; by json_obj.
Qed.

Lemma reads_jstr v k x : jget v k = Some (jstr x) -> reads_string v k x.
Proof. intros Hv. exists (jstr x). split; [done|]. apply as_string_jstr. Qed.

Lemma name_output_wf seller addr move : wf_output (name_output seller addr move).
Proof.
  unfold wf_output, name_output. split; [apply is_object_jobj|].
  exists (name_script seller addr move), (name_op seller move).
  split_and!; [jlit; by json_obj|apply is_object_jobj|unfold name_script; jlit; by json_obj|].
  left. unfold wf_name_op, readable, name_op. split_and!; [apply is_object_jobj|..]; jlit;
    first [by json_obj | apply reads_jstr; by json_obj | eexists; apply reads_jstr; by json_obj].
Qed.

Lemma mock_outputs_acceptable tc sd move :
  GetNameUpdateValue (Node := TestEnvironment) tc = Ret move ->
  let total := tc_price tc * tc_units tc in
  is_s64 total -> 0 <= total -> ChiAmountFromJson (ChiAmountToJson total) = Some total ->
  acceptable_outputs (Node := TestEnvironment) tc sd
    [coin_output (chi_address_of sd) (ChiAmountToJson total); change_output;
     name_output (tc_seller tc) (name_address_of sd) move].
Proof.
  intros Hmove total Htot Hpos Hrt. exists total.
  split; [unfold agreed_total; by rewrite bool_decide_true|]. split; [done|]. split.
  - right. left. exists (coin_script (chi_address_of sd)), jnull, (ChiAmountToJson total), total.
    unfold coin_output. split_and!; try done; [jlit; by json_obj|unfold coin_script; jlit; by json_obj
      |apply is_object_jnull|apply pays_script|jlit; by json_obj].
  - right. right. left.
    exists (name_script (tc_seller tc) (name_address_of sd) move), (name_op (tc_seller tc) move), move.
    unfold name_output. split_and!; [jlit; by json_obj|unfold name_script; jlit; by json_obj
      |apply is_object_jobj|..]; [..|apply pays_name_script]; try done;
      apply reads_jstr; unfold name_op; jlit; by json_obj.
Qed.

Lemma mock_transaction_vout seller sd total move :
  tx_array (mock_transaction seller sd total move) "vout"
    [coin_output (chi_address_of sd) (ChiAmountToJson total); change_output;
     name_output seller (name_address_of sd) move].
Proof.
  eexists _, _. split; [apply psbt_json_tx|]. split; [apply is_object_jobj|].
  split; [apply tx_vout|]. split; [apply is_array_jarr|apply jelems_jarr].
Qed.

Lemma buyer_checker account pb :
  GetOrderType account pb = BID -> tc_seller (BuildTradeChecker account pb) = counterparty_of pb.
Proof. unfold BuildTradeChecker. by intros ->. Qed.

(** The mock is a faithful stand-in for the wallet when a trade is built:
    after [PrepareConstructTransaction] for the terms of a trade in which the
    user buys, the buyer's [ConstructTransaction] makes only calls the mock
    expects and returns the announced PSBT, and the decoded form the mock
    gives of that PSBT passes the seller's check of the outputs. *)
Theorem mock_constructs_trade {S} psbt vout account pb nameIn move env (st : S) tr :
  let tc := BuildTradeChecker account pb in
  let sd := seller_data_of pb in
  let total := tc_price tc * tc_units tc in
  GetOrderType account pb = BID ->
  has (sd_chi_address sd) = true -> has (sd_name_address sd) = true ->
  0 <= tc_price tc -> 0 < tc_units tc -> is_s64 total ->
  ChiAmountFromJson (ChiAmountToJson total) = Some total ->
  GetNameUpdateValue (Node := TestEnvironment) tc = Ret move ->
  hash_of nameIn = counterparty_of pb +:+ " txid" -> s32 (n_of nameIn) = vout ->
  exists s',
    PrepareConstructTransaction psbt (counterparty_of pb) vout sd total move
      (mkWorld (xayaRpcServer env) tt []) = (Ret tt, mkWorld s' tt []) /\
    let env' := with_xayaRpcServer s' env in
    failures s' = failures (xayaRpcServer env) /\
    (exists tr', ConstructTransaction (H2 := flags s') account pb tc nameIn (mkWorld st env' tr) =
      (Ret psbt, mkWorld st env' tr')) /\
    exists tr', CheckForSellerOutputs tc psbt sd (mkWorld st env' tr) =
      (Ret true, mkWorld st env' tr').
Proof.
  cbv zeta. intros Ht Hc Hn Hprice Hpos Htot Hrt Hmove Hhash Hvout.
  destruct (checker_widths account pb) as [Hp Hu].
  eexists. split; [apply Prepare_ok|]. cbn [wst]. split; [done|].
  split; apply wp_ex.
  - eapply wp_mock_ConstructTransaction; try done. intros tr'. by exists tr'.
  - eapply (wp_seller_outputs_verdict _ _ _ _ _ _ _ _ Hc Hn Hprice Hpos);
      [by left|apply decoded_reply, lookup_insert_eq|apply psbt_json_object|apply mock_transaction_vout| |eauto|].
    + constructor; [by apply coin_output_wf; eexists|]. constructor; [apply change_output_wf|].
      constructor; [apply name_output_wf|constructor].
    + cbn [wst wtrace]. intros b Hb. assert (b = true) as ->; [|by eexists].
      apply Hb. rewrite <-(buyer_checker account pb Ht). apply mock_outputs_acceptable; [done..|nia|done].
Qed.

End construct.

(* ------------------------------------------------------------------ *)
(** ** The chain of the mock *)

Section chain.
Context `{JsonLib} `{!JsonLaws} `{!JsonDecimals} `{!Uint256Lib} `{!Uint256Laws} `{!HashLib}
  `{!AmountLib} `{!TestJsonLaws} `{!GMock} {S : Type}.
Implicit Types (env : TestEnvironment) (w : World TestEnvironment S).

(** The hash function has no collision on the blocks of the mock. *)
Definition distinct_hashes : Prop :=
  forall h h', 0 <= h < 1000 -> 0 <= h' < 1000 -> GetBlockHash h = GetBlockHash h' -> h = h'.

Lemma find_header_ok {Node} h k n :
  distinct_hashes -> 0 <= k -> k + Z.of_nat n <= 1000 -> k <= h < k + Z.of_nat n ->
  find_header (Node := Node) (GetBlockHash h) k n = mret (header_json (GetBlockHash h) h).
Proof.
  intros Hd. revert k. induction n as [|n IH]; intros k Hk Hn Hh; [lia|]. cbn [find_header].
  destruct (u256_eqb (GetBlockHash h) (GetBlockHash k)) eqn:He.
  - apply u256_eqb_eq, Hd in He; [|lia..]. by subst.
  - apply IH; [lia..|]. destruct (decide (h = k)) as [->|]; [|lia].
    rewrite (proj2 (u256_eqb_eq _ _) eq_refl) in He. done.
Qed.

Lemma header_reply env h :
  distinct_hashes -> 0 <= h < 1000 ->
  xaya_rpc (getblockheader (to_hex (GetBlockHash h))) env =
  (inr (header_json (GetBlockHash h) h), env).
Proof.
  intros Hd Hh. apply (env_reads (getblockheader _)). unfold dispatch, do_getblockheader. rewrite from_to_hex.
  rewrite find_header_ok by (done || lia). by wp_step.
Qed.

Lemma header_object hash h : is_object (header_json hash h) = true.
Proof. unfold header_json. case_match; json_is_object. Qed.

Lemma header_previous hash h :
  jget (header_json hash h) "previousblockhash" =
  Some (if 0 <? h then jstr (to_hex (GetBlockHash (h - 1))) else jnull).
Proof. unfold header_json. case_match; by json_obj. Qed.

Lemma same_hash a b :
  distinct_hashes -> 0 <= a < 1000 -> 0 <= b < 1000 ->
  u256_eqb (GetBlockHash a) (GetBlockHash b) = (a =? b).
Proof.
  intros Hd Ha Hb. apply eq_true_iff_eq. rewrite u256_eqb_eq, Z.eqb_eq.
  split; [by apply Hd|by intros ->].
Qed.

Lemma wp_mock_ancestor n a b w (Q : outcome bool -> World TestEnvironment S -> Prop) :
  distinct_hashes -> 0 <= a < 1000 -> 0 <= b < 1000 ->
  (forall tr, Q (Ret ((a <=? b) && (b - Z.of_nat n <=? a))) (mkWorld (wst w) (wnode w) tr)) ->
  wp (IsBlockAncestor (GetBlockHash a) (GetBlockHash b) n) Q w.
Proof.
  intros Hd Ha. revert b w. induction n as [|n IH]; intros b w Hb HQ; cbn [IsBlockAncestor];
    rewrite (same_hash a b) by done; destruct (Z.eqb_spec a b) as [->|Hne].
  1, 3: wp_step; specialize (HQ (wtrace w)); rewrite !(proj2 (Z.leb_le _ _)) in HQ by lia;
    by destruct w.
  - wp_step. specialize (HQ (wtrace w)). change (Z.of_nat 0) with 0 in HQ.
    replace ((a <=? b) && (b - 0 <=? a)) with false in HQ by lia. by destruct w.
  - pose proof (header_reply (wnode w) b Hd Hb) as Hr. wp_call Hr.
    apply wp_bind, wp_checked; [apply header_object|]. cbn [then_post].
    apply wp_bind. eapply wp_member; [apply header_previous|]. cbn [then_post].
    destruct (Z.ltb_spec 0 b).
    + rewrite is_null_jstr. do 2 known. rewrite from_to_hex.
      apply wp_bind, wp_check_some; [|done]. intros ? [= <-]. cbn [then_post].
      apply IH; [lia|]. cbn [wst wnode]. intros tr. specialize (HQ tr).
      rewrite Nat2Z.inj_succ in HQ. replace (a <=? b) with (a <=? b - 1) in HQ by lia.
      by replace (b - Z.succ (Z.of_nat n)) with (b - 1 - Z.of_nat n) in HQ by lia.
    + rewrite is_null_jnull. wp_step.
      replace (a <=? b) with false in HQ by lia. apply HQ.
Qed.

(** *** The buyer's check on the environment *)

Lemma name_reply env a :
  a <> "invalid" ->
  xaya_rpc (name_show (GetXayaName a)) env =
  (inr (jset (jset (jset jobject "name" (jstr a)) "txid" (jstr (a +:+ " txid"))) "vout" (jint 12)), env).
Proof.
  intros Ha. apply (env_reads (name_show _)). unfold dispatch, do_name_show, GetXayaName.
  replace (String.eqb ("p/" +:+ a) "p/invalid") with false.
  2: { symmetry. apply String.eqb_neq. intros [= He]. exact (Ha He). }
  replace (substring 0 2 ("p/" +:+ a)) with "p/" by (cbn; by destruct a).
  replace (substring 2 (String.length ("p/" +:+ a) - 2) ("p/" +:+ a)) with a.
  2: { change (String.length ("p/" +:+ a) - 2)%nat with (String.length a - 0)%nat.
       rewrite Nat.sub_0_r. symmetry. exact (substring_all a). }
  rewrite String.eqb_refl. cbn [negb orb]. by wp_step.
Qed.

Lemma utxo_reply env q n :
  xaya_rpc (gettxout q n) env =
  (inr (if bool_decide ((q, n) ∈ utxos (xayaRpcServer env))
        then jset jobject "bestblock" (jstr (to_hex (bestBlock (xayaRpcServer env)))) else jnull), env).
Proof.
  apply (env_reads (gettxout _ _)). unfold dispatch, do_gettxout. wp_step. wp_step. cbn [wst].
  destruct (decide ((q, n) ∈ utxos (xayaRpcServer env))).
  - rewrite bool_decide_false, bool_decide_true by tauto. by wp_step.
  - rewrite bool_decide_true, bool_decide_false by done. by wp_step.
Qed.

(** What the buyer demands, in terms of the environment: [hu] is the height of
    the wallet's best block, [hg] that of the game's. *)
Definition delivers (tc : TradeChecker) env (hu hg : Z) : bool :=
  let a := assets env in
  TestAssets.IsAsset (tc_asset tc) && TestAssets.CanBuy a (tc_buyer tc) (tc_asset tc) (tc_units tc) &&
  bool_decide ((tc_seller tc +:+ " txid", 12) ∈ utxos (xayaRpcServer env)) &&
  match TestAssets.balance a (tc_seller tc) (tc_asset tc) with
  | Some b => tc_units tc <=? b
  | None => false
  end && ((hu <=? hg) && (hg - 3 <=? hu)).

Lemma can_sell_env nm asset n env :
  spec_can_sell nm asset n env =
  (Ret (if match TestAssets.balance (assets env) nm asset with Some b => n <=? b | None => false end
        then Some (TestAssets.currentHash (assets env)) else None), env).
Proof.
  cbn. unfold TestAssets.CanSell, TestAssets.balance, TestAssets.test_assets, env_assets.
  destruct (TestAssets.balances (assets env) !! nm) as [acc|]; [|done]. cbn.
  by destruct (acc !! asset).
Qed.

(** On the environment of the tests the buyer's check decides exactly by
    what the test has set up: it returns the seller's name output if the asset
    exists, the buyer has an account, the output was added as unspent, the
    balance covers the units, and the wallet's block is the game's or at most
    three blocks before it; in every other case it refuses, and it never fails.
    The environment is not changed. *)
Theorem mock_buyer_verdict tc w hu hg :
  let env := wnode w in
  distinct_hashes -> 0 <= hu < 1000 -> 0 <= hg < 1000 ->
  bestBlock (xayaRpcServer env) = GetBlockHash hu ->
  TestAssets.currentHash (assets env) = GetBlockHash hg ->
  tc_seller tc <> "invalid" ->
  exists tr, CheckForBuyerTrade tc w =
    (Ret (if delivers tc env hu hg
          then Some (mkOutPoint (Some (tc_seller tc +:+ " txid")) (Some 12)) else None),
     mkWorld (wst w) env tr).
Proof.
  cbv zeta. intros Hd Hhu Hhg Hu Hg Hs. destruct w as [st env tr0]. cbn [wnode wst] in *.
  apply wp_ex. unfold CheckForBuyerTrade, delivers, GetNameOutPoint, OutPointFromJson.
  apply wp_bind, wp_IsAsset. intros r n [= <- <-]. cbn [then_post wst wnode wtrace].
  destruct (TestAssets.IsAsset (tc_asset tc)); cbn [negb andb]; [|wp_step; by eexists].
  apply wp_bind, wp_CanBuy. intros r n [= <- <-]. cbn [then_post wst wnode wtrace].
  unfold TestAssets.test_assets, env_assets.
  destruct (TestAssets.CanBuy _ _ _ _); cbn [negb andb]; [|wp_step; by eexists].
  apply wp_bind, wp_bind. wp_call (name_reply env _ Hs).
  do 3 known.
  rewrite is_string_jstr, is_uint_jint by width. known. known. rewrite as_uint_jint by width.
  apply wp_bind, wp_ret. cbn [then_post]. apply wp_ret. cbn [then_post].
  wp_call (utxo_reply env (tc_seller tc +:+ " txid") 12).
  case_bool_decide; cbn [andb]; [|rewrite is_null_jnull; wp_step; by eexists].
  rewrite is_null_object by json_is_object. do 4 known. rewrite Hu, from_to_hex.
  apply wp_bind, wp_ret. cbn [then_post].
  apply wp_bind, wp_CanSell. cbn [wnode]. rewrite can_sell_env. intros r n [= <- <-].
  cbn [then_post wst wnode wtrace]. rewrite Hg.
  destruct (match TestAssets.balance _ _ _ with Some _ => _ | None => _ end); cbn [andb];
    [|wp_step; by eexists].
  apply wp_bind, wp_mock_ancestor; [done..|]. cbn [wst wnode then_post]. intros tr.
  change (Z.of_nat MAX_BLOCK_ANCESTORS_CHECKED) with 3.
  destruct (_ && _); cbn [negb]; wp_step; by eexists.
Qed.

End chain.

(* ------------------------------------------------------------------ *)
(** ** The GSP of the tests answers as the g/dem GSP *)

Section gsp.
Context `{JsonLib} `{!JsonLaws} `{!DemGame.GameLib} `{!DemGame.GameLaws} {Node DNode : Type}
  `{!DemGspRpc DNode}.
Implicit Types w : World Node DemGame.Gsp.

(** What a test tells the mock. *)
Inductive setup := Height (h : Z) | Pending (btxid : string) | Confirmed (btxid : string) (h : Z).

Definition set_up (g : MockDemGsp.MockDemGsp) (x : setup) : MockDemGsp.MockDemGsp :=
  match x with
  | Height h => MockDemGsp.SetCurrentHeight h g
  | Pending b => MockDemGsp.SetPending b g
  | Confirmed b h => MockDemGsp.SetConfirmed b h g
  end.

(** The height and the state of a trade that it was told last. *)
Definition told_height (l : list setup) : Z :=
  fold_left (fun h x => match x with Height h' => h' | _ => h end) l 0.

Definition told (l : list setup) (b : string) : DemGame.TradeState * option Z :=
  fold_left (fun a x => match x with
    | Height _ => a
    | Pending b' => if String.eqb b b' then (DemGame.PENDING, None) else a
    | Confirmed b' h => if String.eqb b b' then (DemGame.CONFIRMED, Some h) else a
    end) l (DemGame.UNKNOWN, None).

Lemma set_up_table l b g :
  let g' := fold_left set_up l g in
  forall h a, MockDemGsp.currentHeight g = h ->
  default (jobj [("state", jstr "unknown")]) (MockDemGsp.btxids g !! b) = DemGame.reply_data a ->
  MockDemGsp.currentHeight g' = fold_left (fun h x => match x with Height h' => h' | _ => h end) l h /\
  default (jobj [("state", jstr "unknown")]) (MockDemGsp.btxids g' !! b) =
  DemGame.reply_data (fold_left (fun a x => match x with
    | Height _ => a
    | Pending b' => if String.eqb b b' then (DemGame.PENDING, None) else a
    | Confirmed b' h => if String.eqb b b' then (DemGame.CONFIRMED, Some h) else a
    end) l a).
Proof.
  cbv zeta. revert g. induction l as [|x l IH]; intros g h a Hh Ha; [done|]. cbn [fold_left].
  destruct x as [h'|b'|b' h']; apply IH; try done; cbn [set_up MockDemGsp.btxids MockDemGsp.SetPending MockDemGsp.SetConfirmed];
    (destruct (String.eqb_spec b b') as [->|Hne];
     [by rewrite lookup_insert_eq|by rewrite lookup_insert_ne]).
Qed.

Lemma mock_checktrade l b :
  MockDemGsp.checktrade b (fold_left set_up l MockDemGsp.new_MockDemGsp) =
  jset (jset jobject "height" (jint (s32 (told_height l)))) "data" (DemGame.reply_data (told l b)).
Proof.
  destruct (set_up_table l b MockDemGsp.new_MockDemGsp 0 (DemGame.UNKNOWN, None) eq_refl eq_refl)
    as [Hh Hd].
  unfold MockDemGsp.checktrade. rewrite Hh. fold (told_height l).
  unfold told. rewrite <-Hd. by destruct (MockDemGsp.btxids _ !! b).
Qed.

Lemma reply_data_state a :
  is_object (DemGame.reply_data a) = true /\
  jget (DemGame.reply_data a) "state" = Some (jstr (DemGame.state_name a.1)).
Proof. destruct a as [[] [h|]]; cbn; split; try json_is_object; by json_obj. Qed.

(** What [check_trade] reads from a reply with these members. *)
Lemma check_trade_of {D} `{!DemGspRpc D} b (wd : World D Proto.TradeState) r n cur a :
  gsp_rpc b (wnode wd) = (inr r, n) -> is_object r = true -> 0 <= cur < two31 ->
  jget r "height" = Some (jint cur) -> jget r "data" = Some (DemGame.reply_data a) ->
  exists wd', check_trade b wd =
    (Ret (cur, DemGame.reply_data a, DemGame.state_name a.1), wd').
Proof.
  intros Hr Ho Hc Hh Hd. destruct (reply_data_state a) as [Ha Hs].
  by eapply DemGame.check_trade_reads.
Qed.

End gsp.

Section gsp_environment.
Context `{JsonLib} `{!JsonLaws} `{!Uint256Lib} `{!GMock} `{!DemGame.GameLib} `{!DemGame.GameLaws}
  {Node DNode : Type} `{!DemGspRpc DNode}.
Implicit Types w : World Node DemGame.Gsp.

(** The GSP of the tests cannot be told from the real one: if a test has
    told it the height of a g/dem GSP and of a trade what that GSP knows, the
    daemon reads from its reply to [checktrade] the same height, the same data
    and the same state as from the reply of the GSP. *)
Theorem mock_gsp_like_gsp others b w w1 past past1 l :
  others w = (Ret tt, w1) -> DemGame.history (Node := Node) (wst w :: past) ->
  DemGame.history (Node := Node) (wst w1 :: past1) -> DemGame.g_height (wst w1) < two31 ->
  told l b = DemGame.answer (DemGame.g_trades (wst w1)) (DemGame.g_pending (wst w)) b ->
  told_height l = DemGame.g_height (wst w1) ->
  exists r seen, DemGame.checktrade others b w = (Ret r, w1) /\
    (forall (wd : World DNode Proto.TradeState) n, gsp_rpc b (wnode wd) = (inr r, n) ->
       exists wd', check_trade b wd = (Ret seen, wd')) /\
    forall wt : World TestEnvironment Proto.TradeState,
      gspRpcServer (wnode wt) = fold_left set_up l MockDemGsp.new_MockDemGsp ->
      exists wt', check_trade b wt = (Ret seen, wt').
Proof.
  intros Ho [Hw _]%DemGame.history_ok%Forall_cons [Hw1 _]%DemGame.history_ok%Forall_cons Hlt Htold Hheight.
  pose proof (DemGame.gok_height _ Hw1) as Hpos.
  set (a := told l b) in *. set (cur := DemGame.g_height (wst w1)) in *.
  enough (exists r, DemGame.checktrade others b w = (Ret r, w1) /\ is_object r = true /\
    jget r "height" = Some (jint cur) /\ jget r "data" = Some (DemGame.reply_data a))
    as (r & Hr & Hro & Hh & Hd).
  - exists r, (cur, DemGame.reply_data a, DemGame.state_name a.1). split; [done|]. split.
    + intros wd n Hn. by eapply check_trade_of.
    + intros wt Hwt. eapply (check_trade_of b wt _ (wnode wt)).
      * unfold gsp_rpc, env_gsp. rewrite Hwt, mock_checktrade. reflexivity.
      * json_is_object.
      * lia.
      * rewrite jget_jset_ne, jget_jset_eq by (json_is_object; done).
        by rewrite Hheight, s32_small.
      * by rewrite jget_jset_eq by json_is_object.
  - apply wp_returns. apply (DemGame.wp_checktrade_reply others b w w1); [done..|].
    intros r Hr Hh Hd. rewrite Htold. done.
Qed.

End gsp_environment.

(* ------------------------------------------------------------------ *)
(** ** Collecting signatures *)

Section signatures.
Context `{JsonLib} `{!JsonLaws} `{!JsonDecimals} `{!Uint256Lib} `{!HashLib} `{!AmountLib}
  `{!TestJsonLaws} `{!GMock}.
Implicit Types (s : MockXayaRpcServer) (env : TestEnvironment).

(** An input as [SetSignedPsbt] leaves it, and whether it is marked. *)
Definition wf_mark (inp : Json) : Prop := exists b, is_signed inp = Ret b.
Definition mark (inp : Json) : bool := match is_signed inp with Ret b => b | _ => false end.

Lemma mark_ok inp : wf_mark inp -> is_signed inp = Ret (mark inp).
Proof. unfold mark. by intros [b ->]. Qed.

Lemma all_signed_ok ins : Forall wf_mark ins -> all_signed ins = Ret (forallb mark ins).
Proof.
  induction 1 as [|inp ins Hi _ IH]; [done|]. cbn [all_signed forallb].
  rewrite (mark_ok _ Hi). cbn [mbind outcome_bind]. by destruct (mark inp).
Qed.

(** The signed input replaces the one there is. *)
Definition pick (old new : Json) : Json := if mark new then new else old.

Lemma combine_inputs_ok out cur k m :
  Forall wf_mark cur -> length out = length cur -> (k + m = length cur)%nat ->
  combine_inputs (seq k m) (jarr cur) (jarr out) =
  Ret (jarr (take k out ++ zip_with pick (drop k out) (drop k cur))).
Proof.
  intros Hw. revert k out. induction m as [|m IH]; intros k out Hlen Hk.
  - cbn. rewrite !drop_ge, take_ge by lia. cbn. by rewrite app_nil_r.
  - cbn [seq combine_inputs]. rewrite is_array_jarr. cbn [mbind outcome_bind].
    destruct (lookup_lt_is_Some_2 cur k ltac:(lia)) as [c Hc].
    destruct (lookup_lt_is_Some_2 out k ltac:(lia)) as [o Ho].
    unfold jnth. rewrite jelems_jarr, (nth_lookup_Some _ _ jnull _ Hc).
    rewrite (mark_ok c) by (by eapply Forall_lookup_1). cbn [mbind outcome_bind].
    rewrite (drop_S out o k Ho), (drop_S cur c k Hc). cbn [zip_with].
    assert (Hpick : (if mark c then assign [Index k] c (jarr out) else Ret (jarr out)) =
      Ret (jarr (<[k := pick o c]> out))).
    { unfold pick. destruct (mark c); [|by rewrite list_insert_id].
      rewrite assign_eq, (at_index _ _ _ _ _ Ho). done. }
    rewrite Hpick. cbn [mbind outcome_bind].
    rewrite IH by (rewrite ?length_insert; lia). do 2 f_equal.
    rewrite insert_take_drop by (eapply lookup_lt_Some, Ho).
    assert (Ht : length (take k out) = k) by (rewrite length_take; lia).
    rewrite take_app, drop_app, Ht. replace (S k - k)%nat with 1%nat by lia.
    rewrite (take_ge (take k out)), (drop_ge (take k out)) by lia. cbn.
    by rewrite drop_0, <-app_assoc.
Qed.

Lemma combine_inputs_all out cur :
  Forall wf_mark cur -> length out = length cur ->
  combine_inputs (seq 0 (length out)) (jarr cur) (jarr out) = Ret (jarr (zip_with pick out cur)).
Proof. intros Hw Hl. rewrite combine_inputs_ok by (done || lia). by rewrite !drop_0. Qed.

(** One more PSBT of the same transaction. *)
Definition same_tx (a b : Arrays) : Prop :=
  a_vin a = a_vin b /\ a_vout a = a_vout b /\ a_outs a = a_outs b /\ length (a_ins a) = length (a_ins b).

Definition pick_all (a b : Arrays) : Arrays :=
  mkArrays (a_vin a) (a_vout a) (zip_with pick (a_ins a) (a_ins b)) (a_outs a).

Lemma read_tx vin vout ins outs :
  read [Key "tx"] (psbt_json vin vout ins outs) =
  Ret (jobj [("vin", vin); ("vout", vout)], psbt_json vin vout ins outs).
Proof.
  unfold read. erewrite at_key; [|apply psbt_json_object|apply psbt_json_tx].
  rewrite at_nil. cbn [mbind outcome_bind]. do 2 f_equal. jlit.
  rewrite (jset_comm _ "outputs" "tx") by (json_is_object; done).
  by rewrite (jset_under _ "tx" "inputs") by (json_is_object; done).
Qed.

Lemma combine_one_ok known q a b :
  known !! q = Some (arrays_json b) -> same_tx a b -> Forall wf_mark (a_ins b) ->
  combine_one known q (arrays_json a) = Ret (arrays_json (pick_all a b)).
Proof.
  destruct a as [vin vout ins outs], b as [vin' vout' ins' outs'].
  intros Hq (? & ? & ? & Hlen) Hw. cbn in *. subst vin' vout' outs'.
  unfold combine_one, map_at, member. rewrite Hq. unfold arrays_json.
  cbn [mbind outcome_bind a_vin a_vout a_ins a_outs]. rewrite read_tx, psbt_json_tx.
  cbn [mbind outcome_bind json_value]. rewrite jeqb_refl. cbn [checked mbind outcome_bind].
  unfold read. rewrite at_outputs, at_nil, psbt_json_outputs.
  cbn [mbind outcome_bind json_value]. rewrite jeqb_refl. cbn [checked mbind outcome_bind].
  rewrite at_inputs, at_nil. cbn [mbind outcome_bind]. rewrite is_array_jarr. cbn [checked mbind outcome_bind].
  rewrite psbt_json_inputs. cbn [mbind outcome_bind json_value]. rewrite is_array_jarr, !jelems_jarr.
  rewrite Hlen, Nat.eqb_refl. cbn [checked mbind outcome_bind]. unfold change.
  rewrite at_inputs, at_nil, <-Hlen, combine_inputs_all by done. done.
Qed.

Definition combined_name (q : string) (qs : list string) : string :=
  fold_left (fun acc x => acc +:+ " + " +:+ x) qs q.

Lemma combine_all_ok known qs l a name :
  Forall2 (fun q b => known !! q = Some (arrays_json b) /\ same_tx a b /\ Forall wf_mark (a_ins b)) qs l ->
  combine_all known (jstr <$> qs) (arrays_json a) name =
  Ret (arrays_json (fold_left pick_all l a), combined_name name qs).
Proof.
  revert l a name. induction qs as [|q qs IH]; intros l a name Hl; inversion Hl as [|? b ? l' [Hq [Hs Hw]] Hl']; subst;
    [done|].
  cbn [fmap list_fmap combine_all]. rewrite as_string_jstr. cbn [json_value mbind outcome_bind].
  rewrite (combine_one_ok _ _ _ b) by done. cbn [mbind outcome_bind].
  rewrite (IH l'); [done|]. eapply Forall2_impl; [exact Hl'|]. intros q' b' (Hq' & (? & ? & ? & Hlen) & Hw').
  destruct Hs as (? & ? & ? & Hlen'). split; [done|]. split; [|done].
  split_and!; try done. cbn. rewrite length_zip_with. lia.
Qed.

(** The input at position [i] is marked. *)
Definition signed_at (i : nat) (a : Arrays) : Prop :=
  exists inp, a_ins a !! i = Some inp /\ mark inp = true.

Lemma signed_pick i a b :
  length (a_ins a) = length (a_ins b) ->
  (signed_at i (pick_all a b) <-> signed_at i a \/ signed_at i b).
Proof.
  intros Hl. unfold signed_at, pick_all, pick. cbn. rewrite lookup_zip_with.
  destruct (a_ins a !! i) as [x|] eqn:Hx; cbn.
  - destruct (lookup_lt_is_Some_2 (a_ins b) i) as [y Hy]; [apply lookup_lt_Some in Hx; lia|].
    rewrite Hy. cbn. destruct (mark y) eqn:Hm;
      (split; [intros (z & [= <-] & Hz)|intros [(z & [= <-] & Hz)|(z & [= <-] & Hz)]]);
      first [congruence | eauto].
  - apply lookup_ge_None_1 in Hx. rewrite (lookup_ge_None_2 (a_ins b)) by lia. naive_solver.
Qed.

Lemma wf_pick_all a b :
  Forall wf_mark (a_ins a) -> Forall wf_mark (a_ins b) -> Forall wf_mark (a_ins (pick_all a b)).
Proof.
  intros Ha Hb. cbn. apply Forall_lookup_2. intros i x Hx. rewrite lookup_zip_with in Hx.
  destruct (a_ins a !! i) as [y|] eqn:Hy; [|done]. cbn in Hx.
  destruct (a_ins b !! i) as [z|] eqn:Hz; [|done]. cbn in Hx. simplify_eq. unfold pick.
  destruct (mark z);
    [exact (Forall_lookup_1 _ _ _ _ Hb Hz)|exact (Forall_lookup_1 _ _ _ _ Ha Hy)].
Qed.

Lemma signed_fold i l a :
  Forall (fun b => length (a_ins a) = length (a_ins b) /\ Forall wf_mark (a_ins b)) l ->
  Forall wf_mark (a_ins a) ->
  let r := fold_left pick_all l a in
  length (a_ins r) = length (a_ins a) /\ Forall wf_mark (a_ins r) /\
  (signed_at i r <-> Exists (signed_at i) (a :: l)).
Proof.
  cbv zeta. revert a. induction l as [|b l IH]; intros a Hl Ha.
  - rewrite Exists_cons, Exists_nil. naive_solver.
  - apply Forall_cons in Hl as [[Hlen Hb] Hl]. cbn [fold_left].
    assert (Hlen' : length (a_ins (pick_all a b)) = length (a_ins a))
      by (cbn; rewrite length_zip_with; lia).
    destruct (IH (pick_all a b)) as (H1' & H2' & H3'); [by rewrite Hlen'|by apply wf_pick_all|].
    split; [by rewrite H1'|]. split; [done|].
    rewrite H3', !Exists_cons, signed_pick by done. tauto.
Qed.

Lemma forallb_signed a :
  forallb mark (a_ins a) = true <-> forall i, (i < length (a_ins a))%nat -> signed_at i a.
Proof.
  rewrite forallb_forall. split.
  - intros Hf i Hi. destruct (lookup_lt_is_Some_2 _ _ Hi) as [x Hx]. exists x. split; [done|].
    by eapply Hf, list_elem_of_In, list_elem_of_lookup_2.
  - intros Hs x [i Hx]%list_elem_of_In%list_elem_of_lookup_1.
    destruct (Hs i) as (y & Hy & Hm); [by eapply lookup_lt_Some|]. by simplify_eq.
Qed.

Lemma combine_reply q qs l a env :
  let s := xayaRpcServer env in
  psbts s !! q = Some (arrays_json a) ->
  Forall2 (fun q b => psbts s !! q = Some (arrays_json b) /\ same_tx a b /\ Forall wf_mark (a_ins b)) qs l ->
  xaya_rpc (combinepsbt (jarr (jstr <$> q :: qs))) env =
  (inr (combined_name q qs), with_xayaRpcServer
    (with_psbts (<[combined_name q qs := arrays_json (fold_left pick_all l a)]> (psbts s)) s) env).
Proof.
  cbv zeta. intros Hq Hl. apply (env_reply (combinepsbt _) _ _ _ []). cbn [dispatch]. apply wp_eq.
  unfold do_combinepsbt, SetPsbt.
  apply wp_bind, wp_checked; [apply is_array_jarr|]. cbn [then_post].
  apply wp_bind, wp_checked; [by rewrite jelems_jarr|]. cbn [then_post].
  wp_step. wp_step. unfold jnth. rewrite jelems_jarr. cbn [fmap list_fmap nth tail].
  known. unfold map_at. rewrite Hq. wp_step. wp_step.
  rewrite (combine_all_ok _ qs l) by done. repeat wp_step. reflexivity.
Qed.

Lemma finalize_reply q a env :
  psbts (xayaRpcServer env) !! q = Some (arrays_json a) -> Forall wf_mark (a_ins a) ->
  exists r, xaya_rpc (finalizepsbt q) env = (inr r, env) /\ is_object r = true /\
    jget r "complete" = Some (jbool (forallb mark (a_ins a))) /\
    if forallb mark (a_ins a) then jget r "hex" = Some (jstr ("rawtx " +:+ q))
    else jget r "psbt" = Some (jstr q).
Proof.
  intros Hq Hw. eexists. split.
  - apply (env_reads (finalizepsbt _)). cbn [dispatch]. unfold do_finalizepsbt. wp_step. wp_step.
    cbn [wst]. unfold map_at. rewrite Hq. wp_step. wp_step.
    apply wp_bind. eapply wp_member; [apply psbt_json_inputs|]. cbn [then_post]. known.
    rewrite jelems_jarr, all_signed_ok by done. wp_step. wp_step. wp_step. split; reflexivity.
  - destruct (forallb mark (a_ins a)); (split; [json_is_object|split; by json_obj]).
Qed.

(** Signatures are collected and finalised as in the wallet: combining
    PSBTs of one transaction, in any order and number, gives a PSBT whose
    inputs are marked exactly where some part is, and it finalises to
    ["complete"] exactly if every input is; until then the same PSBT is
    returned. *)
Theorem combine_then_finalize q qs a l env :
  psbts (xayaRpcServer env) !! q = Some (arrays_json a) -> Forall wf_mark (a_ins a) ->
  Forall2 (fun q b => psbts (xayaRpcServer env) !! q = Some (arrays_json b) /\ same_tx a b /\
    Forall wf_mark (a_ins b)) qs l ->
  exists name env' r (complete : bool),
    xaya_rpc (combinepsbt (jarr (jstr <$> q :: qs))) env = (inr name, env') /\
    xaya_rpc (finalizepsbt name) env' = (inr r, env') /\
    jget r "complete" = Some (jbool complete) /\
    (if complete then jget r "hex" = Some (jstr ("rawtx " +:+ name))
     else jget r "psbt" = Some (jstr name)) /\
    (complete = true <->
     forall i, (i < length (a_ins a))%nat -> Exists (signed_at i) (a :: l)).
Proof.
  intros Hq Ha Hl.
  assert (Hparts : Forall (fun b => length (a_ins a) = length (a_ins b) /\ Forall wf_mark (a_ins b)) l).
  { apply Forall_lookup_2. intros i b Hb. destruct (Forall2_lookup_r _ _ _ _ _ Hl Hb) as (q' & _ & _ & (_ & _ & _ & ?) & ?).
    by split. }
  set (c := fold_left pick_all l a).
  assert (Hc : length (a_ins c) = length (a_ins a) /\ Forall wf_mark (a_ins c) /\
    forall i, signed_at i c <-> Exists (signed_at i) (a :: l)).
  { destruct (signed_fold 0 l a Hparts Ha) as (? & ? & _). split_and!; [done..|].
    intros i. by apply signed_fold. }
  destruct Hc as (Hlen & Hw & Hs).
  pose proof (combine_reply q qs l a env Hq Hl) as Hr. fold c in Hr. cbv zeta in Hr.
  lazymatch type of Hr with _ = (_, ?e) => set (env' := e) in * end.
  destruct (finalize_reply (combined_name q qs) c env') as (r & Hf & _ & Hcomplete & Hres);
    [apply lookup_insert_eq|done|].
  exists (combined_name q qs), env', r, (forallb mark (a_ins c)).
  split_and!; [exact Hr|done|done|done|]. rewrite forallb_signed, Hlen. by setoid_rewrite Hs.
Qed.

(** *** Signing *)

(** A decoded input that spends an output of the transaction [txid]. *)
Definition spends_tx (txid : string) (v : Json) : Prop :=
  is_object v = true /\ is_member v "txid" = true /\ jget v "txid" = Some (jstr txid).

Definition sign_input (T : gset string) (txid : string) (inp : Json) : Json :=
  if bool_decide (txid ∈ T) then jset inp "signed" (jbool true) else inp.

Lemma is_signed_set inp :
  is_object inp = true -> is_signed (jset inp "signed" (jbool true)) = Ret true.
Proof.
  intros Ho. unfold is_signed, member. rewrite is_object_jset, is_member_jset_eq, jget_jset_eq by done.
  cbn [orb json_value mbind outcome_bind]. by rewrite as_bool_jbool.
Qed.

Lemma sign_input_wf T txid inp :
  is_object inp = true -> wf_mark inp -> wf_mark (sign_input T txid inp).
Proof.
  intros Ho Hw. unfold sign_input. case_bool_decide; [|done]. exists true. by apply is_signed_set.
Qed.

Lemma mark_sign T txid inp :
  is_object inp = true ->
  mark (sign_input T txid inp) = bool_decide (txid ∈ T) || mark inp.
Proof.
  intros Ho. unfold sign_input. case_bool_decide; [|done]. unfold mark. by rewrite is_signed_set.
Qed.

(** One iteration of the loop. *)
Lemma sign_step T i idxs vin vout ins outs c v txid inp :
  vin !! i = Some v -> spends_tx txid v -> ins !! i = Some inp -> is_object inp = true ->
  wf_mark inp ->
  sign_inputs T (i :: idxs) (arrays_json (mkArrays vin vout ins outs)) c =
  sign_inputs T idxs (arrays_json (mkArrays vin vout (<[i := sign_input T txid inp]> ins) outs))
    (c && mark (sign_input T txid inp)).
Proof.
  intros Hv (Hvo & Hm & Ht) Hi Hio Hw. cbn [sign_inputs]. unfold arrays_json, read.
  cbn [a_vin a_vout a_ins a_outs].
  rewrite at_inputs, (at_index _ _ _ _ _ Hi), at_nil. cbn [mbind outcome_bind].
  rewrite list_insert_id by done.
  rewrite at_vin, (at_index _ _ _ _ _ Hv), (at_key _ _ _ _ _ Hvo Ht), at_nil, as_string_jstr.
  cbn [json_value mbind outcome_bind]. rewrite jset_same, list_insert_id by done.
  rewrite at_inputs, (at_index _ _ _ _ _ Hi), at_nil.
  assert (Hs : (if bool_decide (txid ∈ T) then assign [Key "signed"] (jbool true) inp else Ret inp) =
    Ret (sign_input T txid inp)).
  { unfold sign_input. case_bool_decide; [|done]. by rewrite assign_eq, at_key_assign. }
  rewrite Hs. cbn [mbind outcome_bind].
  rewrite (mark_ok (sign_input T txid inp)) by (by apply sign_input_wf). reflexivity.
Qed.

Definition sign_all (T : gset string) (txids : list string) (ins : list Json) : list Json :=
  zip_with (sign_input T) txids ins.

Lemma sign_inputs_ok T vin vout outs txids pre suf c k :
  Forall2 spends_tx txids (drop k vin) -> k = length pre -> length txids = length suf ->
  Forall (fun inp => is_object inp = true /\ wf_mark inp) suf ->
  sign_inputs T (seq k (length suf)) (arrays_json (mkArrays vin vout (pre ++ suf) outs)) c =
  Ret (arrays_json (mkArrays vin vout (pre ++ sign_all T txids suf) outs),
       c && forallb mark (sign_all T txids suf)).
Proof.
  revert pre suf c k. induction txids as [|txid txids IH]; intros pre [|inp suf] c k Hv Hk Hlen Hw;
    try done; [by rewrite andb_true_r|].
  apply Forall_cons in Hw as [[Ho Hi] Hw]. cbn [length seq].
  destruct (drop k vin) as [|v rest] eqn:Hd; [by inversion Hv|]. apply Forall2_cons in Hv as [Hs Hv].
  assert (Hvk : vin !! k = Some v) by (rewrite <-(Nat.add_0_r k), <-lookup_drop, Hd; done).
  rewrite (sign_step _ _ _ _ _ _ _ _ v txid inp); [|done|done| |done|done].
  2: { subst k. by rewrite list_lookup_middle. }
  subst k. rewrite insert_app_r_alt, Nat.sub_diag by lia. cbn [insert list_insert sign_all zip_with].
  specialize (IH (pre ++ [sign_input T txid inp]) suf (c && mark (sign_input T txid inp)) (S (length pre))).
  rewrite <-!app_assoc in IH. cbn [app] in IH. rewrite IH.
  - unfold sign_all. cbn [forallb]. by rewrite andb_assoc.
  - replace (S (length pre)) with (length pre + 1)%nat by lia. rewrite <-drop_drop, Hd. done.
  - rewrite length_app. cbn. lia.
  - cbn in Hlen. lia.
  - done.
Qed.

(** The state after [SetSignedPsbt] on a PSBT whose inputs spend the
    transactions [txids]. *)
Definition signed_arrays (T : gset string) (txids : list string) (a : Arrays) : Arrays :=
  mkArrays (a_vin a) (a_vout a) (sign_all T txids (a_ins a)) (a_outs a).

Definition sign_result (signedPsbt : string) (complete : bool) : Json :=
  jset (jset jobject "psbt" (jstr signedPsbt)) "complete" (jbool complete).

Definition signed_server (signedPsbt psbt : string) (a : Arrays) (s : MockXayaRpcServer)
  : MockXayaRpcServer :=
  mkMockXaya (addrCount s) (utxos s) (<[signedPsbt := arrays_json a]> (psbts s)) (locked s)
    (bestBlock s)
    (expect_walletprocesspsbt psbt (sign_result signedPsbt (forallb mark (a_ins a))) (mocks s))
    (flags s) (failures s).

Lemma SetSignedPsbt_ok {Node} signedPsbt psbt T txids a (w : World Node MockXayaRpcServer) :
  psbts (wst w) !! psbt = Some (arrays_json a) ->
  Forall2 spends_tx txids (a_vin a) -> length (a_vin a) = length (a_ins a) ->
  Forall (fun inp => is_object inp = true /\ wf_mark inp) (a_ins a) ->
  SetSignedPsbt signedPsbt psbt T w =
  (Ret tt, mkWorld (signed_server signedPsbt psbt (signed_arrays T txids a) (wst w)) (wnode w) (wtrace w)).
Proof.
  destruct w as [[ac ut ps lk bb m f fl] n t], a as [vin vout ins outs].
  cbn [wst wnode wtrace psbts a_vin a_ins]. intros Hp Hs Hlen Hw.
  apply wp_eq. unfold SetSignedPsbt, SetPsbt. wp_step. wp_step. server_simpl.
  cbn [wst]. unfold map_at. rewrite Hp. unfold read.
  wp_step. wp_step. unfold arrays_json. cbn [a_vin a_vout a_ins a_outs].
  rewrite at_vin, at_nil. cbn [mbind outcome_bind]. wp_step. wp_step.
  rewrite at_inputs, at_nil. cbn [mbind outcome_bind]. wp_step. wp_step.
  rewrite !jelems_jarr. apply wp_bind, wp_checked; [by rewrite Hlen, Nat.eqb_refl|]. cbn [then_post].
  fold (arrays_json (mkArrays vin vout ins outs)). rewrite Hlen.
  pose proof (sign_inputs_ok T vin vout outs txids [] ins true 0 Hs eq_refl) as Hi.
  rewrite (Forall2_length _ _ _ Hs) in Hi. specialize (Hi Hlen Hw). cbn [app] in Hi.
  unfold arrays_json in Hi. cbn [a_vin a_vout a_ins a_outs] in Hi. rewrite Hi.
  repeat server_step. reflexivity.
Qed.

(** The wallet then signs accordingly. *)
Lemma mock_signs {S} signedPsbt psbt a env (st : S) tr :
  let env' := with_xayaRpcServer (signed_server signedPsbt psbt a (xayaRpcServer env)) env in
  GMockLaws ->
  exists tr', SignPsbt psbt (mkWorld st env' tr) =
    (Ret (signedPsbt, forallb mark (a_ins a)), mkWorld st env' tr').
Proof.
  cbv zeta. intros HG. set (env' := with_xayaRpcServer _ _).
  assert (Hr : xaya_rpc (walletprocesspsbt psbt) env' =
    (inr (sign_result signedPsbt (forallb mark (a_ins a))), env')).
  { apply (env_reads (walletprocesspsbt _)). cbn [dispatch]. eapply wp_call_mock; [|done].
    apply expected_newest, String.eqb_refl. }
  apply wp_ex. unfold SignPsbt. wp_call Hr. unfold sign_result.
  do 4 known. apply wp_bind, wp_checked; [apply is_bool_jbool|]. cbn [then_post].
  rewrite as_bool_jbool. apply wp_bind, wp_ret. cbn [then_post]. known. wp_step. by eexists.
Qed.

(** What a signature adds: the marks of the inputs of the given transactions. *)
Lemma signed_at_arrays T txids a i :
  length txids = length (a_ins a) -> Forall (fun inp => is_object inp = true) (a_ins a) ->
  (signed_at i (signed_arrays T txids a) <->
   signed_at i a \/ (i < length (a_ins a))%nat /\ exists t, txids !! i = Some t /\ t ∈ T).
Proof.
  intros Hl Ho. unfold signed_at, signed_arrays, sign_all. cbn [a_ins]. rewrite lookup_zip_with.
  destruct (txids !! i) as [t|] eqn:Ht; cbn.
  - destruct (lookup_lt_is_Some_2 (a_ins a) i) as [inp Hi]; [apply lookup_lt_Some in Ht; lia|].
    rewrite Hi. cbn. pose proof (lookup_lt_Some _ _ _ Hi).
    pose proof (mark_sign T t inp (Forall_lookup_1 _ _ _ _ Ho Hi)) as Hm.
    case_bool_decide as Hb; cbn in Hm.
    + split; [|by eexists]. intros _. right. split; [done|]. by exists t.
    + split; [intros (x & [= <-] & Hx); left; exists inp; by rewrite <-Hm|].
      intros [(x & [= <-] & Hx)|(_ & t' & [= <-] & ?)]; [|done]. eexists. by rewrite Hm.
  - apply lookup_ge_None_1 in Ht. rewrite (lookup_ge_None_2 (a_ins a)) by lia.
    split; [by intros (? & ? & ?)|]. intros [(? & ? & ?)|(? & ? & ? & ?)]; done.
Qed.

End signatures.

(* ------------------------------------------------------------------ *)
(** ** Locked outputs *)

Section locks.
Context `{JsonLib} `{!JsonLaws} `{!JsonDecimals} `{!Uint256Lib} `{!HashLib} `{!AmountLib}
  `{!GMock}.
Implicit Types (s : MockXayaRpcServer) (env : TestEnvironment) (L : gset (string * Z)).

(** [lockunspent] as an operation on the set: whether it succeeds, and the
    set afterwards.  It stops at the first output that is in the wrong state
    already; the ones before stay changed. *)
Fixpoint relock (unlock : bool) (l : list (string * Z)) L : bool * gset (string * Z) :=
  match l with
  | [] => (true, L)
  | e :: l' =>
      if bool_decide (e ∈ L) then
        if unlock then relock unlock l' (L ∖ {[ e ]}) else (false, L)
      else
        if unlock then (false, L) else relock unlock l' ({[ e ]} ∪ L)
  end.

Definition small_entry (e : string * Z) : Prop := 0 <= e.2 < two31.

(** The error reply. *)
Definition lock_error (unlock : bool) : string := if unlock then "not locked" else "already locked".

Lemma lock_outputs_ok {Node} unlock l (w : World Node MockXayaRpcServer) :
  Forall small_entry l ->
  lock_outputs unlock (entry_json <$> l) w =
  (let r := relock unlock l (locked (wst w)) in
   (if r.1 then Ret true else Throw (JsonRpcException (lock_error unlock)),
    mkWorld (with_locked r.2 (wst w)) (wnode w) (wtrace w))).
Proof.
  cbv zeta. intros Hl. revert w. induction Hl as [|[txid n] l Hs Hl IH]; intros w.
  { cbn. by destruct w as [[] ? ?]. }
  apply wp_eq. cbn [fmap list_fmap lock_outputs]. unfold entry_json at 1 2 3. cbn [fst snd].
  unfold small_entry in Hs. cbn [snd] in Hs. rewrite s32_small by done.
  do 4 known. rewrite as_uint_jint by width. apply wp_bind, wp_ret. cbn [then_post].
  wp_step. wp_step. apply wp_bind. cbn [relock].
  destruct unlock, (decide ((txid, n) ∈ locked (wst w))) as [Hin|Hin].
  all: try rewrite (bool_decide_true ((txid, n) ∈ locked (wst w))) by done.
  all: try rewrite (bool_decide_false ((txid, n) ∈ locked (wst w))) by done.
  all: try rewrite (bool_decide_true ((txid, n) ∉ locked (wst w))) by done.
  all: try rewrite (bool_decide_false ((txid, n) ∉ locked (wst w))) by tauto.
  all: wp_step.
  all: try (by destruct w as [[] ? ?]).
  all: unfold wp; rewrite IH; reflexivity.
Qed.

Lemma relock_all l L :
  NoDup l -> (forall e, e ∈ l -> e ∉ L) -> relock false l L = (true, list_to_set l ∪ L).
Proof.
  intros Hl. revert L. induction Hl as [|e l He Hl IH]; intros L Hd; cbn [relock].
  - f_equal. set_solver.
  - rewrite bool_decide_false by (apply Hd; left). rewrite IH.
    + f_equal. set_solver.
    + intros e' He'. specialize (Hd e' (list_elem_of_further _ _ _ He')). set_solver.
Qed.

Lemma unlock_all l L :
  NoDup l -> (forall e, e ∈ l -> e ∉ L) -> relock true l (list_to_set l ∪ L) = (true, L).
Proof.
  intros Hl. revert L. induction Hl as [|e l He Hl IH]; intros L Hd; cbn [relock].
  - f_equal. set_solver.
  - rewrite bool_decide_true by set_solver.
    replace ((list_to_set (e :: l) ∪ L) ∖ {[ e ]}) with (list_to_set l ∪ L).
    { apply IH. intros e' He'. apply Hd. by right. }
    apply leibniz_equiv. intros x. rewrite elem_of_difference, elem_of_singleton, !elem_of_union.
    rewrite list_to_set_cons, elem_of_union, elem_of_singleton, elem_of_list_to_set.
    split; [|naive_solver]. intros [Hx|Hx].
    + split; [tauto|]. by intros ->.
    + split; [tauto|]. intros ->. apply (Hd e); [left|done].
Qed.

Lemma lock_reply unlock l env r :
  Forall small_entry l -> relock unlock l (locked (xayaRpcServer env)) = (true, r) ->
  xaya_rpc (lockunspent unlock (jarr (entry_json <$> l))) env =
  (inr true, with_xayaRpcServer (with_locked r (xayaRpcServer env)) env).
Proof.
  intros Hl Hr. apply (env_reply (lockunspent _ _) _ _ _ []). cbn [dispatch]. unfold do_lockunspent.
  apply wp_eq. apply wp_bind, wp_checked; [apply is_array_jarr|]. cbn [then_post].
  rewrite jelems_jarr. unfold wp. rewrite lock_outputs_ok by done. cbn [wst wnode wtrace].
  by rewrite Hr.
Qed.

(** Locking outputs and unlocking them again restores the wallet: for
    distinct outputs that are not locked, [lockunspent] locks exactly these,
    and the call that unlocks them leads back to the same environment. *)
Theorem lock_unlock_roundtrip l env :
  NoDup l -> Forall small_entry l -> (forall e, e ∈ l -> e ∉ locked (xayaRpcServer env)) ->
  exists env', xaya_rpc (lockunspent false (jarr (entry_json <$> l))) env = (inr true, env') /\
    (forall e, e ∈ locked (xayaRpcServer env') <-> e ∈ l \/ e ∈ locked (xayaRpcServer env)) /\
    xaya_rpc (lockunspent true (jarr (entry_json <$> l))) env' = (inr true, env).
Proof.
  intros Hn Hs Hd. eexists. split; [apply lock_reply; [done|by apply relock_all]|].
  split; [intros e; cbn; set_solver|].
  erewrite lock_reply; [|done|apply unlock_all; done]. by destruct env as [? ? ? [] ?].
Qed.

#[export] Instance entry_le_total : Total entry_le.
Proof.
  intros [a i] [b j]. unfold entry_le. cbn.
  destruct (str_ltb_total a b) as [->|[?|?]]; [|auto|auto].
  destruct (Z.le_ge_cases i j); [left|right]; right; split; (done || lia).
Qed.

#[export] Instance entry_le_trans : Transitive entry_le.
Proof.
  intros [a i] [b j] [c k]. unfold entry_le. cbn. intros [?|[-> ?]] [?|[-> ?]]; auto.
  - left. by eapply str_ltb_trans.
  - right. split; [done|lia].
Qed.

(** [listlockunspent] lists every locked output once, in order. *)
Lemma listlockunspent_ok {Node} (w : World Node MockXayaRpcServer) :
  exists l, do_listlockunspent w = (Ret (jarr (entry_json <$> l)), w) /\
    l ≡ₚ elements (locked (wst w)) /\ Sorted.StronglySorted entry_le l.
Proof.
  exists (merge_sort entry_le (elements (locked (wst w)))). split.
  - apply wp_eq. unfold do_listlockunspent. wp_step. wp_step. wp_step. f_equal. f_equal.
    unfold jarr. generalize (merge_sort entry_le (elements (locked (wst w)))), jarray.
    intros l. induction l as [|e l IH]; intros v; [done|]. apply IH.
  - split; [apply merge_sort_Permutation|]. apply StronglySorted_merge_sort; apply _.
Qed.

End locks.

(* ------------------------------------------------------------------ *)
(** ** Ports *)

(** The port of the [k]-th of consecutive calls, from the counter [c]. *)
Definition nth_port (c : Z) (k : nat) : Z :=
  (GetPortForMockServer (Nat.iter k (fun c => (GetPortForMockServer c).2) c)).1.

Lemma counter_after c k :
  0 <= c -> c + Z.of_nat k < two32 ->
  Nat.iter k (fun c => (GetPortForMockServer c).2) c = c + Z.of_nat k.
Proof.
  intros Hc. induction k as [|k IH]; intros Hk; [cbn; lia|].
  rewrite Nat.iter_succ, IH by lia. cbn [GetPortForMockServer fst snd]. unfold u32. rewrite Z.mod_small; lia.
Qed.

(** The ports are in the range, and a thousand consecutive calls give
    different ports as long as the counter does not overflow. *)
Lemma ports_distinct c i j :
  0 <= c -> c + Z.of_nat j + 1 < two32 -> (i < j)%nat -> (j < i + 1000)%nat ->
  2000 <= nth_port c i < 3000 /\ nth_port c i <> nth_port c j.
Proof.
  intros Hc Hj Hij Hlt. unfold nth_port. rewrite !counter_after by lia.
  unfold GetPortForMockServer, u32. cbn [fst]. rewrite !(Z.mod_small _ two32) by lia.
  Z.div_mod_to_equations. lia.
Qed.

(* ------------------------------------------------------------------ *)
(** ** The theorems at concrete inputs *)

Module MockWitness.
#[local] Existing Instance JsonModel.lib.
#[local] Existing Instance JsonModel.laws.
#[local] Existing Instance Mock.uint256.
#[local] Existing Instance Mock.uint256_laws.
#[local] Existing Instance Mock.amount.

#[local] Instance decimals : JsonDecimals := fun m e => JsonModel.VReal (m * 10 ^ (8 - e)).

(** Block hashes are the hashed texts, as they are their own hex form. *)
#[local] Instance hashes : HashLib := {| SHA256_Hash x := x; u256_null := "" |}.

(** Expectations as a list, the newest first. *)
#[local] Instance gmock : GMock := {
  Mocked A R := list (A * R);
  times_zero _ _ := [];
  will_return _ _ a r m := (a, r) :: m;
  expected _ _ eqb m a := snd <$> List.find (fun x => eqb a x.1) m
}.

#[local] Instance gmock_laws : GMockLaws.
Proof. split; [done|]. intros A R eqb a a' r m. cbn. by destruct (eqb a a'). Qed.

#[local] Instance json_laws : TestJsonLaws.
Proof.
  split.
  - apply JsonModel.veqb_refl.
  - done.
  - intros [] k x y Hv; try done. cbn. by rewrite JsonModel.assoc_set_twice.
  - intros [] k k' x y Hv Hne; try done. cbn. by rewrite JsonModel.assoc_set_comm.
  - intros [] k x Hv Hm Hx; try done. cbn in *. f_equal. apply JsonModel.assoc_set_same.
    destruct (JsonModel.assoc k l); [|done]. by injection Hx as ->.
  - done.
  - intros [] k x Hv Hm; try done. cbn in *. rewrite !length_map. unfold JsonModel.assoc_set.
    destruct (JsonModel.assoc k l); [done|]. apply JsonModel.assoc_insert_length.
  - done.
  - by eexists.
Qed.

Lemma hashes_distinct : distinct_hashes.
Proof. intros h h' _ _. unfold GetBlockHash. cbn. intros [= He]. exact (base.inj pretty _ _ He). Qed.

Definition env0 : TestEnvironment := (new_TestEnvironment default_flags "" 0).1.

Definition sale : TradeState :=
  mkTradeState (Some (mkOrder (Some "seller") (Some 7) (Some "gold") None (Some 5) (Some ASK) (Some 10) None))
    (Some 3) (Some "seller") None None
    (Some (mkSellerData (Some "addr 1") (Some "addr 2") None)) None None None.

Definition move : string :=
  match GetNameUpdateValue (Node := TestEnvironment) (BuildTradeChecker "buyer" sale) with
  | Ret v => v
  | _ => ""
  end.

Lemma mock_constructs_trade_witness :
  exists s' tr', ConstructTransaction (H2 := flags s') "buyer" sale (BuildTradeChecker "buyer" sale)
    (mkOutPoint (Some "seller txid") (Some 12)) (mkWorld tt (with_xayaRpcServer s' env0) []) =
    (Ret "unsigned", mkWorld tt (with_xayaRpcServer s' env0) tr').
Proof.
  destruct (mock_constructs_trade (S := unit) "unsigned" 12 "buyer" sale
    (mkOutPoint (Some "seller txid") (Some 12)) move env0 tt [])
    as (s' & _ & _ & (tr' & Htr) & _).
  1-3, 9-10: reflexivity.
  1-2: vm_compute; congruence.
  1: split; vm_compute; congruence.
  1: reflexivity.
  1: vm_compute; reflexivity.
  exists s', tr'. exact Htr.
Defined.

(** The wallet is at block 5, the game at block 7; the seller has 3 gold. *)
Definition env1 : TestEnvironment :=
  mkTestEnvironment
    (TestAssets.SetBlock (GetBlockHash 7)
      (TestAssets.SetBalance "seller" "gold" 3
        (TestAssets.InitialiseAccount "buyer" (assets env0))))
    2001 2002
    (with_bestBlock (GetBlockHash 5) (with_utxos {[ ("seller txid", 12) ]} (xayaRpcServer env0)))
    MockDemGsp.new_MockDemGsp.

Lemma mock_buyer_verdict_witness :
  exists tr, CheckForBuyerTrade (BuildTradeChecker "buyer" sale) (mkWorld tt env1 []) =
    (Ret (Some (mkOutPoint (Some "seller txid") (Some 12))), mkWorld tt env1 tr).
Proof.
  destruct (mock_buyer_verdict (S := unit) (BuildTradeChecker "buyer" sale) (mkWorld tt env1 []) 5 7
    hashes_distinct) as [tr Htr]; [lia|lia|reflexivity|reflexivity|discriminate|].
  exists tr. rewrite Htr.
  replace (delivers _ _ _ _) with true by (vm_compute; reflexivity). reflexivity.
Defined.

(** Two PSBTs of one transaction with two inputs, each signed at one. *)
Definition arrays (b s : bool) : Arrays :=
  mkArrays [jobject; jobject] [] [jset jobject "signed" (jbool b); jset jobject "signed" (jbool s)] [].

Definition env2 : TestEnvironment :=
  with_xayaRpcServer
    (with_psbts (<["buyer" := arrays_json (arrays true false)]>
                  (<["seller" := arrays_json (arrays false true)]> ∅)) (xayaRpcServer env0)) env0.

Lemma arrays_marked b s : Forall wf_mark (a_ins (arrays b s)).
Proof. constructor; [by exists b|]. constructor; [by exists s|constructor]. Qed.

Lemma combine_then_finalize_witness :
  exists name env' r, xaya_rpc (finalizepsbt name) env' = (inr r, env') /\
    jget r "complete" = Some (jbool true).
Proof.
  destruct (combine_then_finalize "buyer" ["seller"] (arrays true false) [arrays false true] env2)
    as (name & env' & r & complete & _ & Hf & Hc & _ & Hall).
  - apply lookup_insert_eq.
  - apply arrays_marked.
  - constructor; [|constructor]. split; [reflexivity|]. split; [done|apply arrays_marked].
  - exists name, env', r. split; [exact Hf|]. rewrite Hc. do 2 f_equal. apply Hall.
    intros [|[|i]] Hi; [left; by eexists|right; left; by eexists|cbn in Hi; lia].
Defined.

Lemma lock_unlock_roundtrip_witness :
  exists env', xaya_rpc (lockunspent true (jarr (entry_json <$> [("tx", 1); ("tx", 2)]))) env' =
    (inr true, env0).
Proof.
  destruct (lock_unlock_roundtrip [("tx", 1); ("tx", 2)] env0) as (env' & _ & _ & Hu).
  - by apply (bool_decide_unpack _).
  - repeat constructor; cbn; unfold two31; lia.
  - intros e _. apply not_elem_of_empty.
  - exists env'. exact Hu.
Defined.

#[local] Existing Instance GspWitness.game_lib.
#[local] Existing Instance GspWitness.game_laws.

Lemma mock_gsp_like_gsp_witness :
  exists seen wt', check_trade "btx"
    (mkWorld empty_trade (mkTestEnvironment (assets env0) 2001 2002 (xayaRpcServer env0)
       (fold_left set_up [Height 1; Confirmed "btx" 1] MockDemGsp.new_MockDemGsp)) []) =
    (Ret seen, wt').
Proof.
  destruct (mock_gsp_like_gsp (DNode := TestEnvironment) GspWitness.attach "btx" GspWitness.w0
    GspWitness.w1 [] [GspWitness.s0] [Height 1; Confirmed "btx" 1] eq_refl GspWitness.history0
    GspWitness.history1 ltac:(unfold two31; cbn; lia) eq_refl eq_refl) as (r & seen & _ & _ & Hm).
  destruct (Hm (mkWorld empty_trade (mkTestEnvironment (assets env0) 2001 2002 (xayaRpcServer env0)
    (fold_left set_up [Height 1; Confirmed "btx" 1] MockDemGsp.new_MockDemGsp)) []) eq_refl) as [wt' Hw].
  exists seen, wt'. exact Hw.
Defined.

End MockWitness.
